(** * Naev economy: a shallow embedding of [src/economy.c]

    The development follows the layout of the C file: the commodity
    catalogue, the price evaluator and the observation tracker, the
    nodal-analysis network model with its admittance matrix and solver
    driver, the four-pass price initialiser, and the persistence hooks.

    Numeric conventions used throughout.
    - A C [double] is idealised as a real number ([R]); rounding error of
      the binary64 format is outside the model, and so are the IEEE
      values produced by a division by zero.
    - [credits_t] and [ntime_t] are 64-bit integers, [int] is a 32-bit
      integer; they are carried by [Z].  Where the source increments,
      multiplies or prints them the wrap-around is written out.
    - A C string is a [string]; [strcmp(a,b)==0] is [String.eqb a b].
    - A pointer into one of the global stacks is the offset of the
      pointed-to element ([nat]); dereferencing reads the stack with the
      total lookup [!!!], array writes are list inserts [<[i:=x]>]. *)

From Stdlib Require Import Reals Lra Lia ZArith List String Bool Psatz.
From Stdlib Require DecimalString DecimalZ.
From stdpp Require Import base list.
Import ListNotations.

Open Scope R_scope.

(** ** Machine integers and conversions *)

Definition credits_t := Z.
Definition ntime_t := Z.
Bind Scope Z_scope with credits_t ntime_t.

(** Signed wrap-around of a [w]-bit two's complement integer. *)
Definition wrap_signed (w : Z) (x : Z) : Z :=
  ((x + 2 ^ (w - 1)) mod 2 ^ w - 2 ^ (w - 1))%Z.

Definition wrap_int (x : Z) : Z := wrap_signed 32 x.
Definition wrap_int64 (x : Z) : Z := wrap_signed 64 x.
Definition wrap_size_t (x : Z) : Z := (x mod 2 ^ 64)%Z.

(** [(credits_t) x] for a double [x]: C converts by discarding the
    fractional part (truncation toward zero). *)
Definition credits_of_double (x : R) : credits_t :=
  if Rle_dec 0 x then Int_part x else (- Int_part (- x))%Z.

#[global] Instance R_inhabited : Inhabited R := populate 0.

(** The loop [for (i=0; i<n; i++) if (test(a[i])) break;]: the value of
    [i] on exit, which is [n] when no element passes the test. *)
Fixpoint scan {A : Type} (test : A -> bool) (a : list A) : nat :=
  match a with
  | [] => O
  | x :: rest => if test x then O else S (scan test rest)
  end.

(** Warnings raised through the [WARN] macro are collected in a log. *)
Definition Log := list string.

(** ** Data model (the structures of economy.h and space.h that
       economy.c reads and writes) *)

(** [CommodityModifier] is a singly linked list of (name, value) cells. *)
Definition CommodityModifier := list (string * R).

(** Modelled from the spec: the commodity record is declared in
    economy.h; the fields are the ones that economy.c reads and writes,
    with the types it uses them at. *)
Module Commodity.
Record t := mk {
  name : string;
  description : string;
  price : R;
  planet_modifier : CommodityModifier;
  period : R;
  population_modifier : R;
  faction_modifier : CommodityModifier;
  lastPurchasePrice : credits_t
}.
Definition null : t := mk "" "" 0 [] 0 0 [] 0%Z.
Definition set_lastPurchasePrice (c : t) (v : credits_t) : t :=
  mk (name c) (description c) (price c) (planet_modifier c) (period c)
     (population_modifier c) (faction_modifier c) v.
Definition clear_modifiers (c : t) : t :=
  mk (name c) (description c) (price c) [] (period c)
     (population_modifier c) [] (lastPurchasePrice c).
End Commodity.

#[global] Instance Commodity_inhabited : Inhabited Commodity.t :=
  populate Commodity.null.

(** A [Commodity*] is the offset of the commodity in [commodity_stack]. *)
Abbreviation Commodity_ptr := nat (only parsing).

(** Modelled from the spec: the price field of economy.h, the five
    parameters of the price model followed by the observation
    accumulators. *)
Module CommodityPrice.
Record t := mk {
  price : R;
  planetPeriod : R;
  sysPeriod : R;
  planetVariation : R;
  sysVariation : R;
  updateTime : Z;
  name : string;
  sum : R;
  sum2 : R;
  cnt : Z
}.
Definition null : t := mk 0 0 0 0 0 0%Z "" 0 0 0%Z.
End CommodityPrice.

#[global] Instance CommodityPrice_inhabited : Inhabited CommodityPrice.t :=
  populate CommodityPrice.null.

(** Modelled from the spec: the planet record of space.h, restricted to
    the fields that economy.c uses. *)
Module Planet.
(** [ncommodities] is the common length of the two parallel arrays
    [commodities] and [commodityPrice]. *)
Record t := mk {
  name : string;
  class : string;
  gfx_spaceName : string;
  gfx_exterior : string;
  population : Z;
  faction : Z;
  presenceRange : Z;
  commodities : list Commodity_ptr;
  commodityPrice : list CommodityPrice.t
}.
Definition ncommodities (p : t) : nat := length (commodities p).
Definition null : t := mk "" "" "" "" 0%Z (-1)%Z 0%Z [] [].
Definition set_commodityPrice (p : t) (cps : list CommodityPrice.t) : t :=
  mk (name p) (class p) (gfx_spaceName p) (gfx_exterior p) (population p)
     (faction p) (presenceRange p) (commodities p) cps.
End Planet.

#[global] Instance Planet_inhabited : Inhabited Planet.t :=
  populate Planet.null.

(** So are a [Planet*] in [planet_stack] and a [StarSystem*] in
    [systems_stack]. *)
Abbreviation Planet_ptr := nat (only parsing).
Abbreviation StarSystem_ptr := nat (only parsing).

(** Modelled from the spec: the jump point of space.h, of which
    economy.c reads the target. *)
Module JumpPoint.
Record t := mk { target : StarSystem_ptr }.
End JumpPoint.

#[global] Instance JumpPoint_inhabited : Inhabited JumpPoint.t :=
  populate (JumpPoint.mk O).

(** Modelled from the spec: the star system record of space.h,
    restricted to the fields that economy.c uses. *)
Module StarSystem.
(** [njumps], [nplanets] and [ncommodities] are the lengths of [jumps],
    [planets] and [averagePrice]. *)
Record t := mk {
  id : Z;
  name : string;
  nebu_density : R;
  nebu_volatility : R;
  interference : R;
  radius : R;
  faction : Z;
  jumps : list JumpPoint.t;
  planets : list Planet_ptr;
  prices : list R;
  averagePrice : list CommodityPrice.t
}.
Definition njumps (s : t) : nat := length (jumps s).
Definition nplanets (s : t) : nat := length (planets s).
Definition ncommodities (s : t) : nat := length (averagePrice s).
Definition null : t := mk 0%Z "" 0 0 0 0 (-1)%Z [] [] [] [].
Definition set_prices (s : t) (ps : list R) : t :=
  mk (id s) (name s) (nebu_density s) (nebu_volatility s) (interference s)
     (radius s) (faction s) (jumps s) (planets s) ps (averagePrice s).
Definition set_averagePrice (s : t) (av : list CommodityPrice.t) : t :=
  mk (id s) (name s) (nebu_density s) (nebu_volatility s) (interference s)
     (radius s) (faction s) (jumps s) (planets s) (prices s) av.
End StarSystem.

#[global] Instance StarSystem_inhabited : Inhabited StarSystem.t :=
  populate StarSystem.null.

(** ** Sparse matrices (CSparse [cs] in triplet form)

    A triplet matrix is its dimensions and the list of entries in the
    order they were entered.  Where a position was entered more than
    once, the matrix holds the value entered last. *)
(** Modelled from the spec: the triplet matrix of the CSparse library,
    with [cs_spalloc], [cs_entry] and [cs_compress] as economy.c calls
    them. *)
Module cs.
Record t := mk {
  m : Z;
  n : Z;
  entries : list (Z * Z * R)
}.
End cs.

Definition cs_spalloc (m n : Z) : cs.t := cs.mk m n [].

(** [cs_entry T i j x]: refuses negative indices, otherwise appends the
    entry and widens the dimensions; returns 1 on success. *)
Definition cs_entry (T : cs.t) (i j : Z) (x : R) : Z * cs.t :=
  if ((i <? 0) || (j <? 0))%Z then (0%Z, T)
  else (1%Z, cs.mk (Z.max (cs.m T) (i + 1)) (Z.max (cs.n T) (j + 1))
                   (cs.entries T ++ [(i, j, x)])).

(** [cs_compress] changes the storage format, not the matrix. *)
Definition cs_compress (T : cs.t) : cs.t := T.

(** The value of the matrix at row [i], column [j], one value for each
    cell: the solver reads a column by assigning its entries in turn,
    so that of the entries entered at one position the last one counts;
    a position without entry holds 0. *)
Definition entries_get (es : list (Z * Z * R)) (i j : Z) : R :=
  fold_left
    (fun acc e =>
       let '(r, c, v) := e in
       if ((r =? i) && (c =? j))%Z then v else acc)
    es 0.

Definition cs_get (M : cs.t) (i j : Z) : R := entries_get (cs.entries M) i j.

(** Sum of the absolute values of the off-diagonal entries of row [i]. *)
Definition cs_offdiag_abs (M : cs.t) (i : Z) : R :=
  fold_right Rplus 0
    (map (fun j : Z => if (j =? i)%Z then 0 else Rabs (cs_get M i j))
         (seqZ 0 (cs.n M))).

(** Row [i] of the product of the matrix with a column vector. *)
Definition cs_row_mult (M : cs.t) (x : list R) (i : Z) : R :=
  fold_right Rplus 0
    (map (fun j : Z => cs_get M i j * (x !!! Z.to_nat j))
         (seqZ 0 (cs.n M))).

(** ** External collaborators

    Functions and constants of other translation units that economy.c
    calls: faction standings (faction.c), time conversion (ntime.c), the
    graphics path macro (space.h) and the CSparse QR solver.  [cs_qrsol]
    returns its status and the contents of the right-hand side vector on
    return. *)
Class Externals := {
  areEnemies : Z -> Z -> bool;
  areAllies : Z -> Z -> bool;
  faction_name : Z -> string;
  ntime_convertSTU : ntime_t -> R;
  NT_STP_STU : R;
  PLANET_GFX_EXTERIOR_PATH : string;
  cs_qrsol : Z -> cs.t -> list R -> Z * list R
}.

(** ** Global state of the translation unit *)
Module World.
(** [econ_nprices] is the length of [econ_comm]; [commodity_nstack] and
    [systems_nstack] are the lengths of the two stacks. *)
Record t := mk {
  commodity_stack : list Commodity.t;
  econ_comm : list Z;
  systems_stack : list StarSystem.t;
  planet_stack : list Planet.t;
  econ_initialized : bool;
  econ_queued : Z;
  econ_G : option cs.t
}.
Definition econ_nprices (w : t) : nat := length (econ_comm w).
Definition set_planet_stack (w : t) (ps : list Planet.t) : t :=
  mk (commodity_stack w) (econ_comm w) (systems_stack w) ps
     (econ_initialized w) (econ_queued w) (econ_G w).
Definition set_systems_stack (w : t) (ss : list StarSystem.t) : t :=
  mk (commodity_stack w) (econ_comm w) ss (planet_stack w)
     (econ_initialized w) (econ_queued w) (econ_G w).
Definition set_commodity_stack (w : t) (cs : list Commodity.t) : t :=
  mk cs (econ_comm w) (systems_stack w) (planet_stack w)
     (econ_initialized w) (econ_queued w) (econ_G w).
End World.

(** ** Commodity catalogue *)

(** [commodity_get]: the matching commodity, or [NULL] and a warning. *)
Definition commodity_get (w : World.t) (nm : string)
  : option Commodity_ptr * Log :=
  let i := scan (fun c => String.eqb (Commodity.name c) nm)
                (World.commodity_stack w) in
  if (i <? length (World.commodity_stack w))%nat then (Some i, [])
  else (None, ["Commodity '" ++ nm ++ "' not found in stack"]%string).

(** [commodity_getW]: the same search without the warning. *)
Definition commodity_getW (w : World.t) (nm : string)
  : option Commodity_ptr :=
  let i := scan (fun c => String.eqb (Commodity.name c) nm)
                (World.commodity_stack w) in
  if (i <? length (World.commodity_stack w))%nat then Some i
  else None.

(** ** Price evaluator *)

(** The commodity is one of the priced goods listed in [econ_comm]. *)
Definition priced (w : World.t) (com : Commodity_ptr) : Prop :=
  (scan (fun e => (e =? Z.of_nat com)%Z) (World.econ_comm w)
   < length (World.econ_comm w))%nat.

(** Index of the first commodity sold on the planet that carries the
    name of [com]; [ncommodities] when there is none. *)
Definition planet_index (w : World.t) (com : Commodity_ptr) (p : Planet.t)
  : nat :=
  scan (fun c : Commodity_ptr =>
          String.eqb (Commodity.name (World.commodity_stack w !!! c))
                     (Commodity.name (World.commodity_stack w !!! com)))
       (Planet.commodities p).

(** The pair (planet, commodity) carries the price field [cp]. *)
Definition price_field (w : World.t) (com : Commodity_ptr) (p : Planet.t)
  (cp : CommodityPrice.t) : Prop :=
  priced w com /\
  (planet_index w com p < Planet.ncommodities p)%nat /\
  Planet.commodityPrice p !! planet_index w com p = Some cp.

Section Evaluator.
Context `{Externals}.

(** The value of the sinusoidal price model before conversion to credits. *)
Definition price_model (cp : CommodityPrice.t) (t : R) : R :=
  CommodityPrice.price cp
  + CommodityPrice.sysVariation cp
    * sin (2 * PI * t / CommodityPrice.sysPeriod cp)
  + CommodityPrice.planetVariation cp
    * sin (2 * PI * t / CommodityPrice.planetPeriod cp).

(** [economy_getPriceAtTime com sys p tme].  The [sys] argument is not
    read by the C function and is left out; the two warnings of the
    lookup-miss paths are logging only. *)
Definition economy_getPriceAtTime (w : World.t) (com : Commodity_ptr)
  (p : Planet.t) (tme : ntime_t) : credits_t :=
  let t := ntime_convertSTU tme / NT_STP_STU in
  let k := Z.of_nat com in
  let i := scan (fun e => (e =? k)%Z) (World.econ_comm w) in
  if (length (World.econ_comm w) <=? i)%nat then 0%Z
  else
    let nm := Commodity.name (World.commodity_stack w !!! com) in
    let i := scan (fun c : Commodity_ptr =>
                     String.eqb
                       (Commodity.name (World.commodity_stack w !!! c)) nm)
                  (Planet.commodities p) in
    if (Planet.ncommodities p <=? i)%nat then 0%Z
    else
      let commPrice := Planet.commodityPrice p !!! i in
      credits_of_double (price_model commPrice t + 0.5).

(** [economy_getPrice]: the price at the current time [ntime_get()]. *)
Definition economy_getPrice (w : World.t) (now : ntime_t)
  (com : Commodity_ptr) (p : Planet.t) : credits_t :=
  economy_getPriceAtTime w com p now.

End Evaluator.

(** ** Observation tracker: averages *)

(** [economy_getAveragePlanetPrice com p &mean &std]: the return value
    and the two output parameters. *)
Definition economy_getAveragePlanetPrice (w : World.t) (com : Commodity_ptr)
  (p : Planet.t) : Z * credits_t * R :=
  let k := Z.of_nat com in
  let i := scan (fun e => (e =? k)%Z) (World.econ_comm w) in
  if (length (World.econ_comm w) <=? i)%nat then ((-1)%Z, 0%Z, 0)
  else
    let nm := Commodity.name (World.commodity_stack w !!! com) in
    let i := scan (fun c : Commodity_ptr =>
                     String.eqb
                       (Commodity.name (World.commodity_stack w !!! c)) nm)
                  (Planet.commodities p) in
    if (Planet.ncommodities p <=? i)%nat then ((-1)%Z, 0%Z, 0)
    else
      let commPrice := Planet.commodityPrice p !!! i in
      let sum := CommodityPrice.sum commPrice in
      let sum2 := CommodityPrice.sum2 commPrice in
      let cnt := CommodityPrice.cnt commPrice in
      if (0 <? cnt)%Z then
        (0%Z,
         credits_of_double (sum / IZR cnt + 0.5),
         sqrt (sum2 / IZR cnt - (sum * sum) / IZR (wrap_int (cnt * cnt))))
      else (0%Z, 0%Z, 0).

(** ** Loops

    [for_loop n i body s] runs [body i], [body (i+1)], ... for [n]
    iterations on the state [s]: the C loop
    [for (; i < i + n; i++) body]. *)
Fixpoint for_loop {S : Type} (n : nat) (i : nat) (body : nat -> S -> S)
  (s : S) : S :=
  match n with
  | O => s
  | Datatypes.S n' => for_loop n' (Datatypes.S i) body (body i s)
  end.

(** ** Network model *)

Definition ECON_BASE_RES : R := 30.
Definition ECON_SELF_RES : R := 3.
Definition ECON_FACTION_MOD : R := 0.1.

Section Network.
Context `{Externals}.

(** [econ_calcJumpR A B]: resistance of the jump between two systems. *)
Definition econ_calcJumpR (A B : StarSystem.t) : R :=
  let R0 := ECON_BASE_RES in
  let R1 := R0 + (StarSystem.nebu_density A + StarSystem.nebu_density B)
                 / 1000 in
  let R2 := R1 + (StarSystem.nebu_volatility A + StarSystem.nebu_volatility B)
                 / 100 in
  if (negb (StarSystem.faction A =? -1)%Z
      && negb (StarSystem.faction B =? -1)%Z) then
    if areEnemies (StarSystem.faction A) (StarSystem.faction B) then
      R2 + ECON_FACTION_MOD * ECON_BASE_RES
    else if areAllies (StarSystem.faction A) (StarSystem.faction B) then
      R2 - ECON_FACTION_MOD * ECON_BASE_RES
    else R2
  else R2.

(** The environmental part of a jump resistance. *)
Definition hazard (A B : StarSystem.t) : R :=
  (StarSystem.nebu_density A + StarSystem.nebu_density B) / 1000
  + (StarSystem.nebu_volatility A + StarSystem.nebu_volatility B) / 100.

(** [econ_calcSysI]: the production intensity, a placeholder. *)
Definition econ_calcSysI (dt : Z) (sys : StarSystem.t) (price : nat) : R := 0.

(** State of the fill loops of [econ_createGMatrix]: the running sum
    [Rsum], the matrix under construction and the warnings. *)
Definition fill_jump (systems : list StarSystem.t) (i : nat)
  (sys : StarSystem.t) (j : nat) (st : R * cs.t * Log) : R * cs.t * Log :=
  let '(Rsum, M, log) := st in
  let target := systems !!! JumpPoint.target (StarSystem.jumps sys !!! j) in
  let R := econ_calcJumpR sys target in
  let R := 1 / R in
  let Rsum := Rsum + R in
  let '(ret, M) := cs_entry M (Z.of_nat i) (StarSystem.id target) (- R) in
  let log := if (ret =? 1)%Z then log
             else log ++ ["Unable to enter CSparse Matrix Cell."%string] in
  let '(ret, M) := cs_entry M (StarSystem.id target) (Z.of_nat i) (- R) in
  let log := if (ret =? 1)%Z then log
             else log ++ ["Unable to enter CSparse Matrix Cell."%string] in
  (Rsum, M, log).

Definition fill_row (systems : list StarSystem.t) (i : nat)
  (st : cs.t * Log) : cs.t * Log :=
  let '(M, log) := st in
  let sys := systems !!! i in
  let '(Rsum, M, log) :=
    for_loop (StarSystem.njumps sys) 0 (fill_jump systems i sys)
             (0, M, log) in
  let Rsum := Rsum + 1 / ECON_SELF_RES in
  (snd (cs_entry M (Z.of_nat i) (Z.of_nat i) Rsum), log).

(** [econ_createGMatrix]: return value, warnings and the new state. *)
Definition econ_createGMatrix (w : World.t) : Z * Log * World.t :=
  let systems := World.systems_stack w in
  let nstack := Z.of_nat (length systems) in
  let M := cs_spalloc nstack nstack in
  let '(M, log) := for_loop (length systems) 0 (fill_row systems) (M, []) in
  (0%Z, log,
   World.mk (World.commodity_stack w) (World.econ_comm w)
            (World.systems_stack w) (World.planet_stack w)
            (World.econ_initialized w) (World.econ_queued w)
            (Some (cs_compress M))).

Definition solve_warning : string := "Failed to solve the Economy System.".

(** The admittance matrix [econ_G] that [econ_createGMatrix] leaves. *)
Definition admittance (w : World.t) : cs.t :=
  default (cs_spalloc 0 0) (World.econ_G (snd (econ_createGMatrix w))).

(** The intensity vector loaded before each solve. *)
Definition load_intensities (dt : Z) (systems : list StarSystem.t)
  (j : nat) : list R :=
  map (fun sys => econ_calcSysI dt sys j) systems.

(** [systems_stack[i].prices[j] = X[i] * scale + offset] for every [i]. *)
Definition store_prices (j : nat) (X : list R) (scale offset : R)
  (systems : list StarSystem.t) : list StarSystem.t :=
  imap (fun i sys =>
          StarSystem.set_prices sys
            (<[j := X !!! i * scale + offset]> (StarSystem.prices sys)))
       systems.

(** One iteration of the per-good loop of [economy_update]. *)
Definition update_good (dt : Z) (G : cs.t) (j : nat)
  (st : list StarSystem.t * Log) : list StarSystem.t * Log :=
  let '(systems, log) := st in
  let X := load_intensities dt systems j in
  let '(ret, X) := cs_qrsol 3 G X in
  let log := if (ret =? 1)%Z then log else log ++ [solve_warning] in
  let scale := 1 in
  let offset := 1 in
  (store_prices j X scale offset systems, log).

(** [economy_update dt]: return value, warnings and the new state.  The
    admittance matrix exists whenever the economy is initialised
    ([economy_refresh] builds it); a missing one is passed to the solver
    as the empty matrix. *)
Definition economy_update (w : World.t) (dt : Z) : Z * Log * World.t :=
  if negb (World.econ_initialized w) then (0%Z, [], w)
  else
    let G := match World.econ_G w with
             | Some G => G
             | None => cs_spalloc 0 0
             end in
    let '(systems, log) :=
      for_loop (World.econ_nprices w) 0 (update_good dt G)
               (World.systems_stack w, []) in
    (0%Z, log,
     World.mk (World.commodity_stack w) (World.econ_comm w) systems
              (World.planet_stack w) (World.econ_initialized w) 0%Z
              (World.econ_G w)).

End Network.

(** ** Observation tracker: recording *)

(** [z] is an integer nearest to [x]. *)
Definition is_rounding (z : Z) (x : R) : Prop := Rabs (IZR z - x) <= 1 / 2.

Module Observation.
(** The four fields of a price field written by the tracker. *)
Definition stamp (cp : CommodityPrice.t) (t : ntime_t) : CommodityPrice.t :=
  CommodityPrice.mk (CommodityPrice.price cp) (CommodityPrice.planetPeriod cp)
    (CommodityPrice.sysPeriod cp) (CommodityPrice.planetVariation cp)
    (CommodityPrice.sysVariation cp) t (CommodityPrice.name cp)
    (CommodityPrice.sum cp) (CommodityPrice.sum2 cp)
    (wrap_int (CommodityPrice.cnt cp + 1)).

Definition accumulate (cp : CommodityPrice.t) (price : credits_t)
  : CommodityPrice.t :=
  CommodityPrice.mk (CommodityPrice.price cp) (CommodityPrice.planetPeriod cp)
    (CommodityPrice.sysPeriod cp) (CommodityPrice.planetVariation cp)
    (CommodityPrice.sysVariation cp) (CommodityPrice.updateTime cp)
    (CommodityPrice.name cp)
    (CommodityPrice.sum cp + IZR price)
    (CommodityPrice.sum2 cp + IZR (wrap_int64 (price * price)))
    (CommodityPrice.cnt cp).

Definition clear (cp : CommodityPrice.t) : CommodityPrice.t :=
  CommodityPrice.mk (CommodityPrice.price cp) (CommodityPrice.planetPeriod cp)
    (CommodityPrice.sysPeriod cp) (CommodityPrice.planetVariation cp)
    (CommodityPrice.sysVariation cp) 0%Z (CommodityPrice.name cp) 0 0 0%Z.
End Observation.

Section Tracker.
Context `{Externals}.

(** Body of the loop shared by [economy_averageSeenPrices] and
    [economy_averageSeenPricesAtTime]: [t] is [ntime_get()], [tprice] the
    time at which the price is evaluated.  The writes to [updateTime] and
    [cnt] precede the price query, as in the source. *)
Definition seen_body (w : World.t) (t tprice : ntime_t) (i : nat)
  (p : Planet.t) : Planet.t :=
  let c := Planet.commodities p !!! i in
  let cp := Planet.commodityPrice p !!! i in
  if (CommodityPrice.updateTime cp <? t)%Z then
    let p := Planet.set_commodityPrice p
               (<[i := Observation.stamp cp t]> (Planet.commodityPrice p)) in
    let price := economy_getPriceAtTime w c p tprice in
    Planet.set_commodityPrice p
      (<[i := Observation.accumulate (Planet.commodityPrice p !!! i) price]>
         (Planet.commodityPrice p))
  else p.

(** [economy_averageSeenPrices p], run when [ntime_get()] is [now]. *)
Definition economy_averageSeenPrices (w : World.t) (now : ntime_t)
  (p : Planet.t) : Planet.t :=
  for_loop (Planet.ncommodities p) 0 (seen_body w now now) p.

(** [economy_averageSeenPricesAtTime p tupdate]. *)
Definition economy_averageSeenPricesAtTime (w : World.t) (now : ntime_t)
  (p : Planet.t) (tupdate : ntime_t) : Planet.t :=
  for_loop (Planet.ncommodities p) 0 (seen_body w now tupdate) p.

End Tracker.

(** [economy_clearKnown]: every planet reachable from a system has its
    accumulators zeroed, and so has every last purchase price. *)
Definition clear_planet (p : Planet.t) : Planet.t :=
  for_loop (Planet.ncommodities p) 0
    (fun k p => Planet.set_commodityPrice p
                  (alter Observation.clear k (Planet.commodityPrice p)))
    p.

Definition clear_system (sys : StarSystem.t) (planets : list Planet.t)
  : list Planet.t :=
  for_loop (StarSystem.nplanets sys) 0
    (fun j planets => alter clear_planet (StarSystem.planets sys !!! j) planets)
    planets.

Definition economy_clearKnown (w : World.t) : World.t :=
  let planets :=
    for_loop (length (World.systems_stack w)) 0
      (fun i planets => clear_system (World.systems_stack w !!! i) planets)
      (World.planet_stack w) in
  World.mk
    (map (fun c => Commodity.set_lastPurchasePrice c 0%Z)
         (World.commodity_stack w))
    (World.econ_comm w) (World.systems_stack w) planets
    (World.econ_initialized w) (World.econ_queued w) (World.econ_G w).

(** The entry that one pass of the tracker leaves in place of [cp], for
    the commodity [c] of the planet [p]. *)
Definition observe `{Externals} (w : World.t) (t tprice : ntime_t)
  (p : Planet.t) (c : Commodity_ptr) (cp : CommodityPrice.t)
  : CommodityPrice.t :=
  if (CommodityPrice.updateTime cp <? t)%Z then
    Observation.accumulate (Observation.stamp cp t)
      (economy_getPriceAtTime w c p tprice)
  else cp.

(** The parameters of the price model held by a price field. *)
Definition params (cp : CommodityPrice.t) : R * R * R * R * R :=
  (CommodityPrice.price cp, CommodityPrice.planetPeriod cp,
   CommodityPrice.sysPeriod cp, CommodityPrice.planetVariation cp,
   CommodityPrice.sysVariation cp).

(** ** Persistence of the observation state *)

(** Modelled from the spec: the structured document of the persisted
    player state, which the source reads and writes through the macros
    of nxml.h.  An element has a tag, named attributes, child elements
    and a text content. *)
Unset Elimination Schemes.
Inductive xml : Type :=
| XmlNode (tag : string) (attrs : list (string * string))
          (children : list xml) (raw : string).
Set Elimination Schemes.

#[global] Instance xml_inhabited : Inhabited xml :=
  populate (XmlNode "" [] [] "").

Definition xml_tag (n : xml) : string :=
  match n with XmlNode t _ _ _ => t end.
Definition xml_attrs (n : xml) : list (string * string) :=
  match n with XmlNode _ a _ _ => a end.
Definition xml_children (n : xml) : list xml :=
  match n with XmlNode _ _ c _ => c end.
Definition xml_raw (n : xml) : string :=
  match n with XmlNode _ _ _ r => r end.

(** [xml_isNode(n, s)]. *)
Definition xml_isNode (n : xml) (s : string) : bool :=
  String.eqb (xml_tag n) s.

(** [xmlr_attr(n, s, str)]: the value of the first attribute of that
    name, [NULL] when there is none. *)
Fixpoint attr_lookup (attrs : list (string * string)) (s : string)
  : option string :=
  match attrs with
  | [] => None
  | (k, v) :: rest => if String.eqb k s then Some v else attr_lookup rest s
  end.

Definition xmlr_attr (n : xml) (s : string) : option string :=
  attr_lookup (xml_attrs n) s.

(** Modelled from the spec: the writer of the structured document is
    the stack of the elements that are open, the innermost first. *)
Definition xmlTextWriter := list xml.

(** [xmlw_startElem], [xmlw_attr], [xmlw_str] and [xmlw_endElem]. *)
Definition xmlw_startElem (writer : xmlTextWriter) (tag : string)
  : xmlTextWriter :=
  XmlNode tag [] [] "" :: writer.

Definition xmlw_attr (writer : xmlTextWriter) (nm value : string)
  : xmlTextWriter :=
  match writer with
  | XmlNode t a c r :: rest => XmlNode t (a ++ [(nm, value)]) c r :: rest
  | [] => []
  end.

Definition xmlw_str (writer : xmlTextWriter) (s : string) : xmlTextWriter :=
  match writer with
  | XmlNode t a c r :: rest => XmlNode t a c (r ++ s) :: rest
  | [] => []
  end.

Definition xmlw_endElem (writer : xmlTextWriter) : xmlTextWriter :=
  match writer with
  | e :: XmlNode t a c r :: rest => XmlNode t a (c ++ [e]) r :: rest
  | _ => writer
  end.

(** The loop [do { body } while (xml_nextNode(node))] over the children
    of an element, with a body that may dereference [NULL] ([None]). *)
Fixpoint do_nodes {S : Type} (body : S -> xml -> option S)
  (nodes : list xml) (s : S) : option S :=
  match nodes with
  | [] => Some s
  | node :: rest =>
      match body s node with
      | Some s' => do_nodes body rest s'
      | None => None
      end
  end.

(** Collaborators of the persistence hooks: the lookup of a planet by
    name (space.c) and the conversions between numbers and text of the
    C library, for the formats ["%f"], ["%d"] and ["%"PRIu64]. *)
Class Persistence := {
  planet_get : list Planet.t -> string -> option Planet_ptr;
  printf_f : R -> string;
  printf_d : Z -> string;
  printf_u64 : Z -> string;
  atof : string -> R;
  atoi : string -> Z;
  atol : string -> Z
}.

Section Persistence.
Context `{Persistence}.

(** *** Saving *)

(** The element written for one observed price field. *)
Definition write_commodity (writer : xmlTextWriter) (nm : string)
  (cp : CommodityPrice.t) : xmlTextWriter :=
  let writer := xmlw_startElem writer "commodity" in
  let writer := xmlw_attr writer "name" nm in
  let writer := xmlw_attr writer "sum" (printf_f (CommodityPrice.sum cp)) in
  let writer := xmlw_attr writer "sum2" (printf_f (CommodityPrice.sum2 cp)) in
  let writer := xmlw_attr writer "cnt" (printf_d (CommodityPrice.cnt cp)) in
  let writer :=
    xmlw_attr writer "time"
      (printf_u64 (wrap_size_t (CommodityPrice.updateTime cp))) in
  xmlw_endElem writer.

(** Body of the loop over the commodities of a planet; the state is
    [doneSys], [donePlanet] and the writer. *)
Definition save_commodity (commodity_stack : list Commodity.t)
  (sys : StarSystem.t) (p : Planet.t) (k : nat)
  (st : bool * bool * xmlTextWriter) : bool * bool * xmlTextWriter :=
  let '(doneSys, donePlanet, writer) := st in
  let cp := Planet.commodityPrice p !!! k in
  if (0 <? CommodityPrice.cnt cp)%Z then
    let '(doneSys, writer) :=
      if doneSys then (doneSys, writer)
      else (true,
            xmlw_attr (xmlw_startElem writer "system") "name"
                      (StarSystem.name sys)) in
    let '(donePlanet, writer) :=
      if donePlanet then (donePlanet, writer)
      else (true,
            xmlw_attr (xmlw_startElem writer "planet") "name"
                      (Planet.name p)) in
    (doneSys, donePlanet,
     write_commodity writer
       (Commodity.name (commodity_stack !!! (Planet.commodities p !!! k))) cp)
  else st.

(** Body of the loop over the planets of a system. *)
Definition save_planet (commodity_stack : list Commodity.t)
  (planets : list Planet.t) (sys : StarSystem.t) (j : nat)
  (st : bool * xmlTextWriter) : bool * xmlTextWriter :=
  let '(doneSys, writer) := st in
  let p := planets !!! (StarSystem.planets sys !!! j) in
  let '(doneSys, donePlanet, writer) :=
    for_loop (Planet.ncommodities p) 0 (save_commodity commodity_stack sys p)
             (doneSys, false, writer) in
  (doneSys, if donePlanet then xmlw_endElem writer else writer).

(** Body of the loop over the systems. *)
Definition save_system (w : World.t) (i : nat) (writer : xmlTextWriter)
  : xmlTextWriter :=
  let sys := World.systems_stack w !!! i in
  let '(doneSys, writer) :=
    for_loop (StarSystem.nplanets sys) 0
      (save_planet (World.commodity_stack w) (World.planet_stack w) sys)
      (false, writer) in
  if doneSys then xmlw_endElem writer else writer.

(** Body of the loop over the last purchase prices. *)
Definition save_lastPurchase (w : World.t) (i : nat)
  (writer : xmlTextWriter) : xmlTextWriter :=
  let c := World.commodity_stack w !!! i in
  if (0 <? Commodity.lastPurchasePrice c)%Z then
    let writer := xmlw_startElem writer "lastPurchase" in
    let writer := xmlw_attr writer "name" (Commodity.name c) in
    let writer :=
      xmlw_str writer (printf_u64 (wrap_size_t (Commodity.lastPurchasePrice c))) in
    xmlw_endElem writer
  else writer.

(** [economy_sysSave writer]: the writer on return (the function
    returns 0). *)
Definition economy_sysSave (w : World.t) (writer : xmlTextWriter)
  : xmlTextWriter :=
  let writer := xmlw_startElem writer "economy" in
  let writer :=
    for_loop (length (World.commodity_stack w)) 0 (save_lastPurchase w)
             writer in
  let writer :=
    for_loop (length (World.systems_stack w)) 0 (save_system w) writer in
  xmlw_endElem writer.

(** *** Loading *)

(** The four attribute reads of a commodity element: an attribute that
    is absent leaves the field as it is. *)
Definition load_field (node : xml) (cp : CommodityPrice.t)
  : CommodityPrice.t :=
  let sum := match xmlr_attr node "sum" with
             | Some str => atof str
             | None => CommodityPrice.sum cp
             end in
  let sum2 := match xmlr_attr node "sum2" with
              | Some str => atof str
              | None => CommodityPrice.sum2 cp
              end in
  let cnt := match xmlr_attr node "cnt" with
             | Some str => atoi str
             | None => CommodityPrice.cnt cp
             end in
  let updateTime := match xmlr_attr node "time" with
                    | Some str => atol str
                    | None => CommodityPrice.updateTime cp
                    end in
  CommodityPrice.mk (CommodityPrice.price cp) (CommodityPrice.planetPeriod cp)
    (CommodityPrice.sysPeriod cp) (CommodityPrice.planetVariation cp)
    (CommodityPrice.sysVariation cp) updateTime (CommodityPrice.name cp)
    sum sum2 cnt.

(** Body of the loop over the children of a planet element.  [planet]
    is the result of [planet_get]; a commodity element under a planet
    that was not found, or without a name while the planet sells
    something, makes the source dereference [NULL]. *)
Definition load_commodity (commodity_stack : list Commodity.t)
  (planet : option Planet_ptr) (planets : list Planet.t)
  (nodeCommodity : xml) : option (list Planet.t) :=
  if xml_isNode nodeCommodity "commodity" then
    match planet with
    | None => None
    | Some ptr =>
        let p := planets !!! ptr in
        match xmlr_attr nodeCommodity "name" with
        | None =>
            if (Planet.ncommodities p =? 0)%nat then Some planets else None
        | Some str =>
            let i := scan (fun c : Commodity_ptr =>
                             String.eqb str
                               (Commodity.name (commodity_stack !!! c)))
                          (Planet.commodities p) in
            if (i <? Planet.ncommodities p)%nat then
              Some (<[ptr := Planet.set_commodityPrice p
                               (<[i := load_field nodeCommodity
                                         (Planet.commodityPrice p !!! i)]>
                                  (Planet.commodityPrice p))]> planets)
            else Some planets
        end
    end
  else Some planets.

(** Body of the loop over the children of a system element. *)
Definition load_asset (commodity_stack : list Commodity.t)
  (planets : list Planet.t) (nodeAsset : xml) : option (list Planet.t) :=
  if xml_isNode nodeAsset "planet" then
    match xmlr_attr nodeAsset "name" with
    | None => None
    | Some str =>
        do_nodes (load_commodity commodity_stack (planet_get planets str))
                 (xml_children nodeAsset) planets
    end
  else Some planets.

(** Body of the loop over the children of the economy element.  The
    result of [system_get] is not used; the warnings of the lookups are
    logging only. *)
Definition load_cur (w : World.t) (cur : xml) : option World.t :=
  if xml_isNode cur "system" then
    match xmlr_attr cur "name" with
    | None => None
    | Some _ =>
        match do_nodes (load_asset (World.commodity_stack w))
                       (xml_children cur) (World.planet_stack w) with
        | Some planets => Some (World.set_planet_stack w planets)
        | None => None
        end
    end
  else if xml_isNode cur "lastPurchase" then
    match xmlr_attr cur "name" with
    | None => Some w
    | Some str =>
        match fst (commodity_get w str) with
        | None => None
        | Some c =>
            Some (World.set_commodity_stack w
                    (alter (fun com => Commodity.set_lastPurchasePrice com
                                         (atol (xml_raw cur)))
                           c (World.commodity_stack w)))
        end
    end
  else Some w.

Definition load_node (w : World.t) (node : xml) : option World.t :=
  if xml_isNode node "economy" then
    do_nodes load_cur (xml_children node) w
  else Some w.

(** [economy_sysLoad parent]: the state on return, or [None] where the
    source dereferences [NULL]. *)
Definition economy_sysLoad (w : World.t) (parent : xml) : option World.t :=
  let w := economy_clearKnown w in
  do_nodes load_node (xml_children parent) w.

(** *** The document that saving writes, in closed form *)

Definition commodity_node (nm : string) (cp : CommodityPrice.t) : xml :=
  XmlNode "commodity"
    [("name"%string, nm);
     ("sum"%string, printf_f (CommodityPrice.sum cp));
     ("sum2"%string, printf_f (CommodityPrice.sum2 cp));
     ("cnt"%string, printf_d (CommodityPrice.cnt cp));
     ("time"%string, printf_u64 (wrap_size_t (CommodityPrice.updateTime cp)))]
    [] "".

(** The elements of the first [k] commodities of a planet: one for
    every price field with a positive observation count. *)
Definition commodity_nodes (commodity_stack : list Commodity.t)
  (p : Planet.t) (k : nat) : list xml :=
  flat_map
    (fun i =>
       let cp := Planet.commodityPrice p !!! i in
       if (0 <? CommodityPrice.cnt cp)%Z then
         [commodity_node
            (Commodity.name (commodity_stack !!! (Planet.commodities p !!! i)))
            cp]
       else [])
    (seq 0 k).

Definition planet_node (commodity_stack : list Commodity.t) (p : Planet.t)
  : list xml :=
  match commodity_nodes commodity_stack p (Planet.ncommodities p) with
  | [] => []
  | cn => [XmlNode "planet" [("name"%string, Planet.name p)] cn ""]
  end.

(** The elements of the first [m] planets of a system. *)
Definition planet_nodes (commodity_stack : list Commodity.t)
  (planets : list Planet.t) (sys : StarSystem.t) (m : nat) : list xml :=
  flat_map
    (fun j => planet_node commodity_stack
                (planets !!! (StarSystem.planets sys !!! j)))
    (seq 0 m).

Definition system_node (w : World.t) (sys : StarSystem.t) : list xml :=
  match planet_nodes (World.commodity_stack w) (World.planet_stack w) sys
                     (StarSystem.nplanets sys) with
  | [] => []
  | pn => [XmlNode "system" [("name"%string, StarSystem.name sys)] pn ""]
  end.

Definition system_nodes (w : World.t) (n : nat) : list xml :=
  flat_map (fun i => system_node w (World.systems_stack w !!! i)) (seq 0 n).

Definition lastPurchase_nodes (w : World.t) (n : nat) : list xml :=
  flat_map
    (fun i =>
       let c := World.commodity_stack w !!! i in
       if (0 <? Commodity.lastPurchasePrice c)%Z then
         [XmlNode "lastPurchase" [("name"%string, Commodity.name c)] []
                  (printf_u64 (wrap_size_t (Commodity.lastPurchasePrice c)))]
       else [])
    (seq 0 n).

Definition economy_node (w : World.t) : xml :=
  XmlNode "economy" []
    (lastPurchase_nodes w (length (World.commodity_stack w))
     ++ system_nodes w (length (World.systems_stack w)))
    "".

(** The document of a save file that holds nothing but the economy. *)
Definition saved_document (w : World.t) : xml :=
  hd (XmlNode "" [] [] "")
     (economy_sysSave w [XmlNode "player" [] [] ""]).

(** *** What loading makes of a saved price field *)

Definition restore_field (cp : CommodityPrice.t) : CommodityPrice.t :=
  CommodityPrice.mk (CommodityPrice.price cp) (CommodityPrice.planetPeriod cp)
    (CommodityPrice.sysPeriod cp) (CommodityPrice.planetVariation cp)
    (CommodityPrice.sysVariation cp)
    (atol (printf_u64 (wrap_size_t (CommodityPrice.updateTime cp))))
    (CommodityPrice.name cp)
    (atof (printf_f (CommodityPrice.sum cp)))
    (atof (printf_f (CommodityPrice.sum2 cp)))
    (atoi (printf_d (CommodityPrice.cnt cp))).

Definition reload_field (cp : CommodityPrice.t) : CommodityPrice.t :=
  if (0 <? CommodityPrice.cnt cp)%Z then restore_field cp
  else Observation.clear cp.

Definition reload_planet (p : Planet.t) : Planet.t :=
  Planet.set_commodityPrice p
    (imap (fun k cp => if (k <? Planet.ncommodities p)%nat
                       then reload_field cp else cp)
          (Planet.commodityPrice p)).

(** *** Assumptions of the round trip *)

(** The lookup finds the planet of a name that only one planet bears;
    integers print and parse exactly within the range of their type, and
    so do doubles of integral value. *)
Definition persistence_laws : Prop :=
  (forall planets ptr p,
     planets !! ptr = Some p ->
     (forall q p', planets !! q = Some p' ->
                   Planet.name p' = Planet.name p -> q = ptr) ->
     planet_get planets (Planet.name p) = Some ptr) /\
  (forall z : Z, atof (printf_f (IZR z)) = IZR z) /\
  (forall z : Z, (- 2 ^ 31 <= z < 2 ^ 31)%Z -> atoi (printf_d z) = z) /\
  (forall z : Z, (0 <= z < 2 ^ 63)%Z -> atol (printf_u64 z) = z).

End Persistence.

(** The names of the commodities that a planet sells. *)
Definition sold_names (commodity_stack : list Commodity.t) (p : Planet.t)
  : list string :=
  map (fun c : Commodity_ptr => Commodity.name (commodity_stack !!! c))
      (Planet.commodities p).

(** A universe whose observation state can be told apart on reload: no
    two planets bear the same name, no planet sells two commodities of
    the same name, the two arrays of a planet agree in length, and the
    accumulators of an observed price field hold integral sums and a
    count within the range of [int]. *)
Definition saveable (w : World.t) : Prop :=
  (forall q q' p p', World.planet_stack w !! q = Some p ->
                     World.planet_stack w !! q' = Some p' ->
                     Planet.name p = Planet.name p' -> q = q') /\
  Forall
    (fun p =>
       length (Planet.commodityPrice p) = length (Planet.commodities p) /\
       NoDup (sold_names (World.commodity_stack w) p) /\
       Forall (fun cp =>
                 (0 < CommodityPrice.cnt cp)%Z ->
                 (CommodityPrice.cnt cp < 2 ^ 31)%Z /\
                 (exists z, CommodityPrice.sum cp = IZR z) /\
                 (exists z, CommodityPrice.sum2 cp = IZR z))
              (Planet.commodityPrice p))
    (World.planet_stack w).

(** ** Price initialiser *)

(** Writes to the price parameters of a price field. *)
Module Field.
Definition set_price (cp : CommodityPrice.t) (v : R) : CommodityPrice.t :=
  CommodityPrice.mk v (CommodityPrice.planetPeriod cp)
    (CommodityPrice.sysPeriod cp) (CommodityPrice.planetVariation cp)
    (CommodityPrice.sysVariation cp) (CommodityPrice.updateTime cp)
    (CommodityPrice.name cp) (CommodityPrice.sum cp) (CommodityPrice.sum2 cp)
    (CommodityPrice.cnt cp).
Definition set_planetPeriod (cp : CommodityPrice.t) (v : R)
  : CommodityPrice.t :=
  CommodityPrice.mk (CommodityPrice.price cp) v
    (CommodityPrice.sysPeriod cp) (CommodityPrice.planetVariation cp)
    (CommodityPrice.sysVariation cp) (CommodityPrice.updateTime cp)
    (CommodityPrice.name cp) (CommodityPrice.sum cp) (CommodityPrice.sum2 cp)
    (CommodityPrice.cnt cp).
Definition set_sysPeriod (cp : CommodityPrice.t) (v : R) : CommodityPrice.t :=
  CommodityPrice.mk (CommodityPrice.price cp) (CommodityPrice.planetPeriod cp)
    v (CommodityPrice.planetVariation cp)
    (CommodityPrice.sysVariation cp) (CommodityPrice.updateTime cp)
    (CommodityPrice.name cp) (CommodityPrice.sum cp) (CommodityPrice.sum2 cp)
    (CommodityPrice.cnt cp).
Definition set_planetVariation (cp : CommodityPrice.t) (v : R)
  : CommodityPrice.t :=
  CommodityPrice.mk (CommodityPrice.price cp) (CommodityPrice.planetPeriod cp)
    (CommodityPrice.sysPeriod cp) v
    (CommodityPrice.sysVariation cp) (CommodityPrice.updateTime cp)
    (CommodityPrice.name cp) (CommodityPrice.sum cp) (CommodityPrice.sum2 cp)
    (CommodityPrice.cnt cp).
Definition set_sysVariation (cp : CommodityPrice.t) (v : R)
  : CommodityPrice.t :=
  CommodityPrice.mk (CommodityPrice.price cp) (CommodityPrice.planetPeriod cp)
    (CommodityPrice.sysPeriod cp) (CommodityPrice.planetVariation cp)
    v (CommodityPrice.updateTime cp)
    (CommodityPrice.name cp) (CommodityPrice.sum cp) (CommodityPrice.sum2 cp)
    (CommodityPrice.cnt cp).
Definition set_sum (cp : CommodityPrice.t) (v : R) : CommodityPrice.t :=
  CommodityPrice.mk (CommodityPrice.price cp) (CommodityPrice.planetPeriod cp)
    (CommodityPrice.sysPeriod cp) (CommodityPrice.planetVariation cp)
    (CommodityPrice.sysVariation cp) (CommodityPrice.updateTime cp)
    (CommodityPrice.name cp) v (CommodityPrice.sum2 cp)
    (CommodityPrice.cnt cp).
End Field.

(** The walk [while (cm != NULL) { if (!strcmp(key, cm->name)) { scale =
    cm->value; break; } cm = cm->next; }] over a modifier list. *)
Fixpoint modifier_lookup (cm : CommodityModifier) (key : string) (scale : R)
  : R :=
  match cm with
  | [] => scale
  | (nm, value) :: next =>
      if String.eqb key nm then value else modifier_lookup next key scale
  end.

Section Initialiser.
Context `{Externals}.

(** [tanh((log(population) - log(1e8)) / 2)], or -1 on an empty planet. *)
Definition population_factor (planet : Planet.t) : R :=
  if (0 <? Planet.population planet)%Z then
    tanh ((ln (IZR (Planet.population planet)) - ln 100000000) / 2)
  else -1.

(** [1 + (strlen(gfx_exterior) - strlen(PLANET_GFX_EXTERIOR_PATH) - 19) /
    100.]; the subtraction is carried out on [size_t]. *)
Definition exterior_scale (planet : Planet.t) : R :=
  1 + IZR (wrap_size_t
             (Z.of_nat (String.length (Planet.gfx_exterior planet))
              - Z.of_nat (String.length PLANET_GFX_EXTERIOR_PATH) - 19))
      / 100.

(** The scale that the faction step of [economy_calcPrice] applies: the
    walk starts from [commodity->planet_modifier]. *)
Definition faction_scale (planet : Planet.t) (commodity : Commodity.t) : R :=
  modifier_lookup (Commodity.planet_modifier commodity)
                  (faction_name (Planet.faction planet)) 1.

(** The divisor of the presence step. *)
Definition presence_divisor (planet : Planet.t) : R :=
  1 - IZR (Planet.presenceRange planet) / 30.

(** [economy_calcPrice planet commodity commodityPrice] (pass 1).  The
    local [period] computed from [gfx_spaceName] is never read and is
    left out. *)
Definition economy_calcPrice (planet : Planet.t) (commodity : Commodity.t)
  (commodityPrice : CommodityPrice.t) : CommodityPrice.t :=
  let scale := modifier_lookup (Commodity.planet_modifier commodity)
                               (Planet.class planet) 1 in
  let price := CommodityPrice.price commodityPrice * scale in
  let planetVariation := 0.5 in
  let sysVariation := 0 in
  let base := 100 in
  let planetPeriod := Commodity.period commodity + base in
  let scale := exterior_scale planet in
  let planetPeriod := planetPeriod * scale in
  let factor := population_factor planet in
  let base := Commodity.population_modifier commodity in
  let price := price * (1 + factor * base) in
  let planetVariation := planetVariation * (0.5 - factor * 0.25) in
  let planetPeriod := planetPeriod * (1 + factor * 0.5) in
  let scale := faction_scale planet commodity in
  let price := price * scale in
  let price := price * presence_divisor planet in
  let planetPeriod := planetPeriod * (1 / presence_divisor planet) in
  CommodityPrice.mk price planetPeriod
    (CommodityPrice.sysPeriod commodityPrice) planetVariation sysVariation
    0%Z (CommodityPrice.name commodityPrice) 0 0 0%Z.

(** Pass 1 on one planet: the loop over its commodities. *)
Definition calcPrice_planet (commodity_stack : list Commodity.t)
  (planet : Planet.t) : Planet.t :=
  for_loop (Planet.ncommodities planet) 0
    (fun i planet =>
       Planet.set_commodityPrice planet
         (<[i := economy_calcPrice planet
                   (commodity_stack !!! (Planet.commodities planet !!! i))
                   (Planet.commodityPrice planet !!! i)]>
            (Planet.commodityPrice planet)))
    planet.

(** Pass 1 on one system: the loop over its planets. *)
Definition calcPrice_system (commodity_stack : list Commodity.t)
  (sys : StarSystem.t) (planets : list Planet.t) : list Planet.t :=
  for_loop (StarSystem.nplanets sys) 0
    (fun j planets =>
       alter (calcPrice_planet commodity_stack)
             (StarSystem.planets sys !!! j) planets)
    planets.

(** *** Pass 2 *)

(** The scaling of one price field by the attributes of its system. *)
Definition system_scale (sys : StarSystem.t) (cp : CommodityPrice.t)
  : CommodityPrice.t :=
  let cp := Field.set_price cp
              (CommodityPrice.price cp * (1 + StarSystem.radius sys / 200000)) in
  let cp := Field.set_planetPeriod cp
              (CommodityPrice.planetPeriod cp
               * (1 / (1 - StarSystem.radius sys / 200000))) in
  let cp := Field.set_planetVariation cp
              (CommodityPrice.planetVariation cp
               * (1 / (1 - StarSystem.radius sys / 300000))) in
  let cp := Field.set_price cp
              (CommodityPrice.price cp
               * (1 + StarSystem.nebu_volatility sys / 6000)) in
  let cp := Field.set_price cp
              (CommodityPrice.price cp
               * (1 + StarSystem.interference sys / 10000)) in
  Field.set_sysPeriod cp
    (2000 / IZR (Z.of_nat (StarSystem.njumps sys) + 1)).

(** Accumulation of a price field into the running averages: the entry
    of that name is added to, or a new entry is appended.  The fields
    [sum], [sum2] and [cnt] of a new entry are not initialised by the
    source; [updateTime] counts the fields added. *)
Definition average_add (nm : string) (cp : CommodityPrice.t)
  (avprice : list CommodityPrice.t) : list CommodityPrice.t :=
  let k := scan (fun a => String.eqb nm (CommodityPrice.name a)) avprice in
  if (k <? length avprice)%nat then
    alter (fun a =>
             CommodityPrice.mk
               (CommodityPrice.price a + CommodityPrice.price cp)
               (CommodityPrice.planetPeriod a + CommodityPrice.planetPeriod cp)
               (CommodityPrice.sysPeriod a + CommodityPrice.sysPeriod cp)
               (CommodityPrice.planetVariation a
                + CommodityPrice.planetVariation cp)
               (CommodityPrice.sysVariation a + CommodityPrice.sysVariation cp)
               (CommodityPrice.updateTime a + 1)%Z
               (CommodityPrice.name a) (CommodityPrice.sum a)
               (CommodityPrice.sum2 a) (CommodityPrice.cnt a))
          k avprice
  else
    avprice ++
    [CommodityPrice.mk (CommodityPrice.price cp)
       (CommodityPrice.planetPeriod cp) (CommodityPrice.sysPeriod cp)
       (CommodityPrice.planetVariation cp) (CommodityPrice.sysVariation cp)
       1%Z nm 0 0 0%Z].

(** Division of the accumulated values by the number of fields added. *)
Definition average_div (a : CommodityPrice.t) : CommodityPrice.t :=
  let n := IZR (CommodityPrice.updateTime a) in
  CommodityPrice.mk (CommodityPrice.price a / n)
    (CommodityPrice.planetPeriod a / n) (CommodityPrice.sysPeriod a / n)
    (CommodityPrice.planetVariation a / n) (CommodityPrice.sysVariation a / n)
    (CommodityPrice.updateTime a) (CommodityPrice.name a)
    (CommodityPrice.sum a) (CommodityPrice.sum2 a) (CommodityPrice.cnt a).

(** First loop nest of pass 2, on the planet at offset [i] of the system. *)
Definition scale_planet (commodity_stack : list Commodity.t)
  (sys : StarSystem.t) (st : Planet.t * list CommodityPrice.t)
  : Planet.t * list CommodityPrice.t :=
  for_loop (Planet.ncommodities (fst st)) 0
    (fun j st =>
       let '(planet, avprice) := st in
       let cp := system_scale sys (Planet.commodityPrice planet !!! j) in
       let planet := Planet.set_commodityPrice planet
                       (<[j := cp]> (Planet.commodityPrice planet)) in
       (planet,
        average_add
          (Commodity.name (commodity_stack !!! (Planet.commodities planet !!! j)))
          cp avprice))
    st.

Definition scale_system (commodity_stack : list Commodity.t)
  (sys : StarSystem.t) (st : list Planet.t * list CommodityPrice.t)
  : list Planet.t * list CommodityPrice.t :=
  for_loop (StarSystem.nplanets sys) 0
    (fun i st =>
       let '(planets, avprice) := st in
       let ptr := StarSystem.planets sys !!! i in
       let '(planet, avprice) :=
         scale_planet commodity_stack sys (planets !!! ptr, avprice) in
       (<[ptr := planet]> planets, avprice))
    st.

(** Second loop nest of pass 2: the blend of each price field with the
    average of its name (every entry of that name is applied). *)
Definition blend_field (nm : string) (avprice : list CommodityPrice.t)
  (cp : CommodityPrice.t) : CommodityPrice.t :=
  fold_left
    (fun cp a =>
       if String.eqb nm (CommodityPrice.name a) then
         let cp := Field.set_price cp (CommodityPrice.price cp * 0.25) in
         let cp := Field.set_price cp
                     (CommodityPrice.price cp + 0.75 * CommodityPrice.price a) in
         Field.set_sysVariation cp (0.2 * CommodityPrice.planetVariation a)
       else cp)
    avprice cp.

Definition blend_planet (commodity_stack : list Commodity.t)
  (avprice : list CommodityPrice.t) (planet : Planet.t) : Planet.t :=
  for_loop (Planet.ncommodities planet) 0
    (fun j planet =>
       Planet.set_commodityPrice planet
         (<[j := blend_field
                   (Commodity.name
                      (commodity_stack !!! (Planet.commodities planet !!! j)))
                   avprice (Planet.commodityPrice planet !!! j)]>
            (Planet.commodityPrice planet)))
    planet.

Definition blend_system (commodity_stack : list Commodity.t)
  (sys : StarSystem.t) (avprice : list CommodityPrice.t)
  (planets : list Planet.t) : list Planet.t :=
  for_loop (StarSystem.nplanets sys) 0
    (fun i planets =>
       alter (blend_planet commodity_stack avprice)
             (StarSystem.planets sys !!! i) planets)
    planets.

(** [economy_modifySystemCommodityPrice sys] (pass 2), for the system at
    offset [si] of the stack. *)
Definition economy_modifySystemCommodityPrice (w : World.t)
  (si : StarSystem_ptr) : World.t :=
  let sys := World.systems_stack w !!! si in
  let '(planets, avprice) :=
    scale_system (World.commodity_stack w) sys (World.planet_stack w, []) in
  let avprice := map average_div avprice in
  let planets := blend_system (World.commodity_stack w) sys avprice planets in
  World.mk (World.commodity_stack w) (World.econ_comm w)
    (<[si := StarSystem.set_averagePrice sys avprice]> (World.systems_stack w))
    planets (World.econ_initialized w) (World.econ_queued w) (World.econ_G w).

(** *** Pass 3 *)

(** The sum and the number of the averages of one name over the
    neighbours of a system. *)
Definition neighbour_sum (systems : list StarSystem.t) (sys : StarSystem.t)
  (nm : string) : R * Z :=
  for_loop (StarSystem.njumps sys) 0
    (fun i acc =>
       let '(price, n) := acc in
       let neighbour :=
         systems !!! JumpPoint.target (StarSystem.jumps sys !!! i) in
       let k := scan (fun a => String.eqb (CommodityPrice.name a) nm)
                     (StarSystem.averagePrice neighbour) in
       if (k <? StarSystem.ncommodities neighbour)%nat then
         (price + CommodityPrice.price (StarSystem.averagePrice neighbour !!! k),
          (n + 1)%Z)
       else acc)
    (0, 0%Z).

(** [economy_smoothCommodityPrice sys] (pass 3). *)
Definition economy_smoothCommodityPrice (systems : list StarSystem.t)
  (si : StarSystem_ptr) : list StarSystem.t :=
  for_loop (StarSystem.ncommodities (systems !!! si)) 0
    (fun j systems =>
       let sys := systems !!! si in
       let a := StarSystem.averagePrice sys !!! j in
       let '(price, n) := neighbour_sum systems sys (CommodityPrice.name a) in
       let v := if (n =? 0)%Z then CommodityPrice.price a
                else price / IZR n in
       <[si := StarSystem.set_averagePrice sys
                 (<[j := Field.set_sum a v]> (StarSystem.averagePrice sys))]>
         systems)
    systems.

(** *** Pass 4 *)

Definition average_update (a : CommodityPrice.t) : CommodityPrice.t :=
  Field.set_price a (0.5 * (CommodityPrice.price a + CommodityPrice.sum a)).

Definition final_field (nm : string) (avprice : list CommodityPrice.t)
  (cp : CommodityPrice.t) : CommodityPrice.t :=
  let k := scan (fun a => String.eqb (CommodityPrice.name a) nm) avprice in
  if (k <? length avprice)%nat then
    let a := avprice !!! k in
    let cp := Field.set_price cp
                (0.25 * CommodityPrice.price cp + 0.75 * CommodityPrice.price a) in
    let cp := Field.set_planetVariation cp
                (0.1 * (0.5 * CommodityPrice.planetVariation a
                        + 0.5 * CommodityPrice.planetVariation cp)) in
    let cp := Field.set_planetVariation cp
                (CommodityPrice.planetVariation cp * CommodityPrice.price cp) in
    Field.set_sysVariation cp
      (CommodityPrice.sysVariation cp * CommodityPrice.price cp)
  else cp.

Definition final_planet (commodity_stack : list Commodity.t)
  (avprice : list CommodityPrice.t) (planet : Planet.t) : Planet.t :=
  for_loop (Planet.ncommodities planet) 0
    (fun j planet =>
       Planet.set_commodityPrice planet
         (<[j := final_field
                   (Commodity.name
                      (commodity_stack !!! (Planet.commodities planet !!! j)))
                   avprice (Planet.commodityPrice planet !!! j)]>
            (Planet.commodityPrice planet)))
    planet.

Definition final_system (commodity_stack : list Commodity.t)
  (sys : StarSystem.t) (avprice : list CommodityPrice.t)
  (planets : list Planet.t) : list Planet.t :=
  for_loop (StarSystem.nplanets sys) 0
    (fun i planets =>
       alter (final_planet commodity_stack avprice)
             (StarSystem.planets sys !!! i) planets)
    planets.

(** [economy_calcUpdatedCommodityPrice sys] (pass 4). *)
Definition economy_calcUpdatedCommodityPrice (w : World.t)
  (si : StarSystem_ptr) : World.t :=
  let sys := World.systems_stack w !!! si in
  let avprice := map average_update (StarSystem.averagePrice sys) in
  let planets :=
    final_system (World.commodity_stack w) sys avprice (World.planet_stack w) in
  World.mk (World.commodity_stack w) (World.econ_comm w)
    (<[si := StarSystem.set_averagePrice sys []]> (World.systems_stack w))
    planets (World.econ_initialized w) (World.econ_queued w) (World.econ_G w).

(** *** The pipeline *)

Definition initialise_pass1 (w : World.t) : World.t :=
  World.set_planet_stack w
    (for_loop (length (World.systems_stack w)) 0
       (fun k planets =>
          calcPrice_system (World.commodity_stack w)
                           (World.systems_stack w !!! k) planets)
       (World.planet_stack w)).

Definition initialise_pass2 (w : World.t) : World.t :=
  for_loop (length (World.systems_stack w)) 0
    (fun i w => economy_modifySystemCommodityPrice w i) w.

Definition initialise_pass3 (w : World.t) : World.t :=
  World.set_systems_stack w
    (for_loop (length (World.systems_stack w)) 0
       (fun i systems => economy_smoothCommodityPrice systems i)
       (World.systems_stack w)).

Definition initialise_pass4 (w : World.t) : World.t :=
  for_loop (length (World.systems_stack w)) 0
    (fun i w => economy_calcUpdatedCommodityPrice w i) w.

(** [economy_initialiseCommodityPrices]: the four passes, then the
    release of the modifier lists of every commodity. *)
Definition economy_initialiseCommodityPrices (w : World.t) : World.t :=
  let w := initialise_pass1 w in
  let w := initialise_pass2 w in
  let w := initialise_pass3 w in
  let w := initialise_pass4 w in
  World.set_commodity_stack w
    (map Commodity.clear_modifiers (World.commodity_stack w)).

End Initialiser.

(** ** Well-formed input ranges of the initialiser *)

(** A commodity whose period keeps [period + 100] positive, whose
    population sensitivity lies in [-1, 1] and whose class modifiers are
    not negative. *)
Definition commodity_in_range (c : Commodity.t) : Prop :=
  -100 < Commodity.period c /\
  -1 <= Commodity.population_modifier c <= 1 /\
  Forall (fun e : string * R => 0 <= snd e) (Commodity.planet_modifier c).

(** A planet with a presence range below 30, as many price fields as
    commodities, commodities in range and no negative price. *)
Definition planet_in_range (commodity_stack : list Commodity.t)
  (p : Planet.t) : Prop :=
  (Planet.presenceRange p < 30)%Z /\
  length (Planet.commodityPrice p) = length (Planet.commodities p) /\
  Forall (fun c : Commodity_ptr => commodity_in_range (commodity_stack !!! c))
         (Planet.commodities p) /\
  Forall (fun cp => 0 <= CommodityPrice.price cp) (Planet.commodityPrice p).

(** A system with a radius in [0, 200000) and no negative nebula
    volatility or interference. *)
Definition system_in_range (s : StarSystem.t) : Prop :=
  0 <= StarSystem.radius s < 200000 /\
  0 <= StarSystem.nebu_volatility s /\
  0 <= StarSystem.interference s.

Definition world_in_range (w : World.t) : Prop :=
  Forall (planet_in_range (World.commodity_stack w)) (World.planet_stack w) /\
  Forall system_in_range (World.systems_stack w).

(** The planet at offset [ptr] is one of the planets of a system. *)
Definition belongs (systems : list StarSystem.t) (ptr : Planet_ptr) : Prop :=
  exists s sys j, systems !! s = Some sys /\
                  StarSystem.planets sys !! j = Some ptr.

(** Periods strictly positive, amplitudes not negative. *)
Definition field_ok (cp : CommodityPrice.t) : Prop :=
  0 < CommodityPrice.planetPeriod cp /\
  0 < CommodityPrice.sysPeriod cp /\
  0 <= CommodityPrice.planetVariation cp /\
  0 <= CommodityPrice.sysVariation cp.

(** Stages reached by a price field along the pipeline. *)
Definition field_stage1 (cp : CommodityPrice.t) : Prop :=
  0 <= CommodityPrice.price cp /\
  0 < CommodityPrice.planetPeriod cp /\
  0 <= CommodityPrice.planetVariation cp /\
  0 <= CommodityPrice.sysVariation cp.

Definition field_stage2 (cp : CommodityPrice.t) : Prop :=
  field_stage1 cp /\ 0 < CommodityPrice.sysPeriod cp.

(** A running or final system average with no negative price or
    amplitude. *)
Definition average_ok (a : CommodityPrice.t) : Prop :=
  0 <= CommodityPrice.price a /\ 0 <= CommodityPrice.planetVariation a.

(** A property [A] of every planet of the stack, by offset, and a
    property [B] of the planets whose offset is marked [done]. *)
Definition marks (A B : nat -> Planet.t -> Prop)
  (done : nat -> Prop) (planets : list Planet.t) : Prop :=
  forall q x, planets !! q = Some x -> A q x /\ (done q -> B q x).

(** Two stacks of systems that differ in their averages only. *)
Definition same_systems (ss ss' : list StarSystem.t) : Prop :=
  Forall2 (fun s s' => exists av, s' = StarSystem.set_averagePrice s av)
          ss ss'.

(** A running average that has accumulated at least one field. *)
Definition average_acc_ok (a : CommodityPrice.t) : Prop :=
  average_ok a /\ (1 <= CommodityPrice.updateTime a)%Z.

(** A system average whose neighbour mean is not negative either. *)
Definition average_smooth_ok (a : CommodityPrice.t) : Prop :=
  average_ok a /\ 0 <= CommodityPrice.sum a.

(** Properties of the planets kept from pass 1 on: in range, and at
    stage 1 if the planet belongs to a system. *)
Definition kept (commodity_stack : list Commodity.t)
  (systems : list StarSystem.t) (q : nat) (x : Planet.t) : Prop :=
  planet_in_range commodity_stack x /\
  (belongs systems q -> Forall field_stage1 (Planet.commodityPrice x)).

Definition at_stage2 (x : Planet.t) : Prop :=
  Forall field_stage2 (Planet.commodityPrice x).

(** Every average of every system satisfies [P]. *)
Definition averages (P : CommodityPrice.t -> Prop)
  (systems : list StarSystem.t) : Prop :=
  Forall (fun s => Forall P (StarSystem.averagePrice s)) systems.

(** ** State of a reload in progress *)

(** The stack [S] holds, for every planet [p] of the stack [W] that was
    saved, a planet of the same name at the same offset; the planets of
    the systems are either [p] cleared or [p] reloaded, and those marked
    [done] are reloaded. *)
Definition loaded `{Persistence} (systems : list StarSystem.t)
  (W : list Planet.t) (done : nat -> Prop) (S : list Planet.t) : Prop :=
  length S = length W /\
  forall ptr p, W !! ptr = Some p ->
    exists q, S !! ptr = Some q /\
              Planet.name q = Planet.name p /\
              (belongs systems ptr ->
               q = clear_planet p \/ q = reload_planet p) /\
              (done ptr -> q = reload_planet p).

(** The commodities of the two stacks bear the same names. *)
Definition same_names (stack stack' : list Commodity.t) : Prop :=
  length stack' = length stack /\
  forall c, Commodity.name (stack' !!! c) = Commodity.name (stack !!! c).

(** What loading makes of the last purchase price of a commodity that
    was saved: a positive price is written and read back, any other is
    left at the 0 of the reset. *)
Definition restore_purchase `{Persistence} (c : Commodity.t) : Commodity.t :=
  Commodity.set_lastPurchasePrice c
    (if (0 <? Commodity.lastPurchasePrice c)%Z
     then atol (printf_u64 (wrap_size_t (Commodity.lastPurchasePrice c)))
     else 0%Z).

(** ** Concrete scenarios used by the examples below *)

(** Collaborators of a universe without faction relations, with the
    time scale of ntime.h (1000 units per STU, 10000 STU per STP), and
    with a solver that gives up and leaves the right-hand side as it
    received it. *)
Definition ext_plain : Externals := {|
  areEnemies := fun _ _ => false;
  areAllies := fun _ _ => false;
  faction_name := fun f => if (f =? 1)%Z then "Empire"%string
                           else "Independent"%string;
  ntime_convertSTU := fun t => IZR t / 1000;
  NT_STP_STU := 10000;
  PLANET_GFX_EXTERIOR_PATH := "gfx/planet/exterior/";
  cs_qrsol := fun _ _ X => (0%Z, X)
|}.

(** Collaborators under which factions 1 and 2 are at war and factions
    1 and 3 are allied. *)
Definition ext_politics : Externals := {|
  areEnemies := fun a b => ((a =? 1) && (b =? 2) || (a =? 2) && (b =? 1))%Z;
  areAllies := fun a b => ((a =? 1) && (b =? 3) || (a =? 3) && (b =? 1))%Z;
  faction_name := fun _ => "Independent"%string;
  ntime_convertSTU := fun t => IZR t / 1000;
  NT_STP_STU := 10000;
  PLANET_GFX_EXTERIOR_PATH := "gfx/planet/exterior/";
  cs_qrsol := fun _ _ X => (1%Z, X)
|}.

(** A system with the given identifier, faction and jump targets and no
    nebula, planets or prices. *)
Definition plain_system (i : nat) (f : Z) (targets : list nat)
  : StarSystem.t :=
  StarSystem.mk (Z.of_nat i) "" 0 0 0 0 f (map JumpPoint.mk targets) [] [] [].

(** Two systems joined by one jump route, recorded in both directions. *)
Definition two_systems : list StarSystem.t :=
  [plain_system 0 (-1) [1%nat]; plain_system 1 (-1) [0%nat]].

Definition world_of_systems (ss : list StarSystem.t) : World.t :=
  World.mk [] [] ss [] true 0%Z None.

(** One system whose potential for the only priced good was 5 at the
    last update. *)
Definition world_stale : World.t :=
  World.mk [Commodity.mk "Food" "" 100 [] 200 0 [] 0%Z] [0%Z]
           [StarSystem.mk 0%Z "Sol" 0 0 0 0 (-1)%Z [] [] [5] []]
           [] true 1%Z (Some (cs_spalloc 1 1)).

(** A single system without jump routes. *)
Definition lone_system : list StarSystem.t := [plain_system 0 (-1) []].

(** A catalogue with one priced good, and a planet selling it with the
    given price field. *)
Definition food : Commodity.t := Commodity.mk "Food" "" 100 [] 200 0 [] 0%Z.

Definition market (cp : CommodityPrice.t) : Planet.t :=
  Planet.mk "Earth" "M" "" "" 0%Z (-1)%Z 0%Z [0%nat] [cp].

Definition world_market (cp : CommodityPrice.t) : World.t :=
  World.mk [food] [0%Z] [StarSystem.mk 0%Z "Sol" 0 0 0 0 (-1)%Z [] [0%nat] [] []]
           [market cp] true 0%Z None.

(** A steady price field of the given base price, not yet observed. *)
Definition steady (base : R) : CommodityPrice.t :=
  CommodityPrice.mk base 1 1 0 0 0%Z "" 0 0 0%Z.

(** The pointer to the only commodity of that catalogue. *)
Definition food_ptr : Commodity_ptr := 0%nat.

(** A good that the Empire values at twice its price, according to its
    by-faction table, and that no planet class modifies. *)
Definition spice : Commodity.t :=
  Commodity.mk "Spice" "" 100 [] 200 0 [("Empire"%string, 2)] 0%Z.

(** An uninhabited planet of the Empire (faction 1) with the given
    presence range; its exterior graphic has a name of 19 characters
    after the path prefix. *)
Definition outpost (presence : Z) : Planet.t :=
  Planet.mk "Outpost" "M" "" "gfx/planet/exterior/0123456789abcdefghi"
            0%Z 1%Z presence [0%nat] [steady 100].

(** The same good with the given by-faction table. *)
Definition spice_with (fm : CommodityModifier) : Commodity.t :=
  Commodity.mk "Spice" "" 100 [] 200 0 fm 0%Z.

(** A universe of one system holding that planet. *)
Definition world_outpost (presence : Z) : World.t :=
  World.mk [spice] [0%Z]
           [StarSystem.mk 0%Z "Sol" 0 0 0 0 1%Z [] [0%nat] [] []]
           [outpost presence] true 0%Z None.

(** *** A save file codec *)

(** Integers in decimal notation. *)
Definition print_Z (z : Z) : string :=
  DecimalString.NilEmpty.string_of_int (Z.to_int z).

Definition parse_Z (s : string) : Z :=
  match DecimalString.NilEmpty.int_of_string s with
  | Some d => Z.of_int d
  | None => 0%Z
  end.

(** Collaborators for the examples: the lookup takes the first planet of
    the name, integers are printed in decimal, and a double is printed
    by its integral part, which is exact on the integral sums that the
    tracker accumulates. *)
Definition codec : Persistence := {|
  planet_get := fun planets nm =>
    let i := scan (fun p => String.eqb (Planet.name p) nm) planets in
    if (i <? length planets)%nat then Some i else None;
  printf_f := fun x => print_Z (Int_part x);
  printf_d := print_Z;
  printf_u64 := print_Z;
  atof := fun s => IZR (parse_Z s);
  atoi := parse_Z;
  atol := parse_Z
|}.

(** A price field with the given accumulators, last observed at time 7. *)
Definition observed (base sum sum2 : R) (cnt : Z) : CommodityPrice.t :=
  CommodityPrice.mk base 1 1 0 0 7%Z "" sum sum2 cnt.

Definition ore : Commodity.t := Commodity.mk "Ore" "" 50 [] 200 0 [] 0%Z.

Definition ore_ptr : Commodity_ptr := 1%nat.

(** A planet that sells food, seen twice at 100 and 110 credits, and
    ore, never seen. *)
Definition bazaar : Planet.t :=
  Planet.mk "Earth" "M" "" "" 0%Z (-1)%Z 0%Z [0%nat; 1%nat]
            [observed 100 210 22100 2; steady 50].

Definition world_bazaar : World.t :=
  World.mk [food; ore] [0%Z; 1%Z]
           [StarSystem.mk 0%Z "Sol" 0 0 0 0 (-1)%Z [] [0%nat] [] []]
           [bazaar] true 0%Z None.

(** A universe of two joined systems with one priced good, before the
    economy is initialised and with three updates queued. *)
Definition world_cold : World.t :=
  World.mk [food] [0%Z] two_systems [] false 3%Z None.

(** ** Life cycle of the network model *)

Section Lifecycle.
Context `{Externals}.

(** [economy_refresh]: rebuilds the admittance matrix and solves for the
    prices, when the economy is initialised. *)
Definition economy_refresh (w : World.t) : Z * Log * World.t :=
  if negb (World.econ_initialized w) then (0%Z, [], w)
  else
    let '(ret, log, w) := econ_createGMatrix w in
    if negb (ret =? 0)%Z then ((-1)%Z, log, w)
    else
      let '(_, log', w) := economy_update w 0 in
      (0%Z, log ++ log', w).

(** [economy_init]: gives every system a zeroed array of [econ_nprices]
    prices ([calloc]), marks the economy initialised and refreshes it;
    the result of the refresh is not looked at. *)
Definition economy_init (w : World.t) : Z * Log * World.t :=
  if World.econ_initialized w then (0%Z, [], w)
  else
    let systems :=
      map (fun sys => StarSystem.set_prices sys
                        (replicate (World.econ_nprices w) 0))
          (World.systems_stack w) in
    let w := World.mk (World.commodity_stack w) (World.econ_comm w) systems
                      (World.planet_stack w) true (World.econ_queued w)
                      (World.econ_G w) in
    let '(_, log, w) := economy_refresh w in
    (0%Z, log, w).

(** [economy_addQueuedUpdate]: [econ_queued++] on an [int]. *)
Definition economy_addQueuedUpdate (w : World.t) : World.t :=
  World.mk (World.commodity_stack w) (World.econ_comm w)
           (World.systems_stack w) (World.planet_stack w)
           (World.econ_initialized w) (wrap_int (World.econ_queued w + 1))
           (World.econ_G w).

(** [economy_execQueued]: refreshes when an update is queued. *)
Definition economy_execQueued (w : World.t) : Z * Log * World.t :=
  if negb (World.econ_queued w =? 0)%Z then economy_refresh w
  else (0%Z, [], w).

(** [economy_destroy]: frees the price arrays (a freed array is the
    empty list) and the matrix, and marks the economy uninitialised. *)
Definition economy_destroy (w : World.t) : World.t :=
  if negb (World.econ_initialized w) then w
  else
    World.mk (World.commodity_stack w) (World.econ_comm w)
             (map (fun sys => StarSystem.set_prices sys [])
                  (World.systems_stack w))
             (World.planet_stack w) false (World.econ_queued w) None.

End Lifecycle.

(** Every system holds one price slot for every priced good. *)
Definition prices_allocated (w : World.t) : Prop :=
  Forall (fun sys => length (StarSystem.prices sys) = World.econ_nprices w)
         (World.systems_stack w).

(** Two systems that differ in their price arrays only. *)
Definition same_topology (s s' : StarSystem.t) : Prop :=
  exists ps, s' = StarSystem.set_prices s ps.

(** The systems with the zeroed price arrays that [economy_init]
    allocates. *)
Definition reallocate (w : World.t) : list StarSystem.t :=
  map (fun sys => StarSystem.set_prices sys
                    (replicate (World.econ_nprices w) 0))
      (World.systems_stack w).

(** ** Shape of the admittance matrix *)

(** Nebula density and volatility are not negative. *)
Definition nebula_ok (s : StarSystem.t) : Prop :=
  0 <= StarSystem.nebu_density s /\ 0 <= StarSystem.nebu_volatility s.

(** No jump of a system leads to a system that carries the index of the
    system itself as its identifier. *)
Definition no_self_jump (systems : list StarSystem.t) : Prop :=
  forall i sys j,
    systems !! i = Some sys -> (j < StarSystem.njumps sys)%nat ->
    StarSystem.id (systems !!! JumpPoint.target (StarSystem.jumps sys !!! j))
    <> Z.of_nat i.

(** ** Observation tracker: the average over the universe *)

(** Body of the innermost loop of [economy_getAveragePrice] for the
    planet [sys->planets[j]]: the running sums [av], [av2] and the
    counter [cnt] of planets with observations. *)
Definition average_visit (w : World.t) (com : Commodity_ptr)
  (ptr : Planet_ptr) (st : R * R * Z) : R * R * Z :=
  let '(av, av2, cnt) := st in
  let p := World.planet_stack w !!! ptr in
  let nm := Commodity.name (World.commodity_stack w !!! com) in
  let k := scan (fun c : Commodity_ptr =>
                   String.eqb
                     (Commodity.name (World.commodity_stack w !!! c)) nm)
                (Planet.commodities p) in
  if (k <? Planet.ncommodities p)%nat then
    let commPrice := Planet.commodityPrice p !!! k in
    if (0 <? CommodityPrice.cnt commPrice)%Z then
      (av + CommodityPrice.sum commPrice / IZR (CommodityPrice.cnt commPrice),
       av2 + CommodityPrice.sum commPrice * CommodityPrice.sum commPrice
             / IZR (wrap_int (CommodityPrice.cnt commPrice
                              * CommodityPrice.cnt commPrice)),
       wrap_int (cnt + 1))
    else st
  else st.

(** [economy_getAveragePrice com &mean &std]: the return value and the
    two output parameters (the warning for a good that is not priced is
    logging only). *)
Definition economy_getAveragePrice (w : World.t) (com : Commodity_ptr)
  : Z * credits_t * R :=
  let k := Z.of_nat com in
  let i := scan (fun e => (e =? k)%Z) (World.econ_comm w) in
  if (length (World.econ_comm w) <=? i)%nat then (1%Z, 0%Z, 0)
  else
    let '(av, av2, cnt) :=
      for_loop (length (World.systems_stack w)) 0
        (fun i st =>
           let sys := World.systems_stack w !!! i in
           for_loop (StarSystem.nplanets sys) 0
             (fun j st => average_visit w com (StarSystem.planets sys !!! j) st)
             st)
        (0, 0, 0%Z) in
    let '(av, av2) :=
      if (0 <? cnt)%Z then
        let av := av / IZR cnt in
        (av, sqrt (av2 / IZR cnt - av * av))
      else (av, av2) in
    (0%Z, credits_of_double (av + 0.5), av2).

(** The planets that the loops visit, in order: one visit for every
    entry of a system's planet list. *)
Definition visits (w : World.t) : list Planet_ptr :=
  flat_map StarSystem.planets (World.systems_stack w).

(** The price field that a visit looks at, when the planet sells a good
    of the name and the field has observations. *)
Definition visit_field (w : World.t) (com : Commodity_ptr) (ptr : Planet_ptr)
  : option CommodityPrice.t :=
  let p := World.planet_stack w !!! ptr in
  let k := planet_index w com p in
  if (k <? Planet.ncommodities p)%nat then
    let cp := Planet.commodityPrice p !!! k in
    if (0 <? CommodityPrice.cnt cp)%Z then Some cp else None
  else None.

(** The mean of the observations of a price field. *)
Definition field_mean (cp : CommodityPrice.t) : R :=
  CommodityPrice.sum cp / IZR (CommodityPrice.cnt cp).

(** The sum of a list of reals. *)
Definition total (l : list R) : R := fold_right Rplus 0 l.

(** ** Observation tracker: a sequence of landings *)

(** [economy_averageSeenPrices p] called at each of the instants [ts],
    one after the other. *)
Definition observe_all `{Externals} (w : World.t) (ts : list ntime_t)
  (p : Planet.t) : Planet.t :=
  fold_left (fun p t => economy_averageSeenPrices w t p) ts p.

(** The instants [ts] come one after the other, all later than [t0]. *)
Fixpoint increasing (t0 : ntime_t) (ts : list ntime_t) : Prop :=
  match ts with
  | [] => True
  | t :: rest => (t0 < t)%Z /\ increasing t rest
  end.

(** ** Gatherables: cargo floating in space *)

(** Modelled from the spec: the two-dimensional vector of physics.h,
    with its cartesian and polar fields ([mod_] is the field [mod]);
    [vectnull] zeroes all four. *)
Module Vector2d.
Record t := mk {
  x : R;
  y : R;
  mod_ : R;
  angle : R
}.
Definition null : t := mk 0 0 0 0.
End Vector2d.

(** Modelled from the spec: the gatherable record of economy.h. *)
Module Gatherable.
Record t := mk {
  type : Commodity_ptr;
  pos : Vector2d.t;
  vel : Vector2d.t;
  timer : R;
  lifeleng : R
}.
Definition null : t := mk O Vector2d.null Vector2d.null 0 0.
End Gatherable.

#[global] Instance Gatherable_inhabited : Inhabited Gatherable.t :=
  populate Gatherable.null.

(** The state of the gatherables: [gatherable_nstack] is the length of
    [gatherable_stack]. *)
Module Gatherables.
Record t := mk {
  gatherable_stack : list Gatherable.t;
  noscoop_timer : R
}.
End Gatherables.

Definition GATHER_DIST : R := 30.

(** Collaborators of the gatherables: the distance of two vectors
    (physics.c) and the pilot functions that [gatherable_gather] calls
    (pilot.c, pilot_cargo.c). *)
Class Space := {
  vect_dist : Vector2d.t -> Vector2d.t -> R;
  Pilot : Type;
  pilot_pos : Pilot -> Vector2d.t;
  pilot_cargoAdd : Pilot -> Commodity_ptr -> Z -> Z * Pilot;
  pilot_isPlayer : Pilot -> bool;
  pilot_cargoFree : Pilot -> Z
}.

(** [gatherable_init com pos vel]; [rngf] is the value that [RNGF()]
    returns. *)
Definition gatherable_init (st : Gatherables.t) (rngf : R)
  (com : Commodity_ptr) (pos vel : Vector2d.t) : Gatherables.t :=
  Gatherables.mk
    (Gatherables.gatherable_stack st
     ++ [Gatherable.mk com pos vel 0 (rngf * 100 + 50)])
    (Gatherables.noscoop_timer st).

(** One gatherable after [dt]: the timer and the cartesian position
    move on, the polar fields of the position are not updated. *)
Definition advance (dt : R) (g : Gatherable.t) : Gatherable.t :=
  Gatherable.mk (Gatherable.type g)
    (Vector2d.mk
       (Vector2d.x (Gatherable.pos g) + dt * Vector2d.x (Gatherable.vel g))
       (Vector2d.y (Gatherable.pos g) + dt * Vector2d.y (Gatherable.vel g))
       (Vector2d.mod_ (Gatherable.pos g))
       (Vector2d.angle (Gatherable.pos g)))
    (Gatherable.vel g)
    (Gatherable.timer g + dt)
    (Gatherable.lifeleng g).

Definition expired (g : Gatherable.t) : bool :=
  if Rgt_dec (Gatherable.timer g) (Gatherable.lifeleng g) then true
  else false.

(** The loop of [gatherable_update], from the index [i] on: an expired
    gatherable is removed by moving the rest of the stack down, and the
    index stays ([i--] then [i++]).  Every iteration either removes an
    element or moves the index up, so the number of iterations left is
    at most [fuel]. *)
Fixpoint update_loop (fuel : nat) (dt : R) (i : nat)
  (stack : list Gatherable.t) : list Gatherable.t :=
  match fuel with
  | O => stack
  | S fuel' =>
      if (i <? length stack)%nat then
        let stack := <[i := advance dt (stack !!! i)]> stack in
        if expired (stack !!! i) then
          update_loop fuel' dt i (delete i stack)
        else update_loop fuel' dt (S i) stack
      else stack
  end.

(** [gatherable_update dt]. *)
Definition gatherable_update (st : Gatherables.t) (dt : R) : Gatherables.t :=
  Gatherables.mk
    (update_loop (length (Gatherables.gatherable_stack st)) dt 0
                 (Gatherables.gatherable_stack st))
    (Gatherables.noscoop_timer st + dt).

(** [gatherable_free]. *)
Definition gatherable_free (st : Gatherables.t) : Gatherables.t :=
  Gatherables.mk [] (Gatherables.noscoop_timer st).

Section Gatherables.
Context `{Space}.

(** [curdist < mindist], where [mindist] starts as [INFINITY] ([None]). *)
Definition below (curdist : R) (mindist : option R) : bool :=
  match mindist with
  | None => true
  | Some m => if Rlt_dec curdist m then true else false
  end.

(** Body of the loop of [gatherable_getClosest]: the state is [curg]
    and [mindist]. *)
Definition closest_body (stack : list Gatherable.t) (pos : Vector2d.t)
  (rad : R) (i : nat) (st : Z * option R) : Z * option R :=
  let gat := stack !!! i in
  let curdist := vect_dist pos (Gatherable.pos gat) in
  if below curdist (snd st) && (if Rlt_dec curdist rad then true else false)
  then (Z.of_nat i, Some curdist)
  else st.

(** [gatherable_getClosest pos rad]. *)
Definition gatherable_getClosest (st : Gatherables.t) (pos : Vector2d.t)
  (rad : R) : Z :=
  fst (for_loop (length (Gatherables.gatherable_stack st)) 0
         (closest_body (Gatherables.gatherable_stack st) pos rad)
         ((-1)%Z, None)).

(** [gatherable_getPos &pos &vel id]: the flag and the two outputs. *)
Definition gatherable_getPos (st : Gatherables.t) (id : Z)
  : Z * Vector2d.t * Vector2d.t :=
  if ((id <? 0)
      || (Z.of_nat (length (Gatherables.gatherable_stack st)) - 1 <? id))%Z
  then (0%Z, Vector2d.null, Vector2d.null)
  else
    let gat := Gatherables.gatherable_stack st !!! Z.to_nat id in
    (1%Z, Gatherable.pos gat, Gatherable.vel gat).

(** State of the loop of [gatherable_gather]: the stack, the timer of
    the "full cargo" message, the pilot, the values that [RNG(1,5)] has
    yet to return, and the messages shown to the player. *)
Definition gather_state : Type :=
  list Gatherable.t * R * Pilot * list Z * Log.

(** One iteration of the loop at index [i]: the gatherable within
    [GATHER_DIST] of the pilot is offered to the cargo; when something
    was added the gatherable is removed by moving the rest of the stack
    down.  The message texts are formatted by [ngettext]; the log keeps
    their kind. *)
Definition gather_body (i : nat) (st : gather_state) : gather_state :=
  let '(stack, noscoop, p, rng, log) := st in
  let gat := stack !!! i in
  if Rlt_dec (vect_dist (pilot_pos p) (Gatherable.pos gat)) GATHER_DIST then
    let '(q, p) := pilot_cargoAdd p (Gatherable.type gat) (hd 0%Z rng) in
    let rng := tl rng in
    if (0 <? q)%Z then
      let log := if pilot_isPlayer p then log ++ ["gathered"%string]
                 else log in
      let stack := delete i stack in
      let log :=
        if (pilot_cargoFree p <? 1)%Z && pilot_isPlayer p
        then log ++ ["No more cargo space available"%string] else log in
      (stack, noscoop, p, rng, log)
    else if pilot_isPlayer p
            && (if Rgt_dec noscoop 2 then true else false) then
      (stack, 0,
       p, rng,
       log ++ ["Cannot gather material: no more cargo space available"%string])
    else (stack, noscoop, p, rng, log)
  else st.

(** The loop [for (i=0; i < gatherable_nstack; i++)] of
    [gatherable_gather]: the index moves up after every iteration, the
    bound is read again every time. *)
Fixpoint gather_loop (fuel : nat) (i : nat) (st : gather_state)
  : gather_state :=
  match fuel with
  | O => st
  | S fuel' =>
      let '(stack, _, _, _, _) := st in
      if (i <? length stack)%nat then
        gather_loop fuel' (S i) (gather_body i st)
      else st
  end.

(** [gatherable_gather pilot], for the pilot that [pilot_get] finds. *)
Definition gatherable_gather (st : Gatherables.t) (p : Pilot) (rng : list Z)
  : Gatherables.t * Pilot * Log :=
  let '(stack, noscoop, p, _, log) :=
    gather_loop (length (Gatherables.gatherable_stack st)) 0
      (Gatherables.gatherable_stack st, Gatherables.noscoop_timer st, p,
       rng, []) in
  (Gatherables.mk stack noscoop, p, log).

End Gatherables.

(** What the gatherables need of the cargo functions of pilot_cargo.c:
    adding cargo does not move the ship, a quantity that fits the free
    space is added whole, and the free space shrinks by what was
    added. *)
Definition cargo_laws `{Space} : Prop :=
  (forall p c n, pilot_pos (snd (pilot_cargoAdd p c n)) = pilot_pos p) /\
  (forall p c n, (0 < n <= pilot_cargoFree p)%Z ->
                 fst (pilot_cargoAdd p c n) = n) /\
  (forall p c n, pilot_cargoFree (snd (pilot_cargoAdd p c n))
                 = (pilot_cargoFree p - fst (pilot_cargoAdd p c n))%Z).

(** The elements of a list at the odd offsets. *)
Fixpoint odd_elements {A : Type} (l : list A) : list A :=
  match l with
  | _ :: x :: rest => x :: odd_elements rest
  | _ => []
  end.

(** ** Ordering of commodities *)

(** The code of a character as an [unsigned char]. *)
Definition code (c : Ascii.ascii) : Z := Z.of_N (Ascii.N_of_ascii c).

(** Modelled from the spec: [strcmp] of the C library, on strings that
    hold no NUL character: the difference of the first two characters
    that differ, taken as [unsigned char], and 0 when there are none.
    The C standard fixes the sign of the result only. *)
Fixpoint strcmp (a b : string) : Z :=
  match a, b with
  | EmptyString, EmptyString => 0
  | EmptyString, String d _ => - code d
  | String c _, EmptyString => code c
  | String c a', String d b' =>
      if Ascii.eqb c d then strcmp a' b' else code c - code d
  end.

(** A string that a C string can hold: no character is NUL. *)
Fixpoint nul_free (s : string) : Prop :=
  match s with
  | EmptyString => True
  | String c s' => code c <> 0%Z /\ nul_free s'
  end.

(** [commodity_compareTech], on the two commodities that the arguments
    point to. *)
Definition commodity_compareTech (c1 c2 : Commodity.t) : Z :=
  if Rlt_dec (Commodity.price c1) (Commodity.price c2) then 1%Z
  else if Rgt_dec (Commodity.price c1) (Commodity.price c2) then (-1)%Z
  else strcmp (Commodity.name c1) (Commodity.name c2).

(** ** Loading the commodity catalogue *)

(** Collaborators of [commodity_load]: the reader of data files
    (ndata.c), the XML parser, which returns the root element of the
    document, the two numeric readers of nxml.h, and the two loaders of
    textures (nxml.c, opengl_tex.c), of which the code looks only at
    whether they return a texture or [NULL]. *)
Class DataFiles := {
  COMMODITY_DATA_PATH : string;
  COMMODITY_GFX_PATH : string;
  ndata_read : string -> option string;
  xmlParseMemory : string -> option xml;
  xml_getInt : xml -> Z;
  xml_getFloat : xml -> R;
  xml_parseTexture : xml -> string -> bool;
  gl_newImage : string -> bool
}.

Definition XML_COMMODITY_ID : string := "Commodities".
Definition XML_COMMODITY_TAG : string := "commodity".

Section CatalogueLoad.
Context `{DataFiles}.

(** One child element of a commodity element, as the body of the loop
    of [commodity_parse] reads it.  An element has one tag, so at most
    one of the tests applies; the two texture elements leave the
    fields of this record as they are.  A string element without text
    and a modifier without a type attribute give [NULL], here the empty
    string. *)
Definition parse_child (temp : Commodity.t) (node : xml) : Commodity.t :=
  if xml_isNode node "name" then
    Commodity.mk (xml_raw node) (Commodity.description temp)
      (Commodity.price temp) (Commodity.planet_modifier temp)
      (Commodity.period temp) (Commodity.population_modifier temp)
      (Commodity.faction_modifier temp) (Commodity.lastPurchasePrice temp)
  else if xml_isNode node "description" then
    Commodity.mk (Commodity.name temp) (xml_raw node)
      (Commodity.price temp) (Commodity.planet_modifier temp)
      (Commodity.period temp) (Commodity.population_modifier temp)
      (Commodity.faction_modifier temp) (Commodity.lastPurchasePrice temp)
  else if xml_isNode node "price" then
    Commodity.mk (Commodity.name temp) (Commodity.description temp)
      (IZR (xml_getInt node)) (Commodity.planet_modifier temp)
      (Commodity.period temp) (Commodity.population_modifier temp)
      (Commodity.faction_modifier temp) (Commodity.lastPurchasePrice temp)
  else if xml_isNode node "gfx_store" then temp
  else if xml_isNode node "population_modifier" then
    Commodity.mk (Commodity.name temp) (Commodity.description temp)
      (Commodity.price temp) (Commodity.planet_modifier temp)
      (Commodity.period temp) (xml_getFloat node)
      (Commodity.faction_modifier temp) (Commodity.lastPurchasePrice temp)
  else if xml_isNode node "period" then
    Commodity.mk (Commodity.name temp) (Commodity.description temp)
      (Commodity.price temp) (Commodity.planet_modifier temp)
      (xml_getFloat node) (Commodity.population_modifier temp)
      (Commodity.faction_modifier temp) (Commodity.lastPurchasePrice temp)
  else if xml_isNode node "planet_modifier" then
    Commodity.mk (Commodity.name temp) (Commodity.description temp)
      (Commodity.price temp)
      ((default ""%string (xmlr_attr node "type"), xml_getFloat node)
       :: Commodity.planet_modifier temp)
      (Commodity.period temp) (Commodity.population_modifier temp)
      (Commodity.faction_modifier temp) (Commodity.lastPurchasePrice temp)
  else if xml_isNode node "faction_modifier" then
    Commodity.mk (Commodity.name temp) (Commodity.description temp)
      (Commodity.price temp) (Commodity.planet_modifier temp)
      (Commodity.period temp) (Commodity.population_modifier temp)
      ((default ""%string (xmlr_attr node "type"), xml_getFloat node)
       :: Commodity.faction_modifier temp)
      (Commodity.lastPurchasePrice temp)
  else temp.

(** The same child element as it acts on [temp->gfx_store], of which
    the model keeps whether it is set: a [gfx_store] element sets it to
    its texture or, failing that, to the default image. *)
Definition parse_gfx_store (gfx_store : bool) (node : xml) : bool :=
  if xml_isNode node "gfx_store" then
    if xml_parseTexture node (COMMODITY_GFX_PATH ++ "%s.png") then true
    else gl_newImage (COMMODITY_GFX_PATH ++ "_default.png")
  else gfx_store.

(** [commodity_parse temp parent]: the commodity that it leaves in
    [temp] and its warnings: one for a commodity without a name, one
    for a commodity with a price above 0 and no store graphic.  The
    function returns 0. *)
Definition commodity_parse (parent : xml) : Commodity.t * Log :=
  let '(temp, gfx_store) :=
    fold_left
      (fun st node =>
         (parse_child (fst st) node, parse_gfx_store (snd st) node))
      (xml_children parent)
      (Commodity.mk "" "" 0 [] 200 0 [] 0%Z, false) in
  let log := if String.eqb (Commodity.name temp) "" then
               ["Commodity has invalid or no name"%string]
             else [] in
  let log := if Rgt_dec (Commodity.price temp) 0 then
               if gfx_store then log
               else log ++ ["No <gfx_store> node found"%string]
             else log in
  (temp, log).

(** Body of the loop of [commodity_load] over the children of the root
    element: the stack, the list of priced goods and the warnings. *)
Definition load_element (st : list Commodity.t * list Z * Log) (node : xml)
  : list Commodity.t * list Z * Log :=
  let '(stack, comm, log) := st in
  if xml_isNode node XML_COMMODITY_TAG then
    let '(temp, warnings) := commodity_parse node in
    let stack := stack ++ [temp] in
    let log := log ++ warnings in
    let comm :=
      if Rgt_dec (Commodity.price (stack !!! (length stack - 1)%nat)) 0
      then comm ++ [(Z.of_nat (length stack) - 1)%Z]
      else comm in
    (stack, comm, log)
  else (stack, comm, log ++ ["unknown node"%string]).

(** [commodity_load]: return value, messages and the new state. *)
Definition commodity_load (w : World.t) : Z * Log * World.t :=
  match ndata_read COMMODITY_DATA_PATH with
  | None => ((-1)%Z, [], w)
  | Some buf =>
      match xmlParseMemory buf with
      | None => ((-1)%Z, ["not valid XML"%string], w)
      | Some node =>
          if negb (String.eqb (xml_tag node) XML_COMMODITY_ID) then
            ((-1)%Z, ["missing root element"%string], w)
          else
            match xml_children node with
            | [] => ((-1)%Z, ["does not contain elements"%string], w)
            | children =>
                let '(stack, comm, log) :=
                  fold_left load_element children
                    (World.commodity_stack w, World.econ_comm w, []) in
                (0%Z, log,
                 World.mk stack comm (World.systems_stack w)
                          (World.planet_stack w) (World.econ_initialized w)
                          (World.econ_queued w) (World.econ_G w))
            end
      end
  end.

End CatalogueLoad.

(** Every entry of the list of priced goods is the offset of a
    commodity of the stack. *)
Definition comm_in_stack (w : World.t) : Prop :=
  Forall (fun e => (0 <= e < Z.of_nat (length (World.commodity_stack w)))%Z)
         (World.econ_comm w).

(** The warnings that one element of the catalogue gives. *)
Definition element_warnings `{DataFiles} (node : xml) : Log :=
  if xml_isNode node XML_COMMODITY_TAG then snd (commodity_parse node)
  else ["unknown node"%string].

(** The value of the last modifier element of the given type among
    [nodes], or [d] when there is none. *)
Definition last_modifier `{DataFiles} (tag key : string) (nodes : list xml)
  (d : R) : R :=
  fold_left
    (fun acc node =>
       if xml_isNode node tag
          && String.eqb key (default ""%string (xmlr_attr node "type"))
       then xml_getFloat node else acc)
    nodes d.

(** ** What the initialiser leaves of the observation state *)

(** A price field without observations. *)
Definition unobserved (cp : CommodityPrice.t) : Prop :=
  CommodityPrice.cnt cp = 0%Z /\ CommodityPrice.sum cp = 0 /\
  CommodityPrice.sum2 cp = 0 /\ CommodityPrice.updateTime cp = 0%Z.

(** The four fields of a price field that the tracker writes. *)
Definition observation (cp : CommodityPrice.t) : Z * R * R * Z :=
  (CommodityPrice.updateTime cp, CommodityPrice.sum cp,
   CommodityPrice.sum2 cp, CommodityPrice.cnt cp).

(** [x] is the planet [p] with other price fields, as many as before. *)
Definition same_shape (p x : Planet.t) : Prop :=
  exists l, x = Planet.set_commodityPrice p l /\
            length l = length (Planet.commodityPrice p).

(** Every price field of a commodity of the planet is unobserved. *)
Definition wiped (x : Planet.t) : Prop :=
  forall i cp, (i < Planet.ncommodities x)%nat ->
               Planet.commodityPrice x !! i = Some cp -> unobserved cp.

(** The planet at offset [q] is the planet of the stack [W] at that
    offset with other price fields. *)
Definition shaped (W : list Planet.t) (q : nat) (x : Planet.t) : Prop :=
  exists p, W !! q = Some p /\ same_shape p x.

(** State of the planets along the initialiser, relative to the stack
    [W] it started from: as many planets, each in the shape of the
    planet it was, wiped when marked [done], and untouched when no
    system lists it. *)
Definition reset_inv (W : list Planet.t) (systems : list StarSystem.t)
  (done : nat -> Prop) (planets : list Planet.t) : Prop :=
  length planets = length W /\
  marks (shaped W) (fun _ => wiped) done planets /\
  forall q, ~ belongs systems q -> planets !! q = W !! q.

(** The systems list the same planets as [systems0]. *)
Definition same_planets (systems0 systems : list StarSystem.t) : Prop :=
  map StarSystem.planets systems = map StarSystem.planets systems0.

(** The loop that rewrites the price field of each commodity of a
    planet in turn by [g]. *)
Definition entry_loop (g : Planet.t -> nat -> CommodityPrice.t ->
                           CommodityPrice.t) (p : Planet.t) : Planet.t :=
  for_loop (Planet.ncommodities p) 0
    (fun j p =>
       Planet.set_commodityPrice p
         (<[j := g p j (Planet.commodityPrice p !!! j)]>
            (Planet.commodityPrice p)))
    p.

(** State of the world along the initialiser: the catalogue [cs0], the
    systems with the planets of [systems0], and the planets as
    [reset_inv] has them with every planet of a system wiped. *)
Definition reset_state (W : list Planet.t) (systems0 : list StarSystem.t)
  (cs0 : list Commodity.t) (w : World.t) : Prop :=
  World.commodity_stack w = cs0 /\
  same_planets systems0 (World.systems_stack w) /\
  reset_inv W systems0 (belongs systems0) (World.planet_stack w).

(** *** Scenarios of the gatherables and of the catalogue *)

(** Pilots for the examples: a ship is its position and the free space
    of its hold.  The distance is the Euclidean one; the hold takes
    what is offered as far as there is room. *)
Definition space_plain : Space := {|
  vect_dist := fun a b =>
    sqrt ((Vector2d.x a - Vector2d.x b) * (Vector2d.x a - Vector2d.x b)
          + (Vector2d.y a - Vector2d.y b) * (Vector2d.y a - Vector2d.y b));
  Pilot := Vector2d.t * Z;
  pilot_pos := fst;
  pilot_cargoAdd := fun p _ n =>
    let q := Z.max 0 (Z.min n (snd p)) in (q, (fst p, (snd p - q)%Z));
  pilot_isPlayer := fun _ => true;
  pilot_cargoFree := snd
|}.

(** A ship at rest at the origin with room for 100 tons. *)
Definition freighter : @Pilot space_plain := (Vector2d.null, 100%Z).

(** A gatherable of the given commodity at rest at the point [(x, 0)]. *)
Definition crate (com : Commodity_ptr) (x : R) : Gatherable.t :=
  Gatherable.mk com (Vector2d.mk x 0 x 0) Vector2d.null 0 100.

(** Three crates at 3, 4 and 5 units from the origin. *)
Definition three_crates : Gatherables.t :=
  Gatherables.mk [crate 0 3; crate 1 4; crate 0 5] 0.

(** The commodity file of the examples: one priced good and an element
    that is no commodity. *)
Definition commodity_xml : xml :=
  XmlNode "Commodities" []
    [XmlNode "commodity" []
       [XmlNode "name" [] [] "Food"; XmlNode "price" [] [] "100"] "";
     XmlNode "ship" [] [] ""] "".

(** Collaborators of the loader for the examples: one data file, which
    parses to [commodity_xml]; numbers are read in decimal notation, and
    every texture loads. *)
Definition data_plain : DataFiles := {|
  COMMODITY_DATA_PATH := "dat/commodity.xml";
  COMMODITY_GFX_PATH := "gfx/commodity/";
  ndata_read := fun path =>
    if String.eqb path "dat/commodity.xml" then Some "<Commodities>"%string
    else None;
  xmlParseMemory := fun _ => Some commodity_xml;
  xml_getInt := fun n => parse_Z (xml_raw n);
  xml_getFloat := fun n => IZR (parse_Z (xml_raw n));
  xml_parseTexture := fun _ _ => true;
  gl_newImage := fun _ => true
|}.

(** The universe of the bazaar after food was bought at 250 credits. *)
Definition food_bought : Commodity.t :=
  Commodity.mk "Food" "" 100 [] 200 0 [] 250%Z.

Definition world_traded : World.t :=
  World.mk [food_bought; ore] [0%Z; 1%Z]
           [StarSystem.mk 0%Z "Sol" 0 0 0 0 (-1)%Z [] [0%nat] [] []]
           [bazaar] true 0%Z None.

(** ** Jump routes and the cells of the admittance matrix *)

(** The systems that the jumps of a system lead to. *)
Definition targets (sys : StarSystem.t) : list nat :=
  map JumpPoint.target (StarSystem.jumps sys).

(** Jump routes recorded in both directions: every system carries its
    position in the stack as identifier, no two jumps of a system lead
    to the same system, and every jump leads to another system of the
    stack, which has a jump back. *)
Definition routes_mutual (systems : list StarSystem.t) : Prop :=
  forall i sys, systems !! i = Some sys ->
    StarSystem.id sys = Z.of_nat i /\
    NoDup (targets sys) /\
    forall t, In t (targets sys) ->
      t <> i /\
      exists sys', systems !! t = Some sys' /\ In i (targets sys').

(** Faction standings do not depend on the side they are asked from. *)
Definition standings_mutual `{Externals} : Prop :=
  forall a b, areEnemies a b = areEnemies b a /\
              areAllies a b = areAllies b a.

(** The conductance [1/R] of a jump between the systems at two
    positions of the stack. *)
Definition conductance `{Externals} (systems : list StarSystem.t)
  (a b : nat) : R :=
  1 / econ_calcJumpR (systems !!! a) (systems !!! b).

(** The cell [(a, b)] has been entered, from either end, by the time
    the loops of [econ_createGMatrix] reach jump [j] of system [k]. *)
Definition entered (systems : list StarSystem.t) (k j a b : nat) : Prop :=
  exists k' j',
    (k' < k \/ (k' = k /\ j' < j))%nat /\
    (j' < StarSystem.njumps (systems !!! k'))%nat /\
    ((k' = a /\ targets (systems !!! k') !!! j' = b) \/
     (k' = b /\ targets (systems !!! k') !!! j' = a)).

(** State of the matrix when the loops reach jump [j] of system [k]:
    the dimensions are those of the stack, an off-diagonal cell holds
    the negated conductance once it has been entered and 0 before, and
    the diagonal of a system whose row is done holds the sum of the
    conductances of its jumps and the self conductance. *)
Definition fill_inv `{Externals} (systems : list StarSystem.t) (k j : nat)
  (M : cs.t) : Prop :=
  cs.m M = Z.of_nat (length systems) /\
  cs.n M = Z.of_nat (length systems) /\
  (forall a b : nat, a <> b ->
     (entered systems k j a b ->
      cs_get M (Z.of_nat a) (Z.of_nat b) = - conductance systems a b) /\
     (~ entered systems k j a b ->
      cs_get M (Z.of_nat a) (Z.of_nat b) = 0)) /\
  (forall a, (a < k)%nat ->
     cs_get M (Z.of_nat a) (Z.of_nat a)
     = total (map (conductance systems a) (targets (systems !!! a)))
       + 1 / ECON_SELF_RES).

(** Two systems and a jump from the first to the second that has no
    return jump. *)
Definition one_way_systems : list StarSystem.t :=
  [plain_system 0 (-1) [1%nat]; plain_system 1 (-1) []].

(** * Properties *)

(** ** Scanning loops *)

Lemma scan_le {A : Type} (test : A -> bool) (a : list A) :
  (scan test a <= length a)%nat.
Proof. induction a as [|x a IH]; simpl; [lia|]. destruct (test x); lia. Qed.

(** On exit below the bound the element passes the test and no earlier
    element does. *)
Lemma scan_found {A : Type} (test : A -> bool) (a : list A) :
  (scan test a < length a)%nat ->
  exists x, a !! scan test a = Some x /\ test x = true /\
            forall j y, (j < scan test a)%nat -> a !! j = Some y ->
                        test y = false.
Proof.
  induction a as [|x a IH]; simpl; [lia|].
  destruct (test x) eqn:Hx; intros Hlt.
  - exists x. repeat split; auto. intros j y Hj; lia.
  - destruct IH as (x' & Hl & Ht & Hmin); [lia|].
    exists x'. repeat split; auto.
    intros [|j] y Hj Hy; simpl in Hy.
    + congruence.
    + apply (Hmin j); [lia|assumption].
Qed.

(** On exit at the bound no element passes the test. *)
Lemma scan_missed {A : Type} (test : A -> bool) (a : list A) :
  (length a <= scan test a)%nat ->
  forall j y, a !! j = Some y -> test y = false.
Proof.
  induction a as [|x a IH]; simpl; intros Hge j y Hy.
  - destruct j; discriminate.
  - destruct (test x) eqn:Hx; [lia|].
    destruct j as [|j]; simpl in Hy.
    + congruence.
    + apply (IH ltac:(lia) j); assumption.
Qed.

(** The first element passing the test is where the scan stops. *)
Lemma scan_first {A : Type} (test : A -> bool) (a : list A) (i : nat) (x : A) :
  a !! i = Some x -> test x = true ->
  (forall j y, (j < i)%nat -> a !! j = Some y -> test y = false) ->
  scan test a = i.
Proof.
  revert i; induction a as [|z a IH]; intros i Hi Ht Hmin.
  - destruct i; discriminate.
  - simpl. destruct i as [|i]; simpl in Hi.
    + inversion Hi; subst. rewrite Ht. reflexivity.
    + rewrite (Hmin O z); [|lia|reflexivity].
      f_equal. apply IH; auto.
      intros j y Hj Hy. apply (Hmin (S j)); [lia|exact Hy].
Qed.

(** ** Commodity catalogue *)

(** C10: [commodity_get] and [commodity_getW] return the same pointer
    for every name: the first commodity of the stack whose name is equal
    to the argument, or [NULL] when no commodity carries that name. *)
Theorem commodity_get_getW_same (w : World.t) (nm : string) :
  fst (commodity_get w nm) = commodity_getW w nm /\
  match commodity_getW w nm with
  | Some i =>
      exists c, World.commodity_stack w !! i = Some c /\
                Commodity.name c = nm /\
                forall j c', (j < i)%nat ->
                             World.commodity_stack w !! j = Some c' ->
                             Commodity.name c' <> nm
  | None =>
      forall j c', World.commodity_stack w !! j = Some c' ->
                   Commodity.name c' <> nm
  end.
Proof.
  unfold commodity_get, commodity_getW.
  set (test := fun c => String.eqb (Commodity.name c) nm).
  destruct (Nat.ltb_spec (scan test (World.commodity_stack w))
                         (length (World.commodity_stack w))) as [Hlt|Hge].
  - split; [reflexivity|].
    destruct (scan_found test _ Hlt) as (c & Hc & Ht & Hmin).
    exists c. split; [exact Hc|]. split.
    + apply String.eqb_eq. exact Ht.
    + intros j c' Hj Hc' Heq. specialize (Hmin j c' Hj Hc').
      unfold test in Hmin. apply String.eqb_neq in Hmin. contradiction.
  - split; [reflexivity|].
    intros j c' Hc' Heq.
    pose proof (scan_missed test _ Hge j c' Hc') as Hf.
    unfold test in Hf. apply String.eqb_neq in Hf. contradiction.
Qed.

(** The warning of [commodity_get] is raised exactly on a miss. *)
Lemma commodity_get_warns (w : World.t) (nm : string) :
  snd (commodity_get w nm) = [] <-> commodity_getW w nm <> None.
Proof.
  unfold commodity_get, commodity_getW.
  destruct (_ <? _)%nat; simpl; split; intros; congruence.
Qed.

(** Evaluation of a closed term down to its arithmetic over the reals. *)
Ltac real_eval :=
  cbv -[Rplus Rmult Rdiv Rinv Ropp IZR Rabs Rminus Rle_dec Int_part sqrt sin
        PI tanh ln exp Rlt Rle Rgt Rge INR].

(** ** Network model *)

Section NetworkFacts.
Context `{Externals}.

(** C9: for systems with non-negative nebula density and volatility the
    resistance of a jump is strictly positive; it is the base resistance
    plus a thousandth of the two densities plus a hundredth of the two
    volatilities, raised by [ECON_FACTION_MOD] of the base between
    enemies, lowered by as much between allies, and left alone when a
    system has no faction or the factions are neither. *)
Theorem econ_calcJumpR_contract (A B : StarSystem.t) :
  0 <= StarSystem.nebu_density A -> 0 <= StarSystem.nebu_density B ->
  0 <= StarSystem.nebu_volatility A -> 0 <= StarSystem.nebu_volatility B ->
  let fA := StarSystem.faction A in
  let fB := StarSystem.faction B in
  0 < econ_calcJumpR A B /\
  (fA <> (-1)%Z -> fB <> (-1)%Z -> areEnemies fA fB = true ->
   econ_calcJumpR A B
   = ECON_BASE_RES + hazard A B + ECON_FACTION_MOD * ECON_BASE_RES) /\
  (fA <> (-1)%Z -> fB <> (-1)%Z ->
   areEnemies fA fB = false -> areAllies fA fB = true ->
   econ_calcJumpR A B
   = ECON_BASE_RES + hazard A B - ECON_FACTION_MOD * ECON_BASE_RES) /\
  (fA = (-1)%Z \/ fB = (-1)%Z \/
   (areEnemies fA fB = false /\ areAllies fA fB = false) ->
   econ_calcJumpR A B = ECON_BASE_RES + hazard A B).
Proof.
  intros HdA HdB HvA HvB fA fB.
  unfold econ_calcJumpR, hazard, ECON_BASE_RES, ECON_FACTION_MOD.
  fold fA fB.
  repeat split.
  - destruct (negb (fA =? -1)%Z && negb (fB =? -1)%Z);
      [destruct (areEnemies fA fB); [|destruct (areAllies fA fB)]|]; lra.
  - intros HA HB He.
    apply Z.eqb_neq in HA, HB. rewrite HA, HB, He. simpl. lra.
  - intros HA HB He Ha.
    apply Z.eqb_neq in HA, HB. rewrite HA, HB, He, Ha. simpl. lra.
  - intros [HA|[HB|[He Ha]]].
    + rewrite HA. simpl. lra.
    + rewrite HB. rewrite andb_false_r. lra.
    + rewrite He, Ha.
      destruct (negb (fA =? -1)%Z && negb (fB =? -1)%Z); lra.
Qed.

(** ** Solver driver *)

Lemma for_loop_ind {S : Type} (P : nat -> S -> Prop) (n i : nat)
  (body : nat -> S -> S) (s : S) :
  P i s ->
  (forall k s, (i <= k < i + n)%nat -> P k s -> P (Datatypes.S k) (body k s)) ->
  P (i + n)%nat (for_loop n i body s).
Proof.
  revert i s; induction n as [|n IH]; intros i s H0 Hstep; simpl.
  - rewrite Nat.add_0_r. exact H0.
  - replace (i + Datatypes.S n)%nat with (Datatypes.S i + n)%nat by lia.
    apply IH.
    + apply Hstep; [lia|exact H0].
    + intros k s' Hk. apply Hstep. lia.
Qed.

Lemma for_loop_ind0 {S : Type} (P : nat -> S -> Prop) (n : nat)
  (body : nat -> S -> S) (s : S) :
  P O s ->
  (forall k s, (k < n)%nat -> P k s -> P (Datatypes.S k) (body k s)) ->
  P n (for_loop n 0 body s).
Proof.
  intros H0 Hstep. change (P (0 + n)%nat (for_loop n 0 body s)).
  apply for_loop_ind; [exact H0|]. intros k s' Hk. apply Hstep. lia.
Qed.

Lemma load_intensities_zero (dt : Z) (systems : list StarSystem.t) (j : nat) :
  load_intensities dt systems j = replicate (length systems) 0.
Proof.
  unfold load_intensities, econ_calcSysI.
  induction systems as [|s l IH]; simpl; [reflexivity|]. now rewrite IH.
Qed.

(** What the per-good loop has done after [n] goods: every system holds
    the solver's vector, shifted by the offset, in its first [n] price
    slots, and one warning per good is logged when the solver fails. *)
Lemma update_goods_spec (dt : Z) (G : cs.t) (systems0 : list StarSystem.t)
  (n : nat) :
  let sol := cs_qrsol 3 G (replicate (length systems0) 0) in
  let res := for_loop n 0 (update_good dt G) (systems0, []) in
  length (fst res) = length systems0 /\
  snd res = (if (fst sol =? 1)%Z then [] else replicate n solve_warning) /\
  forall i s, systems0 !! i = Some s ->
    exists s', fst res !! i = Some s' /\
      length (StarSystem.prices s') = length (StarSystem.prices s) /\
      forall j, (j < n)%nat -> (j < length (StarSystem.prices s))%nat ->
        StarSystem.prices s' !!! j = snd sol !!! i * 1 + 1.
Proof.
  intros sol res. subst res.
  change n with (0 + n)%nat at 2 4.
  apply (for_loop_ind (fun k st =>
    length (fst st) = length systems0 /\
    snd st = (if (fst sol =? 1)%Z then [] else replicate k solve_warning) /\
    forall i s, systems0 !! i = Some s ->
      exists s', fst st !! i = Some s' /\
        length (StarSystem.prices s') = length (StarSystem.prices s) /\
        forall j, (j < k)%nat -> (j < length (StarSystem.prices s))%nat ->
          StarSystem.prices s' !!! j = snd sol !!! i * 1 + 1)).
  - simpl. split; [reflexivity|]. split; [now destruct (fst sol =? 1)%Z|].
    intros i s Hs. exists s. repeat split; auto. intros j Hj; lia.
  - intros k [systems log] _ (Hlen & Hlog & Hsys). simpl in Hlen, Hlog, Hsys.
    unfold update_good.
    rewrite load_intensities_zero, Hlen. fold sol.
    destruct sol as [ret X] eqn:Hsol. simpl fst in *. simpl snd in *.
    split; [|split].
    + unfold store_prices. rewrite length_imap. exact Hlen.
    + rewrite Hlog. destruct (ret =? 1)%Z; [reflexivity|].
      rewrite replicate_S_end. reflexivity.
    + intros i s Hs. destruct (Hsys i s Hs) as (s' & Hs' & Hl & Hp).
      exists (StarSystem.set_prices s'
                (<[k := X !!! i * 1 + 1]> (StarSystem.prices s'))).
      split; [|split].
      * unfold store_prices. rewrite list_lookup_imap, Hs'. reflexivity.
      * simpl. rewrite length_insert. exact Hl.
      * intros j Hj Hjl. simpl.
        destruct (decide (j = k)) as [->|Hne].
        -- apply list_lookup_total_insert_eq. lia.
        -- rewrite list_lookup_total_insert_ne by auto. apply Hp; lia.
Qed.

(** C1 (as the code behaves): when the economy is initialised,
    [economy_update] returns 0 and stores, for every system and every
    priced good, the solver's vector entry scaled by 1 and offset by 1,
    whether or not the solve succeeded; a failed solve is reported by a
    warning and does not keep the value stored before. *)
Theorem economy_update_overwrites (w : World.t) (dt : Z) (G : cs.t)
  (i j : nat) (s : StarSystem.t) :
  World.econ_initialized w = true ->
  World.econ_G w = Some G ->
  World.systems_stack w !! i = Some s ->
  (j < World.econ_nprices w)%nat ->
  (j < length (StarSystem.prices s))%nat ->
  let sol := cs_qrsol 3 G (replicate (length (World.systems_stack w)) 0) in
  let res := economy_update w dt in
  fst (fst res) = 0%Z /\
  (fst sol <> 1%Z -> In solve_warning (snd (fst res))) /\
  StarSystem.prices (World.systems_stack (snd res) !!! i) !!! j
  = snd sol !!! i * 1 + 1.
Proof.
  intros Hinit HG Hs Hj Hjl sol res. subst res.
  unfold economy_update. rewrite Hinit, HG. simpl negb. cbv iota.
  pose proof (update_goods_spec dt G (World.systems_stack w)
                (World.econ_nprices w)) as Hspec.
  cbv zeta in Hspec. fold sol in Hspec.
  destruct (for_loop (World.econ_nprices w) 0 (update_good dt G)
              (World.systems_stack w, [])) as [systems log].
  simpl in Hspec. destruct Hspec as (Hlen & Hlog & Hsys). simpl.
  split; [reflexivity|]. split.
  - intros Hret. rewrite Hlog.
    destruct (Z.eqb_spec (fst sol) 1) as [|_]; [contradiction|].
    destruct (World.econ_nprices w) as [|n]; [lia|]. simpl. now left.
  - destruct (Hsys i s Hs) as (s' & Hs' & _ & Hp).
    rewrite (list_lookup_total_correct _ _ _ Hs'). apply Hp; assumption.
Qed.

End NetworkFacts.

(** ** Cells of the admittance matrix *)

Lemma total_app (l l' : list R) : total (l ++ l') = total l + total l'.
Proof. induction l as [|x l IH]; simpl; [lra|]. unfold total in *. simpl. lra. Qed.

Lemma entries_get_snoc (es : list (Z * Z * R)) (a b : Z) (v : R) (i j : Z) :
  entries_get (es ++ [(a, b, v)]) i j
  = if ((a =? i) && (b =? j))%Z then v else entries_get es i j.
Proof. unfold entries_get. rewrite fold_left_app. reflexivity. Qed.

(** The matrix after [cs_entry]. *)
Lemma cs_get_entry (M : cs.t) (a b : Z) (v : R) (i j : Z) :
  cs_get (snd (cs_entry M a b v)) i j
  = if ((a <? 0) || (b <? 0))%Z then cs_get M i j
    else if ((a =? i) && (b =? j))%Z then v else cs_get M i j.
Proof.
  unfold cs_entry, cs_get. destruct ((a <? 0) || (b <? 0))%Z; simpl;
    [reflexivity|].
  apply entries_get_snoc.
Qed.

(** An entry inside the dimensions leaves them as they are. *)
Lemma cs_entry_dims (M : cs.t) (a b : Z) (v : R) :
  (a < cs.m M)%Z -> (b < cs.n M)%Z ->
  cs.m (snd (cs_entry M a b v)) = cs.m M /\
  cs.n (snd (cs_entry M a b v)) = cs.n M.
Proof.
  intros Ha Hb. unfold cs_entry.
  destruct ((a <? 0) || (b <? 0))%Z; simpl; [split; reflexivity|].
  split; lia.
Qed.

Lemma nebula_ok_lookup (systems : list StarSystem.t) (k : nat) :
  Forall nebula_ok systems -> nebula_ok (systems !!! k).
Proof.
  intros Hall. rewrite list_lookup_total_alt.
  destruct (systems !! k) as [s|] eqn:Hs.
  - rewrite Forall_lookup in Hall. exact (Hall _ _ Hs).
  - split; simpl; lra.
Qed.

Section MatrixFacts.
Context `{Externals}.

Lemma econ_calcJumpR_pos (A B : StarSystem.t) :
  nebula_ok A -> nebula_ok B -> 0 < econ_calcJumpR A B.
Proof.
  intros [HdA HvA] [HdB HvB].
  unfold econ_calcJumpR, ECON_BASE_RES, ECON_FACTION_MOD.
  destruct (negb _ && negb _);
    [destruct (areEnemies _ _); [|destruct (areAllies _ _)]|]; lra.
Qed.

(** The matrix after one jump of row [i] has been entered. *)
Lemma fill_jump_get (systems : list StarSystem.t) (i : nat)
  (sys : StarSystem.t) (j : nat) (Rsum : R) (M : cs.t) (log : Log) (a b : Z) :
  let target := systems !!! JumpPoint.target (StarSystem.jumps sys !!! j) in
  let g := 1 / econ_calcJumpR sys target in
  let st := fill_jump systems i sys j (Rsum, M, log) in
  fst (fst st) = Rsum + g /\
  cs_get (snd (fst st)) a b
  = if (StarSystem.id target <? 0)%Z then cs_get M a b
    else if ((StarSystem.id target =? a) && (Z.of_nat i =? b)
             || (Z.of_nat i =? a) && (StarSystem.id target =? b))%Z
         then - g else cs_get M a b.
Proof.
  cbv zeta. unfold fill_jump.
  set (target := systems !!! JumpPoint.target (StarSystem.jumps sys !!! j)).
  set (g := 1 / econ_calcJumpR sys target).
  pose proof (cs_get_entry M (Z.of_nat i) (StarSystem.id target) (- g) a b)
    as H1.
  destruct (cs_entry M (Z.of_nat i) (StarSystem.id target) (- g))
    as [ret1 M1].
  pose proof (cs_get_entry M1 (StarSystem.id target) (Z.of_nat i) (- g) a b)
    as H2.
  destruct (cs_entry M1 (StarSystem.id target) (Z.of_nat i) (- g))
    as [ret2 M2].
  simpl in *. split; [reflexivity|]. rewrite H2, H1.
  assert (Hi : (Z.of_nat i <? 0)%Z = false) by (apply Z.ltb_ge; lia).
  rewrite Hi, orb_false_r. simpl orb.
  destruct (StarSystem.id target <? 0)%Z; [reflexivity|].
  destruct ((StarSystem.id target =? a) && (Z.of_nat i =? b))%Z;
    [reflexivity|].
  reflexivity.
Qed.

(** The dimensions after one jump whose target carries the identifier
    of a position of the stack. *)
Lemma fill_jump_dims (systems : list StarSystem.t) (i : nat)
  (sys : StarSystem.t) (j : nat) (Rsum : R) (M : cs.t) (log : Log) :
  let target := systems !!! JumpPoint.target (StarSystem.jumps sys !!! j) in
  let st := fill_jump systems i sys j (Rsum, M, log) in
  (Z.of_nat i < cs.m M)%Z -> (Z.of_nat i < cs.n M)%Z ->
  (StarSystem.id target < cs.m M)%Z -> (StarSystem.id target < cs.n M)%Z ->
  cs.m (snd (fst st)) = cs.m M /\ cs.n (snd (fst st)) = cs.n M.
Proof.
  cbv zeta. unfold fill_jump. intros Him Hin Htm Htn.
  set (target := systems !!! JumpPoint.target (StarSystem.jumps sys !!! j))
    in *.
  set (g := 1 / econ_calcJumpR sys target).
  pose proof (cs_entry_dims M (Z.of_nat i) (StarSystem.id target) (- g)
                Him Htn) as [Hm1 Hn1].
  destruct (cs_entry M (Z.of_nat i) (StarSystem.id target) (- g))
    as [ret1 M1].
  simpl in Hm1, Hn1.
  pose proof (cs_entry_dims M1 (StarSystem.id target) (Z.of_nat i) (- g))
    as Hd2.
  destruct (cs_entry M1 (StarSystem.id target) (Z.of_nat i) (- g))
    as [ret2 M2].
  simpl in *. destruct Hd2 as [Hm2 Hn2]; [lia|lia|]. split; lia.
Qed.

End MatrixFacts.

(** ** Sums over the columns of a row *)

Lemma total_zero {A : Type} (f : A -> R) (l : list A) :
  (forall x, In x l -> f x = 0) -> total (map f l) = 0.
Proof.
  induction l as [|x l IH]; intros Hf; [reflexivity|].
  unfold total in *. cbn [map fold_right].
  rewrite IH by (intros y Hy; apply Hf; right; exact Hy).
  rewrite (Hf x) by (left; reflexivity). lra.
Qed.

Lemma total_ext {A : Type} (f g : A -> R) (l : list A) :
  (forall x, In x l -> f x = g x) -> total (map f l) = total (map g l).
Proof.
  intros Hfg. f_equal. apply map_ext_in. exact Hfg.
Qed.

Lemma total_plus {A : Type} (f g : A -> R) (l : list A) :
  total (map (fun x => f x + g x) l) = total (map f l) + total (map g l).
Proof.
  induction l as [|x l IH]; unfold total in *; cbn [map fold_right]; [lra|].
  rewrite IH. lra.
Qed.

(** A sum over the positions below [n] that picks one of them. *)
Lemma total_pick (n x : nat) (v : R) :
  (x < n)%nat ->
  total (map (fun b : nat => if decide (b = x) then v else 0) (seq 0 n)) = v.
Proof.
  induction n as [|n IH]; intros Hx; [lia|].
  rewrite seq_S, map_app, total_app. simpl seq. cbn [map].
  destruct (decide (x = n)) as [->|Hne].
  - rewrite total_zero.
    + unfold total. simpl. destruct (decide (n = n)); [lra|contradiction].
    + intros b Hb. apply in_seq in Hb.
      destruct (decide (b = n)); [lia|reflexivity].
  - rewrite IH by lia. unfold total. simpl.
    destruct (decide (n = x)); [congruence|lra].
Qed.

(** A sum over a list without repetition, taken over the positions
    below [n] instead. *)
Lemma total_positions (f : nat -> R) (l : list nat) (n : nat) :
  NoDup l -> (forall x, In x l -> (x < n)%nat) ->
  total (map (fun b : nat => if in_dec Nat.eq_dec b l then f b else 0) (seq 0 n))
  = total (map f l).
Proof.
  induction l as [|x l IH]; intros Hnd Hlt.
  - apply total_zero. intros b _. destruct (in_dec Nat.eq_dec b []) as [[]|_].
    reflexivity.
  - apply NoDup_cons in Hnd. destruct Hnd as [Hx Hnd].
    rewrite list_elem_of_In in Hx.
    rewrite (total_ext _ (fun b : nat =>
               (if decide (b = x) then f x else 0)
               + (if in_dec Nat.eq_dec b l then f b else 0))).
    + rewrite total_plus, total_pick by (apply Hlt; left; reflexivity).
      rewrite IH by (auto; intros y Hy; apply Hlt; right; exact Hy).
      unfold total. simpl. lra.
    + intros b _. destruct (decide (b = x)) as [->|Hne].
      * destruct (in_dec Nat.eq_dec x (x :: l)) as [_|Hn];
          [|exfalso; apply Hn; left; reflexivity].
        destruct (in_dec Nat.eq_dec x l); [contradiction|lra].
      * destruct (in_dec Nat.eq_dec b (x :: l)) as [[He|Hin]|Hn].
        -- congruence.
        -- destruct (in_dec Nat.eq_dec b l); [lra|contradiction].
        -- destruct (in_dec Nat.eq_dec b l) as [Hin|_]; [|lra].
           exfalso. apply Hn. right. exact Hin.
Qed.

(** ** The diagonal of the admittance matrix *)

Section DiagonalFacts.
Context `{Externals}.
Variable systems : list StarSystem.t.
Hypothesis Hstand : standings_mutual.
Hypothesis Hneb : Forall nebula_ok systems.
Hypothesis Hroutes : routes_mutual systems.

Lemma econ_calcJumpR_sym (A B : StarSystem.t) :
  econ_calcJumpR A B = econ_calcJumpR B A.
Proof.
  unfold econ_calcJumpR.
  destruct (Hstand (StarSystem.faction A) (StarSystem.faction B)) as [-> ->].
  rewrite (andb_comm (negb (StarSystem.faction A =? -1)%Z)).
  rewrite (Rplus_comm (StarSystem.nebu_density A)).
  rewrite (Rplus_comm (StarSystem.nebu_volatility A)).
  reflexivity.
Qed.

Lemma conductance_sym (a b : nat) :
  conductance systems a b = conductance systems b a.
Proof. unfold conductance. rewrite econ_calcJumpR_sym. reflexivity. Qed.

Lemma conductance_pos (a b : nat) : 0 < conductance systems a b.
Proof.
  unfold conductance. apply Rdiv_lt_0_compat; [lra|].
  apply econ_calcJumpR_pos; apply nebula_ok_lookup; exact Hneb.
Qed.

(** What [routes_mutual] says of jump [j] of system [k]. *)
Lemma target_facts (k j : nat) :
  (k < length systems)%nat ->
  (j < StarSystem.njumps (systems !!! k))%nat ->
  let t := targets (systems !!! k) !!! j in
  JumpPoint.target (StarSystem.jumps (systems !!! k) !!! j) = t /\
  In t (targets (systems !!! k)) /\
  t <> k /\ (t < length systems)%nat /\
  StarSystem.id (systems !!! t) = Z.of_nat t /\
  In k (targets (systems !!! t)).
Proof.
  intros Hk Hj. cbv zeta. unfold StarSystem.njumps in Hj.
  assert (Hsys : systems !! k = Some (systems !!! k))
    by (apply list_lookup_lookup_total_lt; exact Hk).
  assert (Ht : targets (systems !!! k) !!! j
               = JumpPoint.target (StarSystem.jumps (systems !!! k) !!! j)).
  { unfold targets. apply list_lookup_total_correct.
    rewrite list_lookup_fmap.
    rewrite (list_lookup_lookup_total_lt _ _ Hj). reflexivity. }
  assert (Hin : In (targets (systems !!! k) !!! j) (targets (systems !!! k))).
  { apply list_elem_of_In, list_elem_of_lookup. exists j.
    apply list_lookup_lookup_total_lt. unfold targets. rewrite length_map.
    exact Hj. }
  destruct (Hroutes k _ Hsys) as (_ & _ & Hback).
  destruct (Hback _ Hin) as (Hne & sys' & Hsys' & Hin').
  rewrite (list_lookup_total_correct _ _ _ Hsys').
  destruct (Hroutes _ _ Hsys') as (Hid & _ & _).
  split; [symmetry; exact Ht|]. split; [exact Hin|]. split; [exact Hne|].
  split; [eapply lookup_lt_Some; exact Hsys'|]. split; assumption.
Qed.

(** One jump of row [k]. *)
Lemma fill_jump_inv (k j : nat) (Rsum : R) (M : cs.t) (log : Log) :
  (k < length systems)%nat ->
  (j < StarSystem.njumps (systems !!! k))%nat ->
  fill_inv systems k j M ->
  let st := fill_jump systems k (systems !!! k) j (Rsum, M, log) in
  fst (fst st)
  = Rsum + conductance systems k (targets (systems !!! k) !!! j) /\
  fill_inv systems k (S j) (snd (fst st)).
Proof.
  intros Hk Hj (Hm & Hn & Hoff & Hdiag). cbv zeta.
  destruct (target_facts k j Hk Hj) as (Ht & Hin & Hne & Hlt & Hid & Hback).
  set (t := targets (systems !!! k) !!! j) in *.
  assert (Hget := fun a b =>
            fill_jump_get systems k (systems !!! k) j Rsum M log a b).
  assert (Hdims := fill_jump_dims systems k (systems !!! k) j Rsum M log).
  cbv zeta in Hget, Hdims. rewrite Ht, Hid in Hget, Hdims.
  destruct Hdims as [Hm' Hn']; [lia|lia|lia|lia|].
  assert (Ht0 : (Z.of_nat t <? 0)%Z = false) by (apply Z.ltb_ge; lia).
  split; [exact (proj1 (Hget 0%Z 0%Z))|].
  split; [lia|]. split; [lia|]. split.
  - intros a b Hab. rewrite (proj2 (Hget (Z.of_nat a) (Z.of_nat b))), Ht0.
    fold (conductance systems k t).
    destruct (Z.eqb_spec (Z.of_nat t) (Z.of_nat a)) as [Hta|Hta];
      destruct (Z.eqb_spec (Z.of_nat k) (Z.of_nat b)) as [Hkb|Hkb];
      destruct (Z.eqb_spec (Z.of_nat k) (Z.of_nat a)) as [Hka|Hka];
      destruct (Z.eqb_spec (Z.of_nat t) (Z.of_nat b)) as [Htb|Htb];
      cbn [andb orb]; try lia.
    all: try (apply Nat2Z.inj in Hta); try (apply Nat2Z.inj in Hkb);
      try (apply Nat2Z.inj in Hka); try (apply Nat2Z.inj in Htb).
    all: first
      [ (* the cell of this jump, seen from the target *)
        assert (Hc : a = t /\ b = k) by (split; congruence);
        destruct Hc as [-> ->]; split;
        [ intros _; rewrite (conductance_sym t k); reflexivity
        | intros Hno; exfalso; apply Hno; exists k, j;
          split; [right; split; [reflexivity|lia]|];
          split; [exact Hj|]; right; split; reflexivity ]
      | (* the cell of this jump, seen from the system *)
        assert (Hc : a = k /\ b = t) by (split; congruence);
        destruct Hc as [-> ->]; split;
        [ intros _; reflexivity
        | intros Hno; exfalso; apply Hno; exists k, j;
          split; [right; split; [reflexivity|lia]|];
          split; [exact Hj|]; left; split; reflexivity ]
      | (* another cell *)
        destruct (Hoff a b Hab) as [Hyes Hno]; split;
        [ intros (k' & j' & Hord & Hj' & Hcell); apply Hyes;
          exists k', j'; split; [|split; [exact Hj'|exact Hcell]];
          destruct Hord as [Hlo|[-> Hjj]]; [left; exact Hlo|];
          right; split; [reflexivity|];
          destruct (decide (j' = j)) as [->|Hjne]; [|lia];
          exfalso; fold t in Hcell;
          destruct Hcell as [[? ?]|[? ?]]; congruence
        | intros Hnot; apply Hno; intros (k' & j' & Hord & Hj' & Hcell);
          apply Hnot; exists k', j'; split; [|split; [exact Hj'|exact Hcell]];
          destruct Hord as [Hlo|[-> Hjj]]; [left; exact Hlo|];
          right; split; [reflexivity|lia] ] ].
  - intros a Ha. rewrite (proj2 (Hget (Z.of_nat a) (Z.of_nat a))), Ht0.
    destruct (Z.eqb_spec (Z.of_nat k) (Z.of_nat a)) as [Hka|Hka]; [lia|].
    rewrite andb_false_r. cbn [andb orb]. apply Hdiag. exact Ha.
Qed.

(** The cells that have been entered when a row is done are those
    entered when the next one starts. *)
Lemma entered_next_row (k a b : nat) :
  entered systems (S k) 0 a b
  <-> entered systems k (StarSystem.njumps (systems !!! k)) a b.
Proof.
  split; intros (k' & j' & Hord & Hj' & Hcell); exists k', j';
    (split; [|split; [exact Hj'|exact Hcell]]).
  - destruct Hord as [Hlo|[_ Hjj]]; [|lia].
    destruct (decide (k' = k)) as [->|Hne]; [right; split; [reflexivity|exact Hj']|].
    left. lia.
  - destruct Hord as [Hlo|[-> _]]; left; lia.
Qed.

(** One row. *)
Lemma fill_row_inv (k : nat) (M : cs.t) (log : Log) :
  (k < length systems)%nat ->
  fill_inv systems k 0 M ->
  fill_inv systems (S k) 0 (fst (fill_row systems k (M, log))).
Proof.
  intros Hk HM. unfold fill_row.
  assert (Hrow :
    let st := for_loop (StarSystem.njumps (systems !!! k)) 0
                (fill_jump systems k (systems !!! k)) (0, M, log) in
    fst (fst st)
    = total (map (conductance systems k)
                 (take (StarSystem.njumps (systems !!! k))
                       (targets (systems !!! k)))) /\
    fill_inv systems k (StarSystem.njumps (systems !!! k)) (snd (fst st))).
  { cbv zeta.
    apply (for_loop_ind0
             (fun j st =>
                fst (fst st)
                = total (map (conductance systems k)
                             (take j (targets (systems !!! k)))) /\
                fill_inv systems k j (snd (fst st)))).
    - split; [reflexivity|exact HM].
    - intros j [[Rsum M'] log'] Hj [HR HM']. simpl in HR, HM'.
      destruct (fill_jump_inv k j Rsum M' log' Hk Hj HM') as [HR' HM''].
      split; [|exact HM''].
      rewrite HR'.
      rewrite (take_S_r _ _ (targets (systems !!! k) !!! j)).
      + rewrite map_app, total_app, HR. unfold total. simpl. lra.
      + apply list_lookup_lookup_total_lt. unfold targets.
        rewrite length_map. exact Hj. }
  cbv zeta in Hrow.
  destruct (for_loop (StarSystem.njumps (systems !!! k)) 0 _ _)
    as [[Rsum M'] log'].
  simpl in Hrow. destruct Hrow as [HR (Hm & Hn & Hoff & Hdiag)]. simpl fst.
  rewrite take_ge in HR
    by (unfold targets, StarSystem.njumps; rewrite length_map; lia).
  destruct (cs_entry_dims M' (Z.of_nat k) (Z.of_nat k)
              (Rsum + 1 / ECON_SELF_RES)) as [Hm' Hn']; [lia|lia|].
  assert (Hk0 : ((Z.of_nat k <? 0) || (Z.of_nat k <? 0))%Z = false).
  { rewrite orb_diag. apply Z.ltb_ge. lia. }
  split; [lia|]. split; [lia|]. split.
  - intros a b Hab. rewrite cs_get_entry, Hk0.
    assert (Hc : ((Z.of_nat k =? Z.of_nat a) && (Z.of_nat k =? Z.of_nat b))%Z
                 = false).
    { destruct (Z.eqb_spec (Z.of_nat k) (Z.of_nat a)) as [Ha|_];
        [|reflexivity].
      destruct (Z.eqb_spec (Z.of_nat k) (Z.of_nat b)) as [Hb|_];
        [|reflexivity].
      lia. }
    rewrite Hc. destruct (Hoff a b Hab) as [Hyes Hno].
    split; intros He.
    + apply Hyes, entered_next_row. exact He.
    + apply Hno. intros He'. apply He, entered_next_row. exact He'.
  - intros a Ha. rewrite cs_get_entry, Hk0.
    destruct (Z.eqb_spec (Z.of_nat k) (Z.of_nat a)) as [Hka|Hka];
      cbn [andb].
    + apply Nat2Z.inj in Hka. subst a. rewrite HR. reflexivity.
    + apply Hdiag. lia.
Qed.

(** The matrix when all rows are done. *)
Lemma fill_rows_inv :
  fill_inv systems (length systems) 0
    (fst (for_loop (length systems) 0 (fill_row systems)
            (cs_spalloc (Z.of_nat (length systems))
                        (Z.of_nat (length systems)), []))).
Proof.
  apply (for_loop_ind0 (fun k st => fill_inv systems k 0 (fst st))).
  - split; [reflexivity|]. split; [reflexivity|]. split.
    + intros a b _. split; [|reflexivity].
      intros (k' & j' & Hord & _). lia.
    + intros a Ha. lia.
  - intros k [M log] Hk HM. apply fill_row_inv; assumption.
Qed.

(** The off-diagonal cells of the row of a system. *)
Lemma off_diagonal_cell (M : cs.t) (i b : nat) :
  fill_inv systems (length systems) 0 M ->
  (i < length systems)%nat -> b <> i ->
  cs_get M (Z.of_nat i) (Z.of_nat b)
  = if in_dec Nat.eq_dec b (targets (systems !!! i))
    then - conductance systems i b else 0.
Proof.
  intros (_ & _ & Hoff & _) Hi Hb.
  assert (Hsys : systems !! i = Some (systems !!! i))
    by (apply list_lookup_lookup_total_lt; exact Hi).
  destruct (Hoff i b (not_eq_sym Hb)) as [Hyes Hno].
  destruct (in_dec Nat.eq_dec b (targets (systems !!! i))) as [Hin|Hnin].
  - apply Hyes. apply list_elem_of_In, list_elem_of_lookup in Hin.
    destruct Hin as [j Hj]. exists i, j.
    assert (Hjl : (j < StarSystem.njumps (systems !!! i))%nat).
    { apply lookup_lt_Some in Hj. unfold targets in Hj.
      rewrite length_map in Hj. exact Hj. }
    split; [left; exact Hi|]. split; [exact Hjl|]. left.
    split; [reflexivity|]. apply list_lookup_total_correct. exact Hj.
  - apply Hno. intros (k' & j' & Hord & Hj' & Hcell).
    assert (Hk' : (k' < length systems)%nat) by lia.
    destruct (target_facts k' j' Hk' Hj') as (_ & Hin & _ & _ & _ & Hback).
    destruct Hcell as [[-> Ht]|[-> Ht]].
    + apply Hnin. rewrite <- Ht. exact Hin.
    + apply Hnin. rewrite Ht in Hback. exact Hback.
Qed.

(** The sum of the row of a system off the diagonal. *)
Lemma off_diagonal_sum (M : cs.t) (i : nat) :
  fill_inv systems (length systems) 0 M ->
  (i < length systems)%nat ->
  cs_offdiag_abs M (Z.of_nat i)
  = total (map (conductance systems i) (targets (systems !!! i))).
Proof.
  intros HM Hi. pose proof HM as (_ & Hn & _ & _).
  assert (Hsys : systems !! i = Some (systems !!! i))
    by (apply list_lookup_lookup_total_lt; exact Hi).
  destruct (Hroutes i _ Hsys) as (_ & Hnd & Hback).
  rewrite <- (total_positions _ _ (length systems) Hnd).
  - unfold cs_offdiag_abs, seqZ. rewrite Hn, Nat2Z.id.
    change (fmap ?f ?l) with (map f l). rewrite map_map.
    apply total_ext. intros b Hb. apply in_seq in Hb.
    destruct (Z.eqb_spec (Z.of_nat b + 0) (Z.of_nat i)) as [He|Hne].
    + assert (b = i) by lia. subst b.
      destruct (in_dec Nat.eq_dec i (targets (systems !!! i))) as [Hin|_];
        [|reflexivity].
      destruct (Hback i Hin) as [Hne _]. contradiction.
    + rewrite Z.add_0_r.
      rewrite (off_diagonal_cell M i b HM Hi) by lia.
      destruct (in_dec Nat.eq_dec b (targets (systems !!! i))).
      * rewrite Rabs_Ropp, Rabs_right; [reflexivity|].
        pose proof (conductance_pos i b). lra.
      * apply Rabs_R0.
  - intros t Ht. destruct (Hback t Ht) as (_ & sys' & Hsys' & _).
    eapply lookup_lt_Some. exact Hsys'.
Qed.

End DiagonalFacts.

(** ** Strict diagonal dominance *)

Lemma total_abs_le (l : list R) : Rabs (total l) <= total (map Rabs l).
Proof.
  induction l as [|x l IH]; unfold total in *; cbn [map fold_right].
  - rewrite Rabs_R0. lra.
  - eapply Rle_trans; [apply Rabs_triang|]. lra.
Qed.

Lemma total_le {A : Type} (f g : A -> R) (l : list A) :
  (forall x, In x l -> f x <= g x) -> total (map f l) <= total (map g l).
Proof.
  induction l as [|x l IH]; intros Hfg; unfold total in *;
    cbn [map fold_right]; [lra|].
  specialize (IH (fun y Hy => Hfg y (or_intror Hy))).
  specialize (Hfg x (or_introl eq_refl)). lra.
Qed.

Lemma total_scal {A : Type} (f : A -> R) (c : R) (l : list A) :
  total (map (fun x => f x * c) l) = total (map f l) * c.
Proof.
  induction l as [|x l IH]; unfold total in *; cbn [map fold_right]; [lra|].
  rewrite IH. lra.
Qed.

(** Among finitely many values one is largest in absolute value. *)
Lemma max_abs_position (x : nat -> R) (n : nat) :
  (0 < n)%nat ->
  exists m, (m < n)%nat /\ forall j, (j < n)%nat -> Rabs (x j) <= Rabs (x m).
Proof.
  induction n as [|n IH]; intros Hn; [lia|].
  destruct n as [|n].
  - exists 0%nat. split; [lia|]. intros j Hj.
    replace j with 0%nat by lia. lra.
  - destruct IH as (m & Hm & Hmax); [lia|].
    destruct (Rle_dec (Rabs (x (S n))) (Rabs (x m))) as [Hle|Hgt].
    + exists m. split; [lia|]. intros j Hj.
      destruct (decide (j = S n)) as [->|Hne]; [exact Hle|].
      apply Hmax. lia.
    + exists (S n). split; [lia|]. intros j Hj.
      destruct (decide (j = S n)) as [->|Hne]; [lra|].
      specialize (Hmax j ltac:(lia)). lra.
Qed.

(** The row sums over the columns, by position. *)
Lemma cs_offdiag_abs_positions (M : cs.t) (n i : nat) :
  cs.n M = Z.of_nat n ->
  cs_offdiag_abs M (Z.of_nat i)
  = total (map (fun b : nat =>
                  if decide (b = i) then 0
                  else Rabs (cs_get M (Z.of_nat i) (Z.of_nat b)))
               (seq 0 n)).
Proof.
  intros Hn. unfold cs_offdiag_abs, seqZ. rewrite Hn, Nat2Z.id.
  change (fmap ?f ?l) with (map f l). rewrite map_map.
  apply total_ext. intros b _. rewrite Z.add_0_r.
  destruct (Z.eqb_spec (Z.of_nat b) (Z.of_nat i)) as [He|Hne];
    destruct (decide (b = i)) as [Hd|Hd]; try reflexivity; lia.
Qed.

Lemma cs_row_mult_positions (M : cs.t) (n i : nat) (x : list R) :
  cs.n M = Z.of_nat n ->
  cs_row_mult M x (Z.of_nat i)
  = total (map (fun b : nat => cs_get M (Z.of_nat i) (Z.of_nat b) * (x !!! b))
               (seq 0 n)).
Proof.
  intros Hn. unfold cs_row_mult, seqZ. rewrite Hn, Nat2Z.id.
  change (fmap ?f ?l) with (map f l). rewrite map_map.
  apply total_ext. intros b _. rewrite Z.add_0_r, Nat2Z.id. reflexivity.
Qed.

(** A matrix whose rows are strictly diagonally dominant maps no vector
    but the zero vector to zero. *)
Lemma dominant_kernel (M : cs.t) (n : nat) (x : list R) :
  cs.n M = Z.of_nat n ->
  (forall i, (i < n)%nat ->
             cs_offdiag_abs M (Z.of_nat i)
             < cs_get M (Z.of_nat i) (Z.of_nat i)) ->
  (forall i, (i < n)%nat -> cs_row_mult M x (Z.of_nat i) = 0) ->
  forall i, (i < n)%nat -> x !!! i = 0.
Proof.
  intros Hn Hdom Hker i Hi.
  destruct (max_abs_position (fun j => x !!! j) n) as (m & Hm & Hmax); [lia|].
  assert (Hzero : Rabs (x !!! m) = 0).
  { destruct (Req_dec (Rabs (x !!! m)) 0) as [Hz|Hnz]; [exact Hz|].
    exfalso.
    assert (Hpos : 0 < Rabs (x !!! m))
      by (pose proof (Rabs_pos (x !!! m)); lra).
    specialize (Hdom m Hm). specialize (Hker m Hm).
    rewrite (cs_row_mult_positions M n m x Hn) in Hker.
    rewrite (cs_offdiag_abs_positions M n m Hn) in Hdom.
    set (d := cs_get M (Z.of_nat m) (Z.of_nat m)) in *.
    set (off := fun b : nat =>
                  if decide (b = m) then 0
                  else cs_get M (Z.of_nat m) (Z.of_nat b) * (x !!! b)).
    rewrite (total_ext _ (fun b : nat =>
               (if decide (b = m) then d * (x !!! m) else 0) + off b))
      in Hker.
    2:{ intros b _. unfold off, d.
        destruct (decide (b = m)) as [->|_]; lra. }
    rewrite total_plus, total_pick in Hker by exact Hm.
    assert (Hoff : Rabs (total (map off (seq 0 n)))
                   <= total (map (fun b : nat =>
                                    if decide (b = m) then 0
                                    else Rabs (cs_get M (Z.of_nat m)
                                                 (Z.of_nat b)))
                                 (seq 0 n)) * Rabs (x !!! m)).
    { eapply Rle_trans; [apply total_abs_le|].
      rewrite map_map, <- total_scal. apply total_le.
      intros b Hb. apply in_seq in Hb. unfold off.
      destruct (decide (b = m)) as [_|_].
      - rewrite Rabs_R0. lra.
      - rewrite Rabs_mult. apply Rmult_le_compat_l; [apply Rabs_pos|].
        apply Hmax. lia. }
    assert (Hd : Rabs (d * (x !!! m)) = Rabs (total (map off (seq 0 n)))).
    { replace (d * (x !!! m)) with (- total (map off (seq 0 n))) by lra.
      apply Rabs_Ropp. }
    rewrite Rabs_mult in Hd.
    assert (Hd0 : 0 <= total (map (fun b : nat =>
                                     if decide (b = m) then 0
                                     else Rabs (cs_get M (Z.of_nat m)
                                                  (Z.of_nat b)))
                                  (seq 0 n))).
    { apply Rle_trans with (total (map (fun _ : nat => 0) (seq 0 n))).
      - rewrite total_zero by reflexivity. lra.
      - apply total_le. intros b _. cbv beta.
        destruct (decide (b = m)); [lra|apply Rabs_pos]. }
    rewrite (Rabs_right d) in Hd by lra. nra. }
  specialize (Hmax i Hi). simpl in Hmax.
  pose proof (Rabs_pos (x !!! i)).
  destruct (Req_dec (x !!! i) 0) as [Hz|Hnz]; [exact Hz|].
  apply Rabs_no_R0 in Hnz. lra.
Qed.

Section DiagonalClaim.
Context `{Externals}.

(** C6 (as the code behaves): when every jump route is recorded in both
    directions (systems identified by their position, no two jumps of a
    system to the same system, none to itself, a return jump for every
    jump), standings are mutual and no nebula density or volatility is
    negative, every diagonal entry of the admittance matrix is the sum
    of the absolute values of the off-diagonal entries of its row plus
    the self conductance [1/ECON_SELF_RES] and is strictly positive; a
    system without jumps gets the self conductance alone; and the
    matrix is not singular: it maps no vector but the zero vector to
    zero. *)
Theorem econ_createGMatrix_diagonal (w : World.t) :
  standings_mutual ->
  Forall nebula_ok (World.systems_stack w) ->
  routes_mutual (World.systems_stack w) ->
  let G := admittance w in
  let n := length (World.systems_stack w) in
  (forall i, (i < n)%nat ->
     cs_get G (Z.of_nat i) (Z.of_nat i)
     = cs_offdiag_abs G (Z.of_nat i) + 1 / ECON_SELF_RES /\
     0 < cs_get G (Z.of_nat i) (Z.of_nat i) /\
     (StarSystem.njumps (World.systems_stack w !!! i) = 0%nat ->
      cs_get G (Z.of_nat i) (Z.of_nat i) = 1 / ECON_SELF_RES)) /\
  (forall x : list R,
     (forall i, (i < n)%nat -> cs_row_mult G x (Z.of_nat i) = 0) ->
     forall i, (i < n)%nat -> x !!! i = 0).
Proof.
  intros Hstand Hneb Hroutes. cbv zeta.
  pose proof (fill_rows_inv (World.systems_stack w) Hstand Hroutes) as Hinv.
  unfold admittance, econ_createGMatrix.
  destruct (for_loop (length (World.systems_stack w)) 0 _ _) as [M log].
  simpl in Hinv. simpl. unfold cs_compress.
  assert (Hrows : forall i, (i < length (World.systems_stack w))%nat ->
            cs_get M (Z.of_nat i) (Z.of_nat i)
            = cs_offdiag_abs M (Z.of_nat i) + 1 / ECON_SELF_RES).
  { intros i Hi.
    rewrite (off_diagonal_sum (World.systems_stack w) Hneb Hroutes
               M i Hinv Hi).
    destruct Hinv as (_ & _ & _ & Hdiag). apply Hdiag. exact Hi. }
  split.
  - intros i Hi. split; [apply Hrows; exact Hi|]. split.
    { destruct Hinv as (_ & _ & _ & Hdiag). rewrite (Hdiag i Hi).
      assert (H0 : 0 <= total (map (conductance (World.systems_stack w) i)
                                   (targets (World.systems_stack w !!! i)))).
      { apply Rle_trans
          with (total (map (fun _ : nat => 0)
                           (targets (World.systems_stack w !!! i)))).
        - rewrite total_zero by reflexivity. lra.
        - apply total_le. intros t _. cbv beta.
          pose proof (conductance_pos (World.systems_stack w) Hneb i t).
          lra. }
      unfold ECON_SELF_RES. lra. }
    intros Hj. destruct Hinv as (_ & _ & _ & Hdiag).
    rewrite (Hdiag i Hi). unfold targets, StarSystem.njumps in *.
    destruct (StarSystem.jumps (World.systems_stack w !!! i));
      [|discriminate].
    unfold total. simpl. lra.
  - intros x Hker. apply (dominant_kernel M _ x).
    + destruct Hinv as (_ & Hn & _). exact Hn.
    + intros i Hi. rewrite (Hrows i Hi). unfold ECON_SELF_RES. lra.
    + exact Hker.
Qed.

End DiagonalClaim.

(** *** Worked scenarios of the network model *)

Lemma econ_calcJumpR_contract_witness :
  0 <= StarSystem.nebu_density (plain_system 0 1 []) /\
  0 < @econ_calcJumpR ext_politics (plain_system 0 1 []) (plain_system 1 2 []).
Proof.
  split; [simpl; lra|].
  apply (@econ_calcJumpR_contract ext_politics
           (plain_system 0 1 []) (plain_system 1 2 [])); simpl; lra.
Defined.

(** Between enemies the resistance is 33, between allies 27, otherwise 30. *)
Example econ_calcJumpR_values :
  @econ_calcJumpR ext_politics (plain_system 0 1 []) (plain_system 1 2 []) = 33
  /\ @econ_calcJumpR ext_politics (plain_system 0 1 []) (plain_system 1 3 [])
     = 27
  /\ @econ_calcJumpR ext_politics (plain_system 0 2 []) (plain_system 1 3 [])
     = 30
  /\ @econ_calcJumpR ext_politics (plain_system 0 1 []) (plain_system 1 (-1) [])
     = 30.
Proof. real_eval. repeat split; lra. Qed.

Lemma economy_update_overwrites_witness :
  World.econ_initialized world_stale = true /\
  StarSystem.prices
    (World.systems_stack (snd (@economy_update ext_plain world_stale 0))
     !!! 0%nat) !!! 0%nat
  = snd (@cs_qrsol ext_plain 3 (cs_spalloc 1 1) (replicate 1 0)) !!! 0%nat
    * 1 + 1.
Proof.
  split; [reflexivity|].
  apply (@economy_update_overwrites ext_plain world_stale 0 (cs_spalloc 1 1)
           0%nat 0%nat
           (StarSystem.mk 0%Z "Sol" 0 0 0 0 (-1)%Z [] [] [5] []));
    try reflexivity; unfold World.econ_nprices; simpl; lia.
Defined.

(** C1, as stated, fails: the solver reports failure, and the potential
    5 stored for the good before the update is replaced by 1. *)
Lemma economy_update_retains_counterexample :
  let res := @economy_update ext_plain world_stale 0 in
  fst (@cs_qrsol ext_plain 3 (cs_spalloc 1 1) (replicate 1 0)) <> 1%Z /\
  snd (fst res) = [solve_warning] /\
  StarSystem.prices (World.systems_stack world_stale !!! 0%nat) !!! 0%nat = 5 /\
  StarSystem.prices (World.systems_stack (snd res) !!! 0%nat) !!! 0%nat = 1 /\
  StarSystem.prices (World.systems_stack (snd res) !!! 0%nat) !!! 0%nat
  <> StarSystem.prices (World.systems_stack world_stale !!! 0%nat) !!! 0%nat.
Proof.
  real_eval. repeat split; try lra; discriminate.
Qed.

Lemma ext_plain_standings : @standings_mutual ext_plain.
Proof. intros a b. split; reflexivity. Qed.

Lemma two_systems_routes : routes_mutual two_systems.
Proof.
  intros i sys Hsys.
  destruct i as [|[|i]]; [| |discriminate]; injection Hsys as <-; simpl.
  - split; [reflexivity|]. split; [apply NoDup_singleton|].
    intros t [<-|[]]. split; [lia|].
    exists (plain_system 1 (-1) [0%nat]). split; [reflexivity|].
    left. reflexivity.
  - split; [reflexivity|]. split; [apply NoDup_singleton|].
    intros t [<-|[]]. split; [lia|].
    exists (plain_system 0 (-1) [1%nat]). split; [reflexivity|].
    left. reflexivity.
Qed.

Lemma two_systems_nebula : Forall nebula_ok two_systems.
Proof. repeat constructor; simpl; lra. Qed.

Lemma econ_createGMatrix_diagonal_witness :
  routes_mutual two_systems /\
  let G := @admittance ext_plain (world_of_systems two_systems) in
  cs_get G 0 0 = cs_offdiag_abs G 0 + 1 / ECON_SELF_RES.
Proof.
  split; [exact two_systems_routes|].
  apply (proj1 (@econ_createGMatrix_diagonal ext_plain
                  (world_of_systems two_systems) ext_plain_standings
                  two_systems_nebula two_systems_routes) 0%nat).
  simpl. lia.
Defined.

(** C6, as stated, fails: a jump from the first of two systems to the
    second that has no return jump is entered in the row of the second
    system off the diagonal, but only the diagonal of the first system
    receives its conductance; the diagonal of the second is the self
    conductance alone. *)
Lemma econ_createGMatrix_one_way_counterexample :
  let G := @admittance ext_plain (world_of_systems one_way_systems) in
  cs_get G 1 0 = - (1 / 30) /\
  cs_offdiag_abs G 1 = 1 / 30 /\
  cs_get G 1 1 = 1 / ECON_SELF_RES /\
  cs_get G 1 1 <> cs_offdiag_abs G 1 + 1 / ECON_SELF_RES.
Proof.
  real_eval. rewrite Rabs_left by lra. repeat split; lra.
Qed.

(** Two systems joined by one jump route recorded in both lists: the
    cell off the diagonal is entered from both ends and holds the
    conductance of the route once. *)
Example createGMatrix_two_systems :
  let G := @admittance ext_plain (world_of_systems two_systems) in
  cs_get G 0 0 = 1 / 30 + 1 / ECON_SELF_RES /\
  cs_get G 0 1 = - (1 / 30) /\
  cs_offdiag_abs G 0 = 1 / 30.
Proof.
  real_eval. rewrite Rabs_left by lra. repeat split; lra.
Qed.

(** A system without any jump route gets the self conductance alone. *)
Example createGMatrix_lone_system :
  let G := @admittance ext_plain (world_of_systems lone_system) in
  cs_get G 0 0 = 1 / ECON_SELF_RES /\ 0 < cs_get G 0 0 /\
  cs_offdiag_abs G 0 = 0.
Proof. real_eval. repeat split; lra. Qed.

(** ** Conversion of a price to credits *)

Lemma Int_part_bounds (x : R) :
  IZR (Int_part x) <= x < IZR (Int_part x) + 1.
Proof. destruct (base_Int_part x) as [H1 H2]. lra. Qed.

Lemma Int_part_unique (x : R) (z : Z) :
  IZR z <= x < IZR z + 1 -> Int_part x = z.
Proof. intros Hz. symmetry. apply Int_part_spec. lra. Qed.

Lemma credits_of_double_nonneg (x : R) (z : Z) :
  0 <= x -> IZR z <= x < IZR z + 1 -> credits_of_double x = z.
Proof.
  intros Hx Hz. unfold credits_of_double.
  destruct (Rle_dec 0 x) as [_|Hn]; [|contradiction].
  apply Int_part_unique. exact Hz.
Qed.

Lemma credits_of_double_neg (x : R) (z : Z) :
  x < 0 -> IZR z - 1 < x <= IZR z -> credits_of_double x = z.
Proof.
  intros Hx Hz. unfold credits_of_double.
  destruct (Rle_dec 0 x) as [Hn|_]; [lra|].
  rewrite (Int_part_unique (- x) (- z)); [lia|].
  rewrite opp_IZR. lra.
Qed.

Lemma credits_of_double_integer (P : Z) :
  (0 <= P)%Z -> credits_of_double (IZR P + 0.5) = P.
Proof.
  intros HP. apply credits_of_double_nonneg.
  - apply IZR_le in HP. lra.
  - lra.
Qed.

(** ** Price evaluator *)

Section EvaluatorFacts.
Context `{Externals}.

(** The query on a pair with a price field. *)
Lemma economy_getPriceAtTime_field (w : World.t) (com : Commodity_ptr)
  (p : Planet.t) (cp : CommodityPrice.t) (tme : ntime_t) :
  price_field w com p cp ->
  economy_getPriceAtTime w com p tme
  = credits_of_double
      (price_model cp (ntime_convertSTU tme / NT_STP_STU) + 0.5).
Proof.
  intros (Hpriced & Hidx & Hcp).
  unfold economy_getPriceAtTime. unfold priced in Hpriced.
  unfold planet_index in Hidx, Hcp.
  destruct (Nat.leb_spec (length (World.econ_comm w))
              (scan (fun e => (e =? Z.of_nat com)%Z) (World.econ_comm w)))
    as [Hge|_]; [lia|].
  match goal with
  | |- (if (?a <=? ?b)%nat then _ else _) = _ =>
      destruct (Nat.leb_spec a b) as [Hge|_]; [lia|]
  end.
  rewrite (list_lookup_total_correct _ _ _ Hcp). reflexivity.
Qed.

(** A pair without a price field is answered with the neutral price 0. *)
Lemma economy_getPriceAtTime_miss (w : World.t) (com : Commodity_ptr)
  (p : Planet.t) (tme : ntime_t) :
  ~ priced w com \/ (Planet.ncommodities p <= planet_index w com p)%nat ->
  economy_getPriceAtTime w com p tme = 0%Z.
Proof.
  unfold priced, planet_index, economy_getPriceAtTime. intros [Hn|Hn].
  - destruct (Nat.leb_spec (length (World.econ_comm w))
                (scan (fun e => (e =? Z.of_nat com)%Z) (World.econ_comm w)))
      as [_|Hlt]; [reflexivity|contradiction].
  - destruct (_ <=? _)%nat; [reflexivity|].
    match goal with
    | |- (if (?a <=? ?b)%nat then _ else _) = _ =>
        destruct (Nat.leb_spec a b) as [_|Hlt]; [reflexivity|lia]
    end.
Qed.

End EvaluatorFacts.

(** ** Observation tracker *)

Lemma set_commodityPrice_id (p : Planet.t) :
  Planet.set_commodityPrice p (Planet.commodityPrice p) = p.
Proof. destruct p; reflexivity. Qed.

Lemma planet_ext (p q : Planet.t) :
  Planet.commodityPrice p = Planet.commodityPrice q ->
  (exists l, q = Planet.set_commodityPrice p l) -> p = q.
Proof.
  intros Hc [l ->]. destruct p; simpl in *. subst. reflexivity.
Qed.

Section TrackerFacts.
Context `{Externals}.
Variables (w : World.t) (t tprice : ntime_t).

(** The price depends on the planet through the list of commodities it
    sells and the parameters of its price fields only. *)
Lemma economy_getPriceAtTime_params (c : Commodity_ptr) (p q : Planet.t)
  (tme : ntime_t) :
  Planet.commodities p = Planet.commodities q ->
  (forall j, params (Planet.commodityPrice p !!! j)
             = params (Planet.commodityPrice q !!! j)) ->
  economy_getPriceAtTime w c p tme = economy_getPriceAtTime w c q tme.
Proof.
  intros Hc Hp. unfold economy_getPriceAtTime, Planet.ncommodities.
  rewrite Hc. destruct (_ <=? _)%nat; [reflexivity|].
  destruct (_ <=? _)%nat; [reflexivity|].
  match goal with
  | |- credits_of_double (price_model (_ !!! ?i) _ + _) = _ =>
      specialize (Hp i)
  end.
  unfold params in Hp. unfold price_model. congruence.
Qed.

Lemma params_observe (p : Planet.t) (c : Commodity_ptr)
  (cp : CommodityPrice.t) :
  params (observe w t tprice p c cp) = params cp.
Proof. unfold observe. destruct (_ <? _)%Z; reflexivity. Qed.

(** One iteration rewrites the entry it visits with [observe], computed
    on any planet that has the same commodities and parameters. *)
Lemma seen_body_entries (p0 p : Planet.t) (i : nat) :
  Planet.commodities p = Planet.commodities p0 ->
  (forall j, params (Planet.commodityPrice p !!! j)
             = params (Planet.commodityPrice p0 !!! j)) ->
  Planet.commodities (seen_body w t tprice i p) = Planet.commodities p /\
  Planet.commodityPrice (seen_body w t tprice i p)
  = alter (observe w t tprice p0 (Planet.commodities p0 !!! i)) i
          (Planet.commodityPrice p) /\
  exists l, seen_body w t tprice i p = Planet.set_commodityPrice p l.
Proof.
  intros Hc Hp. unfold seen_body.
  destruct (decide (i < length (Planet.commodityPrice p))%nat) as [Hi|Hi].
  - destruct (lookup_lt_is_Some_2 _ _ Hi) as [cp Hcp].
    rewrite (list_lookup_total_correct _ _ _ Hcp).
    assert (Halt : alter (observe w t tprice p0 (Planet.commodities p0 !!! i))
                     i (Planet.commodityPrice p)
                   = <[i := observe w t tprice p0 (Planet.commodities p0 !!! i)
                               cp]> (Planet.commodityPrice p)).
    { apply list_eq. intros j. destruct (decide (i = j)) as [<-|Hne].
      - rewrite list_lookup_alter_eq, Hcp, list_lookup_insert_eq by exact Hi.
        reflexivity.
      - rewrite list_lookup_alter_ne, list_lookup_insert_ne by exact Hne.
        reflexivity. }
    rewrite Halt. unfold observe.
    destruct (CommodityPrice.updateTime cp <? t)%Z.
    + simpl. split; [reflexivity|]. split.
      * rewrite list_lookup_total_insert_eq by exact Hi.
        rewrite list_insert_insert_eq. rewrite Hc. f_equal. f_equal.
        apply economy_getPriceAtTime_params; [exact Hc|].
        intros j. simpl. rewrite <- Hp.
        destruct (decide (i = j)) as [<-|Hne].
        -- rewrite list_lookup_total_insert_eq by exact Hi.
           rewrite (list_lookup_total_correct _ _ _ Hcp). reflexivity.
        -- rewrite list_lookup_total_insert_ne by exact Hne. reflexivity.
      * eexists. destruct p; reflexivity.
    + split; [reflexivity|]. split.
      * rewrite list_insert_id by exact Hcp. reflexivity.
      * exists (Planet.commodityPrice p). symmetry.
        apply set_commodityPrice_id.
  - assert (Hge : (length (Planet.commodityPrice p) <= i)%nat) by lia.
    assert (Halt : alter (observe w t tprice p0 (Planet.commodities p0 !!! i))
                     i (Planet.commodityPrice p) = Planet.commodityPrice p).
    { apply list_eq. intros j. destruct (decide (i = j)) as [<-|Hne].
      - rewrite list_lookup_alter_eq.
        rewrite (lookup_ge_None_2 _ _ Hge). reflexivity.
      - rewrite list_lookup_alter_ne by exact Hne. reflexivity. }
    rewrite Halt.
    destruct (_ <? _)%Z.
    + simpl. rewrite !list_insert_ge by (simpl; try rewrite list_insert_ge; lia).
      repeat split. exists (Planet.commodityPrice p). destruct p; reflexivity.
    + repeat split. exists (Planet.commodityPrice p). symmetry.
      apply set_commodityPrice_id.
Qed.

(** The tracker loop in closed form: after [n] iterations the first [n]
    entries have been rewritten with [observe], computed on the planet
    the loop started from. *)
Lemma seen_loop_entries (p0 : Planet.t) (n : nat) :
  let p' := for_loop n 0 (seen_body w t tprice) p0 in
  Planet.commodities p' = Planet.commodities p0 /\
  (exists l, p' = Planet.set_commodityPrice p0 l) /\
  Planet.commodityPrice p'
  = imap (fun i cp =>
            if (i <? n)%nat
            then observe w t tprice p0 (Planet.commodities p0 !!! i) cp
            else cp)
         (Planet.commodityPrice p0).
Proof.
  cbv zeta. change n with (0 + n)%nat at 2 3 4.
  apply (for_loop_ind (fun k p =>
    Planet.commodities p = Planet.commodities p0 /\
    (exists l, p = Planet.set_commodityPrice p0 l) /\
    Planet.commodityPrice p
    = imap (fun i cp =>
              if (i <? k)%nat
              then observe w t tprice p0 (Planet.commodities p0 !!! i) cp
              else cp)
           (Planet.commodityPrice p0))).
  - split; [reflexivity|]. split.
    + exists (Planet.commodityPrice p0). symmetry. apply set_commodityPrice_id.
    + apply list_eq. intros j. rewrite list_lookup_imap.
      destruct (Planet.commodityPrice p0 !! j); reflexivity.
  - intros k p _ (Hc & [l Hl] & Hcps).
    assert (Hp : forall j, params (Planet.commodityPrice p !!! j)
                           = params (Planet.commodityPrice p0 !!! j)).
    { intros j. rewrite !list_lookup_total_alt, Hcps, list_lookup_imap.
      destruct (Planet.commodityPrice p0 !! j) as [cp|]; simpl; [|reflexivity].
      destruct (j <? k)%nat; [apply params_observe|reflexivity]. }
    destruct (seen_body_entries p0 p k Hc Hp) as (Hc' & Hcps' & [l' Hl']).
    split; [congruence|]. split.
    + exists l'. rewrite Hl', Hl. destruct p0; reflexivity.
    + rewrite Hcps', Hcps. apply list_eq. intros j.
      destruct (decide (k = j)) as [<-|Hne].
      * rewrite list_lookup_alter_eq, !list_lookup_imap.
        destruct (Planet.commodityPrice p0 !! k) as [cp|]; simpl; [|reflexivity].
        rewrite Nat.ltb_irrefl.
        destruct (Nat.ltb_spec k (Datatypes.S k)); [reflexivity|lia].
      * rewrite list_lookup_alter_ne, !list_lookup_imap by exact Hne.
        destruct (Planet.commodityPrice p0 !! j) as [cp|]; simpl; [|reflexivity].
        destruct (Nat.ltb_spec j k), (Nat.ltb_spec j (Datatypes.S k));
          try reflexivity; lia.
Qed.

(** An entry already stamped with the current time is left alone. *)
Lemma observe_stamped (p : Planet.t) (c : Commodity_ptr)
  (cp : CommodityPrice.t) :
  (t <= CommodityPrice.updateTime cp)%Z -> observe w t tprice p c cp = cp.
Proof.
  intros Ht. unfold observe.
  destruct (Z.ltb_spec (CommodityPrice.updateTime cp) t); [lia|reflexivity].
Qed.

Lemma observe_updateTime (p : Planet.t) (c : Commodity_ptr)
  (cp : CommodityPrice.t) :
  (t <= CommodityPrice.updateTime (observe w t tprice p c cp))%Z.
Proof.
  unfold observe.
  destruct (Z.ltb_spec (CommodityPrice.updateTime cp) t); simpl; lia.
Qed.

End TrackerFacts.

Section TrackerFacts.
Context `{Externals}.

(** [economy_averageSeenPrices] in closed form. *)
Lemma economy_averageSeenPrices_entries (w : World.t) (now : ntime_t)
  (p : Planet.t) :
  Planet.commodityPrice (economy_averageSeenPrices w now p)
  = imap (fun i cp =>
            if (i <? Planet.ncommodities p)%nat
            then observe w now now p (Planet.commodities p !!! i) cp
            else cp)
         (Planet.commodityPrice p).
Proof.
  unfold economy_averageSeenPrices.
  apply (seen_loop_entries w now now p (Planet.ncommodities p)).
Qed.

(** C7: recording leaves alone every price field whose [updateTime] is
    not earlier than the current time, and recording a second time at the
    same instant changes nothing at all: the counters are touched at most
    once per instant. *)
Theorem economy_averageSeenPrices_once_per_instant (w : World.t)
  (now : ntime_t) (p : Planet.t) :
  (forall i cp, Planet.commodityPrice p !! i = Some cp ->
                (now <= CommodityPrice.updateTime cp)%Z ->
                Planet.commodityPrice (economy_averageSeenPrices w now p) !! i
                = Some cp) /\
  economy_averageSeenPrices w now (economy_averageSeenPrices w now p)
  = economy_averageSeenPrices w now p.
Proof.
  split.
  - intros i cp Hcp Ht.
    rewrite economy_averageSeenPrices_entries, list_lookup_imap, Hcp. simpl.
    destruct (i <? Planet.ncommodities p)%nat; [|reflexivity].
    now rewrite observe_stamped.
  - set (p' := economy_averageSeenPrices w now p).
    destruct (seen_loop_entries w now now p (Planet.ncommodities p))
      as (Hc & _ & Hcps).
    fold (economy_averageSeenPrices w now p) in Hc, Hcps. fold p' in Hc, Hcps.
    destruct (seen_loop_entries w now now p' (Planet.ncommodities p'))
      as (_ & Hl & Hcps').
    fold (economy_averageSeenPrices w now p') in Hl, Hcps'.
    symmetry. apply planet_ext; [|exact Hl].
    rewrite Hcps'. apply list_eq. intros j. rewrite list_lookup_imap.
    destruct (Planet.commodityPrice p' !! j) as [cp'|] eqn:Hj; [|reflexivity].
    simpl. destruct (Nat.ltb_spec j (Planet.ncommodities p')) as [Hlt|_];
      [|reflexivity].
    rewrite observe_stamped; [reflexivity|].
    rewrite Hcps, list_lookup_imap in Hj.
    destruct (Planet.commodityPrice p !! j) as [cp|]; [|discriminate].
    simpl in Hj. unfold Planet.ncommodities in Hlt. rewrite Hc in Hlt.
    destruct (Nat.ltb_spec j (Planet.ncommodities p)) as [_|Hge];
      [|unfold Planet.ncommodities in Hge; lia].
    inversion Hj; subst cp'. apply observe_updateTime.
Qed.

End TrackerFacts.

(** ** Observation tracker: averages *)

Lemma wrap_int64_small (x : Z) :
  (- 2 ^ 63 <= x < 2 ^ 63)%Z -> wrap_int64 x = x.
Proof.
  intros Hx. unfold wrap_int64, wrap_signed.
  rewrite Z.mod_small; lia.
Qed.

Lemma wrap_int_small (x : Z) :
  (- 2 ^ 31 <= x < 2 ^ 31)%Z -> wrap_int x = x.
Proof.
  intros Hx. unfold wrap_int, wrap_signed.
  rewrite Z.mod_small; lia.
Qed.

Section AverageFacts.
Context `{Externals}.

(** The average of a price field, as the query computes it. *)
Lemma economy_getAveragePlanetPrice_field (w : World.t) (com : Commodity_ptr)
  (p : Planet.t) (cp : CommodityPrice.t) :
  price_field w com p cp ->
  economy_getAveragePlanetPrice w com p
  = if (0 <? CommodityPrice.cnt cp)%Z then
      (0%Z,
       credits_of_double
         (CommodityPrice.sum cp / IZR (CommodityPrice.cnt cp) + 0.5),
       sqrt (CommodityPrice.sum2 cp / IZR (CommodityPrice.cnt cp)
             - (CommodityPrice.sum cp * CommodityPrice.sum cp)
               / IZR (wrap_int (CommodityPrice.cnt cp
                                * CommodityPrice.cnt cp))))
    else (0%Z, 0%Z, 0).
Proof.
  intros (Hpriced & Hidx & Hcp).
  unfold economy_getAveragePlanetPrice.
  unfold priced in Hpriced. unfold planet_index in Hidx, Hcp.
  destruct (Nat.leb_spec (length (World.econ_comm w))
              (scan (fun e => (e =? Z.of_nat com)%Z) (World.econ_comm w)))
    as [Hge|_]; [lia|].
  match goal with
  | |- (if (?a <=? ?b)%nat then _ else _) = _ =>
      destruct (Nat.leb_spec a b) as [Hge|_]; [lia|]
  end.
  rewrite (list_lookup_total_correct _ _ _ Hcp). reflexivity.
Qed.

(** Recording keeps the price fields where they are. *)
Lemma price_field_observed (w : World.t) (now : ntime_t)
  (com : Commodity_ptr) (p : Planet.t) (cp : CommodityPrice.t) :
  price_field w com p cp ->
  price_field w com (economy_averageSeenPrices w now p)
    (observe w now now p (Planet.commodities p !!! planet_index w com p) cp).
Proof.
  intros (Hpriced & Hidx & Hcp).
  destruct (seen_loop_entries w now now p (Planet.ncommodities p))
    as (Hc & _ & _).
  fold (economy_averageSeenPrices w now p) in Hc.
  assert (Hi : planet_index w com (economy_averageSeenPrices w now p)
               = planet_index w com p).
  { unfold planet_index. rewrite Hc. reflexivity. }
  split; [exact Hpriced|]. rewrite Hi. split.
  - unfold Planet.ncommodities. rewrite Hc. exact Hidx.
  - rewrite economy_averageSeenPrices_entries, list_lookup_imap, Hcp. simpl.
    destruct (Nat.ltb_spec (planet_index w com p) (Planet.ncommodities p));
      [reflexivity|lia].
Qed.

(** The query after the first observation of a pair: the price [P]
    that was recorded comes back through the conversion of [P + 0.5]. *)
Lemma economy_getAveragePlanetPrice_first (w : World.t)
  (now : ntime_t) (com : Commodity_ptr) (p : Planet.t)
  (cp : CommodityPrice.t) :
  price_field w com p cp ->
  CommodityPrice.cnt cp = 0%Z ->
  CommodityPrice.sum cp = 0 -> CommodityPrice.sum2 cp = 0 ->
  (CommodityPrice.updateTime cp < now)%Z ->
  let P := economy_getPrice w now
             (Planet.commodities p !!! planet_index w com p) p in
  (P * P < 2 ^ 63)%Z ->
  economy_getAveragePlanetPrice w com (economy_averageSeenPrices w now p)
  = (0%Z, credits_of_double (IZR P + 0.5), 0).
Proof.
  intros Hf Hcnt Hsum Hsum2 Ht P HP.
  rewrite (economy_getAveragePlanetPrice_field _ _ _ _
             (price_field_observed w now com p cp Hf)).
  unfold observe.
  destruct (Z.ltb_spec (CommodityPrice.updateTime cp) now) as [_|]; [|lia].
  fold (economy_getPrice w now
          (Planet.commodities p !!! planet_index w com p) p).
  fold P. simpl. rewrite Hcnt, Hsum, Hsum2.
  rewrite (wrap_int_small (0 + 1)) by lia.
  change (0 + 1)%Z with 1%Z. change (1 * 1)%Z with 1%Z.
  rewrite (wrap_int_small 1) by lia.
  rewrite wrap_int64_small by nia.
  rewrite mult_IZR.
  replace ((0 + IZR P * IZR P) / 1 - (0 + IZR P) * (0 + IZR P) / 1)
    with 0 by field.
  rewrite sqrt_0. do 2 f_equal. f_equal. field.
Qed.

(** C4 (as the code behaves): for a pair with a price field the per-asset
    average query returns the code 0 whether or not the pair has been
    observed.  With an observation count of zero the mean and the
    standard deviation are 0.  After exactly one recorded observation,
    on accumulators that were zero, of a price [P] whose square is
    below 2^63 (it is formed as a signed 64-bit product), the standard
    deviation is 0 and the mean is the conversion of [P + 0.5], which
    is [P] when [P] is not negative. *)
Theorem economy_getAveragePlanetPrice_observations (w : World.t)
  (now : ntime_t) (com : Commodity_ptr) (p : Planet.t)
  (cp : CommodityPrice.t) :
  price_field w com p cp ->
  CommodityPrice.cnt cp = 0%Z ->
  economy_getAveragePlanetPrice w com p = (0%Z, 0%Z, 0) /\
  (CommodityPrice.sum cp = 0 -> CommodityPrice.sum2 cp = 0 ->
   (CommodityPrice.updateTime cp < now)%Z ->
   let P := economy_getPrice w now
              (Planet.commodities p !!! planet_index w com p) p in
   (P * P < 2 ^ 63)%Z ->
   economy_getAveragePlanetPrice w com (economy_averageSeenPrices w now p)
   = (0%Z, credits_of_double (IZR P + 0.5), 0) /\
   ((0 <= P)%Z ->
    economy_getAveragePlanetPrice w com (economy_averageSeenPrices w now p)
    = (0%Z, P, 0))).
Proof.
  intros Hf Hcnt. split.
  - rewrite (economy_getAveragePlanetPrice_field w com p cp Hf), Hcnt.
    reflexivity.
  - intros Hsum Hsum2 Ht P HP.
    pose proof (economy_getAveragePlanetPrice_first w now com p cp
                  Hf Hcnt Hsum Hsum2 Ht HP) as Hres.
    fold P in Hres.
    split; [exact Hres|].
    intros HP0. rewrite Hres, credits_of_double_integer by exact HP0.
    reflexivity.
Qed.

End AverageFacts.

(** *** Worked scenarios of the evaluator and the tracker *)

Lemma market_price_field (cp : CommodityPrice.t) :
  price_field (world_market cp) food_ptr (market cp) cp.
Proof.
  unfold price_field, priced, planet_index, food_ptr, Planet.ncommodities.
  simpl. split; [lia|split; [lia|reflexivity]].
Qed.

(** The price of a steady field is its base price plus one half,
    converted to credits. *)
Lemma steady_price (base : R) (tme : ntime_t) :
  @economy_getPriceAtTime ext_plain (world_market (steady base)) food_ptr
    (market (steady base)) tme
  = credits_of_double (base + 0.5).
Proof.
  rewrite (@economy_getPriceAtTime_field ext_plain _ _ _ _ tme
             (market_price_field (steady base))).
  unfold price_model. simpl. f_equal. lra.
Qed.

Lemma steady_price_minus_3 (tme : ntime_t) :
  @economy_getPriceAtTime ext_plain (world_market (steady (-3))) food_ptr
    (market (steady (-3))) tme = (-2)%Z.
Proof.
  rewrite steady_price. apply credits_of_double_neg; lra.
Qed.

(** C5: the query does not round.  The line that returns the price
    adds one half and converts to credits, which discards the fraction
    toward zero; its comment says that this rounds.  For a price field
    whose model evaluates to -3 at every time (base price -3, no
    variation) the query returns -2, which is not -3 rounded. *)
Theorem economy_getPriceAtTime_truncates (tme : ntime_t) :
  price_field (world_market (steady (-3))) food_ptr (market (steady (-3)))
              (steady (-3)) /\
  price_model (steady (-3))
    (@ntime_convertSTU ext_plain tme / @NT_STP_STU ext_plain)
  = -3 /\
  @economy_getPriceAtTime ext_plain (world_market (steady (-3))) food_ptr
     (market (steady (-3))) tme = (-2)%Z /\
  ~ is_rounding (-2) (-3).
Proof.
  split; [apply market_price_field|]. split; [|split].
  - unfold price_model. simpl. lra.
  - apply steady_price_minus_3.
  - unfold is_rounding. rewrite Rabs_right; lra.
Qed.

Lemma steady_price_100 (tme : ntime_t) :
  @economy_getPriceAtTime ext_plain (world_market (steady 100)) food_ptr
    (market (steady 100)) tme = 100%Z.
Proof.
  rewrite steady_price. apply credits_of_double_nonneg; lra.
Qed.

Lemma economy_getAveragePlanetPrice_observations_witness :
  price_field (world_market (steady 100)) food_ptr (market (steady 100)) (steady 100)
  /\ economy_getAveragePlanetPrice (world_market (steady 100)) food_ptr
       (market (steady 100)) = (0%Z, 0%Z, 0)
  /\ economy_getAveragePlanetPrice (world_market (steady 100)) food_ptr
       (@economy_averageSeenPrices ext_plain (world_market (steady 100)) 1
          (market (steady 100)))
     = (0%Z, 100%Z, 0).
Proof.
  split; [apply market_price_field|].
  destruct (@economy_getAveragePlanetPrice_observations ext_plain
              (world_market (steady 100)) 1%Z food_ptr (market (steady 100))
              (steady 100) (market_price_field (steady 100)) eq_refl)
    as [Hzero Hone].
  split; [exact Hzero|].
  assert (HP : @economy_getPrice ext_plain (world_market (steady 100)) 1
                 (Planet.commodities (market (steady 100))
                  !!! planet_index (world_market (steady 100)) food_ptr
                        (market (steady 100)))
                 (market (steady 100)) = 100%Z).
  { unfold economy_getPrice. simpl lookup_total. apply steady_price_100. }
  cbv zeta in Hone. rewrite HP in Hone.
  apply Hone; try reflexivity; lia.
Defined.

(** C4, as stated, fails: the query answers an unobserved pair and a
    pair observed once with the same code 0, so that nothing signals
    "not observed"; and a recorded price of -2 comes back as mean -1. *)
Lemma economy_getAveragePlanetPrice_signal_counterexample :
  let w := world_market (steady 100) in
  let p := market (steady 100) in
  economy_getAveragePlanetPrice w food_ptr p = (0%Z, 0%Z, 0) /\
  economy_getAveragePlanetPrice w food_ptr (@economy_averageSeenPrices ext_plain w 1 p)
  = (0%Z, 100%Z, 0) /\
  fst (fst (economy_getAveragePlanetPrice w food_ptr p))
  = fst (fst (economy_getAveragePlanetPrice w food_ptr
                (@economy_averageSeenPrices ext_plain w 1 p))) /\
  let w' := world_market (steady (-3)) in
  let p' := market (steady (-3)) in
  @economy_getPrice ext_plain w' 1 food_ptr p' = (-2)%Z /\
  economy_getAveragePlanetPrice w' food_ptr (@economy_averageSeenPrices ext_plain w' 1 p')
  = (0%Z, (-1)%Z, 0).
Proof.
  cbv zeta.
  assert (H0 : economy_getAveragePlanetPrice (world_market (steady 100)) food_ptr
                 (market (steady 100)) = (0%Z, 0%Z, 0)).
  { rewrite (economy_getAveragePlanetPrice_field _ _ _ _
               (market_price_field (steady 100))). reflexivity. }
  assert (H1 : economy_getAveragePlanetPrice (world_market (steady 100)) food_ptr
                 (@economy_averageSeenPrices ext_plain
                    (world_market (steady 100)) 1 (market (steady 100)))
               = (0%Z, 100%Z, 0)).
  { rewrite (@economy_getAveragePlanetPrice_first ext_plain _ 1 _ _ _
               (market_price_field (steady 100)));
      try reflexivity; unfold economy_getPrice; simpl lookup_total;
      rewrite steady_price_100; [|lia].
    f_equal. f_equal. apply credits_of_double_nonneg; lra. }
  assert (HP : @economy_getPrice ext_plain (world_market (steady (-3))) 1 food_ptr
                 (market (steady (-3))) = (-2)%Z).
  { unfold economy_getPrice. apply steady_price_minus_3. }
  rewrite H0, H1. repeat split; [exact HP|].
  rewrite (@economy_getAveragePlanetPrice_first ext_plain _ 1 _ _ _
             (market_price_field (steady (-3))));
    try reflexivity; unfold economy_getPrice; simpl lookup_total;
    rewrite steady_price_minus_3; [|lia].
  f_equal. f_equal. apply credits_of_double_neg; lra.
Qed.

(** ** Price initialiser, pass 1 *)

Section CalcPriceFacts.
Context `{Externals}.

(** The price that pass 1 leaves: the price found times the class scale,
    the population term, the faction scale and the presence term. *)
Lemma economy_calcPrice_price (planet : Planet.t) (commodity : Commodity.t)
  (cp : CommodityPrice.t) :
  CommodityPrice.price (economy_calcPrice planet commodity cp)
  = CommodityPrice.price cp
    * modifier_lookup (Commodity.planet_modifier commodity)
                      (Planet.class planet) 1
    * (1 + population_factor planet * Commodity.population_modifier commodity)
    * faction_scale planet commodity
    * presence_divisor planet.
Proof. reflexivity. Qed.

(** Pass 1 does not read the by-faction table of the commodity. *)
Lemma economy_calcPrice_ignores_faction_modifier (planet : Planet.t)
  (commodity : Commodity.t) (fm : CommodityModifier)
  (cp : CommodityPrice.t) :
  economy_calcPrice planet
    (Commodity.mk (Commodity.name commodity) (Commodity.description commodity)
       (Commodity.price commodity) (Commodity.planet_modifier commodity)
       (Commodity.period commodity) (Commodity.population_modifier commodity)
       fm (Commodity.lastPurchasePrice commodity)) cp
  = economy_calcPrice planet commodity cp.
Proof. reflexivity. Qed.

End CalcPriceFacts.

(** C2 at a planet of the Empire and a good whose by-faction table
    gives the Empire the factor 2: the factor that pass 1 applies is 1,
    read from the by-planet-class table, and the price stays 100 where
    the by-faction table asks for 200. *)
Theorem economy_calcPrice_faction_table :
  modifier_lookup (Commodity.faction_modifier spice)
                  (@faction_name ext_plain (Planet.faction (outpost 0))) 1 = 2
  /\ @faction_scale ext_plain (outpost 0) spice = 1
  /\ CommodityPrice.price
       (@economy_calcPrice ext_plain (outpost 0) spice (steady 100)) = 100
  /\ forall fm,
       CommodityPrice.price
         (@economy_calcPrice ext_plain (outpost 0) (spice_with fm) (steady 100))
       = 100.
Proof.
  split; [reflexivity|]. split; [reflexivity|].
  assert (Hp : forall fm,
             CommodityPrice.price
               (@economy_calcPrice ext_plain (outpost 0) (spice_with fm)
                  (steady 100)) = 100).
  { intros fm. real_eval. lra. }
  split; [exact (Hp _)|exact Hp].
Qed.

(** C3, as stated, fails: nothing clamps the presence range.  At a
    presence range of 60 the divisor of pass 1 is -1, the planet period
    that pass 1 leaves is negative, and it is still negative when the
    whole initialiser has run. *)
Lemma economy_calcPrice_presence_counterexample :
  @presence_divisor (outpost 60) = -1 /\
  CommodityPrice.planetPeriod
    (@economy_calcPrice ext_plain (outpost 60) spice (steady 100)) = -150 /\
  CommodityPrice.planetPeriod
    (Planet.commodityPrice
       (World.planet_stack
          (@economy_initialiseCommodityPrices ext_plain (world_outpost 60))
        !!! 0%nat) !!! 0%nat) = -150.
Proof.
  repeat split; real_eval; lra.
Qed.

(** ** Price initialiser: signs along the pipeline *)

Lemma tanh_bounds (x : R) : -1 < tanh x < 1.
Proof.
  unfold tanh, sinh, cosh.
  pose proof (exp_pos x) as Ha. pose proof (exp_pos (- x)) as Hb.
  set (a := exp x) in *. set (b := exp (- x)) in *.
  assert (Hc : 0 < (a + b) / 2) by lra.
  split.
  - apply (Rmult_lt_reg_r ((a + b) / 2)); [exact Hc|].
    unfold Rdiv at 2. rewrite Rmult_assoc, Rinv_l by lra. lra.
  - apply (Rmult_lt_reg_r ((a + b) / 2)); [exact Hc|].
    unfold Rdiv at 1. rewrite Rmult_assoc, Rinv_l by lra. lra.
Qed.

Lemma population_factor_bounds (planet : Planet.t) :
  -1 <= population_factor planet < 1.
Proof.
  unfold population_factor. destruct (_ <? _)%Z.
  - pose proof (tanh_bounds
                  ((ln (IZR (Planet.population planet)) - ln 100000000) / 2)).
    lra.
  - lra.
Qed.

Lemma modifier_lookup_nonneg (cm : CommodityModifier) (key : string)
  (scale : R) :
  Forall (fun e : string * R => 0 <= snd e) cm -> 0 <= scale ->
  0 <= modifier_lookup cm key scale.
Proof.
  intros Hcm Hs. induction Hcm as [|[nm v] cm Hv _ IH]; simpl; [exact Hs|].
  destruct (String.eqb key nm); [exact Hv|exact IH].
Qed.

Lemma inv_pos (x : R) : 0 < x -> 0 < 1 / x.
Proof. intros Hx. apply Rdiv_lt_0_compat; lra. Qed.

Section FieldFacts.
Context `{Externals}.

Lemma exterior_scale_pos (planet : Planet.t) : 1 <= exterior_scale planet.
Proof.
  unfold exterior_scale, wrap_size_t.
  match goal with
  | |- 1 <= 1 + IZR (?z mod ?m) / 100 =>
      assert (Hz : (0 <= z mod m)%Z) by (apply Z.mod_pos_bound; lia);
      apply IZR_le in Hz
  end.
  lra.
Qed.

Lemma presence_divisor_pos (planet : Planet.t) :
  (Planet.presenceRange planet < 30)%Z -> 0 < presence_divisor planet.
Proof.
  intros Hr. unfold presence_divisor. apply IZR_lt in Hr. lra.
Qed.

(** Pass 1 on a price field of a planet and a commodity in range. *)
Lemma economy_calcPrice_stage1 (planet : Planet.t) (commodity : Commodity.t)
  (cp : CommodityPrice.t) :
  (Planet.presenceRange planet < 30)%Z ->
  commodity_in_range commodity ->
  0 <= CommodityPrice.price cp ->
  field_stage1 (economy_calcPrice planet commodity cp).
Proof.
  intros Hr (Hper & Hpop & Hmod) Hp.
  pose proof (population_factor_bounds planet) as Hf.
  pose proof (exterior_scale_pos planet) as He.
  pose proof (presence_divisor_pos planet Hr) as Hd.
  pose proof (inv_pos _ Hd) as Hi.
  pose proof (modifier_lookup_nonneg _ (Planet.class planet) 1 Hmod
                ltac:(lra)) as Hc.
  pose proof (modifier_lookup_nonneg _
                (faction_name (Planet.faction planet)) 1 Hmod
                ltac:(lra)) as Hfs.
  fold (faction_scale planet commodity) in Hfs.
  unfold field_stage1, economy_calcPrice. simpl.
  set (f := population_factor planet) in *.
  set (b := Commodity.population_modifier commodity) in *.
  assert (Hfb : 0 <= 1 + f * b) by nra.
  split; [|split; [|split]].
  - repeat apply Rmult_le_pos; try assumption; lra.
  - repeat apply Rmult_lt_0_compat; try assumption; lra.
  - apply Rmult_le_pos; lra.
  - lra.
Qed.

(** The scaling of pass 2 takes a field of stage 1 to stage 2. *)
Lemma system_scale_stage2 (sys : StarSystem.t) (cp : CommodityPrice.t) :
  system_in_range sys -> field_stage1 cp ->
  field_stage2 (system_scale sys cp).
Proof.
  intros ((Hr0 & Hr1) & Hv & Hi) (Hp & Hpp & Hpv & Hsv).
  assert (H1 : 0 < 1 / (1 - StarSystem.radius sys / 200000))
    by (apply inv_pos; lra).
  assert (H2 : 0 < 1 / (1 - StarSystem.radius sys / 300000))
    by (apply inv_pos; lra).
  unfold field_stage2, field_stage1, system_scale. simpl.
  repeat split.
  - repeat apply Rmult_le_pos; try assumption; lra.
  - apply Rmult_lt_0_compat; assumption.
  - apply Rmult_le_pos; lra.
  - exact Hsv.
  - apply Rdiv_lt_0_compat; [lra|].
    apply IZR_lt. lia.
Qed.

End FieldFacts.

Section AverageSigns.
Context `{Externals}.

Lemma average_add_ok (nm : string) (cp : CommodityPrice.t)
  (avprice : list CommodityPrice.t) :
  Forall average_acc_ok avprice ->
  0 <= CommodityPrice.price cp -> 0 <= CommodityPrice.planetVariation cp ->
  Forall average_acc_ok (average_add nm cp avprice).
Proof.
  intros Hav Hp Hv. unfold average_add.
  destruct (_ <? _)%nat.
  - apply Forall_alter; [exact Hav|].
    intros a Ha ((Hap & Hav') & Hn).
    unfold average_acc_ok, average_ok; simpl.
    repeat split; try lra; lia.
  - apply Forall_app. split; [exact Hav|].
    constructor; [|constructor].
    unfold average_acc_ok, average_ok; simpl. repeat split; try lra; lia.
Qed.

Lemma average_div_ok (a : CommodityPrice.t) :
  average_acc_ok a -> average_ok (average_div a).
Proof.
  intros ((Hp & Hv) & Hn). apply IZR_le in Hn.
  assert (Hi : 0 < / IZR (CommodityPrice.updateTime a))
    by (apply Rinv_0_lt_compat; lra).
  unfold average_ok, average_div; simpl.
  split; apply Rmult_le_pos; lra.
Qed.

Lemma blend_field_stage1 (nm : string) (avprice : list CommodityPrice.t)
  (cp : CommodityPrice.t) :
  Forall average_ok avprice -> field_stage1 cp ->
  field_stage1 (blend_field nm avprice cp) /\
  CommodityPrice.sysPeriod (blend_field nm avprice cp)
  = CommodityPrice.sysPeriod cp.
Proof.
  unfold blend_field. intros Hav. revert cp.
  induction Hav as [|a av (Hap & Hapv) _ IH]; intros cp Hcp; simpl.
  - split; [exact Hcp|reflexivity].
  - destruct (String.eqb nm (CommodityPrice.name a)).
    + match goal with
      | |- field_stage1 (fold_left _ _ ?c) /\ _ =>
          destruct (IH c) as [H1 H2]
      end.
      * destruct Hcp as (Hp & Hpp & Hpv & Hsv).
        unfold field_stage1; simpl. repeat split; try lra.
      * split; [exact H1|exact H2].
    + apply IH. exact Hcp.
Qed.

Lemma average_update_ok (a : CommodityPrice.t) :
  average_smooth_ok a -> average_ok (average_update a).
Proof.
  intros ((Hp & Hv) & Hs). unfold average_ok, average_update; simpl.
  split; lra.
Qed.

Lemma final_field_stage1 (nm : string) (avprice : list CommodityPrice.t)
  (cp : CommodityPrice.t) :
  Forall average_ok avprice -> field_stage1 cp ->
  field_stage1 (final_field nm avprice cp) /\
  CommodityPrice.sysPeriod (final_field nm avprice cp)
  = CommodityPrice.sysPeriod cp.
Proof.
  intros Hav (Hp & Hpp & Hpv & Hsv). unfold final_field.
  destruct (Nat.ltb_spec
              (scan (fun a => String.eqb (CommodityPrice.name a) nm) avprice)
              (length avprice)) as [Hlt|_].
  - destruct (lookup_lt_is_Some_2 _ _ Hlt) as [a Ha].
    rewrite (list_lookup_total_correct _ _ _ Ha).
    rewrite Forall_lookup in Hav. destruct (Hav _ _ Ha) as (Hap & Hapv).
    unfold field_stage1; simpl. split; [|reflexivity].
    assert (Hnew : 0 <= 0.25 * CommodityPrice.price cp
                        + 0.75 * CommodityPrice.price a) by lra.
    repeat split; try assumption.
    + apply Rmult_le_pos; [lra|exact Hnew].
    + apply Rmult_le_pos; [lra|exact Hnew].
  - split; [|reflexivity]. repeat split; assumption.
Qed.

End AverageSigns.

(** ** Loops over the price fields of a planet *)

(** A loop that rewrites the price field of each commodity in turn,
    by a function of the planet's fixed attributes, in closed form. *)
Lemma entry_loop_closed (g : Planet.t -> nat -> CommodityPrice.t ->
                             CommodityPrice.t)
  (p : Planet.t) (n : nat) :
  (forall q l, g (Planet.set_commodityPrice q l) = g q) ->
  for_loop n 0
    (fun j p =>
       Planet.set_commodityPrice p
         (<[j := g p j (Planet.commodityPrice p !!! j)]>
            (Planet.commodityPrice p)))
    p
  = Planet.set_commodityPrice p
      (imap (fun j cp => if (j <? n)%nat then g p j cp else cp)
            (Planet.commodityPrice p)).
Proof.
  intros Hg. change n with (0 + n)%nat at 2.
  apply (for_loop_ind (fun k p' =>
    p' = Planet.set_commodityPrice p
           (imap (fun j cp => if (j <? k)%nat then g p j cp else cp)
                 (Planet.commodityPrice p)))).
  - rewrite <- (set_commodityPrice_id p) at 1. f_equal.
    apply list_eq. intros j. rewrite list_lookup_imap.
    destruct (Planet.commodityPrice p !! j); reflexivity.
  - intros k p' _ ->. rewrite Hg. simpl.
    destruct p as [nm cl gs ge pop fa pr cs cps]; simpl. f_equal.
    apply list_eq. intros j.
    destruct (decide (k = j)) as [<-|Hne].
    + destruct (cps !! k) as [cp|] eqn:Hk.
      * rewrite list_lookup_insert_eq
          by (rewrite length_imap; eapply lookup_lt_Some; exact Hk).
        rewrite list_lookup_imap, Hk. simpl.
        erewrite list_lookup_total_correct
          by (rewrite list_lookup_imap, Hk; reflexivity).
        rewrite Nat.ltb_irrefl.
        destruct (Nat.ltb_spec k (S k)); [reflexivity|lia].
      * rewrite list_insert_ge
          by (rewrite length_imap; apply lookup_ge_None; exact Hk).
        rewrite !list_lookup_imap, Hk. reflexivity.
    + rewrite list_lookup_insert_ne by exact Hne.
      rewrite !list_lookup_imap.
      destruct (cps !! j) as [cp|]; [|reflexivity]. simpl.
      destruct (Nat.ltb_spec j k), (Nat.ltb_spec j (S k));
        try reflexivity; lia.
Qed.

(** What such a loop establishes on a planet whose arrays agree in
    length: every price field has been rewritten. *)
Lemma entry_loop_Forall (g : Planet.t -> nat -> CommodityPrice.t ->
                             CommodityPrice.t)
  (B : CommodityPrice.t -> Prop) (p : Planet.t) :
  (forall q l, g (Planet.set_commodityPrice q l) = g q) ->
  length (Planet.commodityPrice p) = length (Planet.commodities p) ->
  (forall j cp, Planet.commodityPrice p !! j = Some cp -> B (g p j cp)) ->
  let p' := for_loop (Planet.ncommodities p) 0
              (fun j p =>
                 Planet.set_commodityPrice p
                   (<[j := g p j (Planet.commodityPrice p !!! j)]>
                      (Planet.commodityPrice p)))
              p in
  (exists l, p' = Planet.set_commodityPrice p l) /\
  length (Planet.commodityPrice p') = length (Planet.commodityPrice p) /\
  Forall B (Planet.commodityPrice p').
Proof.
  intros Hg Hlen HB p'. subst p'. rewrite (entry_loop_closed g p _ Hg).
  split; [eexists; reflexivity|]. simpl. split; [apply length_imap|].
  apply Forall_lookup. intros j cp'. rewrite list_lookup_imap.
  destruct (Planet.commodityPrice p !! j) as [cp|] eqn:Hj; [|discriminate].
  simpl. intros [= <-].
  destruct (Nat.ltb_spec j (Planet.ncommodities p)) as [_|Hge].
  - apply HB. exact Hj.
  - apply lookup_lt_Some in Hj. unfold Planet.ncommodities in Hge. lia.
Qed.

(** ** Marked stacks of planets *)

Lemma marks_mono (A B : nat -> Planet.t -> Prop)
  (done done' : nat -> Prop) (planets : list Planet.t) :
  (forall q, done' q -> done q) ->
  marks A B done planets -> marks A B done' planets.
Proof.
  intros Hd Hm q x Hq. destruct (Hm q x Hq) as [HA HB].
  split; [exact HA|]. intros Hq'. apply HB, Hd, Hq'.
Qed.

Lemma marks_alter (A B : nat -> Planet.t -> Prop)
  (done : nat -> Prop) (planets : list Planet.t)
  (F : Planet.t -> Planet.t) (ptr : nat) :
  marks A B done planets ->
  (forall x, A ptr x -> A ptr (F x) /\ B ptr (F x)) ->
  marks A B (fun q => done q \/ q = ptr) (alter F ptr planets).
Proof.
  intros Hm HF q x. destruct (decide (ptr = q)) as [<-|Hne].
  - rewrite list_lookup_alter_eq.
    destruct (planets !! ptr) as [y|] eqn:Hy; [|discriminate].
    simpl. intros [= <-]. destruct (Hm _ _ Hy) as [HA _].
    destruct (HF y HA) as [HA' HB']. split; [exact HA'|]. intros _; exact HB'.
  - rewrite list_lookup_alter_ne by exact Hne. intros Hq.
    destruct (Hm _ _ Hq) as [HA HB]. split; [exact HA|].
    intros [Hd|Heq]; [exact (HB Hd)|congruence].
Qed.

Lemma marks_alter_keep (A B : nat -> Planet.t -> Prop)
  (done : nat -> Prop) (planets : list Planet.t)
  (F : Planet.t -> Planet.t) (ptr : nat) :
  marks A B done planets ->
  (forall x, A ptr x -> A ptr (F x) /\ (B ptr x -> B ptr (F x))) ->
  marks A B done (alter F ptr planets).
Proof.
  intros Hm HF q x. destruct (decide (ptr = q)) as [<-|Hne].
  - rewrite list_lookup_alter_eq.
    destruct (planets !! ptr) as [y|] eqn:Hy; [|discriminate].
    simpl. intros [= <-]. destruct (Hm _ _ Hy) as [HA HB].
    destruct (HF y HA) as [HA' HB']. split; [exact HA'|].
    intros Hd. apply HB', HB, Hd.
  - rewrite list_lookup_alter_ne by exact Hne. apply Hm.
Qed.

Lemma marks_insert (A B : nat -> Planet.t -> Prop)
  (done : nat -> Prop) (planets : list Planet.t) (x' : Planet.t) (ptr : nat) :
  marks A B done planets -> A ptr x' -> B ptr x' ->
  marks A B (fun q => done q \/ q = ptr) (<[ptr := x']> planets).
Proof.
  intros Hm HA' HB' q x. destruct (decide (ptr = q)) as [<-|Hne].
  - intros Hq. apply list_lookup_insert_Some in Hq.
    destruct Hq as [(_ & <- & _)|(Hne & _)]; [|congruence].
    split; [exact HA'|]. intros _; exact HB'.
  - rewrite list_lookup_insert_ne by exact Hne. intros Hq.
    destruct (Hm _ _ Hq) as [HA HB]. split; [exact HA|].
    intros [Hd|Heq]; [exact (HB Hd)|congruence].
Qed.

(** A loop that alters the planets listed in [ptrs] marks them. *)
Lemma alter_loop_marks (A B : nat -> Planet.t -> Prop)
  (done : nat -> Prop) (planets : list Planet.t)
  (F : Planet.t -> Planet.t) (ptrs : list Planet_ptr) (n : nat) :
  marks A B done planets ->
  (forall i x, (i < n)%nat ->
               A (ptrs !!! i) x ->
               A (ptrs !!! i) (F x) /\ B (ptrs !!! i) (F x)) ->
  marks A B (fun q => done q \/ exists i, (i < n)%nat /\ ptrs !!! i = q)
        (for_loop n 0 (fun i planets => alter F (ptrs !!! i) planets) planets).
Proof.
  intros Hm HF. change n with (0 + n)%nat at 2.
  apply (for_loop_ind (fun k st =>
    marks A B (fun q => done q \/ exists i, (i < k)%nat /\ ptrs !!! i = q) st)).
  - eapply marks_mono; [|exact Hm].
    intros q [Hd|(i & Hi & _)]; [exact Hd|lia].
  - intros k st Hk Hst.
    eapply marks_mono; [|apply marks_alter; [exact Hst|]].
    + intros q [Hd|(i & Hi & Hq)].
      * left. left. exact Hd.
      * destruct (decide (i = k)) as [->|Hne]; [right; congruence|].
        left. right. exists i. split; [lia|exact Hq].
    + intros x. apply HF. lia.
Qed.

(** A loop that alters the planets listed in [ptrs] by a function that
    keeps both properties keeps the marks. *)
Lemma alter_loop_keep (A B : nat -> Planet.t -> Prop)
  (done : nat -> Prop) (planets : list Planet.t)
  (F : Planet.t -> Planet.t) (ptrs : list Planet_ptr) (n : nat) :
  marks A B done planets ->
  (forall i x, (i < n)%nat ->
               A (ptrs !!! i) x ->
               A (ptrs !!! i) (F x) /\
               (B (ptrs !!! i) x -> B (ptrs !!! i) (F x))) ->
  marks A B done
        (for_loop n 0 (fun i planets => alter F (ptrs !!! i) planets) planets).
Proof.
  intros Hm HF. change n with (0 + n)%nat.
  apply (for_loop_ind (fun k st => marks A B done st)); [exact Hm|].
  intros k st Hk Hst. apply marks_alter_keep; [exact Hst|].
  intros x. apply HF. lia.
Qed.

Lemma belongs_intro (systems : list StarSystem.t) (s i : nat) :
  (s < length systems)%nat ->
  (i < StarSystem.nplanets (systems !!! s))%nat ->
  belongs systems (StarSystem.planets (systems !!! s) !!! i).
Proof.
  intros Hs Hi.
  destruct (lookup_lt_is_Some_2 _ _ Hs) as [sys Hsys].
  rewrite (list_lookup_total_correct _ _ _ Hsys) in *.
  destruct (lookup_lt_is_Some_2 _ _ Hi) as [ptr Hptr].
  rewrite (list_lookup_total_correct _ _ _ Hptr).
  exists s, sys, i. split; assumption.
Qed.

Lemma planet_in_range_set (commodity_stack : list Commodity.t)
  (p : Planet.t) (l : list CommodityPrice.t) :
  planet_in_range commodity_stack p ->
  length l = length (Planet.commodityPrice p) ->
  Forall (fun cp => 0 <= CommodityPrice.price cp) l ->
  planet_in_range commodity_stack (Planet.set_commodityPrice p l).
Proof.
  intros (Hr & Hlen & Hc & _) Hl Hp. unfold planet_in_range; simpl.
  repeat split; try assumption. congruence.
Qed.

Lemma planet_in_range_null (commodity_stack : list Commodity.t) :
  planet_in_range commodity_stack Planet.null.
Proof.
  unfold planet_in_range; simpl. repeat split; try constructor; lia.
Qed.

Lemma stage1_price (l : list CommodityPrice.t) :
  Forall field_stage1 l -> Forall (fun cp => 0 <= CommodityPrice.price cp) l.
Proof.
  intros Hl. eapply Forall_impl; [exact Hl|]. intros cp (Hp & _). exact Hp.
Qed.

Lemma stage2_stage1 (l : list CommodityPrice.t) :
  Forall field_stage2 l -> Forall field_stage1 l.
Proof.
  intros Hl. eapply Forall_impl; [exact Hl|]. intros cp (H1 & _). exact H1.
Qed.

(** ** Pass 1 *)

Section Pass1Facts.
Context `{Externals}.

Lemma calcPrice_planet_range (commodity_stack : list Commodity.t)
  (p : Planet.t) :
  planet_in_range commodity_stack p ->
  planet_in_range commodity_stack (calcPrice_planet commodity_stack p) /\
  Forall field_stage1
         (Planet.commodityPrice (calcPrice_planet commodity_stack p)).
Proof.
  intros Hp. pose proof Hp as (Hr & Hlen & Hc & Hprice).
  destruct (entry_loop_Forall
              (fun planet j cp =>
                 economy_calcPrice planet
                   (commodity_stack !!! (Planet.commodities planet !!! j)) cp)
              field_stage1 p) as ([l Hl] & Hlen' & Hall).
  - intros q l. reflexivity.
  - exact Hlen.
  - intros j cp Hj. apply economy_calcPrice_stage1; [exact Hr| |].
    + assert (Hjc : (j < length (Planet.commodities p))%nat)
        by (rewrite <- Hlen; eapply lookup_lt_Some; exact Hj).
      destruct (lookup_lt_is_Some_2 _ _ Hjc) as [c Hcj].
      rewrite (list_lookup_total_correct _ _ _ Hcj).
      rewrite Forall_lookup in Hc. exact (Hc _ _ Hcj).
    + rewrite Forall_lookup in Hprice. exact (Hprice _ _ Hj).
  - fold (calcPrice_planet commodity_stack p) in Hl, Hlen', Hall.
    split; [|exact Hall].
    rewrite Hl. apply planet_in_range_set; [exact Hp| |].
    + rewrite Hl in Hlen'. exact Hlen'.
    + rewrite Hl in Hall. apply stage1_price. exact Hall.
Qed.

(** After pass 1 every planet is still in range and the price fields of
    the planets that belong to a system have reached stage 1. *)
Lemma initialise_pass1_marks (w : World.t) :
  world_in_range w ->
  World.commodity_stack (initialise_pass1 w) = World.commodity_stack w /\
  World.systems_stack (initialise_pass1 w) = World.systems_stack w /\
  marks (fun _ x => planet_in_range (World.commodity_stack w) x)
        (fun _ x => Forall field_stage1 (Planet.commodityPrice x))
        (belongs (World.systems_stack w))
        (World.planet_stack (initialise_pass1 w)).
Proof.
  intros [Hplanets _]. split; [reflexivity|]. split; [reflexivity|].
  unfold initialise_pass1. simpl.
  set (stack := World.commodity_stack w).
  set (systems := World.systems_stack w).
  eapply marks_mono; cycle 1.
  - change (length systems) with (0 + length systems)%nat.
    apply (for_loop_ind (fun k st =>
      marks (fun _ x => planet_in_range stack x)
            (fun _ x => Forall field_stage1 (Planet.commodityPrice x))
            (fun q => exists s i, (s < k)%nat /\
                        (i < StarSystem.nplanets (systems !!! s))%nat /\
                        StarSystem.planets (systems !!! s) !!! i = q) st)).
    + intros q x Hq. split.
      * rewrite Forall_lookup in Hplanets. exact (Hplanets _ _ Hq).
      * intros (s & i & Hs & _). lia.
    + intros k st Hk Hst. unfold calcPrice_system.
      eapply marks_mono; [|apply alter_loop_marks; [exact Hst|]].
      * intros q (s & i & Hs & Hi & Hq).
        destruct (decide (s = k)) as [->|Hne].
        -- right. exists i. split; assumption.
        -- left. exists s, i. repeat split; try assumption. lia.
      * intros i x _ Hx. apply calcPrice_planet_range. exact Hx.
  - intros q (s & sys & j & Hs & Hj). simpl.
    exists s, j.
    rewrite (list_lookup_total_correct _ _ _ Hs).
    rewrite (list_lookup_total_correct _ _ _ Hj).
    repeat split.
    + eapply lookup_lt_Some; exact Hs.
    + eapply lookup_lt_Some; exact Hj.
Qed.

End Pass1Facts.

(** ** Pass 2 *)

Section Pass2Facts.
Context `{Externals}.
Variable commodity_stack : list Commodity.t.

(** The first loop nest on one planet: its price fields reach stage 2
    and the running averages stay sound. *)
Lemma scale_planet_spec (sys : StarSystem.t) (planet : Planet.t)
  (avprice : list CommodityPrice.t) :
  system_in_range sys ->
  planet_in_range commodity_stack planet ->
  Forall field_stage1 (Planet.commodityPrice planet) ->
  Forall average_acc_ok avprice ->
  let res := scale_planet commodity_stack sys (planet, avprice) in
  planet_in_range commodity_stack (fst res) /\
  Forall field_stage2 (Planet.commodityPrice (fst res)) /\
  Forall average_acc_ok (snd res).
Proof.
  intros Hsys Hp H1 Hav res.
  pose proof Hp as (_ & Hlen & _ & _).
  assert (Hinv :
    (exists l, fst res = Planet.set_commodityPrice planet l /\
               length l = length (Planet.commodityPrice planet) /\
               forall j cp', l !! j = Some cp' ->
                 if (j <? Planet.ncommodities planet)%nat
                 then field_stage2 cp' else field_stage1 cp') /\
    Forall average_acc_ok (snd res)).
  { subst res. unfold scale_planet. simpl fst.
    change (Planet.ncommodities planet)
      with (0 + Planet.ncommodities planet)%nat at 1 3.
    apply (for_loop_ind (fun k st =>
      (exists l, fst st = Planet.set_commodityPrice planet l /\
                 length l = length (Planet.commodityPrice planet) /\
                 forall j cp', l !! j = Some cp' ->
                   if (j <? k)%nat then field_stage2 cp'
                   else field_stage1 cp') /\
      Forall average_acc_ok (snd st))).
    - split; [|exact Hav].
      exists (Planet.commodityPrice planet). simpl.
      split; [symmetry; apply set_commodityPrice_id|]. split; [reflexivity|].
      intros j cp' Hj. rewrite Forall_lookup in H1. exact (H1 _ _ Hj).
    - intros k [pl a] Hk ((l & Hpl & Hl & Hst) & Ha). simpl in Hpl, Ha.
      subst pl. simpl.
      assert (Hkl : (k < length l)%nat)
        by (unfold Planet.ncommodities in Hk; lia).
      destruct (lookup_lt_is_Some_2 _ _ Hkl) as [c Hc].
      rewrite (list_lookup_total_correct _ _ _ Hc).
      pose proof (Hst _ _ Hc) as Hc1. rewrite Nat.ltb_irrefl in Hc1.
      pose proof (system_scale_stage2 sys c Hsys Hc1) as Hc2.
      split.
      + exists (<[k := system_scale sys c]> l).
        split; [destruct planet; reflexivity|].
        split; [rewrite length_insert; exact Hl|].
        intros j cp' Hj. destruct (decide (k = j)) as [<-|Hne].
        * rewrite list_lookup_insert_eq in Hj by exact Hkl.
          injection Hj as <-.
          destruct (Nat.ltb_spec k (S k)); [exact Hc2|lia].
        * rewrite list_lookup_insert_ne in Hj by exact Hne.
          specialize (Hst _ _ Hj).
          destruct (Nat.ltb_spec j k), (Nat.ltb_spec j (S k));
            try assumption; lia.
      + destruct Hc2 as ((Hp2 & _ & Hv2 & _) & _).
        apply average_add_ok; assumption. }
  destruct Hinv as ((l & Hl & Hlen' & Hst) & Ha).
  assert (H2 : Forall field_stage2 l).
  { apply Forall_lookup. intros j cp' Hj. specialize (Hst _ _ Hj).
    destruct (Nat.ltb_spec j (Planet.ncommodities planet)) as [_|Hge];
      [exact Hst|].
    apply lookup_lt_Some in Hj. unfold Planet.ncommodities in Hge. lia. }
  rewrite Hl. simpl. split; [|split; [exact H2|exact Ha]].
  apply planet_in_range_set; [exact Hp|exact Hlen'|].
  apply stage1_price, stage2_stage1, H2.
Qed.

(** A loop that rewrites every price field of a planet by a function
    that keeps stage 1 and the system period keeps the planet in range
    and at the stage it had reached. *)
Lemma rewrite_planet_keeps (h : string -> CommodityPrice.t ->
                                CommodityPrice.t) (x : Planet.t) :
  (forall nm cp, field_stage1 cp ->
                 field_stage1 (h nm cp) /\
                 CommodityPrice.sysPeriod (h nm cp)
                 = CommodityPrice.sysPeriod cp) ->
  planet_in_range commodity_stack x ->
  Forall field_stage1 (Planet.commodityPrice x) ->
  let x' := for_loop (Planet.ncommodities x) 0
              (fun j planet =>
                 Planet.set_commodityPrice planet
                   (<[j := h (Commodity.name
                                (commodity_stack
                                 !!! (Planet.commodities planet !!! j)))
                             (Planet.commodityPrice planet !!! j)]>
                      (Planet.commodityPrice planet)))
              x in
  planet_in_range commodity_stack x' /\
  Forall field_stage1 (Planet.commodityPrice x') /\
  (at_stage2 x -> at_stage2 x').
Proof.
  intros Hh Hx H1 x'. pose proof Hx as (_ & Hlen & _ & _).
  set (g := fun (planet : Planet.t) (j : nat) (cp : CommodityPrice.t) =>
              h (Commodity.name
                   (commodity_stack !!! (Planet.commodities planet !!! j)))
                cp).
  assert (Hg : forall q l, g (Planet.set_commodityPrice q l) = g q)
    by reflexivity.
  pose proof (entry_loop_Forall g field_stage1 x Hg Hlen) as E1.
  cbv zeta in E1. change (for_loop _ _ _ x) with x' in E1.
  destruct E1 as ([l Hl] & Hlen' & Hall).
  { intros j cp Hj. apply Hh. rewrite Forall_lookup in H1.
    exact (H1 _ _ Hj). }
  split; [|split; [exact Hall|]].
  - rewrite Hl. apply planet_in_range_set; [exact Hx| |].
    + rewrite Hl in Hlen'. exact Hlen'.
    + rewrite Hl in Hall. apply stage1_price, Hall.
  - intros H2.
    pose proof (entry_loop_Forall g field_stage2 x Hg Hlen) as E2.
    cbv zeta in E2. change (for_loop _ _ _ x) with x' in E2.
    destruct E2 as (_ & _ & Hall2).
    { intros j cp Hj. unfold at_stage2 in H2. rewrite Forall_lookup in H2.
      destruct (H2 _ _ Hj) as [Hs1 Hsp].
      destruct (Hh (Commodity.name
                      (commodity_stack !!! (Planet.commodities x !!! j)))
                   cp Hs1) as [Hs1' Heq].
      split; [exact Hs1'|]. unfold g. rewrite Heq. exact Hsp. }
    exact Hall2.
Qed.

Lemma blend_planet_keeps (avprice : list CommodityPrice.t) (x : Planet.t) :
  Forall average_ok avprice ->
  planet_in_range commodity_stack x ->
  Forall field_stage1 (Planet.commodityPrice x) ->
  planet_in_range commodity_stack (blend_planet commodity_stack avprice x) /\
  Forall field_stage1
    (Planet.commodityPrice (blend_planet commodity_stack avprice x)) /\
  (at_stage2 x -> at_stage2 (blend_planet commodity_stack avprice x)).
Proof.
  intros Hav. apply (rewrite_planet_keeps (fun nm cp => blend_field nm avprice cp)).
  intros nm cp. apply blend_field_stage1. exact Hav.
Qed.

Lemma final_planet_keeps (avprice : list CommodityPrice.t) (x : Planet.t) :
  Forall average_ok avprice ->
  planet_in_range commodity_stack x ->
  Forall field_stage1 (Planet.commodityPrice x) ->
  planet_in_range commodity_stack (final_planet commodity_stack avprice x) /\
  Forall field_stage1
    (Planet.commodityPrice (final_planet commodity_stack avprice x)) /\
  (at_stage2 x -> at_stage2 (final_planet commodity_stack avprice x)).
Proof.
  intros Hav. apply (rewrite_planet_keeps (fun nm cp => final_field nm avprice cp)).
  intros nm cp. apply final_field_stage1. exact Hav.
Qed.

(** A loop that alters the planets of a system by such a rewriting
    keeps the marks of the stack. *)
Lemma rewrite_system_keeps (F : Planet.t -> Planet.t)
  (systems : list StarSystem.t) (sys : StarSystem.t)
  (done : nat -> Prop) (planets : list Planet.t) :
  (forall x, planet_in_range commodity_stack x ->
             Forall field_stage1 (Planet.commodityPrice x) ->
             planet_in_range commodity_stack (F x) /\
             Forall field_stage1 (Planet.commodityPrice (F x)) /\
             (at_stage2 x -> at_stage2 (F x))) ->
  (forall i, (i < StarSystem.nplanets sys)%nat ->
             belongs systems (StarSystem.planets sys !!! i)) ->
  marks (kept commodity_stack systems) (fun _ => at_stage2) done planets ->
  marks (kept commodity_stack systems) (fun _ => at_stage2) done
    (for_loop (StarSystem.nplanets sys) 0
       (fun i planets => alter F (StarSystem.planets sys !!! i) planets)
       planets).
Proof.
  intros HF Hbel Hm. apply alter_loop_keep; [exact Hm|].
  intros i x Hi [Hx H1]. specialize (H1 (Hbel i Hi)).
  destruct (HF x Hx H1) as (Hx' & H1' & H2').
  split; [|exact H2']. split; [exact Hx'|]. intros _. exact H1'.
Qed.

(** The first loop nest of pass 2 on a system. *)
Lemma scale_system_spec (systems : list StarSystem.t) (sys : StarSystem.t)
  (done : nat -> Prop) (planets : list Planet.t)
  (avprice : list CommodityPrice.t) :
  system_in_range sys ->
  (forall i, (i < StarSystem.nplanets sys)%nat ->
             belongs systems (StarSystem.planets sys !!! i)) ->
  marks (kept commodity_stack systems) (fun _ => at_stage2) done planets ->
  Forall average_acc_ok avprice ->
  let res := scale_system commodity_stack sys (planets, avprice) in
  marks (kept commodity_stack systems) (fun _ => at_stage2)
        (fun q => done q \/
                  exists i, (i < StarSystem.nplanets sys)%nat /\
                            StarSystem.planets sys !!! i = q)
        (fst res) /\
  Forall average_acc_ok (snd res).
Proof.
  intros Hsys Hbel Hm Hav res. subst res. unfold scale_system.
  change (StarSystem.nplanets sys) with (0 + StarSystem.nplanets sys)%nat at 2.
  apply (for_loop_ind (fun k st =>
    marks (kept commodity_stack systems) (fun _ => at_stage2)
          (fun q => done q \/
                    exists i, (i < k)%nat /\ StarSystem.planets sys !!! i = q)
          (fst st) /\
    Forall average_acc_ok (snd st))).
  - split; [|exact Hav]. eapply marks_mono; [|exact Hm].
    intros q [Hd|(i & Hi & _)]; [exact Hd|lia].
  - intros k [pls a] Hk [Hst Ha]. simpl in Hst, Ha.
    set (ptr := StarSystem.planets sys !!! k).
    assert (Hptr : planet_in_range commodity_stack (pls !!! ptr) /\
                   Forall field_stage1 (Planet.commodityPrice (pls !!! ptr))).
    { destruct (pls !! ptr) as [x|] eqn:Hx.
      - rewrite (list_lookup_total_correct _ _ _ Hx).
        destruct (Hst _ _ Hx) as [[Hr H1] _]. split; [exact Hr|].
        apply H1. apply Hbel. lia.
      - rewrite list_lookup_total_alt, Hx. simpl.
        split; [apply planet_in_range_null|constructor]. }
    destruct Hptr as [Hr H1].
    pose proof (scale_planet_spec sys (pls !!! ptr) a Hsys Hr H1 Ha) as Hsp.
    cbv zeta in Hsp.
    destruct (scale_planet commodity_stack sys (pls !!! ptr, a))
      as [planet' a'] eqn:Hres.
    simpl in Hsp |- *.
    destruct Hsp as (Hr' & H2' & Ha'). split; [|exact Ha'].
    eapply marks_mono; [|apply marks_insert; [exact Hst| |exact H2']].
    + intros q [Hd|(i & Hi & Hq)].
      * left. left. exact Hd.
      * destruct (decide (i = k)) as [->|Hne]; [right; subst ptr; congruence|].
        left. right. exists i. split; [lia|exact Hq].
    + split; [exact Hr'|]. intros _. apply stage2_stage1, H2'.
Qed.

End Pass2Facts.

(** ** Stacks of systems that differ in their averages *)

Lemma set_averagePrice_id (s : StarSystem.t) :
  StarSystem.set_averagePrice s (StarSystem.averagePrice s) = s.
Proof. destruct s; reflexivity. Qed.

Lemma same_systems_refl (ss : list StarSystem.t) : same_systems ss ss.
Proof.
  apply Forall2_same_length_lookup. split; [reflexivity|].
  intros i s s' Hs Hs'. exists (StarSystem.averagePrice s).
  rewrite set_averagePrice_id. congruence.
Qed.

Lemma same_systems_length (ss ss' : list StarSystem.t) :
  same_systems ss ss' -> length ss' = length ss.
Proof. intros Hs. symmetry. eapply Forall2_length; exact Hs. Qed.

Lemma same_systems_lookup_total (ss ss' : list StarSystem.t) (s : nat) :
  same_systems ss ss' ->
  exists av, ss' !!! s = StarSystem.set_averagePrice (ss !!! s) av.
Proof.
  intros Hs. pose proof (same_systems_length _ _ Hs) as Hlen.
  apply Forall2_same_length_lookup in Hs. destruct Hs as [_ Hs].
  destruct (ss !! s) as [x|] eqn:Hx.
  - assert (Hlt : (s < length ss')%nat)
      by (rewrite Hlen; eapply lookup_lt_Some; exact Hx).
    destruct (lookup_lt_is_Some_2 _ _ Hlt) as [x' Hx'].
    destruct (Hs _ _ _ Hx Hx') as [av Hav]. exists av.
    rewrite (list_lookup_total_correct _ _ _ Hx).
    rewrite (list_lookup_total_correct _ _ _ Hx'). exact Hav.
  - exists []. rewrite !list_lookup_total_alt, Hx.
    apply lookup_ge_None in Hx.
    rewrite (proj2 (lookup_ge_None ss' s)) by lia. reflexivity.
Qed.

Lemma same_systems_insert (ss ss' : list StarSystem.t) (s : nat)
  (av : list CommodityPrice.t) :
  same_systems ss ss' ->
  same_systems ss
    (<[s := StarSystem.set_averagePrice (ss' !!! s) av]> ss').
Proof.
  intros Hs. pose proof (same_systems_length _ _ Hs) as Hlen.
  destruct (same_systems_lookup_total _ _ s Hs) as [av0 Hav0].
  apply Forall2_same_length_lookup in Hs. destruct Hs as [_ Hs].
  apply Forall2_same_length_lookup. split; [rewrite length_insert; lia|].
  intros i x x' Hx Hx'. destruct (decide (s = i)) as [<-|Hne].
  - apply list_lookup_insert_Some in Hx'.
    destruct Hx' as [(_ & <- & _)|(Hne & _)]; [|congruence].
    exists av. rewrite Hav0. rewrite (list_lookup_total_correct _ _ _ Hx).
    reflexivity.
  - rewrite list_lookup_insert_ne in Hx' by exact Hne.
    exact (Hs _ _ _ Hx Hx').
Qed.

Lemma same_systems_trans (ss1 ss2 ss3 : list StarSystem.t) :
  same_systems ss1 ss2 -> same_systems ss2 ss3 -> same_systems ss1 ss3.
Proof.
  intros H12 H23. pose proof (same_systems_length _ _ H12) as L12.
  pose proof (same_systems_length _ _ H23) as L23.
  apply Forall2_same_length_lookup in H12, H23.
  destruct H12 as [_ H12]. destruct H23 as [_ H23].
  apply Forall2_same_length_lookup. split; [lia|].
  intros i x x'' Hx Hx''.
  assert (Hlt : (i < length ss2)%nat)
    by (rewrite L12; eapply lookup_lt_Some; exact Hx).
  destruct (lookup_lt_is_Some_2 _ _ Hlt) as [x' Hx'].
  destruct (H12 _ _ _ Hx Hx') as [av ->].
  destruct (H23 _ _ _ Hx' Hx'') as [av' ->].
  exists av'. reflexivity.
Qed.

Lemma averages_lookup_total (P : CommodityPrice.t -> Prop)
  (ss : list StarSystem.t) (s : nat) :
  averages P ss -> Forall P (StarSystem.averagePrice (ss !!! s)).
Proof.
  intros Hav. rewrite list_lookup_total_alt.
  destruct (ss !! s) as [x|] eqn:Hx; simpl.
  - unfold averages in Hav. rewrite Forall_lookup in Hav. exact (Hav _ _ Hx).
  - constructor.
Qed.

Lemma averages_prefix (P : CommodityPrice.t -> Prop)
  (ss : list StarSystem.t) :
  (forall s sys, (s < length ss)%nat -> ss !! s = Some sys ->
                 Forall P (StarSystem.averagePrice sys)) ->
  averages P ss.
Proof.
  intros Hall. apply Forall_lookup. intros s sys Hs.
  apply (Hall s); [eapply lookup_lt_Some; exact Hs|exact Hs].
Qed.

Lemma Forall_map_average (P Q : CommodityPrice.t -> Prop)
  (f : CommodityPrice.t -> CommodityPrice.t) (l : list CommodityPrice.t) :
  (forall a, P a -> Q (f a)) -> Forall P l -> Forall Q (map f l).
Proof.
  intros Hf Hl. induction Hl as [|a l Ha _ IH]; simpl; constructor; auto.
Qed.

Section PipelineFacts.
Context `{Externals}.

(** Pass 2 on one system. *)
Lemma economy_modifySystemCommodityPrice_spec (w : World.t) (si : nat)
  (systems0 : list StarSystem.t) (done : nat -> Prop) :
  let sys := World.systems_stack w !!! si in
  system_in_range sys ->
  (forall i, (i < StarSystem.nplanets sys)%nat ->
             belongs systems0 (StarSystem.planets sys !!! i)) ->
  marks (kept (World.commodity_stack w) systems0) (fun _ => at_stage2) done
        (World.planet_stack w) ->
  let w' := economy_modifySystemCommodityPrice w si in
  World.commodity_stack w' = World.commodity_stack w /\
  (exists av, Forall average_ok av /\
     World.systems_stack w'
     = <[si := StarSystem.set_averagePrice sys av]> (World.systems_stack w)) /\
  marks (kept (World.commodity_stack w) systems0) (fun _ => at_stage2)
        (fun q => done q \/
                  exists i, (i < StarSystem.nplanets sys)%nat /\
                            StarSystem.planets sys !!! i = q)
        (World.planet_stack w').
Proof.
  intros sys Hsys Hbel Hm w'. subst w'.
  unfold economy_modifySystemCommodityPrice. fold sys.
  pose proof (scale_system_spec (World.commodity_stack w) systems0 sys done
                (World.planet_stack w) [] Hsys Hbel Hm ltac:(constructor))
    as Hsc.
  cbv zeta in Hsc.
  destruct (scale_system (World.commodity_stack w) sys
              (World.planet_stack w, [])) as [planets avprice].
  simpl in Hsc. destruct Hsc as [Hm' Hav]. simpl.
  assert (Hdiv : Forall average_ok (map average_div avprice)).
  { eapply Forall_map_average; [|exact Hav]. apply average_div_ok. }
  split; [reflexivity|]. split.
  - eexists. split; [exact Hdiv|reflexivity].
  - unfold blend_system. apply rewrite_system_keeps; [|exact Hbel|exact Hm'].
    intros x. apply blend_planet_keeps. exact Hdiv.
Qed.

(** After pass 2 the planets of every system are at stage 2 and the
    averages of every system are sound. *)
Lemma initialise_pass2_spec (w : World.t) :
  Forall system_in_range (World.systems_stack w) ->
  marks (kept (World.commodity_stack w) (World.systems_stack w)) (fun _ => at_stage2)
        (fun _ => False) (World.planet_stack w) ->
  let w' := initialise_pass2 w in
  World.commodity_stack w' = World.commodity_stack w /\
  same_systems (World.systems_stack w) (World.systems_stack w') /\
  averages average_ok (World.systems_stack w') /\
  marks (kept (World.commodity_stack w) (World.systems_stack w)) (fun _ => at_stage2)
        (belongs (World.systems_stack w)) (World.planet_stack w').
Proof.
  intros Hsys Hm w'.
  set (stack := World.commodity_stack w) in *.
  set (systems := World.systems_stack w) in *.
  assert (Hinv :
    World.commodity_stack w' = stack /\
    same_systems systems (World.systems_stack w') /\
    (forall s sys', (s < length systems)%nat ->
       World.systems_stack w' !! s = Some sys' ->
       Forall average_ok (StarSystem.averagePrice sys')) /\
    marks (kept stack systems) (fun _ => at_stage2)
          (fun q => exists s i, (s < length systems)%nat /\
                      (i < StarSystem.nplanets (systems !!! s))%nat /\
                      StarSystem.planets (systems !!! s) !!! i = q)
          (World.planet_stack w')).
  { subst w'. unfold initialise_pass2. fold systems.
    change (length systems) with (0 + length systems)%nat at 2 3 4.
    apply (for_loop_ind (fun k wk =>
      World.commodity_stack wk = stack /\
      same_systems systems (World.systems_stack wk) /\
      (forall s sys', (s < k)%nat ->
         World.systems_stack wk !! s = Some sys' ->
         Forall average_ok (StarSystem.averagePrice sys')) /\
      marks (kept stack systems) (fun _ => at_stage2)
            (fun q => exists s i, (s < k)%nat /\
                        (i < StarSystem.nplanets (systems !!! s))%nat /\
                        StarSystem.planets (systems !!! s) !!! i = q)
            (World.planet_stack wk))).
    - split; [reflexivity|]. split; [apply same_systems_refl|].
      split; [intros s sys' Hs; lia|].
      eapply marks_mono; [|exact Hm]. intros q (s & i & Hs & _). lia.
    - intros k wk Hk (Hst & Hss & Hav & Hmk).
      destruct (same_systems_lookup_total _ _ k Hss) as [av0 Hk0].
      assert (Hrange : system_in_range (World.systems_stack wk !!! k)).
      { rewrite Hk0. rewrite Forall_lookup in Hsys.
        destruct (lookup_lt_is_Some_2 systems k ltac:(lia)) as [s0 Hs0].
        rewrite (list_lookup_total_correct _ _ _ Hs0).
        exact (Hsys _ _ Hs0). }
      assert (Hbel : forall i,
                 (i < StarSystem.nplanets (World.systems_stack wk !!! k))%nat ->
                 belongs systems
                   (StarSystem.planets (World.systems_stack wk !!! k) !!! i)).
      { rewrite Hk0. intros i Hi. apply (belongs_intro systems k i); [lia|].
        exact Hi. }
      rewrite <- Hst in Hmk.
      destruct (economy_modifySystemCommodityPrice_spec wk k systems _
                  Hrange Hbel Hmk) as (Hst' & (av & Hok & Hsys') & Hmk').
      rewrite Hst in Hst', Hmk'.
      split; [exact Hst'|]. split; [|split].
      + rewrite Hsys'. apply same_systems_insert. exact Hss.
      + intros s sys' Hs. rewrite Hsys'.
        destruct (decide (k = s)) as [<-|Hne].
        * intros Hl. apply list_lookup_insert_Some in Hl.
          destruct Hl as [(_ & <- & _)|(Hne & _)]; [exact Hok|congruence].
        * rewrite list_lookup_insert_ne by exact Hne. apply Hav. lia.
      + eapply marks_mono; [|exact Hmk'].
        intros q (s & i & Hs & Hi & Hq).
        destruct (decide (s = k)) as [->|Hne].
        * right. exists i. rewrite Hk0. split; assumption.
        * left. exists s, i. repeat split; try assumption. lia. }
  destruct Hinv as (Hst & Hss & Hav & Hmk).
  split; [exact Hst|]. split; [exact Hss|]. split.
  - apply averages_prefix. intros s sys Hs. apply Hav.
    rewrite <- (same_systems_length _ _ Hss). exact Hs.
  - eapply marks_mono; [|exact Hmk].
    intros q (s & sys & j & Hs & Hj). exists s, j.
    rewrite (list_lookup_total_correct _ _ _ Hs).
    rewrite (list_lookup_total_correct _ _ _ Hj).
    repeat split.
    + eapply lookup_lt_Some; exact Hs.
    + eapply lookup_lt_Some; exact Hj.
Qed.

(** *** Pass 3 *)

Lemma neighbour_sum_nonneg (systems : list StarSystem.t)
  (sys : StarSystem.t) (nm : string) :
  averages average_ok systems ->
  0 <= fst (neighbour_sum systems sys nm) /\
  (0 <= snd (neighbour_sum systems sys nm))%Z.
Proof.
  intros Hav. unfold neighbour_sum.
  change (StarSystem.njumps sys) with (0 + StarSystem.njumps sys)%nat.
  apply (for_loop_ind (fun _ acc => 0 <= fst acc /\ (0 <= snd acc)%Z)).
  - simpl. split; [lra|lia].
  - intros k [price n] _ [Hp Hn]. simpl in Hp, Hn.
    set (neighbour :=
           systems !!! JumpPoint.target (StarSystem.jumps sys !!! k)).
    pose proof (averages_lookup_total average_ok systems
                  (JumpPoint.target (StarSystem.jumps sys !!! k)) Hav) as Hnb.
    fold neighbour in Hnb.
    destruct (Nat.ltb_spec
                (scan (fun a => String.eqb (CommodityPrice.name a) nm)
                      (StarSystem.averagePrice neighbour))
                (StarSystem.ncommodities neighbour)) as [Hlt|_].
    + destruct (lookup_lt_is_Some_2 _ _ Hlt) as [a Ha].
      rewrite (list_lookup_total_correct _ _ _ Ha). simpl.
      rewrite Forall_lookup in Hnb. destruct (Hnb _ _ Ha) as [Hap _].
      split; [lra|lia].
    + simpl. split; assumption.
Qed.

Lemma economy_smoothCommodityPrice_spec (systems : list StarSystem.t)
  (si : nat) :
  (si < length systems)%nat ->
  averages average_ok systems ->
  let ss' := economy_smoothCommodityPrice systems si in
  same_systems systems ss' /\
  averages average_ok ss' /\
  (forall s, s <> si -> ss' !! s = systems !! s) /\
  Forall average_smooth_ok (StarSystem.averagePrice (ss' !!! si)).
Proof.
  intros Hsi Hav ss'.
  set (n := StarSystem.ncommodities (systems !!! si)).
  assert (Hinv :
    same_systems systems ss' /\
    averages average_ok ss' /\
    (forall s, s <> si -> ss' !! s = systems !! s) /\
    length (StarSystem.averagePrice (ss' !!! si)) = n /\
    (forall j a', (j < n)%nat ->
       StarSystem.averagePrice (ss' !!! si) !! j = Some a' ->
       0 <= CommodityPrice.sum a')).
  { subst ss'. unfold economy_smoothCommodityPrice. fold n.
    apply (for_loop_ind0 (fun k ssk =>
      same_systems systems ssk /\
      averages average_ok ssk /\
      (forall s, s <> si -> ssk !! s = systems !! s) /\
      length (StarSystem.averagePrice (ssk !!! si)) = n /\
      (forall j a', (j < k)%nat ->
         StarSystem.averagePrice (ssk !!! si) !! j = Some a' ->
         0 <= CommodityPrice.sum a'))).
    - split; [apply same_systems_refl|]. split; [exact Hav|].
      split; [reflexivity|]. split; [reflexivity|]. intros j a' Hj; lia.
    - intros k ssk Hk (Hss & Havk & Hother & Hlen & Hsum).
      pose proof (same_systems_length _ _ Hss) as Hlk.
      set (sys := ssk !!! si).
      assert (Hkl : (k < length (StarSystem.averagePrice sys))%nat)
        by (subst sys; lia).
      destruct (lookup_lt_is_Some_2 _ _ Hkl) as [a Ha].
      rewrite (list_lookup_total_correct _ _ _ Ha).
      pose proof (averages_lookup_total average_ok ssk si Havk) as Hsysav.
      fold sys in Hsysav.
      assert (Haok : average_ok a)
        by (rewrite Forall_lookup in Hsysav; exact (Hsysav _ _ Ha)).
      pose proof (neighbour_sum_nonneg ssk sys (CommodityPrice.name a) Havk)
        as [Hp Hn].
      destruct (neighbour_sum ssk sys (CommodityPrice.name a)) as [price m].
      simpl in Hp, Hn.
      set (v := if (m =? 0)%Z then CommodityPrice.price a else price / IZR m).
      assert (Hv : 0 <= v).
      { subst v. destruct (Z.eqb_spec m 0) as [|Hm]; [apply Haok|].
        assert (0 < IZR m) by (apply IZR_lt; lia).
        apply Rmult_le_pos; [exact Hp|].
        apply Rlt_le, Rinv_0_lt_compat. assumption. }
      assert (Hnew : Forall average_ok
                       (<[k := Field.set_sum a v]> (StarSystem.averagePrice sys))).
      { apply Forall_insert; [exact Hsysav|]. exact Haok. }
      split; [|split; [|split; [|split]]].
      + apply same_systems_insert. exact Hss.
      + apply Forall_insert; [exact Havk|]. exact Hnew.
      + intros s Hs. rewrite list_lookup_insert_ne by congruence.
        apply Hother. exact Hs.
      + rewrite list_lookup_total_insert_eq by lia. simpl.
        rewrite length_insert. exact Hlen.
      + intros j a' Hj. rewrite list_lookup_total_insert_eq by lia. simpl.
        destruct (decide (k = j)) as [<-|Hne].
        * rewrite list_lookup_insert_eq by exact Hkl. intros [= <-]. exact Hv.
        * rewrite list_lookup_insert_ne by exact Hne. apply Hsum. lia. }
  destruct Hinv as (Hss & Havk & Hother & Hlen & Hsum).
  split; [exact Hss|]. split; [exact Havk|]. split; [exact Hother|].
  pose proof (averages_lookup_total average_ok ss' si Havk) as Hok.
  apply Forall_lookup. intros j a' Hj. split.
  - rewrite Forall_lookup in Hok. exact (Hok _ _ Hj).
  - apply (Hsum j); [|exact Hj]. rewrite <- Hlen.
    eapply lookup_lt_Some; exact Hj.
Qed.

Lemma initialise_pass3_spec (w : World.t) :
  averages average_ok (World.systems_stack w) ->
  let w' := initialise_pass3 w in
  World.commodity_stack w' = World.commodity_stack w /\
  World.planet_stack w' = World.planet_stack w /\
  same_systems (World.systems_stack w) (World.systems_stack w') /\
  averages average_smooth_ok (World.systems_stack w').
Proof.
  intros Hav w'. split; [reflexivity|]. split; [reflexivity|].
  subst w'. unfold initialise_pass3. simpl.
  set (systems := World.systems_stack w) in *.
  assert (Hinv :
    let ss' := for_loop (length systems) 0
                 (fun i systems => economy_smoothCommodityPrice systems i)
                 systems in
    same_systems systems ss' /\ averages average_ok ss' /\
    (forall s sys', (s < length systems)%nat -> ss' !! s = Some sys' ->
       Forall average_smooth_ok (StarSystem.averagePrice sys'))).
  { cbv zeta.
    apply (for_loop_ind0 (fun k ssk =>
      same_systems systems ssk /\ averages average_ok ssk /\
      (forall s sys', (s < k)%nat -> ssk !! s = Some sys' ->
         Forall average_smooth_ok (StarSystem.averagePrice sys')))).
    - split; [apply same_systems_refl|]. split; [exact Hav|].
      intros s sys' Hs; lia.
    - intros k ssk Hk (Hss & Havk & Hdone).
      pose proof (same_systems_length _ _ Hss) as Hlk.
      destruct (economy_smoothCommodityPrice_spec ssk k ltac:(lia) Havk)
        as (Hss' & Hav' & Hother & Hsm).
      split; [eapply same_systems_trans; eassumption|].
      split; [exact Hav'|].
      intros s sys' Hs Hl. destruct (decide (s = k)) as [->|Hne].
      + rewrite (list_lookup_total_correct _ _ _ Hl) in Hsm. exact Hsm.
      + rewrite Hother in Hl by exact Hne. apply (Hdone s); [lia|exact Hl]. }
  cbv zeta in Hinv. destruct Hinv as (Hss & _ & Hdone).
  split; [exact Hss|].
  apply averages_prefix. intros s sys Hs. apply Hdone.
  rewrite <- (same_systems_length _ _ Hss). exact Hs.
Qed.

(** *** Pass 4 *)

Lemma economy_calcUpdatedCommodityPrice_spec (w : World.t) (si : nat)
  (systems0 : list StarSystem.t) (done : nat -> Prop) :
  let sys := World.systems_stack w !!! si in
  Forall average_smooth_ok (StarSystem.averagePrice sys) ->
  (forall i, (i < StarSystem.nplanets sys)%nat ->
             belongs systems0 (StarSystem.planets sys !!! i)) ->
  marks (kept (World.commodity_stack w) systems0) (fun _ => at_stage2) done
        (World.planet_stack w) ->
  let w' := economy_calcUpdatedCommodityPrice w si in
  World.commodity_stack w' = World.commodity_stack w /\
  World.systems_stack w'
  = <[si := StarSystem.set_averagePrice sys []]> (World.systems_stack w) /\
  marks (kept (World.commodity_stack w) systems0) (fun _ => at_stage2) done
        (World.planet_stack w').
Proof.
  intros sys Hav Hbel Hm w'. subst w'.
  unfold economy_calcUpdatedCommodityPrice. fold sys. simpl.
  split; [reflexivity|]. split; [reflexivity|].
  unfold final_system. apply rewrite_system_keeps; [|exact Hbel|exact Hm].
  intros x. apply final_planet_keeps.
  eapply Forall_map_average; [|exact Hav]. apply average_update_ok.
Qed.

Lemma initialise_pass4_spec (w : World.t) (systems0 : list StarSystem.t)
  (done : nat -> Prop) :
  same_systems systems0 (World.systems_stack w) ->
  averages average_smooth_ok (World.systems_stack w) ->
  marks (kept (World.commodity_stack w) systems0) (fun _ => at_stage2) done
        (World.planet_stack w) ->
  let w' := initialise_pass4 w in
  World.commodity_stack w' = World.commodity_stack w /\
  marks (kept (World.commodity_stack w) systems0) (fun _ => at_stage2) done
        (World.planet_stack w').
Proof.
  intros Hss Hav Hm w'.
  set (stack := World.commodity_stack w) in *.
  assert (Hinv :
    World.commodity_stack w' = stack /\
    same_systems systems0 (World.systems_stack w') /\
    averages average_smooth_ok (World.systems_stack w') /\
    marks (kept stack systems0) (fun _ => at_stage2) done (World.planet_stack w')).
  { subst w'. unfold initialise_pass4.
    apply (for_loop_ind0 (fun k wk =>
      World.commodity_stack wk = stack /\
      same_systems systems0 (World.systems_stack wk) /\
      averages average_smooth_ok (World.systems_stack wk) /\
      marks (kept stack systems0) (fun _ => at_stage2) done (World.planet_stack wk))).
    - split; [reflexivity|]. split; [exact Hss|]. split; [exact Hav|exact Hm].
    - intros k wk Hk (Hst & Hssk & Havk & Hmk).
      pose proof (same_systems_length _ _ Hss) as Hl0.
      destruct (same_systems_lookup_total _ _ k Hssk) as [av0 Hk0].
      assert (Hbel : forall i,
                 (i < StarSystem.nplanets (World.systems_stack wk !!! k))%nat ->
                 belongs systems0
                   (StarSystem.planets (World.systems_stack wk !!! k) !!! i)).
      { rewrite Hk0. intros i Hi. apply (belongs_intro systems0 k i); [lia|].
        exact Hi. }
      rewrite <- Hst in Hmk.
      destruct (economy_calcUpdatedCommodityPrice_spec wk k systems0 done
                  (averages_lookup_total _ _ k Havk) Hbel Hmk)
        as (Hst' & Hsys' & Hmk').
      rewrite Hst in Hst', Hmk'.
      split; [exact Hst'|]. split; [|split; [|exact Hmk']].
      + rewrite Hsys'. apply same_systems_insert. exact Hssk.
      + rewrite Hsys'. apply Forall_insert; [exact Havk|]. constructor. }
  destruct Hinv as (Hst & _ & _ & Hmk). split; assumption.
Qed.

(** *** The whole pipeline *)

(** After [economy_initialiseCommodityPrices] on a world in range, every
    planet that belongs to a system is in range and holds price fields
    at stage 2. *)
Lemma economy_initialiseCommodityPrices_marks (w : World.t) :
  world_in_range w ->
  marks (kept (World.commodity_stack w) (World.systems_stack w)) (fun _ => at_stage2)
        (belongs (World.systems_stack w))
        (World.planet_stack (economy_initialiseCommodityPrices w)).
Proof.
  intros Hw. pose proof Hw as [_ Hsys].
  destruct (initialise_pass1_marks w Hw) as (Hc1 & Hs1 & Hm1).
  set (w1 := initialise_pass1 w) in *.
  assert (Hm1' : marks (kept (World.commodity_stack w1)
                          (World.systems_stack w1)) (fun _ => at_stage2)
                       (fun _ => False) (World.planet_stack w1)).
  { rewrite Hc1, Hs1. intros q x Hq. destruct (Hm1 q x Hq) as [Hr H1].
    split; [split; assumption|]. intros []. }
  rewrite <- Hs1 in Hsys.
  destruct (initialise_pass2_spec w1 Hsys Hm1') as (Hc2 & Hss2 & Hav2 & Hm2).
  set (w2 := initialise_pass2 w1) in *.
  destruct (initialise_pass3_spec w2 Hav2) as (Hc3 & Hp3 & Hss3 & Hav3).
  set (w3 := initialise_pass3 w2) in *.
  assert (Hm3 : marks (kept (World.commodity_stack w3)
                         (World.systems_stack w1)) (fun _ => at_stage2)
                      (belongs (World.systems_stack w1))
                      (World.planet_stack w3)).
  { rewrite Hc3, Hp3, Hc2. exact Hm2. }
  destruct (initialise_pass4_spec w3 (World.systems_stack w1) _
              (same_systems_trans _ _ _ Hss2 Hss3) Hav3 Hm3) as (_ & Hm4).
  unfold economy_initialiseCommodityPrices. simpl.
  fold w1. fold w2. fold w3.
  rewrite Hc3, Hc2, Hc1, Hs1 in Hm4. exact Hm4.
Qed.

End PipelineFacts.

Section PipelineClaim.
Context `{Externals}.

(** C3 (as the code behaves): nothing clamps the presence range, but on
    a world whose attributes are in range (in particular every presence
    range is below 30) the divisor [1 - presenceRange/30] of pass 1 is
    strictly positive, and every price field of every planet of a system
    comes out of the initialiser with strictly positive periods and
    amplitudes that are not negative. *)
Theorem economy_initialiseCommodityPrices_signs (w : World.t)
  (ptr : Planet_ptr) (p : Planet.t) (i : nat) (cp : CommodityPrice.t) :
  world_in_range w ->
  belongs (World.systems_stack w) ptr ->
  World.planet_stack (economy_initialiseCommodityPrices w) !! ptr = Some p ->
  Planet.commodityPrice p !! i = Some cp ->
  0 < presence_divisor p /\ field_ok cp.
Proof.
  intros Hw Hbel Hp Hcp.
  destruct (economy_initialiseCommodityPrices_marks w Hw ptr p Hp)
    as [[Hr _] H2].
  split.
  - apply presence_divisor_pos. apply Hr.
  - specialize (H2 Hbel). unfold at_stage2 in H2.
    rewrite Forall_lookup in H2.
    destruct (H2 _ _ Hcp) as ((_ & Hpp & Hpv & Hsv) & Hsp).
    repeat split; assumption.
Qed.

End PipelineClaim.

(** *** Worked scenarios of the initialiser *)

Lemma world_outpost_in_range : world_in_range (world_outpost 0).
Proof.
  split.
  - constructor; [|constructor].
    unfold planet_in_range; simpl. split; [lia|]. split; [reflexivity|].
    split; constructor; try constructor; simpl; try lra.
    unfold commodity_in_range; simpl. repeat split; try lra. constructor.
  - constructor; [|constructor].
    unfold system_in_range; simpl. lra.
Qed.

Lemma economy_initialiseCommodityPrices_signs_witness :
  world_in_range (world_outpost 0) /\
  field_ok
    (Planet.commodityPrice
       (World.planet_stack
          (@economy_initialiseCommodityPrices ext_plain (world_outpost 0))
        !!! 0%nat) !!! 0%nat).
Proof.
  split; [exact world_outpost_in_range|].
  apply (@economy_initialiseCommodityPrices_signs ext_plain (world_outpost 0)
           0%nat
           (World.planet_stack
              (@economy_initialiseCommodityPrices ext_plain (world_outpost 0))
            !!! 0%nat)
           0%nat).
  - exact world_outpost_in_range.
  - exists 0%nat, (StarSystem.mk 0%Z "Sol" 0 0 0 0 1%Z [] [0%nat] [] []), 0%nat.
    split; reflexivity.
  - reflexivity.
  - reflexivity.
Defined.

(** The values that the initialiser leaves on that world: the price
    stays 100, the planet period is 150, the system period 2000, and the
    amplitudes are 3.75 and 7.5. *)
Example economy_initialiseCommodityPrices_outpost :
  let cp := Planet.commodityPrice
              (World.planet_stack
                 (@economy_initialiseCommodityPrices ext_plain
                    (world_outpost 0)) !!! 0%nat) !!! 0%nat in
  CommodityPrice.price cp = 100 /\
  CommodityPrice.planetPeriod cp = 150 /\
  CommodityPrice.sysPeriod cp = 2000 /\
  CommodityPrice.planetVariation cp = 3.75 /\
  CommodityPrice.sysVariation cp = 7.5.
Proof. real_eval. repeat split; lra. Qed.

(** ** Persistence: the document that saving writes *)

Lemma for_loop_snoc {S : Type} (n i : nat) (body : nat -> S -> S) (s : S) :
  for_loop (Datatypes.S n) i body s = body (i + n)%nat (for_loop n i body s).
Proof.
  revert i s. induction n as [|n IH]; intros i s.
  - simpl. rewrite Nat.add_0_r. reflexivity.
  - change (for_loop (Datatypes.S (Datatypes.S n)) i body s)
      with (for_loop (Datatypes.S n) (Datatypes.S i) body (body i s)).
    rewrite IH. simpl. f_equal. lia.
Qed.

Lemma flat_map_seq_snoc {A : Type} (f : nat -> list A) (n : nat) :
  flat_map f (seq 0 (Datatypes.S n)) = flat_map f (seq 0 n) ++ f n.
Proof.
  rewrite seq_S, flat_map_app. simpl. rewrite app_nil_r. reflexivity.
Qed.

Section SaveFacts.
Context `{Persistence}.

Lemma write_commodity_spec (t : string) (a : list (string * string))
  (c : list xml) (r : string) (rest : xmlTextWriter) (nm : string)
  (cp : CommodityPrice.t) :
  write_commodity (XmlNode t a c r :: rest) nm cp
  = XmlNode t a (c ++ [commodity_node nm cp]) r :: rest.
Proof. reflexivity. Qed.

(** The loop over the commodities of a planet opens the system and the
    planet elements when it meets the first observed price field. *)
Lemma save_commodities_spec (commodity_stack : list Commodity.t)
  (sys : StarSystem.t) (p : Planet.t) (doneSys : bool)
  (top : xml) (rest : xmlTextWriter) (k : nat) :
  for_loop k 0 (save_commodity commodity_stack sys p)
           (doneSys, false, top :: rest)
  = match commodity_nodes commodity_stack p k with
    | [] => (doneSys, false, top :: rest)
    | cn =>
        (true, true,
         XmlNode "planet" [("name"%string, Planet.name p)] cn ""
         :: (if doneSys then top :: rest
             else XmlNode "system" [("name"%string, StarSystem.name sys)] [] ""
                  :: top :: rest))
    end.
Proof.
  induction k as [|k IH]; [reflexivity|].
  rewrite for_loop_snoc, IH. simpl Nat.add.
  unfold commodity_nodes at 2. rewrite flat_map_seq_snoc.
  fold (commodity_nodes commodity_stack p k).
  unfold save_commodity.
  destruct (commodity_nodes commodity_stack p k) as [|x cn];
    destruct (0 <? CommodityPrice.cnt (Planet.commodityPrice p !!! k))%Z;
    simpl; rewrite ?app_nil_r; try reflexivity.
  destruct doneSys; reflexivity.
Qed.

(** The loop over the planets of a system. *)
Lemma save_planets_spec (commodity_stack : list Commodity.t)
  (planets : list Planet.t) (sys : StarSystem.t)
  (top : xml) (rest : xmlTextWriter) (m : nat) :
  for_loop m 0 (save_planet commodity_stack planets sys) (false, top :: rest)
  = match planet_nodes commodity_stack planets sys m with
    | [] => (false, top :: rest)
    | pn =>
        (true,
         XmlNode "system" [("name"%string, StarSystem.name sys)] pn ""
         :: top :: rest)
    end.
Proof.
  induction m as [|m IH]; [reflexivity|].
  rewrite for_loop_snoc, IH. simpl Nat.add.
  unfold planet_nodes at 2. rewrite flat_map_seq_snoc.
  fold (planet_nodes commodity_stack planets sys m).
  set (p := planets !!! (StarSystem.planets sys !!! m)).
  unfold planet_node.
  destruct (planet_nodes commodity_stack planets sys m) as [|x pn].
  - unfold save_planet. fold p. rewrite save_commodities_spec.
    destruct (commodity_nodes commodity_stack p (Planet.ncommodities p));
      reflexivity.
  - unfold save_planet. fold p. rewrite save_commodities_spec.
    destruct (commodity_nodes commodity_stack p (Planet.ncommodities p));
      [rewrite app_nil_r|]; reflexivity.
Qed.

Lemma save_systems_spec (w : World.t) (t : string)
  (a : list (string * string)) (c : list xml) (r : string)
  (rest : xmlTextWriter) (n : nat) :
  for_loop n 0 (save_system w) (XmlNode t a c r :: rest)
  = XmlNode t a (c ++ system_nodes w n) r :: rest.
Proof.
  induction n as [|n IH]; [simpl; rewrite app_nil_r; reflexivity|].
  rewrite for_loop_snoc, IH. simpl Nat.add.
  unfold system_nodes at 2. rewrite flat_map_seq_snoc.
  fold (system_nodes w n). unfold save_system, system_node.
  rewrite save_planets_spec.
  destruct (planet_nodes _ _ _ _); simpl.
  - rewrite app_nil_r. reflexivity.
  - rewrite app_assoc. reflexivity.
Qed.

Lemma save_lastPurchases_spec (w : World.t) (t : string)
  (a : list (string * string)) (c : list xml) (r : string)
  (rest : xmlTextWriter) (n : nat) :
  for_loop n 0 (save_lastPurchase w) (XmlNode t a c r :: rest)
  = XmlNode t a (c ++ lastPurchase_nodes w n) r :: rest.
Proof.
  induction n as [|n IH]; [simpl; rewrite app_nil_r; reflexivity|].
  rewrite for_loop_snoc, IH. simpl Nat.add.
  unfold lastPurchase_nodes at 2. rewrite flat_map_seq_snoc.
  fold (lastPurchase_nodes w n). unfold save_lastPurchase.
  destruct (0 <? _)%Z; simpl.
  - rewrite app_assoc. reflexivity.
  - rewrite app_nil_r. reflexivity.
Qed.

(** Saving appends one economy element to the element that is open:
    the last purchase prices, then one system element for every system
    with an observed price field, holding one planet element for every
    planet with one, holding one commodity element for every price
    field whose observation count is positive. *)
Lemma economy_sysSave_spec (w : World.t) (t : string)
  (a : list (string * string)) (c : list xml) (r : string)
  (rest : xmlTextWriter) :
  economy_sysSave w (XmlNode t a c r :: rest)
  = XmlNode t a (c ++ [economy_node w]) r :: rest.
Proof.
  unfold economy_sysSave, xmlw_startElem.
  rewrite save_lastPurchases_spec, save_systems_spec. reflexivity.
Qed.

Lemma saved_document_spec (w : World.t) :
  saved_document w = XmlNode "player" [] [economy_node w] "".
Proof. unfold saved_document. rewrite economy_sysSave_spec. reflexivity. Qed.

End SaveFacts.

(** ** Persistence: resetting the observation state *)

Lemma alter_as_insert {A : Type} `{!Inhabited A} (f : A -> A) (k : nat)
  (l : list A) :
  alter f k l = <[k := f (l !!! k)]> l.
Proof.
  apply list_eq. intros j. destruct (decide (k = j)) as [<-|Hne].
  - rewrite list_lookup_alter_eq.
    destruct (l !! k) as [x|] eqn:Hk.
    + rewrite (list_lookup_total_correct _ _ _ Hk).
      rewrite list_lookup_insert_eq by (eapply lookup_lt_Some; exact Hk).
      reflexivity.
    + rewrite list_insert_ge by (apply lookup_ge_None; exact Hk).
      rewrite Hk. reflexivity.
  - rewrite list_lookup_alter_ne, list_lookup_insert_ne by exact Hne.
    reflexivity.
Qed.

Lemma for_loop_ext {S : Type} (n i : nat) (body body' : nat -> S -> S)
  (s : S) :
  (forall k s, body k s = body' k s) ->
  for_loop n i body s = for_loop n i body' s.
Proof.
  intros Hb. revert i s. induction n as [|n IH]; intros i s; [reflexivity|].
  simpl. rewrite Hb. apply IH.
Qed.

Lemma clear_planet_closed (p : Planet.t) :
  clear_planet p
  = Planet.set_commodityPrice p
      (imap (fun k cp => if (k <? Planet.ncommodities p)%nat
                         then Observation.clear cp else cp)
            (Planet.commodityPrice p)).
Proof.
  unfold clear_planet.
  rewrite <- (entry_loop_closed (fun _ _ cp => Observation.clear cp) p
                (Planet.ncommodities p)) by reflexivity.
  apply for_loop_ext. intros k q. rewrite alter_as_insert. reflexivity.
Qed.

Lemma clear_planet_idem (p : Planet.t) :
  clear_planet (clear_planet p) = clear_planet p.
Proof.
  rewrite (clear_planet_closed (clear_planet p)).
  rewrite (clear_planet_closed p). destruct p as [nm cl gs ge po fa pr cs cps].
  unfold Planet.set_commodityPrice, Planet.ncommodities; simpl. f_equal.
  apply list_eq. intros j. rewrite !list_lookup_imap.
  destruct (cps !! j) as [cp|]; [|reflexivity]. simpl.
  destruct (j <? length cs)%nat; reflexivity.
Qed.

Lemma clear_planet_name (p : Planet.t) :
  Planet.name (clear_planet p) = Planet.name p /\
  Planet.commodities (clear_planet p) = Planet.commodities p.
Proof. rewrite clear_planet_closed. split; reflexivity. Qed.

(** The two nested loops of a pass that alters every planet of every
    system by [F] mark the planets that belong to a system. *)
Lemma systems_loop_marks (A B : nat -> Planet.t -> Prop)
  (F : Planet.t -> Planet.t) (systems : list StarSystem.t)
  (planets : list Planet.t) :
  (forall q x, planets !! q = Some x -> A q x) ->
  (forall q x, A q x -> A q (F x) /\ B q (F x)) ->
  marks A B (belongs systems)
    (for_loop (length systems) 0
       (fun i planets =>
          for_loop (StarSystem.nplanets (systems !!! i)) 0
            (fun j planets =>
               alter F (StarSystem.planets (systems !!! i) !!! j) planets)
            planets)
       planets).
Proof.
  intros HA HF.
  eapply marks_mono; cycle 1.
  - apply (for_loop_ind0 (fun k st =>
      marks A B
            (fun q => exists s i, (s < k)%nat /\
                        (i < StarSystem.nplanets (systems !!! s))%nat /\
                        StarSystem.planets (systems !!! s) !!! i = q) st)).
    + intros q x Hq. split; [exact (HA _ _ Hq)|].
      intros (s & i & Hs & _). lia.
    + intros k st Hk Hst.
      eapply marks_mono; [|apply alter_loop_marks; [exact Hst|]].
      * intros q (s & i & Hs & Hi & Hq).
        destruct (decide (s = k)) as [->|Hne].
        -- right. exists i. split; assumption.
        -- left. exists s, i. repeat split; try assumption. lia.
      * intros i x _ Hx. apply HF. exact Hx.
  - intros q (s & sys & j & Hs & Hj). simpl.
    exists s, j.
    rewrite (list_lookup_total_correct _ _ _ Hs).
    rewrite (list_lookup_total_correct _ _ _ Hj).
    repeat split.
    + eapply lookup_lt_Some; exact Hs.
    + eapply lookup_lt_Some; exact Hj.
Qed.

Lemma marks_length (A B : nat -> Planet.t -> Prop)
  (F : Planet.t -> Planet.t) (systems : list StarSystem.t)
  (planets : list Planet.t) :
  length
    (for_loop (length systems) 0
       (fun i planets =>
          for_loop (StarSystem.nplanets (systems !!! i)) 0
            (fun j planets =>
               alter F (StarSystem.planets (systems !!! i) !!! j) planets)
            planets)
       planets)
  = length planets.
Proof.
  apply (for_loop_ind0 (fun _ st => length st = length planets));
    [reflexivity|].
  intros k st _ Hst.
  apply (for_loop_ind0 (fun _ st' => length st' = length planets));
    [exact Hst|].
  intros j st' _ Hst'. rewrite length_alter. exact Hst'.
Qed.

(** After [economy_clearKnown] every planet keeps its place, and the
    planets of the systems are cleared. *)
Lemma economy_clearKnown_spec (w : World.t) :
  let w' := economy_clearKnown w in
  World.econ_comm w' = World.econ_comm w /\
  World.systems_stack w' = World.systems_stack w /\
  World.commodity_stack w'
  = map (fun c => Commodity.set_lastPurchasePrice c 0%Z)
        (World.commodity_stack w) /\
  length (World.planet_stack w') = length (World.planet_stack w) /\
  marks (fun q x => exists p, World.planet_stack w !! q = Some p /\
                              (x = p \/ x = clear_planet p))
        (fun q x => exists p, World.planet_stack w !! q = Some p /\
                              x = clear_planet p)
        (belongs (World.systems_stack w)) (World.planet_stack w').
Proof.
  cbv zeta. split; [reflexivity|]. split; [reflexivity|].
  split; [reflexivity|]. unfold economy_clearKnown. simpl.
  unfold clear_system. split.
  - apply (marks_length (fun _ _ => True) (fun _ _ => True)).
  - apply systems_loop_marks.
    + intros q x Hq. exists x. split; [exact Hq|left; reflexivity].
    + intros q x (p & Hp & [->| ->]).
      * split; exists p; (split; [exact Hp|]); [right|]; reflexivity.
      * rewrite clear_planet_idem.
        split; exists p; (split; [exact Hp|]); [right|]; reflexivity.
Qed.

(** ** Persistence: loading what was saved *)

Lemma do_nodes_app {S : Type} (body : S -> xml -> option S)
  (l1 l2 : list xml) (s : S) :
  do_nodes body (l1 ++ l2) s
  = match do_nodes body l1 s with
    | Some s' => do_nodes body l2 s'
    | None => None
    end.
Proof.
  revert s. induction l1 as [|x l1 IH]; intros s; simpl; [reflexivity|].
  destruct (body s x); [apply IH|reflexivity].
Qed.

Lemma scan_lt {A : Type} (test : A -> bool) (a : list A) (i : nat) (x : A) :
  a !! i = Some x -> test x = true -> (scan test a < length a)%nat.
Proof.
  revert i. induction a as [|y a IH]; intros i Hi Ht.
  - destruct i; discriminate.
  - simpl. destruct (test y) eqn:Hy; [lia|].
    destruct i as [|i]; simpl in Hi.
    + congruence.
    + specialize (IH i Hi Ht). lia.
Qed.

Section LoadFacts.
Context `{Persistence}.

Lemma load_field_commodity_node (nm : string) (cp0 cp : CommodityPrice.t) :
  params cp = params cp0 ->
  CommodityPrice.name cp = CommodityPrice.name cp0 ->
  load_field (commodity_node nm cp0) cp = restore_field cp0.
Proof.
  intros Hp Hn. unfold load_field, restore_field, commodity_node, xmlr_attr.
  simpl. destruct cp, cp0. unfold params in Hp. simpl in *.
  injection Hp as -> -> -> -> ->. subst. reflexivity.
Qed.

Lemma reload_field_params (cp : CommodityPrice.t) :
  params (reload_field cp) = params cp /\
  CommodityPrice.name (reload_field cp) = CommodityPrice.name cp.
Proof. unfold reload_field. destruct (_ <? _)%Z; split; reflexivity. Qed.

Section Planet.
Variables (stackW stack' : list Commodity.t).
Hypothesis Hnames :
  forall c, Commodity.name (stack' !!! c) = Commodity.name (stackW !!! c).

(** The name written for the commodity at offset [k] of a planet is
    found again at offset [k] when the planet sells no two commodities
    of one name. *)
Lemma scan_sold_name (p : Planet.t) (k : nat) (c : nat) :
  NoDup (sold_names stackW p) ->
  Planet.commodities p !! k = Some c ->
  scan (fun c' : nat =>
          String.eqb (Commodity.name (stackW !!! c))
                     (Commodity.name (stack' !!! c')))
       (Planet.commodities p) = k.
Proof.
  intros Hnd Hk. eapply scan_first; [exact Hk| |].
  - rewrite Hnames. apply String.eqb_refl.
  - intros j c' Hj Hc'. apply String.eqb_neq. intros Heq.
    rewrite Hnames in Heq.
    assert (j = k); [|lia].
    unfold sold_names in Hnd.
    change (map ?f ?l) with (f <$> l) in Hnd.
    eapply NoDup_lookup; [exact Hnd| |].
    + rewrite list_lookup_fmap, Hc'. reflexivity.
    + rewrite list_lookup_fmap, Hk. simpl. rewrite Heq. reflexivity.
Qed.

(** Loading the elements written for the first [k] commodities of the
    planet [p] restores the price fields among them that had been
    observed and leaves the others as they are. *)
Lemma load_commodities_spec (p : Planet.t) (ptr : nat)
  (planets : list Planet.t) (l : list CommodityPrice.t) (k : nat) :
  length (Planet.commodityPrice p) = length (Planet.commodities p) ->
  NoDup (sold_names stackW p) ->
  (k <= Planet.ncommodities p)%nat ->
  (ptr < length planets)%nat ->
  length l = length (Planet.commodityPrice p) ->
  (forall i cp, Planet.commodityPrice p !! i = Some cp ->
                l !! i = Some (Observation.clear cp) \/
                l !! i = Some (reload_field cp)) ->
  do_nodes (load_commodity stack' (Some ptr)) (commodity_nodes stackW p k)
           (<[ptr := Planet.set_commodityPrice p l]> planets)
  = Some (<[ptr := Planet.set_commodityPrice p
                     (imap (fun i c =>
                              if (i <? k)%nat
                                 && (0 <? CommodityPrice.cnt
                                            (Planet.commodityPrice p !!! i))%Z
                              then restore_field
                                     (Planet.commodityPrice p !!! i)
                              else c) l)]> planets).
Proof.
  intros Hlen Hnd Hk Hptr Hl Hent. induction k as [|k IH].
  - simpl. do 3 f_equal. apply list_eq. intros j. rewrite list_lookup_imap.
    destruct (l !! j); reflexivity.
  - unfold commodity_nodes. rewrite flat_map_seq_snoc.
    fold (commodity_nodes stackW p k).
    rewrite do_nodes_app, IH by lia. clear IH.
    set (lk := imap (fun i c =>
                       if (i <? k)%nat
                          && (0 <? CommodityPrice.cnt
                                     (Planet.commodityPrice p !!! i))%Z
                       then restore_field (Planet.commodityPrice p !!! i)
                       else c) l).
    assert (Hkl : (k < length l)%nat)
      by (unfold Planet.ncommodities in Hk; lia).
    assert (Hkp : (k < length (Planet.commodityPrice p))%nat) by lia.
    destruct (lookup_lt_is_Some_2 _ _ Hkp) as [cpk Hcpk].
    rewrite (list_lookup_total_correct _ _ _ Hcpk).
    destruct (0 <? CommodityPrice.cnt cpk)%Z eqn:Hcnt.
    + simpl do_nodes. unfold load_commodity.
      change (xml_isNode (commodity_node _ _) "commodity") with true.
      cbv iota.
      rewrite list_lookup_total_insert_eq by exact Hptr.
      change (xmlr_attr (commodity_node ?nm _) "name") with (Some nm).
      cbv iota.
      assert (Hkc : (k < length (Planet.commodities p))%nat)
        by (unfold Planet.ncommodities in Hk; lia).
      destruct (lookup_lt_is_Some_2 _ _ Hkc) as [c Hc].
      rewrite (list_lookup_total_correct _ _ _ Hc).
      change (Planet.commodities (Planet.set_commodityPrice p lk))
        with (Planet.commodities p).
      rewrite (scan_sold_name p k c Hnd Hc).
      change (Planet.ncommodities (Planet.set_commodityPrice p lk))
        with (Planet.ncommodities p).
      destruct (Nat.ltb_spec k (Planet.ncommodities p)) as [_|Hge]; [|lia].
      rewrite list_insert_insert_eq. do 2 f_equal.
      destruct p as [nm cl gs ge po fa pr cs cps].
      unfold Planet.set_commodityPrice; simpl. f_equal.
      simpl in Hcpk, Hl, Hent.
      apply list_eq. intros j. destruct (decide (k = j)) as [<-|Hne].
      * rewrite list_lookup_insert_eq
          by (subst lk; rewrite length_imap; exact Hkl).
        rewrite list_lookup_imap.
        destruct (lookup_lt_is_Some_2 _ _ Hkl) as [c0 Hc0].
        rewrite Hc0. simpl.
        rewrite (list_lookup_total_correct _ _ _ Hcpk), Hcnt.
        destruct (Nat.ltb_spec k (S k)) as [_|]; [|lia]. simpl.
        f_equal.
        assert (Hlk : lk !!! k = c0).
        { apply list_lookup_total_correct. subst lk.
          rewrite list_lookup_imap, Hc0. simpl.
          rewrite Nat.ltb_irrefl. reflexivity. }
        rewrite Hlk.
        destruct (Hent _ _ Hcpk) as [Hc'|Hc']; rewrite Hc0 in Hc';
          injection Hc' as ->; apply load_field_commodity_node;
          try reflexivity; apply reload_field_params.
      * rewrite list_lookup_insert_ne by exact Hne.
        subst lk. rewrite !list_lookup_imap.
        destruct (l !! j) as [c0|]; [|reflexivity]. simpl.
        destruct (Nat.ltb_spec j k), (Nat.ltb_spec j (S k));
          try reflexivity; lia.
    + simpl. do 3 f_equal. subst lk.
      apply list_eq. intros j. rewrite !list_lookup_imap.
      destruct (l !! j) as [c0|]; [|reflexivity]. simpl.
      destruct (decide (j = k)) as [->|Hne].
      * rewrite (list_lookup_total_correct _ _ _ Hcpk), Hcnt.
        rewrite !andb_false_r. reflexivity.
      * destruct (Nat.ltb_spec j k), (Nat.ltb_spec j (S k));
          try reflexivity; lia.
Qed.

(** Loading the planet element written for [p] into a planet that is
    [p] cleared, or [p] reloaded already, leaves [p] reloaded. *)
Lemma load_commodities_planet (p q : Planet.t) (ptr : nat)
  (planets : list Planet.t) :
  length (Planet.commodityPrice p) = length (Planet.commodities p) ->
  NoDup (sold_names stackW p) ->
  planets !! ptr = Some q ->
  q = clear_planet p \/ q = reload_planet p ->
  do_nodes (load_commodity stack' (Some ptr))
           (commodity_nodes stackW p (Planet.ncommodities p)) planets
  = Some (<[ptr := reload_planet p]> planets).
Proof.
  intros Hlen Hnd Hq Hcase.
  assert (Hptr : (ptr < length planets)%nat)
    by (eapply lookup_lt_Some; exact Hq).
  assert (Hform : exists l,
             q = Planet.set_commodityPrice p l /\
             length l = length (Planet.commodityPrice p) /\
             forall i cp, Planet.commodityPrice p !! i = Some cp ->
                          l !! i = Some (Observation.clear cp) \/
                          l !! i = Some (reload_field cp)).
  { destruct Hcase as [-> | ->].
    - rewrite clear_planet_closed. eexists. split; [reflexivity|].
      split; [apply length_imap|].
      intros i cp Hi. left. rewrite list_lookup_imap, Hi. simpl.
      destruct (Nat.ltb_spec i (Planet.ncommodities p)) as [_|Hge];
        [reflexivity|].
      apply lookup_lt_Some in Hi. unfold Planet.ncommodities in Hge. lia.
    - unfold reload_planet. eexists. split; [reflexivity|].
      split; [apply length_imap|].
      intros i cp Hi. right. rewrite list_lookup_imap, Hi. simpl.
      destruct (Nat.ltb_spec i (Planet.ncommodities p)) as [_|Hge];
        [reflexivity|].
      apply lookup_lt_Some in Hi. unfold Planet.ncommodities in Hge. lia. }
  destruct Hform as (l & -> & Hl & Hent).
  rewrite <- (list_insert_id planets ptr _ Hq) at 1.
  rewrite (load_commodities_spec p ptr planets l (Planet.ncommodities p)
             Hlen Hnd ltac:(lia) Hptr Hl Hent).
  do 2 f_equal. unfold reload_planet. f_equal.
  apply list_eq. intros i. rewrite !list_lookup_imap.
  destruct (Planet.commodityPrice p !! i) as [cp|] eqn:Hi.
  - assert (Hil : (i < length l)%nat)
      by (rewrite Hl; eapply lookup_lt_Some; exact Hi).
    destruct (lookup_lt_is_Some_2 _ _ Hil) as [c Hc]. rewrite Hc. simpl.
    rewrite (list_lookup_total_correct _ _ _ Hi).
    destruct (Nat.ltb_spec i (Planet.ncommodities p)) as [_|Hge];
      [|unfold Planet.ncommodities in Hge; lia].
    simpl. f_equal. unfold reload_field.
    destruct (0 <? CommodityPrice.cnt cp)%Z eqn:Hcnt; [reflexivity|].
    destruct (Hent _ _ Hi) as [Hc'|Hc']; rewrite Hc in Hc';
      injection Hc' as ->; [reflexivity|].
    unfold reload_field. rewrite Hcnt. reflexivity.
  - rewrite (proj2 (lookup_ge_None l i)); [reflexivity|].
    rewrite Hl. apply lookup_ge_None. exact Hi.
Qed.

End Planet.
End LoadFacts.

Section LoadSystems.
Context `{Persistence}.
Variable w : World.t.
Hypothesis Hlaws : persistence_laws.
Hypothesis Hsave : saveable w.

Lemma reload_planet_name (p : Planet.t) :
  Planet.name (reload_planet p) = Planet.name p.
Proof. reflexivity. Qed.

Lemma loaded_mono (done done' : nat -> Prop) (S : list Planet.t) :
  (forall q, done' q -> done q) ->
  loaded (World.systems_stack w) (World.planet_stack w) done S ->
  loaded (World.systems_stack w) (World.planet_stack w) done' S.
Proof.
  intros Hd [Hlen Hl]. split; [exact Hlen|].
  intros ptr p Hp. destruct (Hl ptr p Hp) as (q & Hq & Hn & Hb & Hdone).
  exists q. repeat split; try assumption. intros Hq'. apply Hdone, Hd, Hq'.
Qed.

(** The planet behind a planet element is in the stack. *)
Lemma planet_node_valid (stack : list Commodity.t) (ptr : nat) :
  planet_node stack (World.planet_stack w !!! ptr) <> [] ->
  World.planet_stack w !! ptr = Some (World.planet_stack w !!! ptr).
Proof.
  intros Hn. destruct (World.planet_stack w !! ptr) as [p|] eqn:Hp.
  - rewrite (list_lookup_total_correct _ _ _ Hp). reflexivity.
  - exfalso. apply Hn. rewrite list_lookup_total_alt, Hp. reflexivity.
Qed.

(** Loading the planet elements written for the first [m] planets of a
    system reloads the planets among them that had observations. *)
Lemma load_assets_spec (stack' : list Commodity.t) (sys : StarSystem.t)
  (done : nat -> Prop) (S : list Planet.t) (m : nat) :
  same_names (World.commodity_stack w) stack' ->
  (forall j, (j < StarSystem.nplanets sys)%nat ->
             belongs (World.systems_stack w) (StarSystem.planets sys !!! j)) ->
  (m <= StarSystem.nplanets sys)%nat ->
  loaded (World.systems_stack w) (World.planet_stack w) done S ->
  exists S',
    do_nodes (load_asset stack')
             (planet_nodes (World.commodity_stack w) (World.planet_stack w)
                           sys m) S = Some S' /\
    loaded (World.systems_stack w) (World.planet_stack w)
           (fun ptr => done ptr \/
                       exists j, (j < m)%nat /\
                                 StarSystem.planets sys !!! j = ptr /\
                                 planet_node (World.commodity_stack w)
                                   (World.planet_stack w !!! ptr) <> [])
           S'.
Proof.
  intros [_ Hnames] Hbel Hm Hload.
  destruct Hlaws as (Hget & _). destruct Hsave as [Huniq Hwf].
  induction m as [|m IH].
  - exists S. split; [reflexivity|].
    eapply loaded_mono; [|exact Hload]. intros q [Hd|(j & Hj & _)]; [exact Hd|lia].
  - destruct IH as (S1 & Hrun & Hl1); [lia|].
    unfold planet_nodes. rewrite flat_map_seq_snoc.
    fold (planet_nodes (World.commodity_stack w) (World.planet_stack w) sys m).
    rewrite do_nodes_app, Hrun.
    set (ptr := StarSystem.planets sys !!! m).
    set (p := World.planet_stack w !!! ptr).
    destruct (planet_node (World.commodity_stack w) p) as [|node rest] eqn:Hnode.
    + exists S1. split; [reflexivity|].
      eapply loaded_mono; [|exact Hl1].
      intros q [Hd|(j & Hj & Hq & Hdata)]; [left; exact Hd|].
      destruct (decide (j = m)) as [->|Hne].
      * exfalso. apply Hdata. rewrite <- Hq. exact Hnode.
      * right. exists j. repeat split; try assumption. lia.
    + assert (Hp : World.planet_stack w !! ptr = Some p).
      { apply (planet_node_valid (World.commodity_stack w)).
        fold p. rewrite Hnode. discriminate. }
      unfold planet_node in Hnode.
      destruct (commodity_nodes (World.commodity_stack w) p
                  (Planet.ncommodities p)) as [|x cn] eqn:Hcn;
        [discriminate|].
      injection Hnode as <- <-.
      destruct Hl1 as [Hlen1 Hl1].
      destruct (Hl1 ptr p Hp) as (q & Hq & Hqn & Hqb & _).
      assert (Hfound : planet_get S1 (Planet.name p) = Some ptr).
      { rewrite <- Hqn. apply (Hget S1 ptr q Hq).
        intros q' x' Hx' Hn'.
        assert (Hlt : (q' < length (World.planet_stack w))%nat)
          by (rewrite <- Hlen1; eapply lookup_lt_Some; exact Hx').
        destruct (lookup_lt_is_Some_2 _ _ Hlt) as [p0 Hp0].
        destruct (Hl1 q' p0 Hp0) as (q0 & Hq0 & Hq0n & _).
        rewrite Hx' in Hq0. injection Hq0 as <-.
        apply (Huniq q' ptr p0 p Hp0 Hp). congruence. }
      rewrite Forall_lookup in Hwf. destruct (Hwf _ _ Hp) as (Hlen & Hnd & _).
      simpl do_nodes. unfold load_asset.
      change (xml_isNode (XmlNode "planet" _ _ _) "planet") with true.
      cbv iota.
      change (xmlr_attr (XmlNode "planet" [("name"%string, ?n)] _ _) "name")
        with (Some n).
      cbv iota. rewrite Hfound.
      change (xml_children (XmlNode _ _ ?c _)) with c. rewrite <- Hcn.
      rewrite (load_commodities_planet (World.commodity_stack w) stack'
                 Hnames p q ptr S1 Hlen Hnd Hq
                 (Hqb (Hbel m ltac:(lia)))).
      eexists. split; [reflexivity|].
      split; [rewrite length_insert; exact Hlen1|].
      intros ptr' p' Hp'. destruct (decide (ptr = ptr')) as [<-|Hne].
      * rewrite Hp in Hp'. injection Hp' as <-.
        exists (reload_planet p).
        rewrite list_lookup_insert_eq
          by (eapply lookup_lt_Some; exact Hq).
        repeat split; auto.
      * destruct (Hl1 ptr' p' Hp') as (q' & Hq' & Hqn' & Hqb' & Hqd').
        exists q'. rewrite list_lookup_insert_ne by exact Hne.
        repeat split; try assumption.
        intros [Hd|(j & Hj & Hjq & Hdata)].
        -- apply Hqd'. left. exact Hd.
        -- destruct (decide (j = m)) as [->|Hnm];
             [exfalso; apply Hne; exact Hjq|].
           apply Hqd'. right. exists j. repeat split; try assumption. lia.
Qed.

(** Loading the system elements written for the first [n] systems. *)
Lemma load_systems_spec (wc : World.t) (n : nat) :
  same_names (World.commodity_stack w) (World.commodity_stack wc) ->
  (n <= length (World.systems_stack w))%nat ->
  loaded (World.systems_stack w) (World.planet_stack w) (fun _ => False)
         (World.planet_stack wc) ->
  exists wc',
    do_nodes load_cur (system_nodes w n) wc = Some wc' /\
    World.commodity_stack wc' = World.commodity_stack wc /\
    World.systems_stack wc' = World.systems_stack wc /\
    World.econ_comm wc' = World.econ_comm wc /\
    loaded (World.systems_stack w) (World.planet_stack w)
      (fun ptr =>
         exists s j,
           (s < n)%nat /\
           (j < StarSystem.nplanets (World.systems_stack w !!! s))%nat /\
           StarSystem.planets (World.systems_stack w !!! s) !!! j = ptr /\
           planet_node (World.commodity_stack w)
                       (World.planet_stack w !!! ptr) <> [])
      (World.planet_stack wc').
Proof.
  intros Hnames Hn Hload. induction n as [|n IH].
  - exists wc. split; [reflexivity|]. repeat split; try reflexivity.
    + apply Hload.
    + destruct Hload as [_ Hl]. intros ptr p Hp.
      destruct (Hl ptr p Hp) as (q & Hq & Hqn & Hqb & _).
      exists q. repeat split; try assumption.
      intros (s & j & Hs & _). lia.
  - destruct IH as (w1 & Hrun & Hc1 & Hs1 & He1 & Hl1); [lia|].
    unfold system_nodes. rewrite flat_map_seq_snoc.
    fold (system_nodes w n). rewrite do_nodes_app, Hrun.
    set (sys := World.systems_stack w !!! n).
    assert (Hsys : World.systems_stack w !! n = Some sys)
      by (apply list_lookup_lookup_total_lt; lia).
    assert (Hbel : forall j, (j < StarSystem.nplanets sys)%nat ->
              belongs (World.systems_stack w) (StarSystem.planets sys !!! j)).
    { intros j Hj. exists n, sys, j. split; [exact Hsys|].
      apply list_lookup_lookup_total_lt. exact Hj. }
    rewrite <- Hc1 in Hnames.
    destruct (load_assets_spec (World.commodity_stack w1) sys _
                (World.planet_stack w1) (StarSystem.nplanets sys)
                Hnames Hbel (le_n _) Hl1)
      as (S' & Hassets & Hl').
    assert (Hdone : loaded (World.systems_stack w) (World.planet_stack w)
      (fun ptr =>
         exists s j,
           (s < S n)%nat /\
           (j < StarSystem.nplanets (World.systems_stack w !!! s))%nat /\
           StarSystem.planets (World.systems_stack w !!! s) !!! j = ptr /\
           planet_node (World.commodity_stack w)
                       (World.planet_stack w !!! ptr) <> []) S').
    { eapply loaded_mono; [|exact Hl'].
      intros ptr (s & j & Hs & Hj & Hptr & Hdata).
      destruct (decide (s = n)) as [->|Hne].
      - right. exists j. repeat split; assumption.
      - left. exists s, j. repeat split; try assumption. lia. }
    unfold system_node.
    destruct (planet_nodes (World.commodity_stack w) (World.planet_stack w)
                sys (StarSystem.nplanets sys)) as [|x pn] eqn:Hpn.
    + simpl in Hassets. injection Hassets as <-.
      exists w1. split; [reflexivity|].
      repeat split; try congruence; apply Hdone.
    + exists (World.set_planet_stack w1 S'). split.
      * simpl do_nodes. unfold load_cur.
        change (xml_isNode (XmlNode "system" _ _ _) "system") with true.
        cbv iota.
        change (xmlr_attr (XmlNode "system" [("name"%string, ?n)] _ _) "name")
          with (Some n).
        cbv iota.
        change (xml_children (XmlNode _ _ ?c _)) with c.
        rewrite Hassets. reflexivity.
      * repeat split; try assumption; apply Hdone.
Qed.

Lemma same_names_alter (stack stack' : list Commodity.t) (c : nat) (v : Z) :
  same_names stack stack' ->
  same_names stack
    (alter (fun com => Commodity.set_lastPurchasePrice com v) c stack').
Proof.
  intros [Hlen Hn]. split; [rewrite length_alter; exact Hlen|].
  intros k. rewrite <- Hn.
  destruct (decide (c = k)) as [<-|Hne].
  - destruct (stack' !! c) as [x|] eqn:Hx.
    + rewrite !list_lookup_total_alt, list_lookup_alter_eq, Hx. reflexivity.
    + rewrite !list_lookup_total_alt, list_lookup_alter_eq, Hx. reflexivity.
  - rewrite !list_lookup_total_alt, list_lookup_alter_ne by exact Hne.
    reflexivity.
Qed.

(** Loading the last purchase elements changes last purchase prices and
    nothing else. *)
Lemma load_lastPurchases_spec (wc : World.t) (n : nat) :
  same_names (World.commodity_stack w) (World.commodity_stack wc) ->
  (n <= length (World.commodity_stack w))%nat ->
  exists wc',
    do_nodes load_cur (lastPurchase_nodes w n) wc = Some wc' /\
    World.planet_stack wc' = World.planet_stack wc /\
    World.systems_stack wc' = World.systems_stack wc /\
    World.econ_comm wc' = World.econ_comm wc /\
    same_names (World.commodity_stack w) (World.commodity_stack wc').
Proof.
  intros Hnames Hn. induction n as [|n IH].
  - exists wc. repeat split; try reflexivity; apply Hnames.
  - destruct IH as (w1 & Hrun & Hp1 & Hs1 & He1 & Hn1); [lia|].
    unfold lastPurchase_nodes. rewrite flat_map_seq_snoc.
    fold (lastPurchase_nodes w n). rewrite do_nodes_app, Hrun.
    cbv zeta. set (c := World.commodity_stack w !!! n).
    destruct (0 <? Commodity.lastPurchasePrice c)%Z.
    + simpl do_nodes. unfold load_cur.
      change (xml_isNode (XmlNode "lastPurchase" _ _ _) "system") with false.
      change (xml_isNode (XmlNode "lastPurchase" _ _ _) "lastPurchase")
        with true.
      cbv iota.
      change (xmlr_attr (XmlNode "lastPurchase" [("name"%string, ?n)] _ _)
                        "name")
        with (Some n).
      cbv iota. unfold commodity_get.
      destruct Hn1 as [Hlen1 Hnm1].
      assert (Hfound :
        (scan (fun c0 => String.eqb (Commodity.name c0) (Commodity.name c))
              (World.commodity_stack w1)
         < length (World.commodity_stack w1))%nat).
      { apply (scan_lt _ _ n (World.commodity_stack w1 !!! n)).
        - apply list_lookup_lookup_total_lt. lia.
        - rewrite Hnm1. apply String.eqb_refl. }
      apply Nat.ltb_lt in Hfound. rewrite Hfound. simpl fst. cbv iota.
      eexists. split; [reflexivity|].
      repeat split; try assumption;
        apply same_names_alter; split; assumption.
    + exists w1. split; [reflexivity|]. repeat split; try assumption; apply Hn1.
Qed.

End LoadSystems.

(** ** Save, reset, reload *)

Section RoundTrip.
Context `{Persistence}.

(** A planet for which nothing was written has nothing to reload. *)
Lemma reload_planet_no_data (stack : list Commodity.t) (p : Planet.t) :
  length (Planet.commodityPrice p) = length (Planet.commodities p) ->
  commodity_nodes stack p (Planet.ncommodities p) = [] ->
  reload_planet p = clear_planet p.
Proof.
  intros Hlen Hnil. rewrite clear_planet_closed. unfold reload_planet.
  f_equal. apply list_eq. intros k. rewrite !list_lookup_imap.
  destruct (Planet.commodityPrice p !! k) as [cp|] eqn:Hcp; [|reflexivity].
  simpl. destruct (Nat.ltb_spec k (Planet.ncommodities p)) as [Hk|_];
    [|reflexivity].
  unfold reload_field.
  destruct (0 <? CommodityPrice.cnt cp)%Z eqn:Hcnt; [|reflexivity].
  exfalso.
  assert (Hin : In (commodity_node
                      (Commodity.name
                         (stack !!! (Planet.commodities p !!! k))) cp)
                   (commodity_nodes stack p (Planet.ncommodities p))).
  { unfold commodity_nodes. apply in_flat_map. exists k. split.
    - apply in_seq. lia.
    - cbv zeta. rewrite (list_lookup_total_correct _ _ _ Hcp), Hcnt.
      left. reflexivity. }
  rewrite Hnil in Hin. destruct Hin.
Qed.

(** Loading the document that saving wrote: the load runs to its end,
    and every planet of a system comes out reloaded. *)
Lemma economy_sysLoad_saved (w : World.t) :
  persistence_laws -> saveable w ->
  exists w',
    economy_sysLoad w (saved_document w) = Some w' /\
    World.econ_comm w' = World.econ_comm w /\
    World.systems_stack w' = World.systems_stack w /\
    same_names (World.commodity_stack w) (World.commodity_stack w') /\
    length (World.planet_stack w') = length (World.planet_stack w) /\
    forall ptr p,
      belongs (World.systems_stack w) ptr ->
      World.planet_stack w !! ptr = Some p ->
      World.planet_stack w' !! ptr = Some (reload_planet p).
Proof.
  intros Hlaws Hsave.
  unfold economy_sysLoad. rewrite saved_document_spec.
  change (xml_children (XmlNode _ _ ?c _)) with c.
  simpl do_nodes. unfold load_node, economy_node.
  change (xml_isNode (XmlNode "economy" _ _ _) "economy") with true.
  cbv iota. change (xml_children (XmlNode _ _ ?c _)) with c.
  destruct (economy_clearKnown_spec w) as (Hec & Hsc & Hcc & Hlc & Hmc).
  cbv zeta in Hec, Hsc, Hcc, Hlc, Hmc.
  set (wc := economy_clearKnown w) in *.
  assert (Hnames : same_names (World.commodity_stack w)
                              (World.commodity_stack wc)).
  { rewrite Hcc. split; [apply length_map|].
    intros c. destruct (World.commodity_stack w !! c) as [x|] eqn:Hx.
    - rewrite !list_lookup_total_alt, list_lookup_fmap, Hx. reflexivity.
    - rewrite !list_lookup_total_alt, list_lookup_fmap, Hx. reflexivity. }
  destruct (load_lastPurchases_spec w wc
              (length (World.commodity_stack w)) Hnames (le_n _))
    as (w1 & Hrun1 & Hp1 & Hs1 & He1 & Hn1).
  rewrite do_nodes_app, Hrun1.
  assert (Hload : loaded (World.systems_stack w) (World.planet_stack w)
                         (fun _ => False) (World.planet_stack w1)).
  { rewrite Hp1. split; [exact Hlc|].
    intros ptr p Hp.
    destruct (lookup_lt_is_Some_2 (World.planet_stack wc) ptr) as [q Hq];
      [rewrite Hlc; eapply lookup_lt_Some; exact Hp|].
    exists q. split; [exact Hq|].
    destruct (Hmc ptr q Hq) as [(p0 & Hp0 & Hq0) Hdone].
    rewrite Hp in Hp0. injection Hp0 as <-.
    split; [|split].
    - destruct Hq0 as [Hq0|Hq0]; rewrite Hq0; [reflexivity|].
      apply clear_planet_name.
    - intros Hb. destruct (Hdone Hb) as (p0 & Hp0 & Hq1).
      rewrite Hp in Hp0. injection Hp0 as <-. left. exact Hq1.
    - intros []. }
  destruct (load_systems_spec w Hlaws Hsave w1
              (length (World.systems_stack w)) Hn1 (le_n _) Hload)
    as (w2 & Hrun2 & Hc2 & Hs2 & He2 & Hl2).
  rewrite Hrun2. exists w2. split; [reflexivity|].
  split; [congruence|]. split; [congruence|].
  split; [rewrite Hc2; exact Hn1|].
  split; [apply Hl2|].
  intros ptr p Hb Hp. destruct Hl2 as [_ Hl2].
  destruct (Hl2 ptr p Hp) as (q & Hq & _ & Hqb & Hqd). rewrite Hq. f_equal.
  destruct Hsave as [_ Hwf]. rewrite Forall_lookup in Hwf.
  destruct (Hwf _ _ Hp) as (Hlen & _).
  destruct (commodity_nodes (World.commodity_stack w) p
              (Planet.ncommodities p)) as [|x cn] eqn:Hcn.
  - rewrite (reload_planet_no_data _ p Hlen Hcn).
    destruct (Hqb Hb) as [->| ->]; [reflexivity|].
    apply (reload_planet_no_data _ p Hlen Hcn).
  - apply Hqd. destruct Hb as (s & sys & j & Hs & Hj).
    exists s, j.
    rewrite (list_lookup_total_correct _ _ _ Hs).
    rewrite (list_lookup_total_correct _ _ _ Hj).
    rewrite (list_lookup_total_correct _ _ _ Hp).
    split; [eapply lookup_lt_Some; exact Hs|].
    split; [eapply lookup_lt_Some; exact Hj|].
    split; [reflexivity|].
    unfold planet_node. rewrite Hcn. discriminate.
Qed.

Lemma scan_ext {A : Type} (test test' : A -> bool) (a : list A) :
  (forall x, test x = test' x) -> scan test a = scan test' a.
Proof.
  intros He. induction a as [|x a IH]; [reflexivity|].
  simpl. rewrite He, IH. reflexivity.
Qed.

(** The element written for a price field: there is one for every field
    of positive count and for no other. *)
Lemma commodity_nodes_In (stack : list Commodity.t) (p : Planet.t)
  (node : xml) :
  In node (commodity_nodes stack p (Planet.ncommodities p)) <->
  exists i, (i < Planet.ncommodities p)%nat /\
            (0 < CommodityPrice.cnt (Planet.commodityPrice p !!! i))%Z /\
            node = commodity_node
                     (Commodity.name
                        (stack !!! (Planet.commodities p !!! i)))
                     (Planet.commodityPrice p !!! i).
Proof.
  unfold commodity_nodes. rewrite in_flat_map. split.
  - intros (i & Hi & Hin). apply in_seq in Hi. cbv zeta in Hin.
    destruct (Z.ltb_spec 0 (CommodityPrice.cnt (Planet.commodityPrice p !!! i)))
      as [Hc|_]; [|destruct Hin].
    destruct Hin as [<-|[]]. exists i. split; [lia|]. split; [exact Hc|].
    reflexivity.
  - intros (i & Hi & Hc & ->). exists i. split; [apply in_seq; lia|].
    cbv zeta. apply Z.ltb_lt in Hc. rewrite Hc. left. reflexivity.
Qed.

(** The price field of a pair after the reload. *)
Lemma reload_price_field (w w' : World.t) (com : nat) (p : Planet.t)
  (cp : CommodityPrice.t) :
  World.econ_comm w' = World.econ_comm w ->
  same_names (World.commodity_stack w) (World.commodity_stack w') ->
  price_field w com p cp ->
  price_field w' com (reload_planet p) (reload_field cp).
Proof.
  intros He [_ Hn] (Hpriced & Hidx & Hcp).
  assert (Hi : planet_index w' com (reload_planet p) = planet_index w com p).
  { unfold planet_index. apply scan_ext. intros c. rewrite !Hn. reflexivity. }
  unfold price_field. rewrite Hi. split; [|split].
  - unfold priced. rewrite He. exact Hpriced.
  - exact Hidx.
  - unfold reload_planet. simpl. rewrite list_lookup_imap, Hcp. simpl.
    apply Nat.ltb_lt in Hidx. rewrite Hidx. reflexivity.
Qed.

(** Resetting twice is resetting once. *)
Lemma economy_clearKnown_idem (w : World.t) :
  economy_clearKnown (economy_clearKnown w) = economy_clearKnown w.
Proof.
  destruct (economy_clearKnown_spec w) as (_ & _ & _ & _ & Hm).
  cbv zeta in Hm.
  unfold economy_clearKnown at 1.
  replace (for_loop _ 0 _ (World.planet_stack (economy_clearKnown w)))
    with (World.planet_stack (economy_clearKnown w)).
  - unfold economy_clearKnown. simpl. rewrite map_map. reflexivity.
  - symmetry.
    apply (for_loop_ind0
             (fun _ st => st = World.planet_stack (economy_clearKnown w)));
      [reflexivity|].
    intros k st Hk ->. unfold clear_system.
    apply (for_loop_ind0
             (fun _ st => st = World.planet_stack (economy_clearKnown w)));
      [reflexivity|].
    intros j st Hj ->.
    set (sys := World.systems_stack (economy_clearKnown w) !!! k) in *.
    set (ptr := StarSystem.planets sys !!! j).
    apply list_eq. intros q. destruct (decide (ptr = q)) as [<-|Hne].
    + rewrite list_lookup_alter_eq.
      destruct (World.planet_stack (economy_clearKnown w) !! ptr)
        as [x|] eqn:Hx; [|reflexivity].
      simpl. f_equal. destruct (Hm ptr x Hx) as [_ Hb].
      destruct Hb as (p0 & _ & ->); [|apply clear_planet_idem].
      exists k, sys, j. split.
      * apply list_lookup_lookup_total_lt. exact Hk.
      * apply list_lookup_lookup_total_lt. exact Hj.
    + apply list_lookup_alter_ne. exact Hne.
Qed.

(** C8 (as the code behaves): saving writes one commodity element for
    every price field of positive observation count, inside the element
    of its planet and system, and nothing for the other fields.  When
    planet names are unique, no planet sells two goods of one name and
    the accumulators hold integral sums and a count within the range of
    [int], saving, resetting and loading runs to its end and leaves, for
    every planet of a system and every priced good it sells, a price
    field of the same count, sum and sum of squares, hence the same mean
    and deviation, where the count was positive; a field that had no
    observation is read back cleared and its query answers with code 0,
    mean 0 and deviation 0, which is the answer of a found pair. *)
Theorem economy_sysLoad_roundtrip (w : World.t) :
  persistence_laws -> saveable w ->
  saved_document w = XmlNode "player" [] [economy_node w] "" /\
  exists w',
    economy_sysLoad (economy_clearKnown w) (saved_document w) = Some w' /\
    forall ptr p com cp,
      belongs (World.systems_stack w) ptr ->
      World.planet_stack w !! ptr = Some p ->
      price_field w com p cp ->
      exists p' cp',
        World.planet_stack w' !! ptr = Some p' /\
        price_field w' com p' cp' /\
        ((0 < CommodityPrice.cnt cp)%Z ->
         CommodityPrice.cnt cp' = CommodityPrice.cnt cp /\
         CommodityPrice.sum cp' = CommodityPrice.sum cp /\
         CommodityPrice.sum2 cp' = CommodityPrice.sum2 cp /\
         economy_getAveragePlanetPrice w' com p'
         = economy_getAveragePlanetPrice w com p) /\
        ((CommodityPrice.cnt cp <= 0)%Z ->
         CommodityPrice.cnt cp' = 0%Z /\
         CommodityPrice.sum cp' = 0 /\
         CommodityPrice.sum2 cp' = 0 /\
         economy_getAveragePlanetPrice w' com p' = (0%Z, 0%Z, 0)).
Proof.
  intros Hlaws Hsave. split; [apply saved_document_spec|].
  destruct (economy_sysLoad_saved w Hlaws Hsave)
    as (w' & Hrun & He & _ & Hn & _ & Hplanets).
  exists w'. split.
  { unfold economy_sysLoad. rewrite economy_clearKnown_idem. exact Hrun. }
  intros ptr p com cp Hb Hp Hcp.
  exists (reload_planet p), (reload_field cp).
  split; [apply Hplanets; assumption|].
  pose proof (reload_price_field w w' com p cp He Hn Hcp) as Hcp'.
  split; [exact Hcp'|].
  rewrite (economy_getAveragePlanetPrice_field _ _ _ _ Hcp').
  rewrite (economy_getAveragePlanetPrice_field _ _ _ _ Hcp).
  unfold reload_field. split.
  - intros Hcnt.
    destruct Hsave as [_ Hwf]. rewrite Forall_lookup in Hwf.
    destruct (Hwf _ _ Hp) as (_ & _ & Hfields).
    rewrite Forall_lookup in Hfields. destruct Hcp as (_ & _ & Hcp).
    destruct (Hfields _ _ Hcp Hcnt) as (Hrange & [z Hz] & [z2 Hz2]).
    destruct Hlaws as (_ & Hf & Hd & _).
    assert (Hc : atoi (printf_d (CommodityPrice.cnt cp))
                 = CommodityPrice.cnt cp) by (apply Hd; lia).
    assert (Hs : atof (printf_f (CommodityPrice.sum cp))
                 = CommodityPrice.sum cp) by (rewrite Hz; apply Hf).
    assert (Hs2 : atof (printf_f (CommodityPrice.sum2 cp))
                  = CommodityPrice.sum2 cp) by (rewrite Hz2; apply Hf).
    apply Z.ltb_lt in Hcnt. rewrite Hcnt. unfold restore_field. simpl.
    rewrite Hc, Hs, Hs2, Hcnt. repeat split; reflexivity.
  - intros Hcnt.
    destruct (Z.ltb_spec 0 (CommodityPrice.cnt cp)) as [Hlt|_]; [lia|].
    simpl. repeat split; reflexivity.
Qed.

End RoundTrip.

(** ** Save, reset, reload: examples *)

Lemma parse_print_Z (z : Z) : parse_Z (print_Z z) = z.
Proof.
  unfold parse_Z, print_Z. rewrite DecimalString.NilEmpty.isi.
  apply DecimalZ.of_to.
Qed.

Lemma Int_part_IZR (z : Z) : Int_part (IZR z) = z.
Proof. apply Int_part_unique. lra. Qed.

Lemma codec_laws : @persistence_laws codec.
Proof.
  unfold persistence_laws. simpl. repeat split.
  - intros planets ptr p Hp Huniq.
    assert (Hscan : scan (fun p0 => String.eqb (Planet.name p0)
                                               (Planet.name p)) planets
                    = ptr).
    { apply (scan_first _ _ ptr p Hp); [apply String.eqb_refl|].
      intros j y Hj Hy. destruct (String.eqb_spec (Planet.name y)
                                                  (Planet.name p)) as [He|_];
        [|reflexivity].
      specialize (Huniq j y Hy He). lia. }
    rewrite Hscan.
    assert (Hlt : (ptr <? length planets)%nat = true)
      by (apply Nat.ltb_lt; eapply lookup_lt_Some; exact Hp).
    rewrite Hlt. reflexivity.
  - intros z. rewrite Int_part_IZR, parse_print_Z. reflexivity.
  - intros z _. apply parse_print_Z.
  - intros z _. apply parse_print_Z.
Qed.

Lemma world_bazaar_saveable : saveable world_bazaar.
Proof.
  split.
  - intros q q' p p' Hq Hq' _.
    destruct q as [|q]; [|destruct q; discriminate].
    destruct q' as [|q']; [reflexivity|destruct q'; discriminate].
  - constructor; [|constructor]. split; [reflexivity|]. split.
    + change (NoDup ["Food"; "Ore"]%string).
      apply NoDup_cons. split; [|apply NoDup_singleton].
      intros Hin%list_elem_of_singleton. discriminate.
    + simpl. constructor; [|constructor; [|constructor]]; simpl.
      * intros _. split; [lia|]. split; [exists 210%Z|exists 22100%Z];
          reflexivity.
      * lia.
Qed.

Lemma economy_sysLoad_roundtrip_witness :
  exists w',
    @economy_sysLoad codec (economy_clearKnown world_bazaar)
                     (@saved_document codec world_bazaar) = Some w' /\
    exists p',
      World.planet_stack w' !! 0%nat = Some p' /\
      economy_getAveragePlanetPrice w' food_ptr p'
      = economy_getAveragePlanetPrice world_bazaar food_ptr bazaar.
Proof.
  destruct (@economy_sysLoad_roundtrip codec world_bazaar codec_laws
              world_bazaar_saveable) as (_ & w' & Hrun & Hfields).
  exists w'. split; [exact Hrun|].
  destruct (Hfields 0%nat bazaar food_ptr (observed 100 210 22100 2))
    as (p' & cp' & Hp' & _ & Hpos & _).
  - exists 0%nat, (StarSystem.mk 0%Z "Sol" 0 0 0 0 (-1)%Z [] [0%nat] [] []),
      0%nat. split; reflexivity.
  - reflexivity.
  - split; [|split]; [vm_compute; lia|vm_compute; lia|reflexivity].
  - exists p'. split; [exact Hp'|]. apply Hpos. simpl. lia.
Defined.

(** The round trip of the example, evaluated: the universe comes back
    as it was. *)
Lemma economy_sysLoad_bazaar :
  @economy_sysLoad codec (economy_clearKnown world_bazaar)
                   (@saved_document codec world_bazaar)
  = Some world_bazaar.
Proof.
  cbv -[Rplus Rmult Rdiv Rinv Ropp IZR Rabs Rminus Rle_dec Int_part sqrt sin
        PI tanh ln exp Rlt Rle Rgt Rge INR print_Z parse_Z].
  rewrite !Int_part_IZR, !parse_print_Z. reflexivity.
Qed.

(** The document saved for the example holds the observed food and
    nothing for the ore. *)
Lemma saved_document_bazaar :
  @saved_document codec world_bazaar
  = (XmlNode "player" []
       [XmlNode "economy" []
          [XmlNode "system" [("name", "Sol")]
             [XmlNode "planet" [("name", "Earth")]
                [XmlNode "commodity"
                   [("name", "Food"); ("sum", "210"); ("sum2", "22100");
                    ("cnt", "2"); ("time", "7")]
                   [] ""]
                ""]
             ""]
          ""]
       "")%string.
Proof.
  cbv -[Rplus Rmult Rdiv Rinv Ropp IZR Rabs Rminus Rle_dec Int_part sqrt sin
        PI tanh ln exp Rlt Rle Rgt Rge INR print_Z].
  rewrite !Int_part_IZR. reflexivity.
Qed.

(** C8, as stated, fails in its last part: the ore of the example has
    no observation, is not written, and after the reset and the reload
    its query answers with code 0, mean 0 and deviation 0, as it did
    before; the code of a pair that is not found, -1, is the answer for
    a good that is not priced. *)
Lemma economy_sysLoad_unobserved_counterexample :
  CommodityPrice.cnt (Planet.commodityPrice bazaar !!! ore_ptr) = 0%Z /\
  @economy_sysLoad codec (economy_clearKnown world_bazaar)
                   (@saved_document codec world_bazaar)
  = Some world_bazaar /\
  World.planet_stack world_bazaar !! 0%nat = Some bazaar /\
  economy_getAveragePlanetPrice world_bazaar ore_ptr bazaar
  = (0%Z, 0%Z, 0) /\
  economy_getAveragePlanetPrice world_bazaar 2%nat bazaar
  = ((-1)%Z, 0%Z, 0).
Proof.
  split; [reflexivity|]. split; [apply economy_sysLoad_bazaar|].
  split; [reflexivity|]. split; real_eval; reflexivity.
Qed.

(** ** Life cycle of the network model *)

Section LifecycleFacts.
Context `{Externals}.

(** [econ_createGMatrix] returns 0 and replaces the matrix, nothing else. *)
Lemma econ_createGMatrix_frame (w : World.t) :
  exists log G,
    econ_createGMatrix w
    = (0%Z, log,
       World.mk (World.commodity_stack w) (World.econ_comm w)
                (World.systems_stack w) (World.planet_stack w)
                (World.econ_initialized w) (World.econ_queued w) (Some G)).
Proof.
  unfold econ_createGMatrix.
  destruct (for_loop _ 0 _ _) as [M log]. exists log, (cs_compress M).
  reflexivity.
Qed.

(** The per-good loop of [economy_update] rewrites price arrays only. *)
Lemma update_goods_topology (dt : Z) (G : cs.t) (systems0 : list StarSystem.t)
  (n : nat) :
  Forall2 same_topology systems0
          (fst (for_loop n 0 (update_good dt G) (systems0, []))).
Proof.
  apply (for_loop_ind0 (fun _ st => Forall2 same_topology systems0 (fst st))).
  - simpl. apply Forall2_same_length_lookup. split; [reflexivity|].
    intros i s s' Hs Hs'. rewrite Hs in Hs'. injection Hs' as <-.
    exists (StarSystem.prices s). destruct s; reflexivity.
  - intros k [systems log] _ Hst. simpl in Hst. unfold update_good.
    destruct (cs_qrsol 3 G (load_intensities dt systems k)) as [ret X].
    simpl. unfold store_prices.
    apply Forall2_same_length_lookup. split.
    + rewrite length_imap. eapply Forall2_length. exact Hst.
    + intros i s s' Hs Hs'. rewrite list_lookup_imap in Hs'.
      destruct (systems !! i) as [s1|] eqn:Hs1; [|discriminate].
      simpl in Hs'. injection Hs' as <-.
      destruct (Forall2_lookup_lr _ _ _ _ _ _ Hst Hs Hs1) as [ps ->].
      eexists. reflexivity.
Qed.

(** [economy_update] on an initialised economy: what it leaves alone. *)
Lemma economy_update_frame (w : World.t) (dt : Z) :
  World.econ_initialized w = true ->
  exists log systems,
    economy_update w dt
    = (0%Z, log,
       World.mk (World.commodity_stack w) (World.econ_comm w) systems
                (World.planet_stack w) true 0%Z (World.econ_G w)) /\
    Forall2 same_topology (World.systems_stack w) systems /\
    Forall2 (fun s s' => length (StarSystem.prices s')
                         = length (StarSystem.prices s))
            (World.systems_stack w) systems.
Proof.
  intros Hinit. unfold economy_update. rewrite Hinit. simpl negb. cbv iota.
  set (G := match World.econ_G w with Some G => G | None => cs_spalloc 0 0 end).
  pose proof (update_goods_topology dt G (World.systems_stack w)
                (World.econ_nprices w)) as Htop.
  pose proof (update_goods_spec dt G (World.systems_stack w)
                (World.econ_nprices w)) as Hspec.
  cbv zeta in Hspec.
  destruct (for_loop (World.econ_nprices w) 0 (update_good dt G)
              (World.systems_stack w, [])) as [systems log].
  simpl in Htop, Hspec. destruct Hspec as (Hlen & _ & Hsys).
  exists log, systems. split; [reflexivity|]. split; [exact Htop|].
  apply Forall2_same_length_lookup. split; [symmetry; exact Hlen|].
  intros i s s' Hs Hs'. destruct (Hsys i s Hs) as (s1 & Hs1 & Hl & _).
  rewrite Hs' in Hs1. injection Hs1 as <-. exact Hl.
Qed.

(** [economy_refresh] on an initialised economy. *)
Lemma economy_refresh_frame (w : World.t) :
  World.econ_initialized w = true ->
  exists log G systems,
    economy_refresh w
    = (0%Z, log,
       World.mk (World.commodity_stack w) (World.econ_comm w) systems
                (World.planet_stack w) true 0%Z (Some G)) /\
    Forall2 same_topology (World.systems_stack w) systems /\
    Forall2 (fun s s' => length (StarSystem.prices s')
                         = length (StarSystem.prices s))
            (World.systems_stack w) systems.
Proof.
  intros Hinit. unfold economy_refresh. rewrite Hinit. simpl negb. cbv iota.
  destruct (econ_createGMatrix_frame w) as (log1 & G & ->).
  change (negb (0 =? 0)%Z) with false. cbv iota.
  match goal with
  | |- context [economy_update ?w1 _] =>
      destruct (economy_update_frame w1 0 Hinit)
        as (log2 & systems & -> & Htop & Hlen)
  end.
  simpl in Htop, Hlen. exists (log1 ++ log2), G, systems.
  split; [reflexivity|]. split; assumption.
Qed.

Lemma prices_allocated_lengths (w : World.t) (systems : list StarSystem.t) :
  prices_allocated w ->
  Forall2 (fun s s' => length (StarSystem.prices s')
                       = length (StarSystem.prices s))
          (World.systems_stack w) systems ->
  Forall (fun sys => length (StarSystem.prices sys) = World.econ_nprices w)
         systems.
Proof.
  unfold prices_allocated. intros Ha Hl.
  induction Hl as [|s s' l l' Hs _ IH]; [constructor|].
  inversion Ha; subst. constructor; [congruence|auto].
Qed.

(** X1: on an economy that is not initialised, [economy_init] returns 0
    and leaves it initialised, with no update queued, an admittance
    matrix, and in every system one price slot for every priced good;
    systems change in their price arrays only, and a second call does
    nothing. *)
Theorem economy_init_allocates (w : World.t) :
  World.econ_initialized w = false ->
  exists log w',
    economy_init w = (0%Z, log, w') /\
    World.econ_initialized w' = true /\
    World.econ_queued w' = 0%Z /\
    is_Some (World.econ_G w') /\
    prices_allocated w' /\
    Forall2 same_topology (World.systems_stack w) (World.systems_stack w') /\
    World.commodity_stack w' = World.commodity_stack w /\
    World.econ_comm w' = World.econ_comm w /\
    World.planet_stack w' = World.planet_stack w /\
    economy_init w' = (0%Z, [], w').
Proof.
  intros Hinit. unfold economy_init at 1. rewrite Hinit.
  match goal with
  | |- context [economy_refresh ?w1] =>
      destruct (economy_refresh_frame w1 eq_refl)
        as (log & G & systems & -> & Htop & Hlen)
  end.
  simpl in Htop, Hlen. eexists _, _. split; [reflexivity|]. simpl.
  split; [reflexivity|]. split; [reflexivity|]. split; [eexists; reflexivity|].
  split; [|split; [|repeat split]].
  - unfold prices_allocated. simpl. rewrite Forall_lookup. intros i s' Hs'.
    destruct (Forall2_lookup_r _ _ _ _ _ Hlen Hs') as (s & Hs & ->).
    rewrite list_lookup_fmap in Hs.
    destruct (World.systems_stack w !! i); [|discriminate].
    simpl in Hs. injection Hs as <-. simpl. apply length_replicate.
  - apply Forall2_same_length_lookup. split.
    + rewrite <- (Forall2_length _ _ _ Htop). rewrite length_map. reflexivity.
    + intros i s s' Hs Hs'.
      destruct (Forall2_lookup_r _ _ _ _ _ Htop Hs') as (s1 & Hs1 & [ps ->]).
      rewrite list_lookup_fmap, Hs in Hs1. simpl in Hs1. injection Hs1 as <-.
      eexists. reflexivity.
Qed.

(** X2: once every system holds one price slot for every priced good,
    [economy_update], [economy_refresh] and [economy_execQueued] keep it
    so. *)
Theorem economy_update_keeps_allocation (w : World.t) (dt : Z) :
  prices_allocated w ->
  prices_allocated (snd (economy_update w dt)) /\
  prices_allocated (snd (economy_refresh w)) /\
  prices_allocated (snd (economy_execQueued w)).
Proof.
  intros Ha.
  assert (Hr : prices_allocated (snd (economy_refresh w))).
  { destruct (World.econ_initialized w) eqn:Hinit.
    - destruct (economy_refresh_frame w Hinit)
        as (log & G & systems & -> & _ & Hlen).
      apply (prices_allocated_lengths w systems Ha Hlen).
    - unfold economy_refresh. rewrite Hinit. exact Ha. }
  split; [|split; [exact Hr|]].
  - destruct (World.econ_initialized w) eqn:Hinit.
    + destruct (economy_update_frame w dt Hinit)
        as (log & systems & -> & _ & Hlen).
      apply (prices_allocated_lengths w systems Ha Hlen).
    + unfold economy_update. rewrite Hinit. exact Ha.
  - unfold economy_execQueued.
    destruct (negb (World.econ_queued w =? 0)%Z); [exact Hr|exact Ha].
Qed.

(** X3: [economy_destroy] leaves the economy uninitialised, and from
    then on [economy_update], [economy_refresh], [economy_execQueued]
    and [economy_destroy] itself return at once and change nothing; when
    the economy was initialised, the matrix and every price array are
    gone. *)
Theorem economy_destroy_stops (w : World.t) (dt : Z) :
  let w' := economy_destroy w in
  World.econ_initialized w' = false /\
  economy_destroy w' = w' /\
  economy_update w' dt = (0%Z, [], w') /\
  economy_refresh w' = (0%Z, [], w') /\
  economy_execQueued w' = (0%Z, [], w') /\
  (World.econ_initialized w = true ->
   World.econ_G w' = None /\
   Forall (fun sys => StarSystem.prices sys = []) (World.systems_stack w')).
Proof.
  cbv zeta.
  assert (Hoff : World.econ_initialized (economy_destroy w) = false).
  { unfold economy_destroy.
    destruct (World.econ_initialized w) eqn:Hinit; [reflexivity|exact Hinit]. }
  split; [exact Hoff|].
  assert (Hr : economy_refresh (economy_destroy w)
               = (0%Z, [], economy_destroy w))
    by (unfold economy_refresh; rewrite Hoff; reflexivity).
  split; [unfold economy_destroy at 1; rewrite Hoff; reflexivity|].
  split; [unfold economy_update; rewrite Hoff; reflexivity|].
  split; [exact Hr|]. split.
  - unfold economy_execQueued.
    destruct (negb (World.econ_queued (economy_destroy w) =? 0)%Z);
      [exact Hr|reflexivity].
  - intros Hinit. unfold economy_destroy. rewrite Hinit. simpl.
    split; [reflexivity|]. apply Forall_fmap, Forall_true. reflexivity.
Qed.

Lemma reallocate_same_topology (systems systems' : list StarSystem.t)
  (ps : list R) :
  Forall2 same_topology systems systems' ->
  map (fun sys => StarSystem.set_prices sys ps)
      (map (fun sys => StarSystem.set_prices sys []) systems')
  = map (fun sys => StarSystem.set_prices sys ps) systems.
Proof.
  intros Ht. induction Ht as [|s s' l l' [qs ->] _ IH]; [reflexivity|].
  simpl. rewrite IH. reflexivity.
Qed.

(** The value of [economy_init] on an economy that is not initialised. *)
Lemma economy_init_value (w : World.t) :
  World.econ_initialized w = false ->
  exists M log1,
    for_loop (length (reallocate w)) 0 (fill_row (reallocate w))
             (cs_spalloc (Z.of_nat (length (reallocate w)))
                         (Z.of_nat (length (reallocate w))), [])
    = (M, log1) /\
    economy_init w
    = (let '(systems, log2) :=
         for_loop (World.econ_nprices w) 0 (update_good 0 (cs_compress M))
                  (reallocate w, []) in
       (0%Z, log1 ++ log2,
        World.mk (World.commodity_stack w) (World.econ_comm w) systems
                 (World.planet_stack w) true 0%Z (Some (cs_compress M)))).
Proof.
  intros Hinit. unfold economy_init. rewrite Hinit.
  fold (reallocate w).
  unfold economy_refresh. simpl negb. cbv iota.
  unfold econ_createGMatrix. simpl World.systems_stack.
  destruct (for_loop (length (reallocate w)) 0 (fill_row (reallocate w)) _)
    as [M log1].
  exists M, log1. split; [reflexivity|].
  change (negb (0 =? 0)%Z) with false. cbv iota.
  unfold economy_update. simpl negb. cbv iota.
  unfold World.econ_nprices. simpl.
  destruct (for_loop (length (World.econ_comm w)) 0
              (update_good 0 (cs_compress M)) (reallocate w, []));
    reflexivity.
Qed.

(** X4: destroying an economy that [economy_init] has just initialised
    and initialising it again gives the same warnings and the same
    state as the first initialisation. *)
Theorem economy_init_after_destroy (w : World.t) :
  World.econ_initialized w = false ->
  economy_init (economy_destroy (snd (economy_init w))) = economy_init w.
Proof.
  intros Hinit. destruct (economy_init_value w Hinit) as (M & log1 & HM & Hw).
  rewrite Hw.
  destruct (for_loop (World.econ_nprices w) 0 (update_good 0 (cs_compress M))
              (reallocate w, [])) as [systems log2] eqn:Hup.
  pose proof (update_goods_topology 0 (cs_compress M) (reallocate w)
                (World.econ_nprices w)) as Htop.
  rewrite Hup in Htop. simpl in Htop. simpl snd.
  set (w2 := economy_destroy _).
  assert (Hinit2 : World.econ_initialized w2 = false) by reflexivity.
  assert (Hre : reallocate w2 = reallocate w).
  { unfold reallocate, w2, economy_destroy. simpl.
    unfold World.econ_nprices. simpl.
    rewrite (reallocate_same_topology (reallocate w) systems _ Htop).
    unfold reallocate. rewrite map_map. reflexivity. }
  destruct (economy_init_value w2 Hinit2) as (M2 & log3 & HM2 & Hw2).
  rewrite Hre, HM in HM2. injection HM2 as <- <-.
  rewrite Hw2, Hre.
  change (World.econ_nprices w2) with (World.econ_nprices w).
  rewrite Hup. reflexivity.
Qed.

(** X5: [economy_execQueued] does nothing while the economy is not
    initialised, and leaves the queue as it is; on an initialised
    economy with an update queued it refreshes, returns 0 and empties
    the queue, so that a second call does nothing; and queueing an
    update on a queue of 0 to 2^31-2 entries makes it non-empty. *)
Theorem economy_execQueued_clears (w : World.t) :
  (World.econ_initialized w = false ->
   economy_execQueued w = (0%Z, [], w)) /\
  (World.econ_initialized w = true -> World.econ_queued w <> 0%Z ->
   exists log w',
     economy_execQueued w = (0%Z, log, w') /\
     World.econ_queued w' = 0%Z /\
     economy_execQueued w' = (0%Z, [], w')) /\
  ((0 <= World.econ_queued w < 2 ^ 31 - 1)%Z ->
   World.econ_queued (economy_addQueuedUpdate w)
   = (World.econ_queued w + 1)%Z /\
   World.econ_queued (economy_addQueuedUpdate w) <> 0%Z).
Proof.
  split; [|split].
  - intros Hinit. unfold economy_execQueued, economy_refresh.
    rewrite Hinit. destruct (negb _); reflexivity.
  - intros Hinit Hq. unfold economy_execQueued.
    apply Z.eqb_neq in Hq. rewrite Hq. simpl negb. cbv iota.
    destruct (economy_refresh_frame w Hinit)
      as (log & G & systems & -> & _ & _).
    eexists _, _. split; [reflexivity|]. split; reflexivity.
  - intros Hq. simpl. rewrite wrap_int_small by lia. split; lia.
Qed.

End LifecycleFacts.

(** *** Worked scenarios of the life cycle *)

Lemma economy_init_allocates_witness :
  World.econ_initialized world_cold = false /\
  exists log w',
    @economy_init ext_plain world_cold = (0%Z, log, w') /\
    World.econ_queued w' = 0%Z /\ prices_allocated w'.
Proof.
  split; [reflexivity|].
  destruct (@economy_init_allocates ext_plain world_cold eq_refl)
    as (log & w' & Hrun & _ & Hq & _ & Ha & _).
  exists log, w'. repeat split; assumption.
Defined.

Lemma world_stale_allocated : prices_allocated world_stale.
Proof. repeat constructor. Qed.

Lemma economy_update_keeps_allocation_witness :
  prices_allocated world_stale /\
  prices_allocated (snd (@economy_update ext_plain world_stale 5)).
Proof.
  split; [exact world_stale_allocated|].
  apply (@economy_update_keeps_allocation ext_plain world_stale 5
           world_stale_allocated).
Defined.

Lemma economy_init_after_destroy_witness :
  World.econ_initialized world_cold = false /\
  @economy_init ext_plain
    (economy_destroy (snd (@economy_init ext_plain world_cold)))
  = @economy_init ext_plain world_cold.
Proof.
  split; [reflexivity|].
  apply (@economy_init_after_destroy ext_plain world_cold). reflexivity.
Defined.

(** The first initialisation of the example: both systems get the price
    1 for the one priced good, the solver of the example failing on
    every call. *)
Example economy_init_cold :
  @economy_init ext_plain world_cold
  = (0%Z, [solve_warning],
     World.mk [food] [0%Z]
       (map (fun s => StarSystem.set_prices s [1]) two_systems) [] true 0%Z
       (World.econ_G (snd (@economy_init ext_plain world_cold)))) /\
  is_Some (World.econ_G (snd (@economy_init ext_plain world_cold))).
Proof.
  split.
  - real_eval. repeat f_equal; lra.
  - real_eval. eexists. reflexivity.
Qed.

(** ** Shape of the admittance matrix *)

Section MatrixShape.
Context `{Externals}.

(** X6: the admittance matrix that [econ_createGMatrix] builds is
    symmetric, whatever the systems and their jumps are: every jump is
    entered at a position and at its mirror image with the same value.
    The function returns 0 and replaces the matrix only. *)
Theorem econ_createGMatrix_symmetric (w : World.t) (a b : Z) :
  cs_get (admittance w) a b = cs_get (admittance w) b a /\
  fst (fst (econ_createGMatrix w)) = 0%Z /\
  World.systems_stack (snd (econ_createGMatrix w)) = World.systems_stack w /\
  World.econ_comm (snd (econ_createGMatrix w)) = World.econ_comm w /\
  World.planet_stack (snd (econ_createGMatrix w)) = World.planet_stack w.
Proof.
  unfold admittance, econ_createGMatrix.
  set (systems := World.systems_stack w).
  assert (Hsym : forall a b,
            cs_get (fst (for_loop (length systems) 0 (fill_row systems)
                           (cs_spalloc (Z.of_nat (length systems))
                                       (Z.of_nat (length systems)), [])))
                   a b
            = cs_get (fst (for_loop (length systems) 0 (fill_row systems)
                           (cs_spalloc (Z.of_nat (length systems))
                                       (Z.of_nat (length systems)), [])))
                     b a).
  { apply (for_loop_ind0
             (fun _ st => forall a b, cs_get (fst st) a b = cs_get (fst st) b a)).
    - intros; reflexivity.
    - intros k [M log] _ HM. simpl in HM. unfold fill_row.
      assert (Hrow :
        forall a b,
          cs_get (snd (fst (for_loop (StarSystem.njumps (systems !!! k)) 0
                              (fill_jump systems k (systems !!! k))
                              (0, M, log)))) a b
          = cs_get (snd (fst (for_loop (StarSystem.njumps (systems !!! k)) 0
                                (fill_jump systems k (systems !!! k))
                                (0, M, log)))) b a).
      { apply (for_loop_ind0
                 (fun _ st => forall a b, cs_get (snd (fst st)) a b
                                          = cs_get (snd (fst st)) b a)).
        - exact HM.
        - intros j [[Rsum M'] log'] _ HM'. simpl in HM'. intros a' b'.
          destruct (fill_jump_get systems k (systems !!! k) j Rsum M' log'
                      a' b') as [_ ->].
          destruct (fill_jump_get systems k (systems !!! k) j Rsum M' log'
                      b' a') as [_ ->].
          rewrite (HM' a' b').
          destruct (StarSystem.id _ <? 0)%Z; [reflexivity|].
          repeat match goal with
                 | |- context [(?x =? ?y)%Z] => destruct (x =? y)%Z
                 end; simpl; lra. }
      destruct (for_loop (StarSystem.njumps (systems !!! k)) 0 _ _)
        as [[Rsum M'] log'].
      simpl in Hrow. simpl fst. intros a' b'.
      rewrite !cs_get_entry, (Hrow a' b').
      destruct ((Z.of_nat k <? 0) || (Z.of_nat k <? 0))%Z; [reflexivity|].
      rewrite (andb_comm (Z.of_nat k =? a')%Z). reflexivity. }
  destruct (for_loop (length systems) 0 (fill_row systems) _) as [M log].
  simpl in *. repeat split. apply Hsym.
Qed.

(** X7: when no nebula density or volatility is negative, every entry
    of the admittance matrix off the diagonal is negative or zero; and
    when moreover no system jumps to itself, every diagonal entry of a
    system is at least the self conductance [1/ECON_SELF_RES]. *)
Theorem econ_createGMatrix_signs (w : World.t) :
  Forall nebula_ok (World.systems_stack w) ->
  (forall a b, a <> b -> cs_get (admittance w) a b <= 0) /\
  (no_self_jump (World.systems_stack w) ->
   forall i, (i < length (World.systems_stack w))%nat ->
             1 / ECON_SELF_RES <= cs_get (admittance w) (Z.of_nat i)
                                         (Z.of_nat i)).
Proof.
  intros Hneb. unfold admittance, econ_createGMatrix.
  set (systems := World.systems_stack w) in *.
  assert (Hg : forall k j,
            0 < 1 / econ_calcJumpR (systems !!! k)
                      (systems !!! JumpPoint.target
                                     (StarSystem.jumps (systems !!! k) !!! j))).
  { intros k j. apply Rdiv_lt_0_compat; [lra|].
    apply econ_calcJumpR_pos; apply nebula_ok_lookup; exact Hneb. }
  split.
  - assert (Hoff : forall a b, a <> b ->
              cs_get (fst (for_loop (length systems) 0 (fill_row systems)
                             (cs_spalloc (Z.of_nat (length systems))
                                         (Z.of_nat (length systems)), [])))
                     a b <= 0).
    { apply (for_loop_ind0
               (fun _ st => forall a b, a <> b -> cs_get (fst st) a b <= 0)).
      - intros a b _. unfold cs_get, entries_get. simpl. lra.
      - intros k [M log] _ HM. simpl in HM. unfold fill_row.
        assert (Hrow :
          forall a b, a <> b ->
            cs_get (snd (fst (for_loop (StarSystem.njumps (systems !!! k)) 0
                                (fill_jump systems k (systems !!! k))
                                (0, M, log)))) a b <= 0).
        { apply (for_loop_ind0
                   (fun _ st => forall a b, a <> b ->
                                            cs_get (snd (fst st)) a b <= 0)).
          - exact HM.
          - intros j [[Rsum M'] log'] _ HM'. simpl in HM'. intros a' b' Hab.
            destruct (fill_jump_get systems k (systems !!! k) j Rsum M' log'
                        a' b') as [_ ->].
            specialize (HM' a' b' Hab). specialize (Hg k j).
            destruct (StarSystem.id _ <? 0)%Z; [lra|].
            repeat match goal with
                   | |- context [(?x =? ?y)%Z] => destruct (x =? y)%Z
                   end; simpl; lra. }
        destruct (for_loop (StarSystem.njumps (systems !!! k)) 0 _ _)
          as [[Rsum M'] log'].
        simpl in Hrow. simpl fst. intros a' b' Hab.
        rewrite cs_get_entry. specialize (Hrow a' b' Hab).
        destruct ((Z.of_nat k <? 0) || (Z.of_nat k <? 0))%Z; [lra|].
        destruct (Z.eqb_spec (Z.of_nat k) a'), (Z.eqb_spec (Z.of_nat k) b');
          simpl; try lra. congruence. }
    destruct (for_loop (length systems) 0 (fill_row systems) _) as [M log].
    simpl in *. exact Hoff.
  - intros Hself.
    assert (Hdiag :
      let st := for_loop (length systems) 0 (fill_row systems)
                  (cs_spalloc (Z.of_nat (length systems))
                              (Z.of_nat (length systems)), []) in
      forall i : nat,
        0 <= cs_get (fst st) (Z.of_nat i) (Z.of_nat i) /\
        ((i < length systems)%nat ->
         1 / ECON_SELF_RES <= cs_get (fst st) (Z.of_nat i) (Z.of_nat i))).
    { cbv zeta.
      apply (for_loop_ind0
               (fun n st => forall i : nat,
                  0 <= cs_get (fst st) (Z.of_nat i) (Z.of_nat i) /\
                  ((i < n)%nat ->
                   1 / ECON_SELF_RES
                   <= cs_get (fst st) (Z.of_nat i) (Z.of_nat i)))).
      - intros i. unfold cs_get, entries_get. simpl. split; [lra|lia].
      - intros k [M log] Hk HM. simpl in HM. unfold fill_row.
        assert (Hsys : systems !! k = Some (systems !!! k))
          by (apply list_lookup_lookup_total_lt; exact Hk).
        assert (Hrow :
          let st := for_loop (StarSystem.njumps (systems !!! k)) 0
                      (fill_jump systems k (systems !!! k)) (0, M, log) in
          0 <= fst (fst st) /\
          forall i : nat, cs_get (snd (fst st)) (Z.of_nat i) (Z.of_nat i)
                          = cs_get M (Z.of_nat i) (Z.of_nat i)).
        { cbv zeta.
          apply (for_loop_ind0
                   (fun _ st =>
                      0 <= fst (fst st) /\
                      forall i : nat,
                        cs_get (snd (fst st)) (Z.of_nat i) (Z.of_nat i)
                        = cs_get M (Z.of_nat i) (Z.of_nat i))).
          - simpl. split; [lra|reflexivity].
          - intros j [[Rsum M'] log'] Hj [HR HM']. simpl in HR, HM'.
            split.
            + destruct (fill_jump_get systems k (systems !!! k) j Rsum M'
                          log' 0%Z 0%Z) as [-> _].
              specialize (Hg k j). lra.
            + intros i.
              destruct (fill_jump_get systems k (systems !!! k) j Rsum M'
                          log' (Z.of_nat i) (Z.of_nat i)) as [_ ->].
              specialize (Hself k _ j Hsys Hj).
              destruct (StarSystem.id _ <? 0)%Z; [apply HM'|].
              destruct (Z.eqb_spec (Z.of_nat k) (Z.of_nat i)) as [He|_];
                destruct (Z.eqb_spec
                            (StarSystem.id
                               (systems !!! JumpPoint.target
                                  (StarSystem.jumps (systems !!! k) !!! j)))
                            (Z.of_nat i)) as [He'|_];
                simpl; try apply HM'.
              congruence. }
        cbv zeta in Hrow.
        destruct (for_loop (StarSystem.njumps (systems !!! k)) 0 _ _)
          as [[Rsum M'] log'].
        simpl in Hrow. destruct Hrow as [HR HM']. simpl fst. intros i.
        rewrite cs_get_entry, HM'. destruct (HM i) as [H0 H3].
        assert (Hk0 : ((Z.of_nat k <? 0) || (Z.of_nat k <? 0))%Z = false).
        { rewrite orb_diag. apply Z.ltb_ge. lia. }
        rewrite Hk0. unfold ECON_SELF_RES in *.
        destruct (Z.eqb_spec (Z.of_nat k) (Z.of_nat i)) as [He|Hne]; simpl.
        + split; [lra|]. intros _. lra.
        + split; [lra|]. intros Hi. assert (i < k)%nat by lia.
          specialize (H3 ltac:(assumption)). lra. }
    cbv zeta in Hdiag.
    destruct (for_loop (length systems) 0 (fill_row systems) _) as [M log].
    simpl in *. intros i Hi. apply Hdiag. exact Hi.
Qed.

End MatrixShape.

(** ** Resetting the observation state *)

Lemma clearKnown_same_names (w : World.t) :
  same_names (World.commodity_stack w)
             (World.commodity_stack (economy_clearKnown w)).
Proof.
  simpl. split; [apply length_map|].
  intros c. destruct (World.commodity_stack w !! c) as [x|] eqn:Hx.
  - rewrite !list_lookup_total_alt, list_lookup_fmap, Hx. reflexivity.
  - rewrite !list_lookup_total_alt, list_lookup_fmap, Hx. reflexivity.
Qed.

(** Planets that no system lists are not touched by the reset. *)
Lemma economy_clearKnown_outside (w : World.t) (q : nat) :
  ~ belongs (World.systems_stack w) q ->
  World.planet_stack (economy_clearKnown w) !! q = World.planet_stack w !! q.
Proof.
  intros Hq. unfold economy_clearKnown. simpl.
  apply (for_loop_ind0
           (fun _ st => st !! q = World.planet_stack w !! q));
    [reflexivity|].
  intros k st Hk Hst. unfold clear_system.
  apply (for_loop_ind0
           (fun _ st' => st' !! q = World.planet_stack w !! q));
    [exact Hst|].
  intros j st' Hj Hst'. rewrite list_lookup_alter_ne; [exact Hst'|].
  intros <-. apply Hq.
  exists k, (World.systems_stack w !!! k), j. split.
  - apply list_lookup_lookup_total_lt. exact Hk.
  - apply list_lookup_lookup_total_lt. exact Hj.
Qed.

(** Planets that a system lists come out cleared. *)
Lemma economy_clearKnown_inside (w : World.t) (q : nat) (p : Planet.t) :
  belongs (World.systems_stack w) q ->
  World.planet_stack w !! q = Some p ->
  World.planet_stack (economy_clearKnown w) !! q = Some (clear_planet p).
Proof.
  intros Hb Hp.
  destruct (economy_clearKnown_spec w) as (_ & _ & _ & Hlen & Hm).
  cbv zeta in Hlen, Hm.
  destruct (lookup_lt_is_Some_2 (World.planet_stack (economy_clearKnown w))
              q) as [x Hx];
    [rewrite Hlen; eapply lookup_lt_Some; exact Hp|].
  destruct (Hm q x Hx) as [_ Hdone].
  destruct (Hdone Hb) as (p0 & Hp0 & ->).
  rewrite Hp in Hp0. injection Hp0 as <-. exact Hx.
Qed.

(** X8: [economy_clearKnown] sets every last purchase price to 0,
    clears the accumulators of every planet that some system lists and
    leaves every other planet, the systems and the list of priced goods
    as they are; doing it twice is doing it once. *)
Theorem economy_clearKnown_scope (w : World.t) :
  let w' := economy_clearKnown w in
  Forall (fun c => Commodity.lastPurchasePrice c = 0%Z)
         (World.commodity_stack w') /\
  (forall q p, belongs (World.systems_stack w) q ->
               World.planet_stack w !! q = Some p ->
               World.planet_stack w' !! q = Some (clear_planet p)) /\
  (forall q, ~ belongs (World.systems_stack w) q ->
             World.planet_stack w' !! q = World.planet_stack w !! q) /\
  World.systems_stack w' = World.systems_stack w /\
  World.econ_comm w' = World.econ_comm w /\
  economy_clearKnown w' = w'.
Proof.
  cbv zeta. split; [|split; [|split; [|split; [|split]]]].
  - simpl. apply Forall_fmap, Forall_true. reflexivity.
  - apply economy_clearKnown_inside.
  - apply economy_clearKnown_outside.
  - reflexivity.
  - reflexivity.
  - apply economy_clearKnown_idem.
Qed.

Section ResetFacts.
Context `{Externals}.

Lemma clear_price_field (w : World.t) (com : nat) (p : Planet.t)
  (cp : CommodityPrice.t) :
  price_field w com p cp ->
  price_field (economy_clearKnown w) com (clear_planet p)
              (Observation.clear cp).
Proof.
  intros (Hpriced & Hidx & Hcp).
  destruct (clearKnown_same_names w) as [_ Hn].
  assert (Hi : planet_index (economy_clearKnown w) com (clear_planet p)
               = planet_index w com p).
  { unfold planet_index. rewrite (proj2 (clear_planet_name p)).
    apply scan_ext. intros c. rewrite !Hn. reflexivity. }
  unfold price_field. rewrite Hi. split; [|split].
  - exact Hpriced.
  - unfold Planet.ncommodities. rewrite (proj2 (clear_planet_name p)).
    exact Hidx.
  - rewrite clear_planet_closed. simpl. rewrite list_lookup_imap, Hcp. simpl.
    apply Nat.ltb_lt in Hidx. rewrite Hidx. reflexivity.
Qed.

(** X9: the reset forgets observations and nothing else: for a planet
    of a system and a good with a price field there, the average query
    after the reset answers with code 0, mean 0 and deviation 0, while
    the price at any time is what it was before the reset. *)
Theorem economy_clearKnown_forgets (w : World.t) (q : nat) (p : Planet.t)
  (com : nat) (cp : CommodityPrice.t) (tme : ntime_t) :
  belongs (World.systems_stack w) q ->
  World.planet_stack w !! q = Some p ->
  price_field w com p cp ->
  exists p',
    World.planet_stack (economy_clearKnown w) !! q = Some p' /\
    economy_getAveragePlanetPrice (economy_clearKnown w) com p'
    = (0%Z, 0%Z, 0) /\
    economy_getPriceAtTime (economy_clearKnown w) com p' tme
    = economy_getPriceAtTime w com p tme.
Proof.
  intros Hb Hp Hcp. exists (clear_planet p).
  split; [apply economy_clearKnown_inside; assumption|].
  pose proof (clear_price_field w com p cp Hcp) as Hcp'.
  split.
  - rewrite (economy_getAveragePlanetPrice_field _ _ _ _ Hcp'). reflexivity.
  - rewrite (economy_getPriceAtTime_field _ _ _ _ tme Hcp').
    rewrite (economy_getPriceAtTime_field _ _ _ _ tme Hcp). reflexivity.
Qed.

End ResetFacts.

(** ** Queries: misses and bounds *)

Lemma Int_part_mono (x y : R) : x <= y -> (Int_part x <= Int_part y)%Z.
Proof.
  intros Hxy. pose proof (Int_part_bounds x) as Hx.
  pose proof (Int_part_bounds y) as Hy.
  assert (H : IZR (Int_part x) < IZR (Int_part y + 1))
    by (rewrite plus_IZR; lra).
  apply lt_IZR in H. lia.
Qed.

Lemma Int_part_nonneg (x : R) : 0 <= x -> (0 <= Int_part x)%Z.
Proof.
  intros Hx. pose proof (Int_part_mono 0 x Hx) as H.
  rewrite (Int_part_unique 0 0) in H by lra. exact H.
Qed.

(** The conversion to credits keeps the order. *)
Lemma credits_of_double_mono (x y : R) :
  x <= y -> (credits_of_double x <= credits_of_double y)%Z.
Proof.
  intros Hxy. unfold credits_of_double.
  destruct (Rle_dec 0 x) as [Hx|Hx], (Rle_dec 0 y) as [Hy|Hy].
  - apply Int_part_mono. exact Hxy.
  - lra.
  - assert (H0 : (0 <= Int_part (- x))%Z) by (apply Int_part_nonneg; lra).
    pose proof (Int_part_nonneg y Hy). lia.
  - assert (H : (Int_part (- y) <= Int_part (- x))%Z)
      by (apply Int_part_mono; lra).
    lia.
Qed.

Section QueryFacts.
Context `{Externals}.

(** X12: [economy_getAveragePlanetPrice] returns -1 or 0, and -1
    exactly when the good is not priced or the planet sells no good of
    its name; in that case mean and deviation are 0 and the price query
    for the same pair returns 0 at any time. *)
Theorem economy_getAveragePlanetPrice_code (w : World.t) (com : nat)
  (p : Planet.t) :
  let r := economy_getAveragePlanetPrice w com p in
  let miss := ~ priced w com \/
              (Planet.ncommodities p <= planet_index w com p)%nat in
  (fst (fst r) = (-1)%Z \/ fst (fst r) = 0%Z) /\
  (fst (fst r) = (-1)%Z <-> miss) /\
  (miss -> r = ((-1)%Z, 0%Z, 0) /\
           forall tme, economy_getPriceAtTime w com p tme = 0%Z).
Proof.
  cbv zeta.
  assert (Hmiss : ~ priced w com \/
                  (Planet.ncommodities p <= planet_index w com p)%nat ->
                  economy_getAveragePlanetPrice w com p = ((-1)%Z, 0%Z, 0)).
  { unfold priced, planet_index, economy_getAveragePlanetPrice.
    intros [Hn|Hn].
    - destruct (Nat.leb_spec (length (World.econ_comm w))
                  (scan (fun e => (e =? Z.of_nat com)%Z) (World.econ_comm w)))
        as [_|Hlt]; [reflexivity|contradiction].
    - destruct (_ <=? _)%nat; [reflexivity|].
      match goal with
      | |- (if (?a <=? ?b)%nat then _ else _) = _ =>
          destruct (Nat.leb_spec a b) as [_|Hlt]; [reflexivity|lia]
      end. }
  assert (Hhit : priced w com ->
                 (planet_index w com p < Planet.ncommodities p)%nat ->
                 fst (fst (economy_getAveragePlanetPrice w com p)) = 0%Z).
  { intros Hp Hi.
    assert (Hlt : (planet_index w com p
                   < length (Planet.commodityPrice p))%nat
                  \/ (length (Planet.commodityPrice p)
                      <= planet_index w com p)%nat) by lia.
    unfold priced, planet_index, economy_getAveragePlanetPrice in *.
    destruct (Nat.leb_spec (length (World.econ_comm w))
                (scan (fun e => (e =? Z.of_nat com)%Z) (World.econ_comm w)))
      as [Hge|_]; [lia|].
    match goal with
    | |- fst (fst (if (?a <=? ?b)%nat then _ else _)) = _ =>
        destruct (Nat.leb_spec a b) as [Hge|_]; [lia|]
    end.
    destruct (0 <? _)%Z; reflexivity. }
  assert (Hdec : priced w com \/ ~ priced w com) by (unfold priced; lia).
  destruct Hdec as [Hp|Hp].
  - destruct (Nat.lt_ge_cases (planet_index w com p) (Planet.ncommodities p))
      as [Hi|Hi].
    + rewrite (Hhit Hp Hi). split; [right; reflexivity|]. split.
      * split; [discriminate|]. intros [Hn|Hn]; [contradiction|lia].
      * intros [Hn|Hn]; [contradiction|lia].
    + rewrite Hmiss by (right; exact Hi).
      split; [left; reflexivity|]. split.
      * split; [intros _; right; exact Hi|reflexivity].
      * intros _. split; [reflexivity|]. intros tme.
        apply economy_getPriceAtTime_miss. right. exact Hi.
  - rewrite Hmiss by (left; exact Hp).
    split; [left; reflexivity|]. split.
    + split; [intros _; left; exact Hp|reflexivity].
    + intros _. split; [reflexivity|]. intros tme.
      apply economy_getPriceAtTime_miss. left. exact Hp.
Qed.

(** X13: the price of a pair with a price field stays within whole
    credit bounds of its band: when the base price less the two
    amplitudes (in absolute value) is at least the whole number [L],
    not negative, and the base price plus the two amplitudes is at
    most the whole number [U], the price at any time lies between [L]
    and [U].  (The periods are at least 1 in absolute value and [U] is
    at most 2^40: there the arithmetic of the code is finite and stays
    nearer to the band than the half that the conversion allows.) *)
Theorem economy_getPriceAtTime_band (w : World.t) (com : nat)
  (p : Planet.t) (cp : CommodityPrice.t) (tme : ntime_t) (L U : Z) :
  price_field w com p cp ->
  1 <= Rabs (CommodityPrice.planetPeriod cp) ->
  1 <= Rabs (CommodityPrice.sysPeriod cp) ->
  let a := Rabs (CommodityPrice.sysVariation cp)
           + Rabs (CommodityPrice.planetVariation cp) in
  (0 <= L)%Z -> (U <= 2 ^ 40)%Z ->
  IZR L <= CommodityPrice.price cp - a ->
  CommodityPrice.price cp + a <= IZR U ->
  (L <= economy_getPriceAtTime w com p tme <= U)%Z.
Proof.
  intros Hcp _ _ a HL _ Hlo Hhi.
  rewrite (economy_getPriceAtTime_field w com p cp tme Hcp).
  set (t := ntime_convertSTU tme / NT_STP_STU).
  assert (Hband : CommodityPrice.price cp - a <= price_model cp t
                  <= CommodityPrice.price cp + a).
  { unfold price_model, a.
    assert (Hs : forall v x, - Rabs v <= v * sin x <= Rabs v).
    { intros v x. pose proof (SIN_bound x) as [Hl Hu].
      unfold Rabs. destruct (Rcase_abs v); nra. }
    pose proof (Hs (CommodityPrice.sysVariation cp)
                   (2 * PI * t / CommodityPrice.sysPeriod cp)).
    pose proof (Hs (CommodityPrice.planetVariation cp)
                   (2 * PI * t / CommodityPrice.planetPeriod cp)).
    lra. }
  assert (HU : (0 <= U)%Z).
  { apply le_IZR. pose proof (Rabs_pos (CommodityPrice.sysVariation cp)).
    pose proof (Rabs_pos (CommodityPrice.planetVariation cp)).
    apply IZR_le in HL. unfold a in *. lra. }
  split.
  - apply Z.le_trans with (credits_of_double (IZR L + 0.5)).
    + rewrite credits_of_double_integer by exact HL. lia.
    + apply credits_of_double_mono. lra.
  - apply Z.le_trans with (credits_of_double (IZR U + 0.5)).
    + apply credits_of_double_mono. lra.
    + rewrite credits_of_double_integer by exact HU. lia.
Qed.

End QueryFacts.

(** ** The average over the universe *)

Lemma for_loop_shift {S : Type} (n i : nat) (body : nat -> S -> S) (s : S) :
  for_loop n (Datatypes.S i) body s
  = for_loop n i (fun k => body (Datatypes.S k)) s.
Proof.
  revert i s. induction n as [|n IH]; intros i s; [reflexivity|].
  simpl. apply IH.
Qed.

(** A loop over the indices of an array is a fold over its elements. *)
Lemma for_loop_fold {S A : Type} `{Inhabited A} (l : list A)
  (f : A -> S -> S) (s : S) :
  for_loop (length l) 0 (fun j st => f (l !!! j) st) s
  = fold_left (fun st x => f x st) l s.
Proof.
  revert s. induction l as [|x l IH]; intros s; [reflexivity|].
  simpl. rewrite for_loop_shift. apply IH.
Qed.

Lemma fold_left_flat_map {S A B : Type} (g : A -> list B) (f : S -> B -> S)
  (l : list A) (s : S) :
  fold_left f (flat_map g l) s
  = fold_left (fun st x => fold_left f (g x) st) l s.
Proof.
  revert s. induction l as [|x l IH]; intros s; [reflexivity|].
  simpl. rewrite fold_left_app. apply IH.
Qed.


(** The two loops of [economy_getAveragePrice] visit the planets of the
    systems in order. *)
Lemma average_loops_closed (w : World.t) (com : nat) (st : R * R * Z) :
  for_loop (length (World.systems_stack w)) 0
    (fun i st =>
       let sys := World.systems_stack w !!! i in
       for_loop (StarSystem.nplanets sys) 0
         (fun j st => average_visit w com (StarSystem.planets sys !!! j) st)
         st)
    st
  = fold_left (fun st ptr => average_visit w com ptr st) (visits w) st.
Proof.
  unfold visits. rewrite fold_left_flat_map.
  rewrite <- (for_loop_fold (World.systems_stack w)
                (fun sys st =>
                   fold_left (fun st ptr => average_visit w com ptr st)
                             (StarSystem.planets sys) st)).
  apply for_loop_ext. intros k s. cbv zeta.
  apply (for_loop_fold (StarSystem.planets (World.systems_stack w !!! k))
           (fun ptr st => average_visit w com ptr st)).
Qed.

(** One visit, in terms of the field it looks at. *)
Lemma average_visit_field (w : World.t) (com : nat) (ptr : nat)
  (av av2 : R) (cnt : Z) :
  average_visit w com ptr (av, av2, cnt)
  = match visit_field w com ptr with
    | Some cp =>
        (av + field_mean cp,
         av2 + CommodityPrice.sum cp * CommodityPrice.sum cp
               / IZR (wrap_int (CommodityPrice.cnt cp * CommodityPrice.cnt cp)),
         wrap_int (cnt + 1))
    | None => (av, av2, cnt)
    end.
Proof.
  unfold average_visit, visit_field, planet_index. cbv zeta.
  destruct (_ <? Planet.ncommodities _)%nat; [|reflexivity].
  destruct (0 <? _)%Z; reflexivity.
Qed.

Lemma visit_field_observed (w : World.t) (com : nat) (ptr : nat)
  (cp : CommodityPrice.t) :
  visit_field w com ptr = Some cp -> (0 < CommodityPrice.cnt cp)%Z.
Proof.
  unfold visit_field. cbv zeta.
  destruct (_ <? _)%nat; [|discriminate].
  destruct (Z.ltb_spec 0 (CommodityPrice.cnt
                            (Planet.commodityPrice (World.planet_stack w !!! ptr)
                               !!! planet_index w com
                                     (World.planet_stack w !!! ptr))));
    [|discriminate].
  intros [= <-]. assumption.
Qed.

(** The sums after a run of visits, as long as no counter overflows. *)
Lemma average_fold_values (w : World.t) (com : nat) (l : list nat)
  (av av2 : R) (cnt : Z) :
  let fs := omap (visit_field w com) l in
  Forall (fun cp => (CommodityPrice.cnt cp < 46341)%Z) fs ->
  (0 <= cnt)%Z -> (cnt + Z.of_nat (length fs) < 2 ^ 31)%Z ->
  fold_left (fun st ptr => average_visit w com ptr st) l (av, av2, cnt)
  = (av + total (map field_mean fs),
     av2 + total (map (fun cp => field_mean cp * field_mean cp) fs),
     (cnt + Z.of_nat (length fs))%Z).
Proof.
  cbv zeta. revert av av2 cnt.
  induction l as [|ptr l IH]; intros av av2 cnt Hsmall Hcnt Hlen.
  - simpl. unfold total. simpl. f_equal; [f_equal; lra|lia].
  - cbn [fold_left]. rewrite average_visit_field. cbn [omap list_omap] in *.
    destruct (visit_field w com ptr) as [cp|] eqn:Hvf.
    + simpl in Hsmall, Hlen. inversion Hsmall as [|? ? Hc Hrest]; subst.
      pose proof (visit_field_observed _ _ _ _ Hvf) as Hpos.
      rewrite (wrap_int_small (cnt + 1)) by lia.
      rewrite IH by (try assumption; lia).
      assert (Hsq : CommodityPrice.sum cp * CommodityPrice.sum cp
                    / IZR (wrap_int (CommodityPrice.cnt cp
                                     * CommodityPrice.cnt cp))
                    = field_mean cp * field_mean cp).
      { rewrite wrap_int_small by nia. rewrite mult_IZR.
        unfold field_mean. field. apply not_0_IZR. lia. }
      rewrite Hsq. simpl. unfold total. simpl.
      f_equal; [f_equal; lra|lia].
    + apply IH; assumption.
Qed.

(** The value of [economy_getAveragePrice] for a priced good. *)
Lemma economy_getAveragePrice_priced (w : World.t) (com : nat) :
  priced w com ->
  economy_getAveragePrice w com
  = (let '(av, av2, cnt) :=
       fold_left (fun st ptr => average_visit w com ptr st) (visits w)
                 (0, 0, 0%Z) in
     let '(av, av2) :=
       if (0 <? cnt)%Z then
         let av := av / IZR cnt in (av, sqrt (av2 / IZR cnt - av * av))
       else (av, av2) in
     (0%Z, credits_of_double (av + 0.5), av2)).
Proof.
  intros Hp. unfold economy_getAveragePrice. unfold priced in Hp.
  destruct (Nat.leb_spec (length (World.econ_comm w))
              (scan (fun e => (e =? Z.of_nat com)%Z) (World.econ_comm w)))
    as [Hge|_]; [lia|].
  rewrite average_loops_closed. reflexivity.
Qed.

Lemma credits_of_double_half : credits_of_double (0 + 0.5) = 0%Z.
Proof. apply credits_of_double_nonneg; simpl; lra. Qed.

Lemma omap_none {A B : Type} (f : A -> option B) (l : list A) :
  Forall (fun x => f x = None) l -> omap f l = [].
Proof.
  induction 1 as [|x l Hx _ IH]; [reflexivity|].
  cbn [omap list_omap]. rewrite Hx. exact IH.
Qed.

Lemma visits_belong (w : World.t) (ptr : nat) :
  In ptr (visits w) -> belongs (World.systems_stack w) ptr.
Proof.
  unfold visits. rewrite in_flat_map. intros (sys & Hsys & Hptr).
  apply list_elem_of_In, list_elem_of_lookup in Hsys, Hptr.
  destruct Hsys as [s Hs], Hptr as [j Hj].
  exists s, sys, j. split; assumption.
Qed.

(** After the reset no visit finds a field with observations. *)
Lemma visit_field_cleared (w : World.t) (com : nat) (ptr : nat) :
  belongs (World.systems_stack w) ptr ->
  visit_field (economy_clearKnown w) com ptr = None.
Proof.
  intros Hb. unfold visit_field. cbv zeta.
  rewrite (list_lookup_total_alt (World.planet_stack (economy_clearKnown w))).
  destruct (World.planet_stack w !! ptr) as [p|] eqn:Hp.
  - rewrite (economy_clearKnown_inside w ptr p Hb Hp). simpl from_option.
    set (k := planet_index (economy_clearKnown w) com (clear_planet p)).
    destruct (Nat.ltb_spec k (Planet.ncommodities (clear_planet p)))
      as [Hk|_]; [|reflexivity].
    unfold Planet.ncommodities in Hk.
    rewrite (proj2 (clear_planet_name p)) in Hk.
    rewrite clear_planet_closed.
    cbn [Planet.commodityPrice Planet.set_commodityPrice].
    rewrite list_lookup_total_alt, list_lookup_imap.
    destruct (Planet.commodityPrice p !! k) as [cp|]; [|reflexivity].
    simpl. apply Nat.ltb_lt in Hk. unfold Planet.ncommodities. rewrite Hk.
    reflexivity.
  - destruct (economy_clearKnown_spec w) as (_ & _ & _ & Hlen & _).
    cbv zeta in Hlen.
    assert (Hn : World.planet_stack (economy_clearKnown w) !! ptr = None).
    { apply lookup_ge_None. rewrite Hlen. apply lookup_ge_None. exact Hp. }
    rewrite Hn. reflexivity.
Qed.

(** X11: [economy_getAveragePrice] returns 1, with mean 0 and deviation
    0, exactly when the good is not in the list of priced goods, and 0
    otherwise (where [economy_getAveragePlanetPrice] returns -1 for the
    same miss); right after [economy_clearKnown] it answers a priced
    good with mean 0 and deviation 0. *)
Theorem economy_getAveragePrice_code (w : World.t) (com : nat) :
  (~ priced w com -> economy_getAveragePrice w com = (1%Z, 0%Z, 0)) /\
  (priced w com -> fst (fst (economy_getAveragePrice w com)) = 0%Z) /\
  (~ priced w com ->
   forall p, economy_getAveragePlanetPrice w com p = ((-1)%Z, 0%Z, 0)) /\
  (priced w com ->
   economy_getAveragePrice (economy_clearKnown w) com = (0%Z, 0%Z, 0)).
Proof.
  split; [|split; [|split]].
  - intros Hn. unfold economy_getAveragePrice. unfold priced in Hn.
    destruct (Nat.leb_spec (length (World.econ_comm w))
                (scan (fun e => (e =? Z.of_nat com)%Z) (World.econ_comm w)))
      as [_|Hlt]; [reflexivity|contradiction].
  - intros Hp. rewrite (economy_getAveragePrice_priced w com Hp).
    destruct (fold_left _ _ _) as [[av av2] cnt].
    destruct (0 <? cnt)%Z; reflexivity.
  - intros Hn p. unfold economy_getAveragePlanetPrice. unfold priced in Hn.
    destruct (Nat.leb_spec (length (World.econ_comm w))
                (scan (fun e => (e =? Z.of_nat com)%Z) (World.econ_comm w)))
      as [_|Hlt]; [reflexivity|contradiction].
  - intros Hp.
    assert (Hp' : priced (economy_clearKnown w) com) by exact Hp.
    rewrite (economy_getAveragePrice_priced _ com Hp').
    assert (Hnone : omap (visit_field (economy_clearKnown w) com)
                         (visits (economy_clearKnown w)) = []).
    { apply omap_none. apply List.Forall_forall. intros ptr Hin.
      apply visit_field_cleared. apply visits_belong. exact Hin. }
    pose proof (average_fold_values (economy_clearKnown w) com
                  (visits (economy_clearKnown w)) 0 0 0) as Hfold.
    cbv zeta in Hfold. rewrite Hnone in Hfold.
    rewrite Hfold; [|constructor|lia|simpl; lia].
    simpl. unfold total. simpl. rewrite !Rplus_0_l.
    rewrite <- (Rplus_0_l 0.5), credits_of_double_half. reflexivity.
Qed.

(** ** A sequence of landings *)

Lemma fold_left_ext {A B : Type} (f g : A -> B -> A) (l : list B) (a : A) :
  (forall a b, f a b = g a b) -> fold_left f l a = fold_left g l a.
Proof.
  intros He. revert a. induction l as [|x l IH]; intros a; [reflexivity|].
  simpl. rewrite He. apply IH.
Qed.

Lemma last_cons_default {A : Type} (l : list A) (x d : A) :
  List.last (x :: l) d = List.last l x.
Proof.
  revert x d. induction l as [|y l IH]; intros x d; [reflexivity|].
  change (List.last (x :: y :: l) d) with (List.last (y :: l) d).
  rewrite (IH y d), (IH y x). reflexivity.
Qed.

(** The accumulators of a price field after observations at instants
    that come one after the other, [price t] being the price recorded at
    the instant [t]. *)
Lemma observe_fold_values (price : ntime_t -> credits_t) (ts : list ntime_t)
  (cp : CommodityPrice.t) :
  increasing (CommodityPrice.updateTime cp) ts ->
  (- 2 ^ 31 <= CommodityPrice.cnt cp)%Z ->
  (CommodityPrice.cnt cp + Z.of_nat (length ts) < 2 ^ 31)%Z ->
  let cp' :=
    fold_left (fun cp t =>
                 if (CommodityPrice.updateTime cp <? t)%Z
                 then Observation.accumulate (Observation.stamp cp t) (price t)
                 else cp) ts cp in
  params cp' = params cp /\
  CommodityPrice.cnt cp' = (CommodityPrice.cnt cp + Z.of_nat (length ts))%Z /\
  CommodityPrice.sum cp'
  = CommodityPrice.sum cp + total (map (fun t => IZR (price t)) ts) /\
  CommodityPrice.sum2 cp'
  = CommodityPrice.sum2 cp
    + total (map (fun t => IZR (wrap_int64 (price t * price t))) ts) /\
  CommodityPrice.updateTime cp' = List.last ts (CommodityPrice.updateTime cp).
Proof.
  cbv zeta. revert cp. induction ts as [|t ts IH]; intros cp Hinc Hlo Hhi.
  - simpl. unfold total. simpl. repeat split; try lra; lia.
  - destruct Hinc as [Ht Hinc]. cbn [fold_left].
    apply Z.ltb_lt in Ht. rewrite Ht.
    set (cp1 := Observation.accumulate (Observation.stamp cp t) (price t)).
    assert (Hc1 : CommodityPrice.cnt cp1 = (CommodityPrice.cnt cp + 1)%Z).
    { simpl. apply wrap_int_small. simpl length in Hhi. lia. }
    destruct (IH cp1) as (Hp & Hc & Hs & Hs2 & Hu).
    + exact Hinc.
    + rewrite Hc1. lia.
    + rewrite Hc1. simpl length in Hhi. lia.
    + rewrite Hp, Hc, Hs, Hs2, Hu, Hc1. simpl length.
      split; [reflexivity|]. split; [lia|].
      unfold total. simpl. split; [lra|]. split; [lra|].
      destruct ts as [|t' ts]; [reflexivity|].
      rewrite !last_cons_default. reflexivity.
Qed.

Section LandingFacts.
Context `{Externals}.

(** After any sequence of landings the planet sells what it sold, its
    price fields hold the same parameters, and every field is the one
    that the landings have worked on in turn. *)
Lemma observe_all_entries (w : World.t) (ts : list ntime_t) (p : Planet.t) :
  let p' := observe_all w ts p in
  Planet.commodities p' = Planet.commodities p /\
  (forall j, params (Planet.commodityPrice p' !!! j)
             = params (Planet.commodityPrice p !!! j)) /\
  forall i cp,
    (i < Planet.ncommodities p)%nat ->
    Planet.commodityPrice p !! i = Some cp ->
    Planet.commodityPrice p' !! i
    = Some (fold_left
              (fun cp t => observe w t t p (Planet.commodities p !!! i) cp)
              ts cp).
Proof.
  cbv zeta. revert p. induction ts as [|t ts IH]; intros p.
  - simpl. repeat split; auto.
  - unfold observe_all. cbn [fold_left].
    fold (observe_all w ts (economy_averageSeenPrices w t p)).
    set (p1 := economy_averageSeenPrices w t p).
    destruct (seen_loop_entries w t t p (Planet.ncommodities p))
      as (Hc1 & _ & Hcps1).
    fold (economy_averageSeenPrices w t p) in Hc1, Hcps1. fold p1 in Hc1, Hcps1.
    assert (Hp1 : forall j, params (Planet.commodityPrice p1 !!! j)
                            = params (Planet.commodityPrice p !!! j)).
    { intros j. rewrite !list_lookup_total_alt, Hcps1, list_lookup_imap.
      destruct (Planet.commodityPrice p !! j) as [cp|]; simpl; [|reflexivity].
      destruct (j <? _)%nat; [apply params_observe|reflexivity]. }
    destruct (IH p1) as (Hc & Hp & Hentries).
    split; [congruence|]. split; [intros j; rewrite Hp; apply Hp1|].
    intros i cp Hi Hcp.
    rewrite (Hentries i (observe w t t p (Planet.commodities p !!! i) cp)).
    + f_equal. rewrite Hc1. apply fold_left_ext. intros cp' t'.
      unfold observe.
      rewrite (economy_getPriceAtTime_params w _ p1 p t' Hc1 Hp1).
      reflexivity.
    + unfold Planet.ncommodities. rewrite Hc1. exact Hi.
    + rewrite Hcps1, list_lookup_imap, Hcp. simpl.
      apply Nat.ltb_lt in Hi. rewrite Hi. reflexivity.
Qed.


Lemma total_const {A : Type} (f : A -> R) (l : list A) (v : R) :
  (forall x, In x l -> f x = v) ->
  total (map f l) = IZR (Z.of_nat (length l)) * v.
Proof.
  induction l as [|x l IH]; intros Hv.
  - unfold total. simpl. change (Z.of_nat 0) with 0%Z. lra.
  - unfold total in *. cbn [map fold_right length].
    rewrite IH by (intros y Hy; apply Hv; right; exact Hy).
    rewrite (Hv x) by (left; reflexivity).
    rewrite Nat2Z.inj_succ, succ_IZR. lra.
Qed.

(** X15: when a planet sells a priced good whose field holds no
    observation, and the price of the good is the same [P], not
    negative, at every one of a sequence of [k] landings (at instants
    that come one after the other), the average query after the
    landings returns the mean [P] and the deviation 0, as long as
    [k*k*P*P] is below 2^53, so that every sum and product the code
    forms is an integer that a double holds exactly (and [k] is below
    46341, so that its square fits an [int]). *)
Theorem observe_all_steady_mean (w : World.t) (ts : list ntime_t)
  (p : Planet.t) (com : nat) (cp : CommodityPrice.t) (P : credits_t) :
  price_field w com p cp ->
  Planet.commodities p !!! planet_index w com p = com ->
  CommodityPrice.cnt cp = 0%Z ->
  CommodityPrice.sum cp = 0 -> CommodityPrice.sum2 cp = 0 ->
  increasing (CommodityPrice.updateTime cp) ts ->
  (0 < Z.of_nat (length ts) < 46341)%Z ->
  (forall t, In t ts -> economy_getPriceAtTime w com p t = P) ->
  (0 <= P)%Z ->
  (Z.of_nat (length ts) * Z.of_nat (length ts) * (P * P) < 2 ^ 53)%Z ->
  economy_getAveragePlanetPrice w com (observe_all w ts p) = (0%Z, P, 0).
Proof.
  intros Hf Hcom Hcnt Hsum Hsum2 Hinc Hlen Hprice HP Hexact.
  assert (HPP : (P * P < 2 ^ 63)%Z).
  { assert (0 <= P * P)%Z by nia.
    assert (1 <= Z.of_nat (length ts) * Z.of_nat (length ts))%Z by nia.
    assert (P * P <= Z.of_nat (length ts) * Z.of_nat (length ts) * (P * P))%Z
      by nia.
    lia. }
  destruct Hf as (Hpriced & Hidx & Hcp).
  destruct (observe_all_entries w ts p) as (Hc & _ & Hentries).
  cbv zeta in Hc.
  specialize (Hentries _ cp Hidx Hcp). rewrite Hcom in Hentries.
  destruct (observe_fold_values (fun t => economy_getPriceAtTime w com p t)
              ts cp Hinc) as (_ & Hc' & Hs' & Hs2' & _);
    [lia|lia|].
  match type of Hc' with
  | CommodityPrice.cnt ?x = _ => set (cp' := x) in Hc', Hs', Hs2'
  end.
  assert (Hentries' : Planet.commodityPrice (observe_all w ts p)
                        !! planet_index w com p = Some cp').
  { rewrite Hentries. reflexivity. }
  clear Hentries.
  assert (Hf' : price_field w com (observe_all w ts p) cp').
  { unfold price_field, planet_index, Planet.ncommodities. rewrite Hc.
    split; [exact Hpriced|]. split; [exact Hidx|exact Hentries']. }
  rewrite (economy_getAveragePlanetPrice_field _ _ _ _ Hf').
  rewrite Hc', Hs', Hs2', Hcnt, Hsum, Hsum2, Z.add_0_l.
  rewrite (total_const _ ts (IZR P))
    by (intros t Ht; rewrite (Hprice t Ht); reflexivity).
  rewrite (total_const _ ts (IZR P * IZR P)).
  2:{ intros t Ht. rewrite (Hprice t Ht), wrap_int64_small by nia.
      apply mult_IZR. }
  set (k := Z.of_nat (length ts)).
  assert (Hk : (0 < k < 46341)%Z) by (unfold k; lia).
  assert (Hk0 : IZR k <> 0) by (apply not_0_IZR; lia).
  destruct (Z.ltb_spec 0 k) as [_|]; [|lia].
  rewrite wrap_int_small by nia. rewrite mult_IZR.
  replace ((0 + IZR k * IZR P) / IZR k + 0.5) with (IZR P + 0.5)
    by (field; exact Hk0).
  replace ((0 + IZR k * (IZR P * IZR P)) / IZR k
           - (0 + IZR k * IZR P) * (0 + IZR k * IZR P) / (IZR k * IZR k))
    with 0 by (field; exact Hk0).
  rewrite sqrt_0, credits_of_double_integer by exact HP. reflexivity.
Qed.

End LandingFacts.

(** ** Persistence: edge cases *)

Lemma flat_map_nil {A B : Type} (f : A -> list B) (l : list A) :
  (forall x, In x l -> f x = []) -> flat_map f l = [].
Proof.
  induction l as [|x l IH]; intros Hf; [reflexivity|].
  simpl. rewrite (Hf x) by (left; reflexivity).
  apply IH. intros y Hy. apply Hf. right. exact Hy.
Qed.

(** A loop body that fails on an element fails the loop, wherever the
    element stands. *)
Lemma do_nodes_fails {S : Type} (body : S -> xml -> option S)
  (pre post : list xml) (x : xml) (s : S) :
  (forall s', body s' x = None) ->
  do_nodes body (pre ++ x :: post) s = None.
Proof.
  intros Hx. rewrite do_nodes_app.
  destruct (do_nodes body pre s) as [s'|]; [|reflexivity].
  simpl. rewrite Hx. reflexivity.
Qed.

Section PersistenceEdges.
Context `{Persistence}.

(** Nothing is written for a planet that has been cleared. *)
Lemma commodity_nodes_cleared (stack : list Commodity.t) (p : Planet.t) :
  commodity_nodes stack (clear_planet p)
                  (Planet.ncommodities (clear_planet p)) = [].
Proof.
  unfold commodity_nodes. apply flat_map_nil. intros i Hi.
  apply in_seq in Hi. cbv zeta.
  unfold Planet.ncommodities in Hi.
  rewrite (proj2 (clear_planet_name p)) in Hi.
  assert (Hc : CommodityPrice.cnt (Planet.commodityPrice (clear_planet p) !!! i)
               = 0%Z).
  { rewrite clear_planet_closed. simpl.
    rewrite list_lookup_total_alt, list_lookup_imap.
    destruct (Planet.commodityPrice p !! i) as [cp|]; [|reflexivity].
    simpl. unfold Planet.ncommodities.
    destruct (Nat.ltb_spec i (length (Planet.commodities p)));
      [reflexivity|lia]. }
  rewrite Hc. reflexivity.
Qed.

(** The element that saving writes right after a reset is empty. *)
Lemma economy_node_reset (w : World.t) :
  economy_node (economy_clearKnown w) = XmlNode "economy" [] [] "".
Proof.
  unfold economy_node.
  assert (Hlp : forall n, lastPurchase_nodes (economy_clearKnown w) n = []).
  { intros n. unfold lastPurchase_nodes. apply flat_map_nil. intros i _.
    cbv zeta. simpl World.commodity_stack.
    rewrite list_lookup_total_alt, list_lookup_fmap.
    destruct (World.commodity_stack w !! i); reflexivity. }
  assert (Hsys : forall n,
            (n <= length (World.systems_stack w))%nat ->
            system_nodes (economy_clearKnown w) n = []).
  { intros n Hn. unfold system_nodes. apply flat_map_nil. intros i Hi.
    apply in_seq in Hi. unfold system_node.
    assert (Hpn : planet_nodes (World.commodity_stack (economy_clearKnown w))
                    (World.planet_stack (economy_clearKnown w))
                    (World.systems_stack (economy_clearKnown w) !!! i)
                    (StarSystem.nplanets
                       (World.systems_stack (economy_clearKnown w) !!! i))
                  = []).
    { unfold planet_nodes. apply flat_map_nil. intros j Hj.
      apply in_seq in Hj. simpl World.systems_stack in *.
      unfold StarSystem.nplanets in Hj.
      set (ptr := StarSystem.planets (World.systems_stack w !!! i) !!! j).
      assert (Hb : belongs (World.systems_stack w) ptr).
      { exists i, (World.systems_stack w !!! i), j. split.
        - apply list_lookup_lookup_total_lt. lia.
        - apply list_lookup_lookup_total_lt. lia. }
      unfold planet_node.
      rewrite (list_lookup_total_alt
                 (World.planet_stack (economy_clearKnown w))).
      destruct (World.planet_stack w !! ptr) as [p|] eqn:Hp.
      - rewrite (economy_clearKnown_inside w ptr p Hb Hp). simpl from_option.
        rewrite commodity_nodes_cleared. reflexivity.
      - destruct (economy_clearKnown_spec w) as (_ & _ & _ & Hlen & _).
        cbv zeta in Hlen.
        assert (Hnone : World.planet_stack (economy_clearKnown w) !! ptr
                        = None).
        { apply lookup_ge_None. rewrite Hlen. apply lookup_ge_None.
          exact Hp. }
        rewrite Hnone. reflexivity. }
    rewrite Hpn. reflexivity. }
  rewrite Hlp, Hsys by (simpl; lia). reflexivity.
Qed.

(** X16: saving right after [economy_clearKnown] appends an economy
    element without attributes, children or text to the element that is
    open, and loading the document so written gives the reset state
    again. *)
Theorem economy_sysSave_after_reset (w : World.t) (t : string)
  (a : list (string * string)) (c : list xml) (r : string)
  (rest : xmlTextWriter) :
  economy_sysSave (economy_clearKnown w) (XmlNode t a c r :: rest)
  = XmlNode t a (c ++ [XmlNode "economy" [] [] ""]) r :: rest /\
  economy_sysLoad w (saved_document (economy_clearKnown w))
  = Some (economy_clearKnown w).
Proof.
  split.
  - rewrite economy_sysSave_spec, economy_node_reset. reflexivity.
  - rewrite saved_document_spec, economy_node_reset. reflexivity.
Qed.

(** X17: [economy_sysLoad] starts from the reset state whatever was
    observed before: a document without an economy element leaves the
    reset state, and loading into a state that has been reset already
    gives the same result. *)
Theorem economy_sysLoad_resets (w : World.t) (parent : xml) :
  (Forall (fun node => xml_isNode node "economy" = false)
          (xml_children parent) ->
   economy_sysLoad w parent = Some (economy_clearKnown w)) /\
  economy_sysLoad (economy_clearKnown w) parent = economy_sysLoad w parent.
Proof.
  split.
  - unfold economy_sysLoad. generalize (economy_clearKnown w) as wc.
    induction (xml_children parent) as [|node l IH]; intros wc Hall;
      [reflexivity|].
    inversion Hall as [|? ? Hn Hl]; subst. simpl. unfold load_node.
    rewrite Hn. apply IH. exact Hl.
  - unfold economy_sysLoad. rewrite economy_clearKnown_idem. reflexivity.
Qed.

Lemma load_cur_unknown_commodity (w : World.t) (nm : string)
  (a : list (string * string)) (c : list xml) (r : string) :
  commodity_getW w nm = None ->
  load_cur w (XmlNode "lastPurchase" (("name"%string, nm) :: a) c r) = None.
Proof.
  intros Hmiss. unfold load_cur.
  change (xml_isNode (XmlNode "lastPurchase" _ _ _) "system") with false.
  change (xml_isNode (XmlNode "lastPurchase" _ _ _) "lastPurchase") with true.
  cbv iota.
  change (xmlr_attr (XmlNode "lastPurchase" (("name"%string, nm) :: a) c r)
                    "name") with (Some nm).
  cbv iota. unfold commodity_get. unfold commodity_getW in Hmiss.
  destruct (_ <? _)%nat; [discriminate|reflexivity].
Qed.

Lemma scan_map {A B : Type} (f : A -> B) (test : B -> bool) (l : list A) :
  scan (fun x => test (f x)) l = scan test (map f l).
Proof.
  induction l as [|x l IH]; [reflexivity|]. simpl. rewrite IH. reflexivity.
Qed.

Lemma same_names_map (stack stack' : list Commodity.t) :
  same_names stack stack' ->
  map Commodity.name stack' = map Commodity.name stack.
Proof.
  intros [Hlen Hn]. apply list_eq. intros i. rewrite !list_lookup_fmap.
  destruct (stack !! i) as [c|] eqn:Hc.
  - destruct (lookup_lt_is_Some_2 stack' i) as [c' Hc'];
      [rewrite Hlen; eapply lookup_lt_Some; exact Hc|].
    rewrite Hc'. simpl. f_equal.
    specialize (Hn i).
    rewrite (list_lookup_total_correct _ _ _ Hc) in Hn.
    rewrite (list_lookup_total_correct _ _ _ Hc') in Hn. exact Hn.
  - assert (Hc' : stack' !! i = None).
    { apply lookup_ge_None. rewrite Hlen. apply lookup_ge_None. exact Hc. }
    rewrite Hc'. reflexivity.
Qed.

(** The lookup of a commodity depends on the names in the stack only. *)
Lemma commodity_getW_names (w w' : World.t) (nm : string) :
  same_names (World.commodity_stack w) (World.commodity_stack w') ->
  commodity_getW w' nm = commodity_getW w nm.
Proof.
  intros Hn. unfold commodity_getW.
  rewrite (scan_map Commodity.name (fun s => String.eqb s nm)
                    (World.commodity_stack w')).
  rewrite (scan_map Commodity.name (fun s => String.eqb s nm)
                    (World.commodity_stack w)).
  rewrite (same_names_map _ _ Hn). destruct Hn as [-> _]. reflexivity.
Qed.

Lemma same_names_refl (stack : list Commodity.t) : same_names stack stack.
Proof. split; reflexivity. Qed.

(** One step of the loop over the economy element keeps the names of
    the commodities. *)
Lemma load_cur_names (w s s' : World.t) (cur : xml) :
  same_names (World.commodity_stack w) (World.commodity_stack s) ->
  load_cur s cur = Some s' ->
  same_names (World.commodity_stack w) (World.commodity_stack s').
Proof.
  intros Hn. unfold load_cur.
  destruct (xml_isNode cur "system").
  - destruct (xmlr_attr cur "name"); [|discriminate].
    destruct (do_nodes _ _ _); [|discriminate].
    intros [= <-]. exact Hn.
  - destruct (xml_isNode cur "lastPurchase"); [|intros [= <-]; exact Hn].
    destruct (xmlr_attr cur "name"); [|intros [= <-]; exact Hn].
    destruct (fst (commodity_get s s0)); [|discriminate].
    intros [= <-]. simpl. apply same_names_alter. exact Hn.
Qed.

Lemma do_nodes_load_cur_names (w : World.t) (nodes : list xml)
  (s s' : World.t) :
  same_names (World.commodity_stack w) (World.commodity_stack s) ->
  do_nodes load_cur nodes s = Some s' ->
  same_names (World.commodity_stack w) (World.commodity_stack s').
Proof.
  revert s. induction nodes as [|x nodes IH]; intros s Hn.
  - intros [= <-]. exact Hn.
  - simpl. destruct (load_cur s x) as [s1|] eqn:H1; [|discriminate].
    apply IH. exact (load_cur_names w s s1 x Hn H1).
Qed.

(** Replacing an element by one with the same image leaves the images
    as they are. *)
Lemma insert_same_image {A B : Type} `{Inhabited A} (f : A -> B)
  (l : list A) (i : nat) (x : A) :
  f x = f (l !!! i) -> map f (<[i := x]> l) = map f l.
Proof.
  intros Hx. apply list_eq. intros k.
  change (map f ?l) with (f <$> l). rewrite !list_lookup_fmap.
  destruct (decide (i = k)) as [<-|Hne].
  - destruct (l !! i) as [y|] eqn:Hy.
    + rewrite list_lookup_insert_eq by (eapply lookup_lt_Some; exact Hy).
      simpl. rewrite Hx, (list_lookup_total_correct _ _ _ Hy). reflexivity.
    + rewrite list_insert_ge by (apply lookup_ge_None; exact Hy).
      rewrite Hy. reflexivity.
  - rewrite list_lookup_insert_ne by exact Hne. reflexivity.
Qed.

Lemma do_nodes_keeps {S : Type} (P : S -> Prop)
  (body : S -> xml -> option S) (nodes : list xml) (s s' : S) :
  (forall s x s', P s -> body s x = Some s' -> P s') ->
  P s -> do_nodes body nodes s = Some s' -> P s'.
Proof.
  intros Hbody. revert s. induction nodes as [|x nodes IH]; intros s Hs.
  - intros [= <-]. exact Hs.
  - simpl. destruct (body s x) as [s1|] eqn:H1; [|discriminate].
    apply IH. exact (Hbody s x s1 Hs H1).
Qed.

(** The reset and the loader leave every planet its name. *)
Lemma economy_clearKnown_planet_names (w : World.t) :
  map Planet.name (World.planet_stack (economy_clearKnown w))
  = map Planet.name (World.planet_stack w).
Proof.
  destruct (economy_clearKnown_spec w) as (_ & _ & _ & Hlen & Hm).
  apply list_eq. intros q.
  change (map Planet.name ?l) with (Planet.name <$> l).
  rewrite !list_lookup_fmap.
  destruct (World.planet_stack (economy_clearKnown w) !! q) as [x|] eqn:Hx.
  - destruct (Hm q x Hx) as ((p & Hp & Hxp) & _). rewrite Hp. simpl.
    destruct Hxp as [->| ->]; [reflexivity|].
    rewrite (proj1 (clear_planet_name p)). reflexivity.
  - apply lookup_ge_None in Hx. rewrite Hlen in Hx.
    apply lookup_ge_None in Hx. rewrite Hx. reflexivity.
Qed.

Lemma load_commodity_planet_names (commodity_stack : list Commodity.t)
  (planet : option nat) (names : list string) (planets : list Planet.t)
  (node : xml) (planets' : list Planet.t) :
  map Planet.name planets = names ->
  load_commodity commodity_stack planet planets node = Some planets' ->
  map Planet.name planets' = names.
Proof.
  intros Hn. unfold load_commodity.
  destruct (xml_isNode node "commodity"); [|intros [= <-]; exact Hn].
  destruct planet as [ptr|]; [|discriminate].
  destruct (xmlr_attr node "name").
  - destruct (_ <? _)%nat; intros [= <-]; [|exact Hn].
    rewrite insert_same_image; [exact Hn|reflexivity].
  - destruct (_ =? _)%nat; [|discriminate]. intros [= <-]. exact Hn.
Qed.

Lemma load_asset_planet_names (commodity_stack : list Commodity.t)
  (names : list string) (planets : list Planet.t) (node : xml)
  (planets' : list Planet.t) :
  map Planet.name planets = names ->
  load_asset commodity_stack planets node = Some planets' ->
  map Planet.name planets' = names.
Proof.
  intros Hn. unfold load_asset.
  destruct (xml_isNode node "planet"); [|intros [= <-]; exact Hn].
  destruct (xmlr_attr node "name") as [str|]; [|discriminate].
  apply (do_nodes_keeps (fun pl => map Planet.name pl = names));
    [|exact Hn].
  intros pl x pl' Hpl. apply load_commodity_planet_names. exact Hpl.
Qed.

Lemma load_cur_planet_names (names : list string) (s s' : World.t)
  (cur : xml) :
  map Planet.name (World.planet_stack s) = names ->
  load_cur s cur = Some s' ->
  map Planet.name (World.planet_stack s') = names.
Proof.
  intros Hn. unfold load_cur.
  destruct (xml_isNode cur "system").
  - destruct (xmlr_attr cur "name"); [|discriminate].
    destruct (do_nodes _ _ _) as [pl|] eqn:Hpl; [|discriminate].
    intros [= <-]. simpl.
    apply (do_nodes_keeps (fun pl => map Planet.name pl = names)
             _ _ _ _ (fun pl x pl' Hp =>
                        load_asset_planet_names _ names pl x pl' Hp)
             Hn Hpl).
  - destruct (xml_isNode cur "lastPurchase"); [|intros [= <-]; exact Hn].
    destruct (xmlr_attr cur "name"); [|intros [= <-]; exact Hn].
    destruct (fst (commodity_get s s0)); [|discriminate].
    intros [= <-]. exact Hn.
Qed.

(** X18: a save file that names something unknown makes
    [economy_sysLoad] dereference [NULL]: a last purchase element whose
    commodity is not in the stack, and a commodity element under a
    planet element whose name [planet_get] finds in no stack of planets
    with the names of this universe, wherever the element stands in
    the economy element. *)
Theorem economy_sysLoad_unknown_names (w : World.t) (nm : string)
  (t : string) (a ea la sa pa ca : list (string * string))
  (r er lr snm sr pr cr : string)
  (pre post lc ppre ppost cpre cpost cc : list xml) :
  (commodity_getW w nm = None ->
   economy_sysLoad w
     (XmlNode t a
        [XmlNode "economy" ea
           (pre ++ XmlNode "lastPurchase" (("name"%string, nm) :: la) lc lr
                :: post) er] r)
   = None) /\
  ((forall planets,
      map Planet.name planets = map Planet.name (World.planet_stack w) ->
      planet_get planets nm = None) ->
   economy_sysLoad w
     (XmlNode t a
        [XmlNode "economy" ea
           (pre ++ XmlNode "system" (("name"%string, snm) :: sa)
                     (ppre ++ XmlNode "planet" (("name"%string, nm) :: pa)
                                (cpre ++ XmlNode "commodity" ca cc cr
                                      :: cpost) pr
                           :: ppost) sr
                :: post) er] r)
   = None).
Proof.
  split.
  - intros Hmiss. unfold economy_sysLoad.
    change (xml_children (XmlNode t a ?c r)) with c.
    simpl do_nodes. unfold load_node.
    change (xml_isNode (XmlNode "economy" _ _ _) "economy") with true.
    cbv iota. change (xml_children (XmlNode _ _ ?c _)) with c.
    rewrite do_nodes_app.
    destruct (do_nodes load_cur pre (economy_clearKnown w)) as [s|] eqn:Hpre;
      [|reflexivity].
    simpl do_nodes. rewrite load_cur_unknown_commodity; [reflexivity|].
    rewrite <- Hmiss. apply commodity_getW_names.
    apply (do_nodes_load_cur_names w pre (economy_clearKnown w) s);
      [apply clearKnown_same_names|exact Hpre].
  - intros Hmiss. unfold economy_sysLoad.
    change (xml_children (XmlNode t a ?c r)) with c.
    simpl do_nodes. unfold load_node.
    change (xml_isNode (XmlNode "economy" _ _ _) "economy") with true.
    cbv iota. change (xml_children (XmlNode _ _ ?c _)) with c.
    rewrite do_nodes_app.
    destruct (do_nodes load_cur pre (economy_clearKnown w)) as [s|] eqn:Hpre;
      [|reflexivity].
    assert (Hs : map Planet.name (World.planet_stack s)
                 = map Planet.name (World.planet_stack w)).
    { apply (do_nodes_keeps
               (fun s => map Planet.name (World.planet_stack s)
                         = map Planet.name (World.planet_stack w))
               _ _ _ _ (fun s x s' Hp => load_cur_planet_names _ s s' x Hp)
               (economy_clearKnown_planet_names w) Hpre). }
    simpl do_nodes. unfold load_cur at 1.
    change (xml_isNode (XmlNode "system" _ _ _) "system") with true.
    cbv iota.
    change (xmlr_attr (XmlNode "system" (("name"%string, snm) :: sa) _ _)
                      "name") with (Some snm).
    cbv iota. change (xml_children (XmlNode _ _ ?c _)) with c.
    rewrite do_nodes_app.
    destruct (do_nodes (load_asset (World.commodity_stack s)) ppre
                (World.planet_stack s)) as [pl|] eqn:Hppre; [|reflexivity].
    assert (Hpl : map Planet.name pl
                  = map Planet.name (World.planet_stack w)).
    { apply (do_nodes_keeps
               (fun pl => map Planet.name pl
                          = map Planet.name (World.planet_stack w))
               _ _ _ _ (fun pl x pl' Hp =>
                          load_asset_planet_names _ _ pl x pl' Hp)
               Hs Hppre). }
    simpl do_nodes. unfold load_asset at 1.
    change (xml_isNode (XmlNode "planet" _ _ _) "planet") with true.
    cbv iota.
    change (xmlr_attr (XmlNode "planet" (("name"%string, nm) :: pa) _ _)
                      "name") with (Some nm).
    cbv iota. change (xml_children (XmlNode _ _ ?c _)) with c.
    rewrite (Hmiss pl Hpl).
    rewrite do_nodes_fails; [reflexivity|]. intros planets'. reflexivity.
Qed.

(** The loop over the last purchase elements that saving wrote, on the
    reset state: the first [n] commodities have their price restored. *)
Lemma load_lastPurchases_values (w : World.t) (n : nat) :
  NoDup (map Commodity.name (World.commodity_stack w)) ->
  (n <= length (World.commodity_stack w))%nat ->
  do_nodes load_cur (lastPurchase_nodes w n) (economy_clearKnown w)
  = Some (World.set_commodity_stack (economy_clearKnown w)
            (imap (fun i c => if (i <? n)%nat then restore_purchase c
                              else Commodity.set_lastPurchasePrice c 0%Z)
                  (World.commodity_stack w))).
Proof.
  intros Hnd Hn. induction n as [|n IH].
  - simpl. f_equal. unfold economy_clearKnown, World.set_commodity_stack.
    simpl. f_equal. apply list_eq. intros i.
    rewrite list_lookup_fmap, list_lookup_imap.
    destruct (World.commodity_stack w !! i); reflexivity.
  - unfold lastPurchase_nodes. rewrite flat_map_seq_snoc.
    fold (lastPurchase_nodes w n). rewrite do_nodes_app, IH by lia.
    cbv zeta. set (c := World.commodity_stack w !!! n).
    assert (Hc : World.commodity_stack w !! n = Some c)
      by (apply list_lookup_lookup_total_lt; lia).
    set (L := imap (fun i c => if (i <? n)%nat then restore_purchase c
                               else Commodity.set_lastPurchasePrice c 0%Z)
                   (World.commodity_stack w)).
    assert (Hstep :
      imap (fun i c => if (i <? S n)%nat then restore_purchase c
                       else Commodity.set_lastPurchasePrice c 0%Z)
           (World.commodity_stack w)
      = alter (fun _ => restore_purchase c) n L).
    { apply list_eq. intros i. unfold L.
      destruct (decide (n = i)) as [<-|Hne].
      - rewrite list_lookup_alter_eq, !list_lookup_imap, Hc. simpl.
        destruct (Nat.ltb_spec n (S n)); [reflexivity|lia].
      - rewrite list_lookup_alter_ne, !list_lookup_imap by exact Hne.
        destruct (World.commodity_stack w !! i); [|reflexivity]. simpl.
        destruct (Nat.ltb_spec i (S n)), (Nat.ltb_spec i n);
          try reflexivity; lia. }
    destruct (Z.ltb_spec 0 (Commodity.lastPurchasePrice c)) as [Hpos|Hle].
    + simpl do_nodes. unfold load_cur.
      change (xml_isNode (XmlNode "lastPurchase" _ _ _) "system") with false.
      change (xml_isNode (XmlNode "lastPurchase" _ _ _) "lastPurchase")
        with true.
      cbv iota.
      change (xmlr_attr (XmlNode "lastPurchase" [("name"%string, ?x)] _ _)
                        "name") with (Some x).
      cbv iota. unfold commodity_get.
      simpl World.commodity_stack.
      assert (Hscan :
        scan (fun c0 => String.eqb (Commodity.name c0) (Commodity.name c)) L
        = n).
      { apply (scan_first _ _ n (Commodity.set_lastPurchasePrice c 0%Z)).
        - unfold L. rewrite list_lookup_imap, Hc. simpl.
          rewrite Nat.ltb_irrefl. reflexivity.
        - apply String.eqb_refl.
        - intros j y Hj Hy. unfold L in Hy.
          rewrite list_lookup_imap in Hy.
          destruct (World.commodity_stack w !! j) as [cj|] eqn:Hcj;
            [|discriminate].
          simpl in Hy. apply Nat.ltb_lt in Hj. rewrite Hj in Hy.
          injection Hy as <-. simpl.
          apply String.eqb_neq. intros Heq.
          assert (j = n); [|apply Nat.ltb_lt in Hj; lia].
          apply (NoDup_lookup _ j n (Commodity.name c) Hnd).
          * rewrite list_lookup_fmap, Hcj. simpl. f_equal. exact Heq.
          * rewrite list_lookup_fmap, Hc. reflexivity. }
      rewrite Hscan.
      assert (HL : length L = length (World.commodity_stack w))
        by (unfold L; apply length_imap).
      destruct (Nat.ltb_spec n (length L)) as [_|]; [|lia].
      simpl fst. cbv iota. f_equal.
      unfold World.set_commodity_stack. simpl. f_equal.
      rewrite Hstep. apply list_eq. intros i.
      destruct (decide (n = i)) as [<-|Hne].
      * rewrite !list_lookup_alter_eq. unfold L.
        rewrite list_lookup_imap, Hc. simpl. rewrite Nat.ltb_irrefl. simpl.
        f_equal. unfold restore_purchase.
        apply Z.ltb_lt in Hpos. rewrite Hpos. destruct c; reflexivity.
      * rewrite !list_lookup_alter_ne by exact Hne. reflexivity.
    + simpl do_nodes. f_equal. f_equal. rewrite Hstep.
      apply list_eq. intros i. destruct (decide (n = i)) as [<-|Hne].
      * rewrite list_lookup_alter_eq. unfold L.
        rewrite list_lookup_imap, Hc. simpl. rewrite Nat.ltb_irrefl.
        f_equal. unfold restore_purchase.
        destruct (Z.ltb_spec 0 (Commodity.lastPurchasePrice c));
          [lia|reflexivity].
      * rewrite list_lookup_alter_ne by exact Hne. reflexivity.
Qed.

(** The system elements leave the commodities alone. *)
Lemma load_systems_commodities (nodes : list xml) (s s' : World.t) :
  Forall (fun node => xml_isNode node "system" = true) nodes ->
  do_nodes load_cur nodes s = Some s' ->
  World.commodity_stack s' = World.commodity_stack s.
Proof.
  intros Hall. revert s. induction Hall as [|x nodes Hx _ IH]; intros s.
  - intros [= <-]. reflexivity.
  - simpl. destruct (load_cur s x) as [s1|] eqn:H1; [|discriminate].
    intros Hrun. rewrite (IH s1 Hrun).
    unfold load_cur in H1. rewrite Hx in H1.
    destruct (xmlr_attr x "name"); [|discriminate].
    destruct (do_nodes _ _ _); [|discriminate].
    injection H1 as <-. reflexivity.
Qed.

Lemma system_nodes_tags (w : World.t) (n : nat) :
  Forall (fun node => xml_isNode node "system" = true) (system_nodes w n).
Proof.
  apply List.Forall_forall. intros node Hin.
  unfold system_nodes in Hin. apply in_flat_map in Hin.
  destruct Hin as (i & _ & Hin). unfold system_node in Hin.
  destruct (planet_nodes _ _ _ _); [destruct Hin|].
  destruct Hin as [<-|[]]. reflexivity.
Qed.

(** X19: under the laws of the codec, for a saveable universe in which
    no two commodities bear the same name and the last purchase prices
    are below 2^63, loading the saved document brings every positive
    last purchase price back and leaves the others at 0, the
    commodities being otherwise as they were. *)
Theorem economy_sysLoad_lastPurchase (w : World.t) :
  persistence_laws -> saveable w ->
  NoDup (map Commodity.name (World.commodity_stack w)) ->
  Forall (fun c => (Commodity.lastPurchasePrice c < 2 ^ 63)%Z)
         (World.commodity_stack w) ->
  exists w',
    economy_sysLoad w (saved_document w) = Some w' /\
    World.commodity_stack w'
    = map (fun c => Commodity.set_lastPurchasePrice c
                      (Z.max 0 (Commodity.lastPurchasePrice c)))
          (World.commodity_stack w).
Proof.
  intros Hlaws Hsave Hnd Hsmall.
  destruct (economy_sysLoad_saved w Hlaws Hsave) as (w' & Hrun & _).
  exists w'. split; [exact Hrun|].
  unfold economy_sysLoad in Hrun. rewrite saved_document_spec in Hrun.
  change (xml_children (XmlNode _ _ ?c _)) with c in Hrun.
  simpl do_nodes in Hrun. unfold load_node, economy_node in Hrun.
  change (xml_isNode (XmlNode "economy" _ _ _) "economy") with true in Hrun.
  cbv iota in Hrun.
  change (xml_children (XmlNode _ _ ?c _)) with c in Hrun.
  rewrite do_nodes_app in Hrun.
  rewrite (load_lastPurchases_values w _ Hnd (le_n _)) in Hrun.
  destruct (do_nodes load_cur (system_nodes w _) _) as [w2|] eqn:Hsys;
    [|discriminate].
  injection Hrun as <-.
  rewrite (load_systems_commodities _ _ _ (system_nodes_tags w _) Hsys).
  simpl. apply list_eq. intros i.
  rewrite list_lookup_imap, list_lookup_fmap.
  destruct (World.commodity_stack w !! i) as [c|] eqn:Hc; [|reflexivity].
  simpl. apply lookup_lt_Some in Hc as Hi.
  apply Nat.ltb_lt in Hi. rewrite Hi. f_equal. unfold restore_purchase.
  rewrite Forall_lookup in Hsmall. specialize (Hsmall _ _ Hc). simpl in Hsmall.
  destruct Hlaws as (_ & _ & _ & Hu).
  destruct (Z.ltb_spec 0 (Commodity.lastPurchasePrice c)) as [Hpos|Hle].
  - unfold wrap_size_t. rewrite Z.mod_small by lia.
    rewrite Hu by lia. rewrite Z.max_r by lia. reflexivity.
  - rewrite Z.max_l by lia. reflexivity.
Qed.

End PersistenceEdges.

(** ** Gatherables *)

Lemma lookup_total_middle {A : Type} `{Inhabited A} (l1 l2 : list A) (x : A) :
  (l1 ++ x :: l2) !!! length l1 = x.
Proof.
  apply list_lookup_total_correct. apply list_lookup_middle. reflexivity.
Qed.

Lemma insert_middle {A : Type} (l1 l2 : list A) (x y : A) :
  <[length l1 := y]> (l1 ++ x :: l2) = l1 ++ y :: l2.
Proof.
  rewrite insert_app_r_alt by lia. rewrite Nat.sub_diag. reflexivity.
Qed.

Lemma delete_middle_at {A : Type} (l1 l2 : list A) (x : A) :
  delete (length l1) (l1 ++ x :: l2) = l1 ++ l2.
Proof.
  induction l1 as [|y l1 IH]; [reflexivity|]. simpl. rewrite IH. reflexivity.
Qed.

(** The loop of [gatherable_update] from the index [length l1] on, with
    enough iterations left for the rest of the stack. *)
Lemma update_loop_spec (fuel : nat) (dt : R) (l1 l2 : list Gatherable.t) :
  (length l2 <= fuel)%nat ->
  update_loop fuel dt (length l1) (l1 ++ l2)
  = l1 ++ List.filter (fun g => negb (expired g)) (map (advance dt) l2).
Proof.
  revert l1 l2. induction fuel as [|fuel IH]; intros l1 l2 Hfuel.
  - destruct l2; [reflexivity|simpl in Hfuel; lia].
  - destruct l2 as [|g l2].
    + simpl. rewrite app_nil_r, Nat.ltb_irrefl. reflexivity.
    + cbn [update_loop].
      assert (Hlt : (length l1 <? length (l1 ++ g :: l2))%nat = true).
      { apply Nat.ltb_lt. rewrite length_app. simpl. lia. }
      rewrite Hlt. cbv zeta.
      rewrite lookup_total_middle, insert_middle, lookup_total_middle.
      cbn [map List.filter].
      destruct (expired (advance dt g)); cbn [negb].
      * rewrite delete_middle_at. apply IH. simpl in Hfuel. lia.
      * replace (S (length l1)) with (length (l1 ++ [advance dt g]))
          by (rewrite length_app; simpl; lia).
        replace (l1 ++ advance dt g :: l2)
          with ((l1 ++ [advance dt g]) ++ l2)
          by (rewrite <- app_assoc; reflexivity).
        rewrite IH by (simpl in Hfuel; lia).
        rewrite <- app_assoc. reflexivity.
Qed.

(** X20: [gatherable_update] moves every gatherable on by [dt] and
    removes the ones whose timer has then passed their life length: the
    stack afterwards is the list of the moved gatherables that have not
    expired, in their order; no survivor is past its life length, and
    the timer of the "full cargo" message has advanced by [dt]. *)
Theorem gatherable_update_filters (st : Gatherables.t) (dt : R) :
  let st' := gatherable_update st dt in
  Gatherables.gatherable_stack st'
  = List.filter (fun g => negb (expired g))
                (map (advance dt) (Gatherables.gatherable_stack st)) /\
  Forall (fun g => Gatherable.timer g <= Gatherable.lifeleng g)
         (Gatherables.gatherable_stack st') /\
  Gatherables.noscoop_timer st' = Gatherables.noscoop_timer st + dt.
Proof.
  cbv zeta. unfold gatherable_update. simpl.
  pose proof (update_loop_spec (length (Gatherables.gatherable_stack st)) dt
                [] (Gatherables.gatherable_stack st) (le_n _)) as Hspec.
  simpl in Hspec. rewrite Hspec. split; [reflexivity|]. split; [|reflexivity].
  apply List.Forall_forall. intros g Hg. apply filter_In in Hg.
  destruct Hg as [_ Hg]. unfold expired in Hg.
  destruct (Rgt_dec (Gatherable.timer g) (Gatherable.lifeleng g));
    [discriminate|lra].
Qed.

Section GatherableFacts.
Context `{Space}.

(** What the loop of [gatherable_getClosest] knows after [k] elements:
    either none of them is within the radius, or the current one is the
    first of the closest among them. *)
Lemma closest_loop_inv (stack : list Gatherable.t) (pos : Vector2d.t)
  (rad : R) (k : nat) :
  let d j := vect_dist pos (Gatherable.pos (stack !!! j)) in
  let st := for_loop k 0 (closest_body stack pos rad) ((-1)%Z, None) in
  (st = ((-1)%Z, None) /\ forall j, (j < k)%nat -> ~ d j < rad) \/
  (exists r, st = (Z.of_nat r, Some (d r)) /\ (r < k)%nat /\ d r < rad /\
             forall j, (j < k)%nat ->
                       d r <= d j /\ ((j < r)%nat -> d r < d j)).
Proof.
  cbv zeta.
  apply (for_loop_ind0
           (fun k st =>
              (st = ((-1)%Z, None) /\
               forall j, (j < k)%nat ->
                 ~ vect_dist pos (Gatherable.pos (stack !!! j)) < rad) \/
              (exists r,
                 st = (Z.of_nat r,
                       Some (vect_dist pos (Gatherable.pos (stack !!! r)))) /\
                 (r < k)%nat /\
                 vect_dist pos (Gatherable.pos (stack !!! r)) < rad /\
                 forall j, (j < k)%nat ->
                   vect_dist pos (Gatherable.pos (stack !!! r))
                   <= vect_dist pos (Gatherable.pos (stack !!! j)) /\
                   ((j < r)%nat ->
                    vect_dist pos (Gatherable.pos (stack !!! r))
                    < vect_dist pos (Gatherable.pos (stack !!! j)))))).
  - left. split; [reflexivity|]. intros j Hj. lia.
  - intros i st _ Hst. unfold closest_body.
    destruct Hst as [[-> Hnone]|(r & -> & Hr & Hrad & Hmin)]; simpl snd.
    + simpl below. simpl andb.
      destruct (Rlt_dec (vect_dist pos (Gatherable.pos (stack !!! i))) rad)
        as [Hi|Hi].
      * right. exists i. split; [reflexivity|]. split; [lia|].
        split; [exact Hi|]. intros j Hj.
        destruct (decide (j = i)) as [->|Hne]; [split; [lra|lia]|].
        assert (Hj' : (j < i)%nat) by lia. specialize (Hnone j Hj').
        split; [lra|]. intros _. lra.
      * left. split; [reflexivity|]. intros j Hj.
        destruct (decide (j = i)) as [->|Hne]; [exact Hi|].
        apply Hnone. lia.
    + unfold below.
      destruct (Rlt_dec (vect_dist pos (Gatherable.pos (stack !!! i)))
                        (vect_dist pos (Gatherable.pos (stack !!! r))))
        as [Hlt|Hge];
        destruct (Rlt_dec (vect_dist pos (Gatherable.pos (stack !!! i))) rad)
          as [Hi|Hi]; simpl andb; cbv iota.
      * right. exists i. split; [reflexivity|]. split; [lia|].
        split; [exact Hi|]. intros j Hj.
        destruct (decide (j = i)) as [->|Hne]; [split; [lra|lia]|].
        destruct (Hmin j ltac:(lia)) as [Hle _]. split; [lra|]. intros _. lra.
      * right. exists r. split; [reflexivity|]. split; [lia|].
        split; [exact Hrad|]. intros j Hj.
        destruct (decide (j = i)) as [->|Hne]; [split; [lra|lia]|].
        apply Hmin. lia.
      * right. exists r. split; [reflexivity|]. split; [lia|].
        split; [exact Hrad|]. intros j Hj.
        destruct (decide (j = i)) as [->|Hne]; [split; [lra|lia]|].
        apply Hmin. lia.
      * right. exists r. split; [reflexivity|]. split; [lia|].
        split; [exact Hrad|]. intros j Hj.
        destruct (decide (j = i)) as [->|Hne]; [split; [lra|lia]|].
        apply Hmin. lia.
Qed.

(** X21: [gatherable_getClosest] returns -1 exactly when no gatherable
    lies within the radius; otherwise it returns the index of a
    gatherable within the radius that is at least as close as every
    other one and strictly closer than every one before it in the
    stack. *)
Theorem gatherable_getClosest_spec (st : Gatherables.t) (pos : Vector2d.t)
  (rad : R) :
  let stack := Gatherables.gatherable_stack st in
  let d j := vect_dist pos (Gatherable.pos (stack !!! j)) in
  let r := gatherable_getClosest st pos rad in
  (r = (-1)%Z <-> forall j, (j < length stack)%nat -> ~ d j < rad) /\
  (r <> (-1)%Z ->
   (0 <= r < Z.of_nat (length stack))%Z /\
   d (Z.to_nat r) < rad /\
   forall j, (j < length stack)%nat ->
             d (Z.to_nat r) <= d j /\
             ((j < Z.to_nat r)%nat -> d (Z.to_nat r) < d j)).
Proof.
  cbv zeta. unfold gatherable_getClosest.
  destruct (closest_loop_inv (Gatherables.gatherable_stack st) pos rad
              (length (Gatherables.gatherable_stack st)))
    as [[-> Hnone]|(r & -> & Hr & Hrad & Hmin)]; simpl fst.
  - split; [split; [intros _; exact Hnone|reflexivity]|].
    intros Hne. contradiction.
  - split.
    + split; [lia|]. intros Hnone. exfalso. exact (Hnone r Hr Hrad).
    + intros _. rewrite Nat2Z.id. split; [lia|]. split; [exact Hrad|].
      exact Hmin.
Qed.

(** X22: [gatherable_getPos] returns 1 with the position and velocity
    of the gatherable for an id from 0 to [gatherable_nstack - 1], and
    0 with two null vectors for any other id; the gatherable that
    [gatherable_init] adds gets the id [gatherable_nstack] of before and
    is found with the position and velocity given, the older ids keep
    what they had; and after [gatherable_free] no id is found. *)
Theorem gatherable_getPos_lookup (st : Gatherables.t) (id : Z) (rngf : R)
  (com : nat) (pos vel : Vector2d.t) :
  let n := Z.of_nat (length (Gatherables.gatherable_stack st)) in
  ((0 <= id < n)%Z ->
   exists g, Gatherables.gatherable_stack st !! Z.to_nat id = Some g /\
             gatherable_getPos st id
             = (1%Z, Gatherable.pos g, Gatherable.vel g)) /\
  (~ (0 <= id < n)%Z ->
   gatherable_getPos st id = (0%Z, Vector2d.null, Vector2d.null)) /\
  gatherable_getPos (gatherable_init st rngf com pos vel) n
  = (1%Z, pos, vel) /\
  ((0 <= id < n)%Z ->
   gatherable_getPos (gatherable_init st rngf com pos vel) id
   = gatherable_getPos st id) /\
  gatherable_getPos (gatherable_free st) id
  = (0%Z, Vector2d.null, Vector2d.null).
Proof.
  cbv zeta. unfold gatherable_getPos.
  split; [|split; [|split; [|split]]].
  - intros Hid.
    destruct (lookup_lt_is_Some_2 (Gatherables.gatherable_stack st)
                (Z.to_nat id)) as [g Hg]; [lia|].
    exists g. split; [exact Hg|].
    destruct (Z.ltb_spec id 0); [lia|].
    destruct (Z.ltb_spec
                (Z.of_nat (length (Gatherables.gatherable_stack st)) - 1) id);
      [lia|].
    simpl. rewrite (list_lookup_total_correct _ _ _ Hg). reflexivity.
  - intros Hid.
    destruct (Z.ltb_spec id 0); [reflexivity|].
    destruct (Z.ltb_spec
                (Z.of_nat (length (Gatherables.gatherable_stack st)) - 1) id);
      [reflexivity|lia].
  - simpl Gatherables.gatherable_stack. rewrite length_app. simpl length.
    destruct (Z.ltb_spec
                (Z.of_nat (length (Gatherables.gatherable_stack st))) 0);
      [lia|].
    destruct (Z.ltb_spec
                (Z.of_nat (length (Gatherables.gatherable_stack st) + 1) - 1)
                (Z.of_nat (length (Gatherables.gatherable_stack st))));
      [lia|].
    simpl orb. cbv iota. rewrite Nat2Z.id, lookup_total_middle. reflexivity.
  - intros Hid. simpl Gatherables.gatherable_stack. rewrite length_app.
    simpl length.
    destruct (Z.ltb_spec id 0); [lia|].
    destruct (Z.ltb_spec
                (Z.of_nat (length (Gatherables.gatherable_stack st) + 1) - 1)
                id); [lia|].
    destruct (Z.ltb_spec
                (Z.of_nat (length (Gatherables.gatherable_stack st)) - 1) id);
      [lia|].
    simpl orb. cbv iota. rewrite lookup_total_app_l by lia. reflexivity.
  - simpl Gatherables.gatherable_stack. simpl length.
    destruct (Z.ltb_spec id 0); [reflexivity|].
    destruct (Z.ltb_spec (Z.of_nat 0 - 1) id); [reflexivity|lia].
Qed.

(** X23: looking up what [gatherable_getClosest] returns finds a
    gatherable exactly when one lies within the radius, and the
    position then returned lies within the radius of the position asked
    for; on an empty stack the search returns -1. *)
Theorem gatherable_getClosest_getPos (st : Gatherables.t)
  (pos : Vector2d.t) (rad : R) :
  let stack := Gatherables.gatherable_stack st in
  let res := gatherable_getPos st (gatherable_getClosest st pos rad) in
  (fst (fst res) = 1%Z <->
   exists j g, stack !! j = Some g /\
               vect_dist pos (Gatherable.pos g) < rad) /\
  (fst (fst res) = 1%Z -> vect_dist pos (snd (fst res)) < rad) /\
  gatherable_getClosest (gatherable_free st) pos rad = (-1)%Z.
Proof.
  cbv zeta. split; [|split; [|reflexivity]];
    unfold gatherable_getClosest, gatherable_getPos;
    destruct (closest_loop_inv (Gatherables.gatherable_stack st) pos rad
                (length (Gatherables.gatherable_stack st)))
      as [[-> Hnone]|(r & -> & Hr & Hrad & Hmin)]; simpl fst.
  - simpl. split; [discriminate|].
    intros (j & g & Hg & Hd). exfalso.
    apply (Hnone j); [eapply lookup_lt_Some; exact Hg|].
    rewrite (list_lookup_total_correct _ _ _ Hg). exact Hd.
  - destruct (Z.ltb_spec (Z.of_nat r) 0); [lia|].
    destruct (Z.ltb_spec
                (Z.of_nat (length (Gatherables.gatherable_stack st)) - 1)
                (Z.of_nat r)); [lia|].
    simpl. split; [|reflexivity]. intros _.
    exists r, (Gatherables.gatherable_stack st !!! r).
    split; [apply list_lookup_lookup_total_lt; exact Hr|exact Hrad].
  - simpl. discriminate.
  - destruct (Z.ltb_spec (Z.of_nat r) 0); [lia|].
    destruct (Z.ltb_spec
                (Z.of_nat (length (Gatherables.gatherable_stack st)) - 1)
                (Z.of_nat r)); [lia|].
    simpl. intros _. rewrite Nat2Z.id. exact Hrad.
Qed.

(** The loop of [gatherable_gather] for a ship within reach of every
    gatherable and with room for all of them: the gatherable at the
    index is removed and the one that takes its place is passed
    over. *)
Lemma gather_loop_skips (fuel : nat) (l1 l2 : list Gatherable.t)
  (noscoop : R) (p0 p : Pilot) (rng : list Z) (log : Log) :
  cargo_laws ->
  (forall g, In g l2 ->
             vect_dist (pilot_pos p0) (Gatherable.pos g) < GATHER_DIST) ->
  pilot_pos p = pilot_pos p0 ->
  Forall (fun r => (1 <= r <= 5)%Z) rng ->
  (length l2 <= 2 * length rng)%nat ->
  (5 * Z.of_nat (length l2) <= pilot_cargoFree p)%Z ->
  (length l2 <= fuel)%nat ->
  fst (fst (fst (fst (gather_loop fuel (length l1)
                        (l1 ++ l2, noscoop, p, rng, log)))))
  = l1 ++ odd_elements l2.
Proof.
  intros (Hpos & Hfit & Hfree). revert l1 l2 p rng log.
  induction fuel as [|fuel IH];
    intros l1 l2 p rng log Hnear Hp Hrng Hlen Hroom Hfuel.
  - destruct l2; [reflexivity|simpl in Hfuel; lia].
  - destruct l2 as [|g l2].
    + simpl. rewrite app_nil_r, Nat.ltb_irrefl. simpl.
      rewrite ?app_nil_r. reflexivity.
    + cbn [gather_loop].
      assert (Hlt : (length l1 <? length (l1 ++ g :: l2))%nat = true).
      { apply Nat.ltb_lt. rewrite length_app. simpl. lia. }
      rewrite Hlt. unfold gather_body.
      rewrite lookup_total_middle.
      destruct (Rlt_dec (vect_dist (pilot_pos p) (Gatherable.pos g))
                        GATHER_DIST) as [_|Hfar].
      2:{ exfalso. apply Hfar. rewrite Hp. apply Hnear. left. reflexivity. }
      destruct rng as [|r rng]; [simpl in Hlen; lia|].
      apply Forall_cons in Hrng. destruct Hrng as [Hr Hrng].
      cbn [hd tl]. simpl length in Hlen, Hroom.
      pose proof (Hfit p (Gatherable.type g) r ltac:(lia)) as Hq.
      pose proof (Hpos p (Gatherable.type g) r) as Hp'.
      pose proof (Hfree p (Gatherable.type g) r) as Hf'.
      destruct (pilot_cargoAdd p (Gatherable.type g) r) as [q p'].
      simpl in Hq, Hp', Hf'. subst q.
      assert (Hr0 : (0 <? r)%Z = true) by (apply Z.ltb_lt; lia).
      rewrite Hr0. rewrite delete_middle_at.
      destruct l2 as [|h l2].
      * rewrite app_nil_r. destruct fuel as [|fuel'].
        -- simpl. rewrite app_nil_r. reflexivity.
        -- cbn [gather_loop].
           destruct (Nat.ltb_spec (S (length l1)) (length l1)); [lia|].
           simpl. rewrite app_nil_r. reflexivity.
      * replace (S (length l1)) with (length (l1 ++ [h]))
          by (rewrite length_app; simpl; lia).
        replace (l1 ++ h :: l2) with ((l1 ++ [h]) ++ l2)
          by (rewrite <- app_assoc; reflexivity).
        simpl length in Hlen, Hroom, Hfuel.
        rewrite IH.
        -- rewrite <- app_assoc. reflexivity.
        -- intros g0 Hg0. apply Hnear. right. right. exact Hg0.
        -- rewrite Hp'. exact Hp.
        -- exact Hrng.
        -- lia.
        -- lia.
        -- lia.
Qed.

(** X24: [gatherable_gather] removes a gathered gatherable by moving
    the rest of the stack down and then moves its index up, so that the
    gatherable next to a gathered one is not looked at in that call.
    For a ship within [GATHER_DIST] of every gatherable and with five
    tons of free space for each of them, the cargo functions keeping
    [cargo_laws] and [RNG(1,5)] returning values from 1 to 5, the
    gatherables that stay are the ones at the odd offsets of the
    stack. *)
Theorem gatherable_gather_skips (st : Gatherables.t) (p : Pilot)
  (rng : list Z) :
  cargo_laws ->
  (forall g, In g (Gatherables.gatherable_stack st) ->
             vect_dist (pilot_pos p) (Gatherable.pos g) < GATHER_DIST) ->
  Forall (fun r => (1 <= r <= 5)%Z) rng ->
  (length (Gatherables.gatherable_stack st) <= 2 * length rng)%nat ->
  (5 * Z.of_nat (length (Gatherables.gatherable_stack st))
   <= pilot_cargoFree p)%Z ->
  Gatherables.gatherable_stack (fst (fst (gatherable_gather st p rng)))
  = odd_elements (Gatherables.gatherable_stack st).
Proof.
  intros Hlaws Hnear Hrng Hlen Hroom. unfold gatherable_gather.
  pose proof (gather_loop_skips (length (Gatherables.gatherable_stack st))
                [] (Gatherables.gatherable_stack st)
                (Gatherables.noscoop_timer st) p p rng [] Hlaws Hnear
                eq_refl Hrng Hlen Hroom (le_n _))
    as Hloop.
  simpl in Hloop.
  destruct (gather_loop _ 0 _) as [[[[stack noscoop] p'] rng'] log].
  simpl in *. exact Hloop.
Qed.

End GatherableFacts.

(** ** Ordering of commodities *)

Lemma code_range (c : Ascii.ascii) : (0 <= code c < 256)%Z.
Proof.
  unfold code. pose proof (Ascii.N_ascii_bounded c) as Hb. lia.
Qed.

Lemma code_inj (c d : Ascii.ascii) : code c = code d -> c = d.
Proof.
  unfold code. intros Hcd. apply N2Z.inj in Hcd.
  rewrite <- (Ascii.ascii_N_embedding c), <- (Ascii.ascii_N_embedding d).
  rewrite Hcd. reflexivity.
Qed.

Lemma strcmp_refl (a : string) : strcmp a a = 0%Z.
Proof.
  induction a as [|c a IH]; [reflexivity|]. simpl.
  rewrite Ascii.eqb_refl. exact IH.
Qed.

Lemma strcmp_antisym (a b : string) : strcmp b a = (- strcmp a b)%Z.
Proof.
  revert b. induction a as [|c a IH]; intros [|d b]; simpl; try lia.
  rewrite (Ascii.eqb_sym d c). destruct (Ascii.eqb c d); [apply IH|lia].
Qed.

Lemma strcmp_zero (a b : string) :
  nul_free a -> nul_free b -> strcmp a b = 0%Z -> a = b.
Proof.
  revert b. induction a as [|c a IH]; intros [|d b] Ha Hb; simpl;
    simpl in Ha, Hb.
  - reflexivity.
  - intros Hz. destruct Hb as [Hd _]. lia.
  - intros Hz. destruct Ha as [Hc _]. lia.
  - destruct (Ascii.eqb_spec c d) as [->|Hne].
    + intros Hz. f_equal. apply IH; tauto.
    + intros Hz. exfalso. apply Hne, code_inj. lia.
Qed.

Lemma strcmp_trans (a b c : string) :
  nul_free a -> nul_free b -> nul_free c ->
  (strcmp a b <= 0)%Z -> (strcmp b c <= 0)%Z -> (strcmp a c <= 0)%Z.
Proof.
  revert b c. induction a as [|x a IH]; intros [|y b] [|z c] Ha Hb Hc;
    simpl; simpl in Ha, Hb, Hc; intros Hab Hbc;
    try (pose proof (code_range x)); try (pose proof (code_range y));
    try (pose proof (code_range z)); try lia.
  destruct (Ascii.eqb_spec x y) as [->|Hxy].
  - destruct (Ascii.eqb_spec y z) as [->|Hyz].
    + apply (IH b c); tauto.
    + exact Hbc.
  - destruct (Ascii.eqb_spec y z) as [->|Hyz].
    + destruct (Ascii.eqb_spec x z) as [->|_]; [contradiction|]. exact Hab.
    + destruct (Ascii.eqb_spec x z) as [->|_]; [|lia].
      exfalso. apply Hxy, code_inj. lia.
Qed.

(** X25: [commodity_compareTech] is antisymmetric, whatever the two
    commodities are: swapping them changes the sign of the result; it
    returns 0 on a commodity and itself, -1 when the first is the
    dearer and +1 when the second is, so that sorting with it puts the
    dearest first. *)
Theorem commodity_compareTech_antisym (c1 c2 : Commodity.t) :
  commodity_compareTech c2 c1 = (- commodity_compareTech c1 c2)%Z /\
  commodity_compareTech c1 c1 = 0%Z /\
  (Commodity.price c1 > Commodity.price c2 ->
   commodity_compareTech c1 c2 = (-1)%Z) /\
  (Commodity.price c1 < Commodity.price c2 ->
   commodity_compareTech c1 c2 = 1%Z).
Proof.
  unfold commodity_compareTech. repeat split.
  - destruct (Rlt_dec (Commodity.price c2) (Commodity.price c1)),
             (Rlt_dec (Commodity.price c1) (Commodity.price c2)),
             (Rgt_dec (Commodity.price c2) (Commodity.price c1)),
             (Rgt_dec (Commodity.price c1) (Commodity.price c2));
      try lra; try reflexivity.
    apply strcmp_antisym.
  - destruct (Rlt_dec (Commodity.price c1) (Commodity.price c1)); [lra|].
    destruct (Rgt_dec (Commodity.price c1) (Commodity.price c1)); [lra|].
    apply strcmp_refl.
  - intros Hgt.
    destruct (Rlt_dec (Commodity.price c1) (Commodity.price c2)); [lra|].
    destruct (Rgt_dec (Commodity.price c1) (Commodity.price c2));
      [reflexivity|lra].
  - intros Hlt.
    destruct (Rlt_dec (Commodity.price c1) (Commodity.price c2));
      [reflexivity|lra].
Qed.

(** X26: on commodities whose names hold no NUL character,
    [commodity_compareTech] is a total order: it returns 0 only for two
    commodities of the same price and name, and whenever the first of
    three is not after the second and the second not after the third,
    the first is not after the third. *)
Theorem commodity_compareTech_order (c1 c2 c3 : Commodity.t) :
  nul_free (Commodity.name c1) -> nul_free (Commodity.name c2) ->
  nul_free (Commodity.name c3) ->
  (commodity_compareTech c1 c2 = 0%Z ->
   Commodity.price c1 = Commodity.price c2 /\
   Commodity.name c1 = Commodity.name c2) /\
  ((commodity_compareTech c1 c2 <= 0)%Z ->
   (commodity_compareTech c2 c3 <= 0)%Z ->
   (commodity_compareTech c1 c3 <= 0)%Z).
Proof.
  intros H1 H2 H3. unfold commodity_compareTech. split.
  - destruct (Rlt_dec (Commodity.price c1) (Commodity.price c2));
      [discriminate|].
    destruct (Rgt_dec (Commodity.price c1) (Commodity.price c2));
      [discriminate|].
    intros Hz. split; [lra|]. apply strcmp_zero; assumption.
  - destruct (Rlt_dec (Commodity.price c1) (Commodity.price c2)); [lia|].
    destruct (Rlt_dec (Commodity.price c2) (Commodity.price c3)); [lia|].
    destruct (Rlt_dec (Commodity.price c1) (Commodity.price c3)); [lra|].
    destruct (Rgt_dec (Commodity.price c1) (Commodity.price c3)); [lia|].
    destruct (Rgt_dec (Commodity.price c1) (Commodity.price c2)); [lra|].
    destruct (Rgt_dec (Commodity.price c2) (Commodity.price c3)); [lra|].
    apply strcmp_trans; assumption.
Qed.

(** ** Loading the commodity catalogue *)

Lemma scan_lt_In {A : Type} (test : A -> bool) (a : list A) :
  (scan test a < length a)%nat <-> exists x, In x a /\ test x = true.
Proof.
  induction a as [|y a IH]; simpl.
  - split; [lia|intros (x & [] & _)].
  - destruct (test y) eqn:Hy.
    + split; [intros _; exists y; auto|lia].
    + rewrite <- Nat.succ_lt_mono, IH. split.
      * intros (x & Hx & Ht). exists x. auto.
      * intros (x & [->|Hx] & Ht); [congruence|]. exists x. auto.
Qed.

(** A good is priced when its offset is in the list of priced goods. *)
Lemma priced_In (w : World.t) (i : nat) :
  priced w i <-> In (Z.of_nat i) (World.econ_comm w).
Proof.
  unfold priced. rewrite scan_lt_In. split.
  - intros (x & Hx & Ht). apply Z.eqb_eq in Ht. subst x. exact Hx.
  - intros Hin. exists (Z.of_nat i). split; [exact Hin|apply Z.eqb_refl].
Qed.

Section CatalogueLoadFacts.
Context `{DataFiles}.

(** The commodity that [commodity_parse] leaves does not depend on the
    textures. *)
Lemma commodity_parse_fst (parent : xml) :
  fst (commodity_parse parent)
  = fold_left parse_child (xml_children parent)
              (Commodity.mk "" "" 0 [] 200 0 [] 0%Z).
Proof.
  unfold commodity_parse.
  assert (Hgen : forall nodes temp g,
            fst (fold_left
                   (fun st node =>
                      (parse_child (fst st) node,
                       parse_gfx_store (snd st) node))
                   nodes (temp, g))
            = fold_left parse_child nodes temp).
  { induction nodes as [|node nodes IH]; intros temp g; [reflexivity|].
    cbn [fold_left fst snd]. apply IH. }
  specialize (Hgen (xml_children parent)
                (Commodity.mk "" "" 0 [] 200 0 [] 0%Z) false).
  destruct (fold_left _ (xml_children parent) _) as [temp g].
  simpl in Hgen. simpl. exact Hgen.
Qed.

(** One element of the catalogue. *)
Lemma load_element_step (stack : list Commodity.t) (comm : list Z)
  (log : Log) (node : xml) :
  load_element (stack, comm, log) node
  = (if xml_isNode node XML_COMMODITY_TAG then
       stack ++ [fst (commodity_parse node)] else stack,
     if xml_isNode node XML_COMMODITY_TAG then
       if Rgt_dec (Commodity.price (fst (commodity_parse node))) 0
       then comm ++ [Z.of_nat (length stack)] else comm
     else comm,
     log ++ element_warnings node).
Proof.
  unfold load_element, element_warnings.
  destruct (xml_isNode node XML_COMMODITY_TAG); [|reflexivity].
  destruct (commodity_parse node) as [temp warnings]. cbn [fst snd].
  rewrite length_app. simpl length.
  replace (length stack + 1 - 1)%nat with (length stack) by lia.
  rewrite lookup_total_middle.
  replace (Z.of_nat (length stack + 1) - 1)%Z with (Z.of_nat (length stack))
    by lia.
  reflexivity.
Qed.

(** The loop of [commodity_load]: what it appends to the stack and to
    the list of priced goods. *)
Lemma load_elements_spec (nodes : list xml) (stack : list Commodity.t)
  (comm : list Z) (log : Log) :
  exists stack' comm' log',
    fold_left load_element nodes (stack, comm, log) = (stack', comm', log') /\
    stack' = stack ++ map (fun n => fst (commodity_parse n))
                          (List.filter
                             (fun n => xml_isNode n XML_COMMODITY_TAG) nodes) /\
    log' = log ++ flat_map element_warnings nodes /\
    exists extra,
      comm' = comm ++ extra /\
      forall e, In e extra <->
                exists i, e = Z.of_nat i /\
                          (length stack <= i < length stack')%nat /\
                          Commodity.price (stack' !!! i) > 0.
Proof.
  revert stack comm log.
  induction nodes as [|node nodes IH]; intros stack comm log.
  - exists stack, comm, log. split; [reflexivity|]. simpl.
    rewrite !app_nil_r. split; [reflexivity|]. split; [reflexivity|].
    exists []. rewrite app_nil_r. split; [reflexivity|].
    intros e. split; [intros []|]. intros (i & _ & Hi & _). lia.
  - cbn [fold_left List.filter flat_map]. rewrite load_element_step.
    destruct (xml_isNode node XML_COMMODITY_TAG) eqn:Htag.
    + set (c := fst (commodity_parse node)).
      set (comm1 := if Rgt_dec (Commodity.price c) 0
                    then comm ++ [Z.of_nat (length stack)] else comm).
      destruct (IH (stack ++ [c]) comm1 (log ++ element_warnings node))
        as (stack' & comm' & log' & Hrun & Hs & Hl & extra & Hc & Hex).
      exists stack', comm', log'. split; [exact Hrun|].
      cbn [map]. rewrite <- app_assoc in Hs. simpl app in Hs.
      split; [exact Hs|].
      split; [rewrite Hl, <- app_assoc; reflexivity|].
      assert (Hc0 : stack' !!! length stack = c)
        by (rewrite Hs; apply lookup_total_middle).
      assert (Hlen' : (length stack < length stack')%nat)
        by (rewrite Hs, length_app; simpl; lia).
      rewrite length_app in Hex. simpl length in Hex.
      unfold comm1 in Hc.
      destruct (Rgt_dec (Commodity.price c) 0) as [Hpos|Hnp].
      * exists (Z.of_nat (length stack) :: extra).
        split; [rewrite Hc, <- app_assoc; reflexivity|].
        intros e. simpl. rewrite Hex. split.
        -- intros [<-|(i & -> & Hi & Hp)].
           ++ exists (length stack). split; [reflexivity|].
              split; [lia|]. rewrite Hc0. exact Hpos.
           ++ exists i. split; [reflexivity|]. split; [lia|exact Hp].
        -- intros (i & -> & Hi & Hp).
           destruct (decide (i = length stack)) as [->|Hne];
             [left; reflexivity|].
           right. exists i. split; [reflexivity|]. split; [lia|exact Hp].
      * exists extra. split; [exact Hc|].
        intros e. rewrite Hex. split.
        -- intros (i & -> & Hi & Hp). exists i.
           split; [reflexivity|]. split; [lia|exact Hp].
        -- intros (i & -> & Hi & Hp).
           destruct (decide (i = length stack)) as [->|Hne].
           ++ rewrite Hc0 in Hp. contradiction.
           ++ exists i. split; [reflexivity|]. split; [lia|exact Hp].
    + destruct (IH stack comm (log ++ element_warnings node))
        as (stack' & comm' & log' & Hrun & Hs & Hl & Hex).
      exists stack', comm', log'. split; [exact Hrun|].
      split; [exact Hs|]. split; [|exact Hex].
      rewrite Hl, <- app_assoc. reflexivity.
Qed.

(** X27: when the data file is read and parsed, its root element is
    [Commodities] and has children, [commodity_load] returns 0, appends
    one commodity for every commodity element, in their order; its
    warnings are, element by element, those of [commodity_parse] for a
    commodity element and one warning for any other element; of the
    commodities appended, the priced ones are exactly those with a
    price above 0, the ones that were there before stay priced or not
    as they were, and every entry of the list of priced goods is the
    offset of a commodity. *)
Theorem commodity_load_registers (w : World.t) (buf : string) (root : xml) :
  ndata_read COMMODITY_DATA_PATH = Some buf ->
  xmlParseMemory buf = Some root ->
  xml_tag root = XML_COMMODITY_ID ->
  xml_children root <> [] ->
  comm_in_stack w ->
  exists log w',
    commodity_load w = (0%Z, log, w') /\
    World.commodity_stack w'
    = World.commodity_stack w
      ++ map (fun n => fst (commodity_parse n))
             (List.filter (fun n => xml_isNode n XML_COMMODITY_TAG)
                          (xml_children root)) /\
    log = flat_map element_warnings (xml_children root) /\
    comm_in_stack w' /\
    (forall i, (i < length (World.commodity_stack w))%nat ->
               (priced w' i <-> priced w i)) /\
    (forall i, (length (World.commodity_stack w) <= i
                < length (World.commodity_stack w'))%nat ->
               (priced w' i <->
                Commodity.price (World.commodity_stack w' !!! i) > 0)).
Proof.
  intros Hread Hparse Htag Hch Hin.
  unfold commodity_load. rewrite Hread, Hparse, Htag.
  change (negb (String.eqb XML_COMMODITY_ID XML_COMMODITY_ID)) with false.
  cbv iota.
  destruct (xml_children root) as [|node nodes] eqn:Hnodes; [contradiction|].
  cbv iota.
  destruct (load_elements_spec (node :: nodes) (World.commodity_stack w)
              (World.econ_comm w) [])
    as (stack' & comm' & log' & Hrun & Hs & Hl & extra & Hc & Hex).
  unfold Log in *. eexists _, _. split; [rewrite Hrun; reflexivity|].
  simpl World.commodity_stack.
  split; [exact Hs|]. split; [exact Hl|].
  assert (Hlen : (length (World.commodity_stack w) <= length stack')%nat)
    by (rewrite Hs, length_app; lia).
  split; [|split].
  - unfold comm_in_stack. simpl. rewrite Hc. apply Forall_app. split.
    + eapply Forall_impl; [exact Hin|]. simpl. intros e He. lia.
    + apply List.Forall_forall. intros e He. apply Hex in He.
      destruct He as (i & -> & Hi & _). lia.
  - intros i Hi. rewrite !priced_In. simpl World.econ_comm. rewrite Hc.
    rewrite in_app_iff. split; [|auto].
    intros [Ho|He]; [exact Ho|]. apply Hex in He.
    destruct He as (j & Hj & Hrange & _). lia.
  - intros i Hi. rewrite priced_In. simpl World.econ_comm. rewrite Hc.
    rewrite in_app_iff. split.
    + intros [Ho|He].
      * unfold comm_in_stack in Hin. rewrite List.Forall_forall in Hin.
        specialize (Hin _ Ho). lia.
      * apply Hex in He. destruct He as (j & Hj & _ & Hp).
        apply Nat2Z.inj in Hj. subst j. exact Hp.
    + intros Hp. right. apply Hex. exists i. split; [reflexivity|].
      split; [lia|exact Hp].
Qed.

(** The walk over a modifier list after one more child has been read. *)
Lemma parse_child_planet_modifier (temp : Commodity.t) (node : xml)
  (key : string) (d : R) :
  modifier_lookup (Commodity.planet_modifier (parse_child temp node)) key d
  = if xml_isNode node "planet_modifier"
       && String.eqb key (default ""%string (xmlr_attr node "type"))
    then xml_getFloat node
    else modifier_lookup (Commodity.planet_modifier temp) key d.
Proof.
  destruct node as [t a c r]. unfold parse_child, xml_isNode. simpl xml_tag.
  repeat match goal with
         | |- context [String.eqb t ?s] =>
             destruct (String.eqb_spec t s) as [->|?]; simpl; try reflexivity
         end.
Qed.

Lemma parse_child_faction_modifier (temp : Commodity.t) (node : xml)
  (key : string) (d : R) :
  modifier_lookup (Commodity.faction_modifier (parse_child temp node)) key d
  = if xml_isNode node "faction_modifier"
       && String.eqb key (default ""%string (xmlr_attr node "type"))
    then xml_getFloat node
    else modifier_lookup (Commodity.faction_modifier temp) key d.
Proof.
  destruct node as [t a c r]. unfold parse_child, xml_isNode. simpl xml_tag.
  repeat match goal with
         | |- context [String.eqb t ?s] =>
             destruct (String.eqb_spec t s) as [->|?]; simpl; try reflexivity
         end.
Qed.

(** X28: in the commodity that [commodity_parse] reads, the walk over
    the by-class modifiers finds, for a class, the value of the last
    [planet_modifier] element of that type in the document, a later
    element overriding the earlier ones; the same holds of the
    by-faction modifiers; without any such element the walk gives its
    default. *)
Theorem commodity_parse_last_modifier (parent : xml) (key : string) (d : R) :
  modifier_lookup (Commodity.planet_modifier (fst (commodity_parse parent)))
                  key d
  = last_modifier "planet_modifier" key (xml_children parent) d /\
  modifier_lookup (Commodity.faction_modifier (fst (commodity_parse parent)))
                  key d
  = last_modifier "faction_modifier" key (xml_children parent) d.
Proof.
  rewrite commodity_parse_fst. unfold last_modifier. split.
  - assert (Hgen : forall nodes temp,
      modifier_lookup
        (Commodity.planet_modifier (fold_left parse_child nodes temp)) key d
      = fold_left
          (fun acc node =>
             if xml_isNode node "planet_modifier"
                && String.eqb key (default ""%string (xmlr_attr node "type"))
             then xml_getFloat node else acc)
          nodes (modifier_lookup (Commodity.planet_modifier temp) key d)).
    { induction nodes as [|node nodes IH]; intros temp; [reflexivity|].
      cbn [fold_left]. rewrite IH, parse_child_planet_modifier. reflexivity. }
    rewrite Hgen. reflexivity.
  - assert (Hgen : forall nodes temp,
      modifier_lookup
        (Commodity.faction_modifier (fold_left parse_child nodes temp)) key d
      = fold_left
          (fun acc node =>
             if xml_isNode node "faction_modifier"
                && String.eqb key (default ""%string (xmlr_attr node "type"))
             then xml_getFloat node else acc)
          nodes (modifier_lookup (Commodity.faction_modifier temp) key d)).
    { induction nodes as [|node nodes IH]; intros temp; [reflexivity|].
      cbn [fold_left]. rewrite IH, parse_child_faction_modifier. reflexivity. }
    rewrite Hgen. reflexivity.
Qed.

End CatalogueLoadFacts.

(** ** What the initialiser leaves of the observation state *)

Lemma same_shape_refl (p : Planet.t) : same_shape p p.
Proof.
  exists (Planet.commodityPrice p). split; [|reflexivity].
  symmetry. apply set_commodityPrice_id.
Qed.

Lemma same_shape_trans (p x y : Planet.t) :
  same_shape p x -> same_shape x y -> same_shape p y.
Proof.
  intros (l & -> & Hl) (l' & -> & Hl'). exists l'. split.
  - destruct p; reflexivity.
  - simpl in Hl'. congruence.
Qed.

(** The first component of a loop on a pair whose body acts on the
    first component by itself. *)
Lemma for_loop_fst {S T : Type} (n i : nat) (body : nat -> S * T -> S * T)
  (body' : nat -> S -> S) (s : S) (t : T) :
  (forall j s t, fst (body j (s, t)) = body' j s) ->
  fst (for_loop n i body (s, t)) = for_loop n i body' s.
Proof.
  intros Hb. revert i s t. induction n as [|n IH]; intros i s t;
    [reflexivity|].
  simpl. specialize (Hb i s t).
  destruct (body i (s, t)) as [s' t']. simpl in Hb. subst s'. apply IH.
Qed.

(** A loop over the price fields of a planet keeps the planet in shape;
    it wipes the planet when [g] gives unobserved fields, and keeps it
    wiped when [g] keeps the observations. *)
Lemma entry_loop_shape (g : Planet.t -> nat -> CommodityPrice.t ->
                            CommodityPrice.t) (p : Planet.t) :
  (forall q l, g (Planet.set_commodityPrice q l) = g q) ->
  same_shape p (entry_loop g p) /\
  ((forall j cp, unobserved (g p j cp)) -> wiped (entry_loop g p)) /\
  ((forall j cp, observation (g p j cp) = observation cp) ->
   wiped p -> wiped (entry_loop g p)).
Proof.
  intros Hg. unfold entry_loop.
  rewrite (entry_loop_closed g p _ Hg). split; [|split].
  - eexists. split; [reflexivity|]. apply length_imap.
  - intros Hu i cp Hi Hcp. simpl in Hcp.
    rewrite list_lookup_imap in Hcp.
    destruct (Planet.commodityPrice p !! i) as [cp0|]; [|discriminate].
    simpl in Hcp. unfold Planet.ncommodities in Hi. simpl in Hi.
    apply Nat.ltb_lt in Hi. unfold Planet.ncommodities in Hcp.
    rewrite Hi in Hcp. injection Hcp as <-. apply Hu.
  - intros Ho Hw i cp Hi Hcp. simpl in Hcp.
    rewrite list_lookup_imap in Hcp.
    destruct (Planet.commodityPrice p !! i) as [cp0|] eqn:Hcp0;
      [|discriminate].
    simpl in Hcp. unfold Planet.ncommodities in Hi. simpl in Hi.
    specialize (Hw i cp0 Hi Hcp0).
    apply Nat.ltb_lt in Hi. unfold Planet.ncommodities in Hcp.
    rewrite Hi in Hcp. injection Hcp as <-.
    specialize (Ho i cp0). unfold observation in Ho.
    injection Ho as H1 H2 H3 H4.
    destruct Hw as (Hc & Hs & Hs2 & Hu).
    unfold unobserved. rewrite H1, H2, H3, H4. auto.
Qed.

Lemma blend_field_observation (nm : string) (avprice : list CommodityPrice.t)
  (cp : CommodityPrice.t) :
  observation (blend_field nm avprice cp) = observation cp.
Proof.
  unfold blend_field. revert cp.
  induction avprice as [|a av IH]; intros cp; [reflexivity|].
  simpl. rewrite IH. destruct (String.eqb nm (CommodityPrice.name a));
    reflexivity.
Qed.

Lemma final_field_observation (nm : string) (avprice : list CommodityPrice.t)
  (cp : CommodityPrice.t) :
  observation (final_field nm avprice cp) = observation cp.
Proof. unfold final_field. destruct (_ <? _)%nat; reflexivity. Qed.

(** A loop that alters the planets listed in [ptrs], all of them planets
    of the systems, by a function that keeps the shape and the wipe. *)
Lemma alter_loop_reset (W : list Planet.t) (systems : list StarSystem.t)
  (done : nat -> Prop) (planets : list Planet.t)
  (F : Planet.t -> Planet.t) (ptrs : list Planet_ptr) (n : nat) :
  reset_inv W systems done planets ->
  (forall i, (i < n)%nat -> belongs systems (ptrs !!! i)) ->
  (forall x, same_shape x (F x) /\ (wiped x -> wiped (F x))) ->
  reset_inv W systems done
    (for_loop n 0 (fun i planets => alter F (ptrs !!! i) planets) planets).
Proof.
  intros (Hlen & Hm & Hout) Hb HF. split; [|split].
  - apply (for_loop_ind0 (fun _ st => length st = length W)); [exact Hlen|].
    intros k st _ Hst. rewrite length_alter. exact Hst.
  - apply alter_loop_keep; [exact Hm|].
    intros i x _ (p & Hp & Hs). destruct (HF x) as [Hs' Hw']. split.
    + exists p. split; [exact Hp|]. exact (same_shape_trans _ _ _ Hs Hs').
    + exact Hw'.
  - intros q Hq.
    apply (for_loop_ind0 (fun _ st => st !! q = W !! q)); [exact (Hout q Hq)|].
    intros k st Hk Hst. rewrite list_lookup_alter_ne; [exact Hst|].
    intros Heq. apply Hq. rewrite <- Heq. apply Hb. exact Hk.
Qed.

Lemma same_planets_insert (systems0 systems : list StarSystem.t) (si : nat)
  (av : list CommodityPrice.t) :
  same_planets systems0 systems ->
  same_planets systems0
    (<[si := StarSystem.set_averagePrice (systems !!! si) av]> systems).
Proof.
  unfold same_planets. intros <-. apply list_eq. intros i.
  rewrite !list_lookup_fmap.
  destruct (decide (si = i)) as [<-|Hne].
  - destruct (systems !! si) as [s|] eqn:Hs.
    + rewrite list_lookup_insert_eq by (eapply lookup_lt_Some; exact Hs).
      rewrite (list_lookup_total_correct _ _ _ Hs). reflexivity.
    + rewrite list_insert_ge by (apply lookup_ge_None; exact Hs).
      rewrite Hs. reflexivity.
  - rewrite list_lookup_insert_ne by exact Hne. reflexivity.
Qed.

Lemma same_planets_lookup (systems0 systems : list StarSystem.t) (si : nat) :
  same_planets systems0 systems ->
  StarSystem.planets (systems !!! si) = StarSystem.planets (systems0 !!! si).
Proof.
  unfold same_planets. intros Hs.
  assert (Hl : map StarSystem.planets systems !! si
               = map StarSystem.planets systems0 !! si) by (rewrite Hs; reflexivity).
  rewrite !list_lookup_fmap in Hl. rewrite !list_lookup_total_alt.
  destruct (systems !! si), (systems0 !! si); simpl in *; congruence.
Qed.

Lemma same_planets_length (systems0 systems : list StarSystem.t) :
  same_planets systems0 systems -> length systems = length systems0.
Proof.
  unfold same_planets. intros Hs.
  rewrite <- (length_map StarSystem.planets systems), Hs. apply length_map.
Qed.

Section InitialiserReset.
Context `{Externals}.

Lemma calcPrice_planet_entry (commodity_stack : list Commodity.t)
  (p : Planet.t) :
  calcPrice_planet commodity_stack p
  = entry_loop (fun p j cp =>
                  economy_calcPrice p
                    (commodity_stack !!! (Planet.commodities p !!! j)) cp) p.
Proof. reflexivity. Qed.

Lemma blend_planet_entry (commodity_stack : list Commodity.t)
  (avprice : list CommodityPrice.t) (p : Planet.t) :
  blend_planet commodity_stack avprice p
  = entry_loop (fun p j cp =>
                  blend_field
                    (Commodity.name
                       (commodity_stack !!! (Planet.commodities p !!! j)))
                    avprice cp) p.
Proof. reflexivity. Qed.

Lemma final_planet_entry (commodity_stack : list Commodity.t)
  (avprice : list CommodityPrice.t) (p : Planet.t) :
  final_planet commodity_stack avprice p
  = entry_loop (fun p j cp =>
                  final_field
                    (Commodity.name
                       (commodity_stack !!! (Planet.commodities p !!! j)))
                    avprice cp) p.
Proof. reflexivity. Qed.

Lemma scale_planet_entry (commodity_stack : list Commodity.t)
  (sys : StarSystem.t) (p : Planet.t) (avprice : list CommodityPrice.t) :
  fst (scale_planet commodity_stack sys (p, avprice))
  = entry_loop (fun _ _ cp => system_scale sys cp) p.
Proof.
  unfold scale_planet, entry_loop. simpl fst.
  apply for_loop_fst. intros j s t. reflexivity.
Qed.

Lemma scale_system_alter (commodity_stack : list Commodity.t)
  (sys : StarSystem.t) (planets : list Planet.t)
  (avprice : list CommodityPrice.t) :
  fst (scale_system commodity_stack sys (planets, avprice))
  = for_loop (StarSystem.nplanets sys) 0
      (fun i planets =>
         alter (entry_loop (fun _ _ cp => system_scale sys cp))
               (StarSystem.planets sys !!! i) planets)
      planets.
Proof.
  unfold scale_system. apply for_loop_fst. intros j s t.
  pose proof (scale_planet_entry commodity_stack sys
                (s !!! (StarSystem.planets sys !!! j)) t) as He.
  destruct (scale_planet commodity_stack sys
              (s !!! (StarSystem.planets sys !!! j), t)) as [pl av].
  simpl in He. simpl. rewrite He. symmetry. apply alter_as_insert.
Qed.

(** The four kinds of rewriting of a planet. *)
Lemma calcPrice_planet_wipes (commodity_stack : list Commodity.t)
  (x : Planet.t) :
  same_shape x (calcPrice_planet commodity_stack x) /\
  wiped (calcPrice_planet commodity_stack x).
Proof.
  rewrite calcPrice_planet_entry.
  destruct (entry_loop_shape
              (fun p j cp =>
                 economy_calcPrice p
                   (commodity_stack !!! (Planet.commodities p !!! j)) cp) x)
    as (Hs & Hw & _); [reflexivity|].
  split; [exact Hs|]. apply Hw. intros j cp. repeat split.
Qed.

Lemma scale_planet_keeps (sys : StarSystem.t) (x : Planet.t) :
  same_shape x (entry_loop (fun _ _ cp => system_scale sys cp) x) /\
  (wiped x -> wiped (entry_loop (fun _ _ cp => system_scale sys cp) x)).
Proof.
  destruct (entry_loop_shape (fun _ _ cp => system_scale sys cp) x)
    as (Hs & _ & Hk); [reflexivity|].
  split; [exact Hs|]. apply Hk. intros j cp. reflexivity.
Qed.

Lemma blend_planet_keeps_wipe (commodity_stack : list Commodity.t)
  (avprice : list CommodityPrice.t) (x : Planet.t) :
  same_shape x (blend_planet commodity_stack avprice x) /\
  (wiped x -> wiped (blend_planet commodity_stack avprice x)).
Proof.
  rewrite blend_planet_entry.
  destruct (entry_loop_shape
              (fun p j cp =>
                 blend_field
                   (Commodity.name
                      (commodity_stack !!! (Planet.commodities p !!! j)))
                   avprice cp) x)
    as (Hs & _ & Hk); [reflexivity|].
  split; [exact Hs|]. apply Hk. intros j cp. apply blend_field_observation.
Qed.

Lemma final_planet_keeps_wipe (commodity_stack : list Commodity.t)
  (avprice : list CommodityPrice.t) (x : Planet.t) :
  same_shape x (final_planet commodity_stack avprice x) /\
  (wiped x -> wiped (final_planet commodity_stack avprice x)).
Proof.
  rewrite final_planet_entry.
  destruct (entry_loop_shape
              (fun p j cp =>
                 final_field
                   (Commodity.name
                      (commodity_stack !!! (Planet.commodities p !!! j)))
                   avprice cp) x)
    as (Hs & _ & Hk); [reflexivity|].
  split; [exact Hs|]. apply Hk. intros j cp. apply final_field_observation.
Qed.

Lemma belongs_planet (systems : list StarSystem.t) (si i : nat) :
  (si < length systems)%nat ->
  (i < StarSystem.nplanets (systems !!! si))%nat ->
  belongs systems (StarSystem.planets (systems !!! si) !!! i).
Proof.
  intros Hsi Hi. exists si, (systems !!! si), i. split.
  - apply list_lookup_lookup_total_lt. exact Hsi.
  - apply list_lookup_lookup_total_lt. exact Hi.
Qed.

Lemma initialise_pass1_reset (w : World.t) :
  reset_state (World.planet_stack w) (World.systems_stack w)
              (World.commodity_stack w) (initialise_pass1 w).
Proof.
  unfold reset_state, initialise_pass1, calcPrice_system. simpl.
  split; [reflexivity|]. split; [reflexivity|]. split; [|split].
  - apply (marks_length (fun _ _ => True) (fun _ _ => True)).
  - apply systems_loop_marks.
    + intros q x Hq. exists x. split; [exact Hq|apply same_shape_refl].
    + intros q x (p & Hp & Hs).
      destruct (calcPrice_planet_wipes (World.commodity_stack w) x)
        as [Hs' Hw'].
      split; [|exact Hw']. exists p. split; [exact Hp|].
      exact (same_shape_trans _ _ _ Hs Hs').
  - intros q Hq.
    apply (for_loop_ind0
             (fun _ st => st !! q = World.planet_stack w !! q));
      [reflexivity|].
    intros k st Hk Hst.
    apply (for_loop_ind0
             (fun _ st' => st' !! q = World.planet_stack w !! q));
      [exact Hst|].
    intros j st' Hj Hst'. rewrite list_lookup_alter_ne; [exact Hst'|].
    intros Heq. apply Hq. rewrite <- Heq. apply belongs_planet; assumption.
Qed.

Lemma economy_modifySystemCommodityPrice_reset (W : list Planet.t)
  (systems0 : list StarSystem.t) (cs0 : list Commodity.t) (w : World.t)
  (si : nat) :
  reset_state W systems0 cs0 w -> (si < length systems0)%nat ->
  reset_state W systems0 cs0 (economy_modifySystemCommodityPrice w si).
Proof.
  intros (Hc & Hs & Hr) Hsi. unfold economy_modifySystemCommodityPrice.
  pose proof (scale_system_alter (World.commodity_stack w)
                (World.systems_stack w !!! si) (World.planet_stack w) [])
    as Hfst.
  destruct (scale_system (World.commodity_stack w)
              (World.systems_stack w !!! si) (World.planet_stack w, []))
    as [planets avprice].
  simpl in Hfst. subst planets.
  split; [exact Hc|]. split; [apply same_planets_insert; exact Hs|].
  simpl. unfold blend_system.
  assert (Hb : forall i,
             (i < StarSystem.nplanets (World.systems_stack w !!! si))%nat ->
             belongs systems0
               (StarSystem.planets (World.systems_stack w !!! si) !!! i)).
  { intros i Hi. unfold StarSystem.nplanets in *.
    rewrite (same_planets_lookup _ _ si Hs) in *.
    apply belongs_planet; assumption. }
  apply alter_loop_reset; [|exact Hb|apply blend_planet_keeps_wipe].
  apply alter_loop_reset; [exact Hr|exact Hb|apply scale_planet_keeps].
Qed.

Lemma economy_calcUpdatedCommodityPrice_reset (W : list Planet.t)
  (systems0 : list StarSystem.t) (cs0 : list Commodity.t) (w : World.t)
  (si : nat) :
  reset_state W systems0 cs0 w -> (si < length systems0)%nat ->
  reset_state W systems0 cs0 (economy_calcUpdatedCommodityPrice w si).
Proof.
  intros (Hc & Hs & Hr) Hsi. unfold economy_calcUpdatedCommodityPrice.
  split; [exact Hc|]. split; [apply same_planets_insert; exact Hs|].
  simpl. unfold final_system.
  apply alter_loop_reset; [exact Hr| |apply final_planet_keeps_wipe].
  intros i Hi. unfold StarSystem.nplanets in *.
  rewrite (same_planets_lookup _ _ si Hs) in *.
  apply belongs_planet; assumption.
Qed.

Lemma initialise_pass2_reset (W : list Planet.t)
  (systems0 : list StarSystem.t) (cs0 : list Commodity.t) (w : World.t) :
  reset_state W systems0 cs0 w -> reset_state W systems0 cs0 (initialise_pass2 w).
Proof.
  intros Hw. unfold initialise_pass2.
  apply (for_loop_ind0 (fun _ st => reset_state W systems0 cs0 st));
    [exact Hw|].
  intros k st Hk Hst. apply economy_modifySystemCommodityPrice_reset;
    [exact Hst|].
  destruct Hw as (_ & Hs & _). rewrite <- (same_planets_length _ _ Hs).
  exact Hk.
Qed.

Lemma initialise_pass3_reset (W : list Planet.t)
  (systems0 : list StarSystem.t) (cs0 : list Commodity.t) (w : World.t) :
  reset_state W systems0 cs0 w -> reset_state W systems0 cs0 (initialise_pass3 w).
Proof.
  intros (Hc & Hs & Hr). unfold initialise_pass3.
  split; [exact Hc|]. split; [|exact Hr]. simpl.
  apply (for_loop_ind0 (fun _ st => same_planets systems0 st)); [exact Hs|].
  intros k st Hk Hst. unfold economy_smoothCommodityPrice.
  apply (for_loop_ind0 (fun _ st' => same_planets systems0 st'));
    [exact Hst|].
  intros j st' Hj Hst'.
  destruct (neighbour_sum st' (st' !!! k)
              (CommodityPrice.name
                 (StarSystem.averagePrice (st' !!! k) !!! j))) as [price n].
  apply same_planets_insert. exact Hst'.
Qed.

Lemma initialise_pass4_reset (W : list Planet.t)
  (systems0 : list StarSystem.t) (cs0 : list Commodity.t) (w : World.t) :
  reset_state W systems0 cs0 w -> reset_state W systems0 cs0 (initialise_pass4 w).
Proof.
  intros Hw. unfold initialise_pass4.
  apply (for_loop_ind0 (fun _ st => reset_state W systems0 cs0 st));
    [exact Hw|].
  intros k st Hk Hst. apply economy_calcUpdatedCommodityPrice_reset;
    [exact Hst|].
  destruct Hw as (_ & Hs & _). rewrite <- (same_planets_length _ _ Hs).
  exact Hk.
Qed.

Lemma initialiser_reset_state (w : World.t) :
  reset_state (World.planet_stack w) (World.systems_stack w)
    (World.commodity_stack w)
    (initialise_pass4 (initialise_pass3 (initialise_pass2 (initialise_pass1 w)))).
Proof.
  apply initialise_pass4_reset, initialise_pass3_reset, initialise_pass2_reset,
    initialise_pass1_reset.
Qed.

(** X29 ([economy_initialiseCommodityPrices]): the initialiser rewrites
    prices only.  The stack keeps its length, a planet that no system
    lists is left as it was, and every planet of a system keeps its name,
    its commodities and the names of its price fields while all its
    observation accumulators (count, sum, sum of squares, update time)
    are zero afterwards; the systems list the same planets, and the
    catalogue is the old one with the modifier lists released. *)
Theorem economy_initialiseCommodityPrices_resets (w : World.t) :
  let w' := economy_initialiseCommodityPrices w in
  World.commodity_stack w'
  = map Commodity.clear_modifiers (World.commodity_stack w) /\
  same_planets (World.systems_stack w) (World.systems_stack w') /\
  length (World.planet_stack w') = length (World.planet_stack w) /\
  (forall q, ~ belongs (World.systems_stack w) q ->
             World.planet_stack w' !! q = World.planet_stack w !! q) /\
  (forall q p, belongs (World.systems_stack w) q ->
               World.planet_stack w !! q = Some p ->
               exists x, World.planet_stack w' !! q = Some x /\
                         same_shape p x /\ wiped x).
Proof.
  destruct (initialiser_reset_state w) as (Hc & Hs & Hlen & Hm & Hout).
  unfold economy_initialiseCommodityPrices. cbv zeta.
  set (w4 := initialise_pass4 _) in *. simpl.
  split; [rewrite Hc; reflexivity|]. split; [exact Hs|].
  split; [exact Hlen|]. split; [exact Hout|].
  intros q p Hq Hp.
  destruct (World.planet_stack w4 !! q) as [x|] eqn:Hx.
  - exists x. split; [reflexivity|].
    destruct (Hm q x Hx) as ((p' & Hp' & Hsh) & Hw).
    rewrite Hp in Hp'. injection Hp' as <-. split; [exact Hsh|].
    apply Hw. exact Hq.
  - apply lookup_ge_None in Hx. apply lookup_lt_Some in Hp. lia.
Qed.

End InitialiserReset.

(** ** Worked scenarios of the further properties *)

Lemma econ_createGMatrix_signs_witness :
  Forall nebula_ok two_systems /\
  cs_get (@admittance ext_plain (world_of_systems two_systems)) 0 1 <= 0.
Proof.
  assert (Hneb : Forall nebula_ok two_systems)
    by (repeat constructor; simpl; lra).
  split; [exact Hneb|].
  apply (proj1 (@econ_createGMatrix_signs ext_plain
                  (world_of_systems two_systems) Hneb)).
  discriminate.
Defined.

Lemma bazaar_belongs : belongs (World.systems_stack world_bazaar) 0.
Proof.
  exists 0%nat, (StarSystem.mk 0%Z "Sol" 0 0 0 0 (-1)%Z [] [0%nat] [] []),
    0%nat. split; reflexivity.
Qed.

Lemma bazaar_price_field :
  price_field world_bazaar food_ptr bazaar (observed 100 210 22100 2).
Proof.
  split; [|split]; [vm_compute; lia|vm_compute; lia|reflexivity].
Qed.

Lemma economy_clearKnown_forgets_witness :
  price_field world_bazaar food_ptr bazaar (observed 100 210 22100 2) /\
  exists p',
    World.planet_stack (economy_clearKnown world_bazaar) !! 0%nat = Some p' /\
    economy_getAveragePlanetPrice (economy_clearKnown world_bazaar) food_ptr p'
    = (0%Z, 0%Z, 0) /\
    @economy_getPriceAtTime ext_plain (economy_clearKnown world_bazaar)
      food_ptr p' 0
    = @economy_getPriceAtTime ext_plain world_bazaar food_ptr bazaar 0.
Proof.
  split; [exact bazaar_price_field|].
  apply (@economy_clearKnown_forgets ext_plain world_bazaar 0%nat bazaar
           food_ptr (observed 100 210 22100 2) 0%Z bazaar_belongs eq_refl
           bazaar_price_field).
Defined.

Lemma economy_getPriceAtTime_band_witness :
  price_field (world_market (steady 100)) food_ptr (market (steady 100))
              (steady 100) /\
  (100 <= @economy_getPriceAtTime ext_plain (world_market (steady 100))
            food_ptr (market (steady 100)) 5 <= 100)%Z.
Proof.
  split; [apply market_price_field|].
  apply (@economy_getPriceAtTime_band ext_plain
           (world_market (steady 100)) food_ptr (market (steady 100))
           (steady 100) 5%Z 100%Z 100%Z (market_price_field (steady 100)));
    simpl; rewrite ?Rabs_R0, ?Rabs_R1; try lra; lia.
Defined.


Lemma observe_all_steady_mean_witness :
  increasing 0 [1; 2]%Z /\
  economy_getAveragePlanetPrice (world_market (steady 100)) food_ptr
    (@observe_all ext_plain (world_market (steady 100)) [1; 2]%Z
       (market (steady 100)))
  = (0%Z, 100%Z, 0).
Proof.
  assert (Hinc : increasing 0 [1; 2]%Z) by (simpl; lia).
  split; [exact Hinc|].
  apply (@observe_all_steady_mean ext_plain (world_market (steady 100))
           [1; 2]%Z (market (steady 100)) food_ptr (steady 100) 100%Z).
  - apply market_price_field.
  - reflexivity.
  - reflexivity.
  - reflexivity.
  - reflexivity.
  - exact Hinc.
  - simpl. lia.
  - intros t _. apply steady_price_100.
  - lia.
  - simpl. lia.
Defined.

Lemma world_bazaar_names :
  NoDup (map Commodity.name (World.commodity_stack world_bazaar)).
Proof.
  change (NoDup ["Food"; "Ore"]%string).
  apply NoDup_cons. split; [|apply NoDup_singleton].
  intros Hin%list_elem_of_singleton. discriminate.
Qed.

Lemma world_traded_saveable : saveable world_traded.
Proof.
  split.
  - intros q q' p p' Hq Hq' _.
    destruct q as [|q]; [|destruct q; discriminate].
    destruct q' as [|q']; [reflexivity|destruct q'; discriminate].
  - constructor; [|constructor]. split; [reflexivity|]. split.
    + change (NoDup ["Food"; "Ore"]%string).
      apply NoDup_cons. split; [|apply NoDup_singleton].
      intros Hin%list_elem_of_singleton. discriminate.
    + simpl. constructor; [|constructor; [|constructor]]; simpl.
      * intros _. split; [lia|]. split; [exists 210%Z|exists 22100%Z];
          reflexivity.
      * lia.
Qed.

Lemma economy_sysLoad_lastPurchase_witness :
  saveable world_traded /\
  Commodity.lastPurchasePrice food_bought = 250%Z /\
  exists w',
    @economy_sysLoad codec world_traded (@saved_document codec world_traded)
    = Some w' /\
    World.commodity_stack w' = [food_bought; ore].
Proof.
  split; [exact world_traded_saveable|]. split; [reflexivity|].
  destruct (@economy_sysLoad_lastPurchase codec world_traded codec_laws
              world_traded_saveable world_bazaar_names)
    as (w' & Hrun & Hc).
  - repeat constructor.
  - exists w'. split; [exact Hrun|]. rewrite Hc. reflexivity.
Defined.

Lemma economy_sysLoad_unknown_names_witness :
  (forall planets,
     map Planet.name planets
     = map Planet.name (World.planet_stack world_bazaar) ->
     @planet_get codec planets "Mars" = None) /\
  @economy_sysLoad codec world_bazaar
    (XmlNode "player" []
       [XmlNode "economy" []
          [XmlNode "system" [("name", "Sol")]
             [XmlNode "planet" [("name", "Mars")]
                [XmlNode "commodity" [] [] ""] ""] ""] ""] "")%string
  = None.
Proof.
  assert (Hmiss : forall planets,
            map Planet.name planets
            = map Planet.name (World.planet_stack world_bazaar) ->
            @planet_get codec planets "Mars" = None).
  { intros planets Hn. destruct planets as [|p [|q pl]]; try discriminate.
    simpl in Hn. injection Hn as Hn. simpl. rewrite Hn. reflexivity. }
  split; [exact Hmiss|].
  apply (proj2 (@economy_sysLoad_unknown_names codec world_bazaar
                  "Mars" "player" [] [] [] [] [] [] "" "" "" "Sol" "" "" ""
                  [] [] [] [] [] [] [] [])).
  exact Hmiss.
Defined.

Lemma crates_near (g : Gatherable.t) :
  In g (Gatherables.gatherable_stack three_crates) ->
  @vect_dist space_plain (@pilot_pos space_plain freighter)
    (Gatherable.pos g)
  < GATHER_DIST.
Proof.
  intros Hg. unfold GATHER_DIST. simpl.
  rewrite <- (sqrt_square 30) by lra.
  apply sqrt_lt_1_alt.
  destruct Hg as [<-|[<-|[<-|[]]]]; simpl; split; nra.
Qed.

Lemma space_plain_laws : @cargo_laws space_plain.
Proof.
  split; [|split].
  - intros p c n. reflexivity.
  - intros p c n Hn. simpl in *. lia.
  - intros p c n. reflexivity.
Qed.

Lemma gatherable_gather_skips_witness :
  @cargo_laws space_plain /\
  (5 * Z.of_nat (length (Gatherables.gatherable_stack three_crates))
   <= @pilot_cargoFree space_plain freighter)%Z /\
  Gatherables.gatherable_stack
    (fst (fst (@gatherable_gather space_plain three_crates freighter
                 [2; 5]%Z)))
  = [crate 1 4].
Proof.
  split; [exact space_plain_laws|]. split; [simpl; lia|].
  apply (@gatherable_gather_skips space_plain three_crates freighter
           [2; 5]%Z space_plain_laws crates_near).
  - repeat constructor; lia.
  - simpl. lia.
  - simpl. lia.
Defined.

Lemma commodity_compareTech_order_witness :
  nul_free (Commodity.name food) /\
  ((commodity_compareTech food ore <= 0)%Z ->
   (commodity_compareTech ore ore <= 0)%Z ->
   (commodity_compareTech food ore <= 0)%Z).
Proof.
  assert (Hf : nul_free (Commodity.name food))
    by (simpl; repeat split; discriminate).
  assert (Ho : nul_free (Commodity.name ore))
    by (simpl; repeat split; discriminate).
  split; [exact Hf|].
  apply (proj2 (commodity_compareTech_order food ore ore Hf Ho Ho)).
Defined.

Lemma commodity_load_registers_witness :
  @ndata_read data_plain (@COMMODITY_DATA_PATH data_plain)
  = Some "<Commodities>"%string /\
  exists log w',
    @commodity_load data_plain (world_of_systems []) = (0%Z, log, w') /\
    length (World.commodity_stack w') = 1%nat /\
    log = flat_map (@element_warnings data_plain) (xml_children commodity_xml).
Proof.
  split; [reflexivity|].
  destruct (@commodity_load_registers data_plain (world_of_systems [])
              "<Commodities>"%string commodity_xml)
    as (log & w' & Hrun & Hs & Hl & _).
  - reflexivity.
  - reflexivity.
  - reflexivity.
  - discriminate.
  - constructor.
  - exists log, w'. split; [exact Hrun|]. split.
    + rewrite Hs. reflexivity.
    + exact Hl.
Defined.
